(* ===== verification/_CoqProject ===== *)
-Q . S2P
Prelude.v
CLib.v
CfgPath.v
CfgTree.v
CfgFile.v
Heap.v
CfgHeap.v
CfgHeapSpec.v
CfgSession.v
State.v
Yaml.v
Verify.v
UciDb.v
UciBuild.v
UciExport.v
Netlink.v
NetlinkSpec.v
Run.v
Watch.v
Iproute.v
Reach.v
Converge.v
NetlinkServe.v
SimKernel.v
Resources.v
Main.v
