(* ===== verification/Prelude.v ===== *)
(** * netrec: a verification library

    netrec compares a desired network configuration with the state of the
    Linux kernel, prints the differences with the commands that remove them
    and, with --apply, runs those commands.  It runs once or as a daemon.

    ** Parts of the program and their files

    <<
    cfg.c     configuration tree: paths       CfgPath.v
              tree, get, set, delete          CfgTree.v
              reading and writing files       CfgFile.v
              the same at the level of        Heap.v, CfgHeap.v,
              pointers and allocations        CfgHeapSpec.v, CfgSession.v
    state.c   desired and real state,         State.v
    state.h   lookups, resolv.conf
    yaml.c    tree -> desired states          Yaml.v
    verify.c  desired state against snapshot  Verify.v
    uci.c     database of uci show text       UciDb.v
              databases -> desired states     UciBuild.v
              desired states -> text, loader  UciExport.v
    netlink.c snapshot of the kernel          Netlink.v, NetlinkSpec.v
    run.c     one reconciliation              Run.v
    watch.c   the daemon                      Watch.v
    main.c    command line                    Main.v
    run.c, watch.c and verify.c together on   Iproute.v, Reach.v,
    a machine whose commands work             Converge.v
    such a machine, executable                NetlinkServe.v, SimKernel.v
    what a run holds while it runs            Resources.v
    >>

    main.c parses the arguments and calls [netrec_run_once] (run.c) or
    [netrec_watch] (watch.c), which calls [netrec_run_once] after every burst
    of notifications.  A run loads the desired states from a configuration
    file (yaml.c over cfg.c) or from UCI (uci.c, which writes a temporary
    configuration file and gives it to yaml.c), takes a lock when it applies,
    asks the kernel for links, addresses and routes (netlink.c) and
    resolv.conf for nameservers (state.c), and verifies every desired state
    (verify.c); after applying it takes a second snapshot and verifies again.

    This file holds what all others use: error codes and results, record
    update, the state-and-error monad, tactics and lemmas on lists.  CLib.v
    holds the C library: strtol, strtoul, inet_pton, snprintf, fgets, sscanf
    and character classes, for an LP64 little-endian host.

    ** How the code is represented

    Definitions have the names of the functions they translate.  A loop is a
    Fixpoint named after its function (parse_loop, subst_loop, ...).  A
    function that returns 0 or a negated errno returns a [result]; one whose
    int is inspected returns a Z.  A char array is the string it holds, with
    the array's size where the code passes it, so truncation and E2BIG/ENOSPC
    are visible; a fixed array with a counter is a list; integers are Z with
    the casts of the source written out.  malloc and stdio calls take their
    outcome from an [oracle], a list of booleans that is all successes when
    it runs out, so the failure branches are part of every definition.

    The outside is a parameter:
    - [Libc]: whether strtol sets errno when it converts nothing (glibc: no,
      musl: yes), which decides one branch of [parse_addr_prefix];
    - [Sys]: the world and what a child process does to it;
    - [Host]: what a run observes of the world: files, programs, the netlink
      conversation, resolv.conf, the lock;
    - [Uapi]: the sizes of the kernel headers' attribute tables;
    - [conv]: the bytes the netlink socket delivers, in any chunks, with any
      error; NetlinkSpec.v says which conversations a kernel holds;
    - [Pipe] and [watch_env]: the capacity of the wake pipe and how the calls
      into the kernel and into nlmon go; notifications, signals, threads that
      stop the daemon and changes of the machine are steps ([env_step]) that
      interleave with the steps of the loop ([loop_step]).

    - [Iproute]: a host whose [ip] does what its documentation says.  The laws
      state, for each command the program builds, when it succeeds, what is
      true of the tables afterwards and what stays true: a VLAN comes up only
      while its link is up, a remote is a unicast address, a gateway has to be
      directly reachable, and so on.  Success is only promised where these
      preconditions hold, on machines of an ordinary kind that the class
      describes; the laws are used in Reach.v and Converge.v only.  SimKernel.v
      has an instance: a kernel as three tables with an [ip] that acts on them,
      served over netlink by NetlinkServe.v.

    netlink.c reads a buffer through pointers.  There a pointer is the list of
    the received bytes from it on, a read beyond them is a [Fault], a receive
    from a silent socket is [Blocked].  That only one kind of fault can happen,
    and when, is a theorem: a name is read past the received bytes when the
    kernel sends it without a NUL.

    cfg.c is modelled twice.  In CfgTree.v and CfgFile.v a node holds the list
    of its children, which is what the other files use.  In CfgHeap.v a
    [struct cfg_node] is a block of a heap with its child, next and tail
    pointers, strings are blocks of their own, and malloc and free are explicit
    (Heap.v); an access to a block that is not allocated, or that is allocated
    as something else, is a fault.  CfgHeapSpec.v has the representation
    predicate ([tree]) of a separation logic without weakening, so that
    ownership counts every block, and the specification of every function
    against its counterpart on trees.

    The functions that open, allocate or fork are written twice as well.  In
    the files of their components they are functions of what the calls return.
    In Resources.v ([r_cfg_load], [r_run_capture], [r_nl_load_state],
    [r_netrec_run_once], ...) they also pass along the set of what the process
    holds, with an [acquire] or [release] where the source opens, allocates,
    closes, frees or unlinks; a release of something that is not held is a
    fault.

    ** What the theorems show

    - Configuration: [parse_path] accepts exactly the path grammar
      (parse_path_exact); the tree stays well-formed
      whatever allocations fail, a set value is read back, paths
      that part from it at a key do not change, a set that fails with enough
      memory changes nothing readable, a deletion takes out one child
      (CfgTree); every loaded tree has no empty container and no NULL value
      (cfg_load_canon), and a tree like that whose paths and lines fit the
      buffers is written and read back unchanged (cfg_dump_load).  Any
      session of calls on the pointer structure touches only allocated blocks,
      answers what the trees answer, and leaves no block behind after
      [cfg_free] (cfg_session_refines).
    - Loader: accepted configurations give states within all array bounds and
      with the references a scenario needs (yaml_load_desired_set_ok).
    - Verifier: [verify_state] returns 0 exactly when the snapshot satisfies a
      declarative specification of the code's checks (verify_state_zero), which
      ask less of the uplink of a tunnel than the documentation does
      (wg_uplink_outside); --apply does exactly what
      a dry run prints (verify_state_apply_plan);
      [subst_iface] and [cmd_split] do what they are for or fail exactly when
      the result does not fit.
    - UCI: parsing and lookup, file and pipe agree, reading is complete, the
      netmask test is exact, and the detour of the import through a file is
      the identity (cfg_set_load, uci_load_exact) unless two states get one
      id, when it fails or loses states (uci_load_id_clash).
    - State: the nameservers of resolv.conf are read exactly when its lines
      fit (rs_load_resolv_conf_exact).
    - Netlink: for arbitrary bytes the parser ends, keeps its bounds and stays
      in the buffer except for names without NUL (nl_load_state_safe); for a kernel's conversation the
      snapshot is the kernel's tables (nl_load_state_exact).
    - Run: status 0 means that the kernel's own tables satisfy every desired
      state (run_zero_kernel, which composes loader, snapshot and verifier);
      commands run only under the lock and the lock is released
      (run_lock_discipline); dry runs are exact (run_dry_exact); a satisfied
      machine is left alone (run_apply_idle); the status of a run that applies
      depends on the failures of the last state and on the second
      verification only (run_apply_status); every path gives back the descriptors, streams,
      buffers, trees and temporary files it took, and leaves a child it
      reads from unreaped only where the wait for it fails (run_resources).
    - Convergence: on such a machine one run with --apply of a feasible
      configuration returns 0 and leaves a kernel that satisfies it and that a
      further run does not change (run_converges), and the daemon completes such
      a run after a notification (watch_converges).  [feasible] says what is
      presupposed: the physical interfaces exist, a bridge that has to be created
      is absent, a VLAN or VXLAN is absent, as desired or replaceable, gateways
      lie in a network that is directly reachable by then and that no route of
      the configuration takes over, the names of interfaces the commands mention
      cannot be taken for keywords of [ip], no
      two states ask for contradictory masters or routes, resolv.conf already
      has the nameservers, a DHCP bridge already has an address (the program
      cannot set nameservers, and a DHCP client's work is not [ip]'s), and for
      a wireguard scenario the tunnel exists and the device of the peer route
      is up.  [replaceable] covers the interfaces the program deletes and
      creates again because their kind, tag, VNI, remote or link is wrong: no
      other interface is built on them, they have no address, and no other goal
      of the set that is checked before, and no route the snapshot has, is
      about them (what they lose is put back by a later run only, because the
      checks work from the snapshot).  guest_recreated computes such a run;
      tunnel_three_runs shows a tunnel that needs three runs.
    - Daemon: no notification is lost, each is followed by a run when they
      cease, a request to stop ends the loop, runs are debounced, the loop
      cleans up on every path and puts back the signal handlers it found
      (Watch.v).
    - Command line: every setting can be spelled, and only valid runs are
      started (Main.v).

    The samples at the end of the files are concrete machines, conversations
    and executions that the theorems apply to.

    ** Recursion and fuel

    Loops over a string or buffer that may skip several characters per round
    have fuel: the length of the text or one more (subst_loop, split_loop,
    ip_list_loop, device_ports_loop, has_token_loop, db_buf_loop,
    file_lines_go) or of the buffer (parse_rtattr_loop, msg_loop), and every
    round consumes at least one byte; mask_check and mask_count go over the 32
    bits of an address; dec_go over the at most 20 digits of a 64-bit number;
    read_loop over the bytes of a pipe and the interruptions of its schedule;
    drain_loop over the bytes of the wake pipe.  In netlink.c running out is an
    outcome of its own ([OutOfFuel]), excluded by nl_load_state_safe; elsewhere
    either the exactness theorem of the function or a lemma that more fuel
    changes nothing shows that it is enough (subst_iface_exact,
    cmd_split_exact, read_all_fd_complete, mask_to_prefix_exact,
    file_lines_go_fuel, db_buf_fuel, has_token_fuel, ip_list_fuel,
    device_ports_fuel, drain_loop_empty).
    [with_stacked] of the simulated kernel goes over its links once per link,
    so it reaches everything built on a deleted one, and [below] goes down at
    most as many links as there are.
    The loops of CfgHeap.v that follow links are bounded by the number of
    allocated blocks; running out is a fault, excluded by cfg_session_refines.
    [recv_dump] is recursive on the datagrams of the conversation.  The loop of
    the daemon has no end, so it is a relation with liveness and termination
    theorems.

    ** Not modelled

    - deps/libyaml: a vendored third-party library.  No file of the program
      includes its header or calls it; the configuration format is cfg.c's.
    - nlmon and syslog2: not in the repository.  nlmon appears in Watch.v as
      the outcome of its calls and the callbacks it makes; log messages
      (log.h) influence nothing.
    - The text of the usage message and the set-up of syslog in main.c,
      tests.

    ** Open

    Convergence over several runs in general: what a failed command leaves to
    the next run, as for a wireguard tunnel that has to be created. *)
From stdpp Require Export prelude strings list.
From Stdlib Require Export Ascii ZArith Lia.

(** ** Error codes and results *)

(** The errno values the sources return negated; [E_OS n] is a value an
    operating-system call left in [errno]. *)
Inductive errno :=
| EIO | ENOMEM | E2BIG | EAGAIN | EINVAL | EISDIR | ENOTDIR | ENOENT
| ENOSPC | EOPNOTSUPP
| E_OS (n : positive).

(** The Linux number of an error. *)
Definition errno_num (e : errno) : positive :=
  match e with
  | ENOENT => 2 | EIO => 5 | E2BIG => 7 | EAGAIN => 11 | ENOMEM => 12
  | ENOTDIR => 20 | EISDIR => 21 | EINVAL => 22 | ENOSPC => 28
  | EOPNOTSUPP => 95
  | E_OS n => n
  end.

(** A C function that returns 0 and fills its out parameters is an [Ok]; one
    that returns [-e] is an [Err e]. *)
Inductive result (A : Type) :=
| Ok (a : A)
| Err (e : errno).

Arguments Ok {A} a.
Arguments Err {A} e.

(** The [int] a caller sees. *)
Definition rc_of {A} (r : result A) : Z :=
  match r with Ok _ => 0%Z | Err e => Z.neg (errno_num e) end.

Definition is_ok {A} (r : result A) : bool :=
  match r with Ok _ => true | Err _ => false end.

#[export] Instance result_ret : MRet result := fun A a => Ok a.
#[export] Instance result_bind : MBind result :=
  fun A B f r => match r with Ok a => f a | Err e => Err e end.
#[export] Instance result_fmap : FMap result :=
  fun A B f r => match r with Ok a => Ok (f a) | Err e => Err e end.

(** [if (!b) return -e;] *)
Definition ensure (b : bool) (e : errno) : result unit :=
  if b then Ok tt else Err e.

(** ** State with errors *)

(** A computation that threads a state [S] and may fail; the state is kept on
    failure, as the C code keeps what it wrote before an early return. *)
Definition ST (S A : Type) : Type := S -> result A * S.

#[export] Instance ST_ret {S} : MRet (ST S) := fun A a s => (Ok a, s).
#[export] Instance ST_bind {S} : MBind (ST S) :=
  fun A B f m s =>
    match m s with
    | (Ok a, s') => f a s'
    | (Err e, s') => (Err e, s')
    end.

Definition throw {S A} (e : errno) : ST S A := fun s => (Err e, s).
Definition get {S} : ST S S := fun s => (Ok s, s).
Definition put {S} (s : S) : ST S unit := fun _ => (Ok tt, s).
Definition lift {S A} (r : result A) : ST S A := fun s => (r, s).

(** Outcomes of the calls into the C library that may fail for reasons outside
    the program ([malloc], [fputc], ...), in the order they are made; the
    exhausted list means that every further call succeeds. *)
Abbreviation oracle := (list bool).

Definition pop (o : oracle) : bool * oracle :=
  match o with [] => (true, []) | b :: o' => (b, o') end.

(** ** Record update *)

Class Eta (R : Type) := eta : R -> R.
Class Setter {R T : Type} (p : R -> T) := set_field : (T -> T) -> R -> R.
Arguments set_field {R T} p {_} / _ _.

(** The setter of a projection, from the record's eta expansion. *)
Ltac solve_setter :=
  match goal with
  | |- @Setter ?R _ ?p =>
    let e := constr:(_ : Eta R) in
    let h := eval hnf in e in
    match eval pattern p in h with
    | ?g _ => exact (fun f r => g (fun x => f (p x)) r)
    end
  end.

#[export] Hint Extern 1 (Setter _) => solve_setter : typeclass_instances.

Declare Scope netrec_scope.
Delimit Scope netrec_scope with netrec.
Notation "r <| p := v |>" := (set_field p (fun _ => v) r)
  (at level 1, p at level 9, v at level 200, left associativity,
   format "r <| p  :=  v |>") : netrec_scope.
Notation "r <| p ::= f |>" := (set_field p f r)
  (at level 1, p at level 9, f at level 200, left associativity,
   format "r <| p  ::=  f |>") : netrec_scope.
Open Scope netrec_scope.

(** ** C strings *)

(** The bytes before the terminating NUL. *)
Abbreviation cstr := (list ascii).

Definition lit (s : string) : cstr := String.list_ascii_of_string s.
Notation "# s" := (lit s%string) (at level 8, s at level 0, format "# s")
  : netrec_scope.
Arguments lit : simpl never.

(** [!strcmp(a, b)] *)
Definition streq (a b : cstr) : bool := bool_decide (a = b).

Abbreviation NUL := ("000"%char).
Abbreviation TAB := ("009"%char).
Abbreviation LF := ("010"%char).
Abbreviation CR := ("013"%char).
Abbreviation DQUOTE := ("034"%char).
Abbreviation SQUOTE := ("039"%char).
Abbreviation BSLASH := ("092"%char).

(** A string without NUL: what a C string can hold. *)
Definition cstring (s : cstr) : Prop := Forall (fun c => c <> NUL) s.

(** ** Lists as arrays *)

Fixpoint find_idx {A} (p : A -> bool) (l : list A) : option (nat * A) :=
  match l with
  | [] => None
  | x :: l' =>
    if p x then Some (0, x)
    else match find_idx p l' with
         | Some (i, y) => Some (S i, y)
         | None => None
         end
  end.

Fixpoint take_while {A} (p : A -> bool) (l : list A) : list A :=
  match l with
  | [] => []
  | x :: l' => if p x then x :: take_while p l' else []
  end.

Fixpoint drop_while {A} (p : A -> bool) (l : list A) : list A :=
  match l with
  | [] => []
  | x :: l' => if p x then drop_while p l' else l
  end.

(** ** Automation *)

Create HintDb netrec discriminated.

(** Split a hypothesis that a chain of [Ok] binds succeeded. *)
Ltac inv_ok :=
  repeat match goal with
  | H : Ok _ = Ok _ |- _ => injection H as H; subst
  | H : Err _ = Ok _ |- _ => discriminate H
  | H : Ok _ = Err _ |- _ => discriminate H
  | H : mbind _ ?r = Ok _ |- _ =>
    let E := fresh "E" in
    destruct r eqn:E; cbn [mbind result_bind] in H; [|discriminate H]
  | H : fmap _ ?r = Ok _ |- _ =>
    let E := fresh "E" in
    destruct r eqn:E; cbn [fmap result_fmap] in H; [|discriminate H]
  | H : ensure ?b _ = Ok _ |- _ =>
    let E := fresh "E" in
    unfold ensure in H; destruct b eqn:E; [clear H|discriminate H]
  | H : (if ?b then Err _ else _) = Ok _ |- _ =>
    let E := fresh "E" in destruct b eqn:E; [discriminate H|]
  | H : (if ?b then _ else Err _) = Ok _ |- _ =>
    let E := fresh "E" in destruct b eqn:E; [|discriminate H]
  | H : match ?x with Some _ => _ | None => Err _ end = Ok _ |- _ =>
    let E := fresh "E" in destruct x eqn:E; [|discriminate H]
  end.

(** Turn boolean tests of the code into propositions. *)
Ltac breflect :=
  repeat match goal with
  | H : streq _ _ = true |- _ => apply bool_decide_eq_true in H
  | H : streq _ _ = false |- _ => apply bool_decide_eq_false in H
  | H : bool_decide _ = true |- _ => apply bool_decide_eq_true in H
  | H : bool_decide _ = false |- _ => apply bool_decide_eq_false in H
  | H : Ascii.eqb _ _ = true |- _ => apply Ascii.eqb_eq in H
  | H : Ascii.eqb _ _ = false |- _ => apply Ascii.eqb_neq in H
  | H : (_ && _) = true |- _ => apply andb_true_iff in H as [? ?]
  | H : (_ || _) = false |- _ => apply orb_false_iff in H as [? ?]
  | H : negb _ = true |- _ => apply negb_true_iff in H
  | H : negb _ = false |- _ => apply negb_false_iff in H
  end.

(** Prove a closed decidable proposition by evaluating its decision. *)
Ltac compute_decide :=
  match goal with |- ?P => apply (bool_decide_unpack P) end; vm_compute; exact I.

(** ** Shared lemmas *)

Lemma streq_true a b : streq a b = true <-> a = b.
Proof. apply bool_decide_eq_true. Qed.

Lemma streq_false a b : streq a b = false <-> a <> b.
Proof. apply bool_decide_eq_false. Qed.

Lemma streq_refl a : streq a a = true.
Proof. by apply streq_true. Qed.

Lemma streq_comm a b : streq a b = streq b a.
Proof. unfold streq. by apply bool_decide_ext. Qed.

Lemma rc_of_ok {A} (r : result A) : rc_of r = 0%Z <-> is_ok r = true.
Proof. destruct r; cbn; split; done. Qed.

Lemma rc_of_nonpos {A} (r : result A) : (rc_of r <= 0)%Z.
Proof. destruct r; cbn; lia. Qed.

Section find_idx_lemmas.
Context {A : Type} (p : A -> bool).
Implicit Types l : list A.

Lemma find_idx_Some l i x :
  find_idx p l = Some (i, x) ->
  l !! i = Some x /\ p x = true /\
  forall j y, j < i -> l !! j = Some y -> p y = false.
Proof.
  revert i. induction l as [|a l IH]; intros i H; cbn in H; [done|].
  destruct (p a) eqn:Ha.
  { injection H as <- <-. split_and!; [done|done|lia]. }
  destruct (find_idx p l) as [[k y]|]; [|done].
  injection H as <- <-. destruct (IH k eq_refl) as (H1 & H2 & H3).
  split_and!; [done|done|].
  intros [|j] z Hj Hz; cbn in Hz; [congruence|]. apply (H3 j); [lia|done].
Qed.

Lemma find_idx_None l :
  find_idx p l = None <-> Forall (fun x => p x = false) l.
Proof.
  induction l as [|a l IH]; cbn; [by split|].
  rewrite Forall_cons. destruct (p a) eqn:Ha.
  { split; [done|]. intros [? _]. done. }
  destruct (find_idx p l) as [[? ?]|]; split; try done.
  - intros [_ H]. apply IH in H. done.
  - intros _. split; [done|]. by apply IH.
Qed.

Lemma find_idx_app_l l k i x :
  find_idx p l = Some (i, x) -> find_idx p (l ++ k) = Some (i, x).
Proof.
  revert i. induction l as [|a l IH]; intros i H; cbn in *; [done|].
  destruct (p a); [done|].
  destruct (find_idx p l) as [[j y]|]; [|done].
  injection H as <- <-. by rewrite (IH j eq_refl).
Qed.

Lemma find_idx_app_r l k :
  find_idx p l = None ->
  find_idx p (l ++ k) =
    match find_idx p k with
    | Some (i, x) => Some (length l + i, x)
    | None => None
    end.
Proof.
  induction l as [|a l IH]; intros H; cbn in *.
  { by destruct (find_idx p k) as [[? ?]|]. }
  destruct (p a); [done|].
  destruct (find_idx p l) as [[? ?]|]; [done|].
  rewrite IH by done. by destruct (find_idx p k) as [[? ?]|].
Qed.

Lemma find_idx_insert l i x y :
  find_idx p l = Some (i, x) -> p y = true ->
  find_idx p (<[i := y]> l) = Some (i, y).
Proof.
  revert i. induction l as [|a l IH]; intros i H Hy; cbn in *; [done|].
  destruct (p a) eqn:Ha.
  { injection H as <- <-. cbn. by rewrite Hy. }
  destruct (find_idx p l) as [[j z]|]; [|done].
  injection H as <- <-. change (<[S j:=y]> (a :: l)) with (a :: <[j:=y]> l).
  cbn [find_idx]. by rewrite Ha, (IH j eq_refl Hy).
Qed.

Lemma find_idx_find l : find p l = snd <$> find_idx p l.
Proof.
  induction l as [|a l IH]; cbn; [done|].
  destruct (p a); [done|]. rewrite IH.
  by destruct (find_idx p l) as [[? ?]|].
Qed.

End find_idx_lemmas.

Section while_lemmas.
Context {A : Type} (p : A -> bool).
Implicit Types l : list A.

Lemma take_drop_while l : take_while p l ++ drop_while p l = l.
Proof.
  induction l as [|x l IH]; cbn; [done|].
  destruct (p x); cbn; [by rewrite IH|done].
Qed.

Lemma take_while_Forall l : Forall (fun x => p x = true) (take_while p l).
Proof.
  induction l as [|x l IH]; cbn; [done|].
  destruct (p x) eqn:E; [|done]. by constructor.
Qed.

Lemma drop_while_head l x k : drop_while p l = x :: k -> p x = false.
Proof.
  induction l as [|y l IH]; cbn; [done|].
  destruct (p y) eqn:E; [done|]. intros [= -> ->]. done.
Qed.

Lemma take_while_app l k :
  Forall (fun x => p x = true) l -> take_while p (l ++ k) = l ++ take_while p k.
Proof. induction 1 as [|x l Hx _ IH]; cbn; [done|]. by rewrite Hx, IH. Qed.

Lemma drop_while_app l k :
  Forall (fun x => p x = true) l -> drop_while p (l ++ k) = drop_while p k.
Proof. induction 1 as [|x l Hx _ IH]; cbn; [done|]. by rewrite Hx, IH. Qed.

Lemma take_while_all l : Forall (fun x => p x = true) l -> take_while p l = l.
Proof.
  intros H. rewrite <- (app_nil_r l) at 1.
  rewrite take_while_app by done. cbn. apply app_nil_r.
Qed.

Lemma drop_while_all l : Forall (fun x => p x = true) l -> drop_while p l = [].
Proof.
  intros H. rewrite <- (app_nil_r l). by rewrite drop_while_app.
Qed.

Lemma drop_while_length l : length (drop_while p l) <= length l.
Proof.
  induction l as [|x l IH]; cbn; [lia|]. destruct (p x); cbn; lia.
Qed.

End while_lemmas.

Lemma length_insert_snoc {A} (l : list A) x y :
  <[length l := y]> (l ++ [x]) = l ++ [y].
Proof.
  rewrite insert_app_r_alt by lia. by rewrite Nat.sub_diag.
Qed.

#[export] Hint Resolve streq_refl take_while_Forall : netrec.

Lemma find_idx_insert_ne {A} (p : A -> bool) (l : list A) i x y :
  l !! i = Some x -> p x = false -> p y = false ->
  find_idx p (<[i := y]> l) = find_idx p l.
Proof.
  revert i. induction l as [|a l IH]; intros i Hi Hx Hy; [done|].
  destruct i as [|i]; cbn in Hi.
  - injection Hi as ->. cbn. by rewrite Hx, Hy.
  - change (<[S i:=y]> (a :: l)) with (a :: <[i:=y]> l). cbn [find_idx].
    by rewrite (IH i Hi Hx Hy).
Qed.

Lemma find_idx_delete_ne {A} (p : A -> bool) (l : list A) i x :
  l !! i = Some x -> p x = false ->
  snd <$> find_idx p (delete i l) = snd <$> find_idx p l.
Proof.
  revert i. induction l as [|a l IH]; intros i Hi Hx; [done|].
  destruct i as [|i]; cbn in Hi.
  - injection Hi as ->. cbn. rewrite Hx. by destruct (find_idx p l) as [[? ?]|].
  - change (delete (S i) (a :: l)) with (a :: delete i l). cbn [find_idx].
    destruct (p a); [done|]. specialize (IH i Hi Hx).
    by destruct (find_idx p (delete i l)) as [[? ?]|],
      (find_idx p l) as [[? ?]|].
Qed.

(** Replacing an element by one the predicate does not tell apart. *)
Lemma find_idx_insert_same {A} (p : A -> bool) (l : list A) i x y :
  l !! i = Some x -> p y = p x ->
  find_idx p (<[i := y]> l) =
    match find_idx p l with
    | Some (j, z) => Some (j, if decide (j = i) then y else z)
    | None => None
    end.
Proof.
  revert i. induction l as [|a l IH]; intros i Hi Hp; [done|].
  destruct i as [|i]; cbn in Hi.
  - injection Hi as ->. cbn. rewrite Hp. destruct (p x); [done|].
    by destruct (find_idx p l) as [[? ?]|].
  - change (<[S i:=y]> (a :: l)) with (a :: <[i:=y]> l). cbn [find_idx].
    destruct (p a); [done|]. rewrite (IH i Hi Hp).
    destruct (find_idx p l) as [[j z]|]; [|done].
    destruct (decide (j = i)), (decide (S j = S i)); (done || lia).
Qed.
