(* ===== verification/CLib.v ===== *)
(** What the sources use of the C library: character classes of the C locale,
    [strtol]/[strtoul], [inet_pton], [snprintf], [fgets] and [sscanf].  The
    definitions follow ISO C and POSIX for an LP64 little-endian host. *)
From S2P Require Import Prelude.

(** ** Characters *)

Definition byte_val (c : ascii) : Z := Z.of_N (N_of_ascii c).

Definition in_range (lo hi c : ascii) : bool :=
  (byte_val lo <=? byte_val c)%Z && (byte_val c <=? byte_val hi)%Z.

Definition isdigit (c : ascii) : bool := in_range "0" "9" c.
Definition isupper (c : ascii) : bool := in_range "A" "Z" c.
Definition islower (c : ascii) : bool := in_range "a" "z" c.
Definition isalpha (c : ascii) : bool := isupper c || islower c.
Definition isalnum (c : ascii) : bool := isalpha c || isdigit c.

(** Space, \t, \n, \v, \f, \r. *)
Definition isspace (c : ascii) : bool :=
  Ascii.eqb c " " || in_range "009" "013" c.

(** ** Searching *)

(** [strchr]: the text before the first [c] and the text after it. *)
Fixpoint strchr (c : ascii) (s : cstr) : option (cstr * cstr) :=
  match s with
  | [] => None
  | x :: s' =>
    if Ascii.eqb x c then Some ([], s')
    else match strchr c s' with
         | Some (a, b) => Some (x :: a, b)
         | None => None
         end
  end.

(** [!strncmp(s, pre, strlen(pre))]: the rest of [s] after [pre]. *)
Fixpoint strip_prefix (pre s : cstr) : option cstr :=
  match pre, s with
  | [], _ => Some s
  | p :: pre', c :: s' => if Ascii.eqb p c then strip_prefix pre' s' else None
  | _ :: _, [] => None
  end.

(** The C string at the start of a byte buffer. *)
Definition c_string (buf : list ascii) : cstr :=
  take_while (fun c => negb (Ascii.eqb c NUL)) buf.

(** ** Numbers *)

Definition UINT32_MAX : Z := 4294967295.
Definition INT_MAX : Z := 2147483647.
Definition INT_MIN : Z := -2147483648.
Definition LONG_MAX : Z := 9223372036854775807.
Definition LONG_MIN : Z := -9223372036854775808.
Definition ULONG_MAX : Z := 18446744073709551615.

(** The value of a digit in bases up to 16. *)
Definition digit_val (c : ascii) : option Z :=
  if isdigit c then Some (byte_val c - 48)%Z
  else if in_range "a" "f" c then Some (byte_val c - 87)%Z
  else if in_range "A" "F" c then Some (byte_val c - 55)%Z
  else None.

Definition is_base_digit (base : Z) (c : ascii) : bool :=
  match digit_val c with Some d => (d <? base)%Z | None => false end.

Definition digits_val (base : Z) (ds : cstr) : Z :=
  fold_left (fun v c => v * base + default 0 (digit_val c))%Z ds 0%Z.

(** What [strtol] and [strtoul] leave: the value, the text at [end], whether
    any conversion was made ([end != nptr]) and whether errno is ERANGE. *)
Record strto := Strto {
  sto_val : Z;
  sto_rest : cstr;
  sto_conv : bool;
  sto_range : bool
}.

(** Optional sign: negative?, rest. *)
Definition scan_sign (s : cstr) : bool * cstr :=
  match s with
  | c :: s' =>
    if Ascii.eqb c "-" then (true, s')
    else if Ascii.eqb c "+" then (false, s') else (false, s)
  | [] => (false, s)
  end.

(** [strtol(s, &end, 10)] *)
Definition strtol10 (s : cstr) : strto :=
  let '(neg, body) := scan_sign (drop_while isspace s) in
  let ds := take_while (is_base_digit 10) body in
  match ds with
  | [] => Strto 0 s false false
  | _ =>
    let v := digits_val 10 ds in
    let v := if neg then (- v)%Z else v in
    let rest := drop_while (is_base_digit 10) body in
    if (v >? LONG_MAX)%Z then Strto LONG_MAX rest true true
    else if (v <? LONG_MIN)%Z then Strto LONG_MIN rest true true
    else Strto v rest true false
  end.

(** The base [strtoul(s, &end, 0)] picks and the digits it reads. *)
Definition scan_base (body : cstr) : Z * cstr :=
  match body with
  | z :: x :: d :: s' =>
    if Ascii.eqb z "0" && (Ascii.eqb x "x" || Ascii.eqb x "X")
       && is_base_digit 16 d
    then (16%Z, d :: s')
    else if Ascii.eqb z "0" then (8%Z, body) else (10%Z, body)
  | z :: _ => if Ascii.eqb z "0" then (8%Z, body) else (10%Z, body)
  | [] => (10%Z, body)
  end.

(** [strtoul(s, &end, 0)] *)
Definition strtoul0 (s : cstr) : strto :=
  let '(neg, body) := scan_sign (drop_while isspace s) in
  let '(base, body) := scan_base body in
  let ds := take_while (is_base_digit base) body in
  match ds with
  | [] => Strto 0 s false false
  | _ =>
    let v := digits_val base ds in
    let rest := drop_while (is_base_digit base) body in
    if (v >? ULONG_MAX)%Z then Strto ULONG_MAX rest true true
    else Strto (if neg then (- v) mod (ULONG_MAX + 1) else v)%Z rest true false
  end.

(** POSIX lets [strtol] set errno to EINVAL when it converts nothing (musl
    does) or leave it at 0 (glibc does). *)
Class Libc := { noconv_sets_errno : bool }.

Definition strto_errno `{Libc} (r : strto) : bool :=
  sto_range r || (negb (sto_conv r) && noconv_sets_errno).

Definition digit_char (d : Z) : ascii := ascii_of_N (Z.to_N (d + 48)).

Fixpoint dec_go (fuel : nat) (n : Z) (acc : cstr) : cstr :=
  match fuel with
  | O => acc
  | S f =>
    let acc' := digit_char (n mod 10) :: acc in
    if (n <? 10)%Z then acc' else dec_go f (n / 10) acc'
  end.

(** [%u]; 20 digits hold every 64-bit value. *)
Definition fmt_u (n : Z) : cstr := dec_go 20 n [].

(** [%d] *)
Definition fmt_d (n : Z) : cstr :=
  if (n <? 0)%Z then "-"%char :: fmt_u (- n) else fmt_u n.

(** [snprintf(dst, sz, "%s", s)] with [sz > 0]: what [dst] holds. *)
Definition snprintf (sz : nat) (s : cstr) : cstr := take (sz - 1) s.

(** [snprintf(dst, sz, "%s", s) >= (int)sz]: the text did not fit. *)
Definition snprintf_trunc (sz : nat) (s : cstr) : bool := sz <=? length s.

(** ** IPv4 addresses *)

(** The [uint32_t] a little-endian host reads from four bytes in memory. *)
Definition le32 (b0 b1 b2 b3 : Z) : Z :=
  (b0 + 256 * (b1 + 256 * (b2 + 256 * b3)))%Z.

(** Byte [i] of a [uint32_t]. *)
Definition byte_of (i : Z) (v : Z) : Z := Z.land (Z.shiftr v (8 * i)) 255.

(** [ntohl] on a little-endian host. *)
Definition ntohl (v : Z) : Z :=
  le32 (byte_of 3 v) (byte_of 2 v) (byte_of 1 v) (byte_of 0 v).

(** One decimal octet: at most three digits, no leading zero, at most 255. *)
Definition pton_octet (s : cstr) : option (Z * cstr) :=
  let ds := take_while isdigit (take 3 s) in
  let v := digits_val 10 ds in
  match ds with
  | [] => None
  | d :: ds' =>
    if negb (bool_decide (ds' = [])) && Ascii.eqb d "0" then None
    else if (v >? 255)%Z then None
    else Some (v, drop (length ds) s)
  end.

Definition eat (c : ascii) (s : cstr) : option cstr :=
  match s with x :: s' => if Ascii.eqb x c then Some s' else None | [] => None end.

(** [inet_pton(AF_INET, s, &addr) == 1], with the [uint32_t] it stores. *)
Definition inet_pton (s : cstr) : option Z :=
  '(a, s) ← pton_octet s; s ← eat "." s;
  '(b, s) ← pton_octet s; s ← eat "." s;
  '(c, s) ← pton_octet s; s ← eat "." s;
  '(d, s) ← pton_octet s;
  match s with [] => Some (le32 a b c d) | _ => None end.

(** ** Files *)

(** One [fgets] of at most [k] more bytes: the bytes read, the rest of the
    file and the end-of-file indicator. *)
Fixpoint fgets_go (k : nat) (f : list ascii) : list ascii * list ascii * bool :=
  match k, f with
  | O, _ => ([], f, false)
  | S _, [] => ([], [], true)
  | S k', c :: f' =>
    if Ascii.eqb c LF then ([c], f', false)
    else let '(l, r, e) := fgets_go k' f' in (c :: l, r, e)
  end.

(** [fgets(buf, sz, f)]: [None] is NULL. *)
Definition fgets (sz : nat) (f : list ascii)
  : option (list ascii * list ascii * bool) :=
  match f with [] => None | _ => Some (fgets_go (sz - 1) f) end.

(** The buffers successive [fgets] calls fill until NULL, each with the value
    of [feof] after it.  A call that returns non-NULL consumes a byte, so the
    length of the file bounds the number of calls. *)
Fixpoint file_lines_go (fuel sz : nat) (f : list ascii)
  : list (list ascii * bool) :=
  match fuel with
  | O => []
  | S n =>
    match fgets sz f with
    | None => []
    | Some (l, r, e) => (l, e) :: file_lines_go n sz r
    end
  end.

Definition file_lines (sz : nat) (f : list ascii) : list (list ascii * bool) :=
  file_lines_go (length f) sz f.

(** One [%<w>s] conversion of [sscanf]: the word and the rest. *)
Definition scan_word (w : nat) (s : cstr) : option (cstr * cstr) :=
  let s := drop_while isspace s in
  let word := take_while (fun c => negb (isspace c)) (take w s) in
  match word with
  | [] => None
  | _ => Some (word, drop (length word) s)
  end.

(** ** Processes *)

(** What [waitpid] reports of a child. *)
Inductive exit_status :=
| Exited (code : Z)
| Signaled (sig : Z)
| OtherStatus.

(** ** Lemmas *)

(** *** Deciding a statement about every byte *)

Lemma ascii_all (P : ascii -> bool) :
  forallb P (map ascii_of_nat (seq 0 256)) = true -> forall c, P c = true.
Proof.
  intros H c. rewrite forallb_forall in H. apply H.
  apply in_map_iff. exists (nat_of_ascii c).
  split; [apply ascii_nat_embedding|].
  apply in_seq. pose proof (nat_ascii_bounded c). lia.
Qed.

(** Prove [p c = true -> q c = true] for boolean [p], [q] by trying every
    byte. *)
Lemma ascii_impl (p q : ascii -> bool) :
  forallb (fun c => implb (p c) (q c)) (map ascii_of_nat (seq 0 256)) = true ->
  forall c, p c = true -> q c = true.
Proof.
  intros H c Hp. pose proof (ascii_all _ H c) as Hc. cbn in Hc.
  by rewrite Hp in Hc.
Qed.

Ltac byte_impl :=
  match goal with
  | |- forall c, ?p c = true -> ?q c = true =>
    apply (ascii_impl p q); vm_compute; reflexivity
  | |- forall c, @?p c = true -> @?q c = true =>
    apply (ascii_impl p q); vm_compute; reflexivity
  end.

Lemma isdigit_base10 : forall c, isdigit c = true -> is_base_digit 10 c = true.
Proof. byte_impl. Qed.

Lemma base10_isdigit : forall c, is_base_digit 10 c = true -> isdigit c = true.
Proof. byte_impl. Qed.

(** A digit is neither space nor sign nor bracket. *)
Lemma isdigit_other c : isdigit c = true ->
  isspace c = false /\ Ascii.eqb c "-" = false /\ Ascii.eqb c "+" = false /\
  Ascii.eqb c "]" = false /\ Ascii.eqb c NUL = false.
Proof.
  intros H. rewrite <- !negb_true_iff, <- !andb_true_iff. revert c H.
  apply (ascii_impl isdigit (fun c => negb (isspace c) && (negb (Ascii.eqb c "-") &&
    (negb (Ascii.eqb c "+") && (negb (Ascii.eqb c "]") && negb (Ascii.eqb c NUL)))))).
  vm_compute. reflexivity.
Qed.

Lemma strchr_Some c s a b :
  strchr c s = Some (a, b) -> s = a ++ c :: b /\ c ∉ a.
Proof.
  revert a. induction s as [|x s IH]; intros a H; cbn in H; [done|].
  destruct (Ascii.eqb x c) eqn:E; breflect.
  { injection H as <- <-. subst. split; [done|apply not_elem_of_nil]. }
  destruct (strchr c s) as [[a' b']|]; [|done].
  injection H as <- <-. destruct (IH a' eq_refl) as [-> ?].
  split; [done|]. rewrite elem_of_cons. intros [?|?]; congruence.
Qed.

Lemma strchr_None c s : strchr c s = None <-> c ∉ s.
Proof.
  induction s as [|x s IH]; cbn.
  { split; [intros _; apply not_elem_of_nil|done]. }
  rewrite elem_of_cons. destruct (Ascii.eqb x c) eqn:E; breflect.
  { split; [done|]. intros H. destruct H. by left. }
  destruct (strchr c s) as [[? ?]|]; split; try done.
  - intros H. exfalso. apply H. right. destruct (decide (c ∈ s)); [done|].
    by apply IH in n.
  - intros _ [?|?]; [congruence|]. by apply IH.
Qed.

Lemma strchr_app c a b : c ∉ a -> strchr c (a ++ c :: b) = Some (a, b).
Proof.
  induction a as [|x a IH]; intros H; cbn.
  { by rewrite Ascii.eqb_refl. }
  apply not_elem_of_cons in H as [Hx Ha].
  destruct (Ascii.eqb x c) eqn:E; breflect; [congruence|].
  by rewrite (IH Ha).
Qed.

Lemma strip_prefix_Some pre s r : strip_prefix pre s = Some r <-> s = pre ++ r.
Proof.
  revert s. induction pre as [|p pre IH]; intros s; cbn.
  { split; congruence. }
  destruct s as [|c s]; [done|].
  destruct (Ascii.eqb p c) eqn:E; breflect.
  - rewrite IH. subst. split; congruence.
  - split; [done|]. congruence.
Qed.

Lemma c_string_id s : cstring s -> c_string s = s.
Proof.
  intros H. apply take_while_all. eapply Forall_impl; [exact H|].
  intros c Hc. apply negb_true_iff, Ascii.eqb_neq. done.
Qed.

Lemma cstring_while (p : ascii -> bool) s :
  cstring s -> cstring (take_while p s) /\ cstring (drop_while p s).
Proof.
  intros H. rewrite <- (take_drop_while p s) in H. by apply Forall_app in H.
Qed.

Lemma c_string_cstring b : cstring (c_string b).
Proof.
  eapply Forall_impl; [apply take_while_Forall|].
  intros c H. cbn in H. breflect. done.
Qed.

Lemma snprintf_length sz s : 0 < sz -> length (snprintf sz s) < sz.
Proof. intros ?. unfold snprintf. rewrite length_take. lia. Qed.

Lemma snprintf_fit sz s : length s < sz -> snprintf sz s = s.
Proof. intros ?. apply take_ge. lia. Qed.

(** *** [fgets] *)

Lemma fgets_go_line k l r :
  LF ∉ l -> length l < k -> fgets_go k (l ++ LF :: r) = (l ++ [LF], r, false).
Proof.
  revert k. induction l as [|c l IH]; intros k Hl Hk; cbn.
  { destruct k; [cbn in Hk; lia|]. done. }
  destruct k; [lia|]. apply not_elem_of_cons in Hl as [Hc Hl].
  cbn in Hk. cbn [fgets_go app].
  destruct (Ascii.eqb c LF) eqn:E; breflect; [congruence|].
  by rewrite IH by (done || lia).
Qed.

Lemma fgets_go_rest k f l r e :
  fgets_go k f = (l, r, e) -> f = l ++ r /\ length l <= k.
Proof.
  revert f l r e. induction k as [|k IH]; intros f l r e H; cbn in H.
  { destruct f; injection H as <- <- <-; cbn; auto with lia. }
  destruct f as [|c f]; [injection H as <- <- <-; cbn; auto with lia|].
  destruct (Ascii.eqb c LF); [injection H as <- <- <-; cbn; auto with lia|].
  destruct (fgets_go k f) as [[l' r'] e'] eqn:E.
  injection H as <- <- <-. destruct (IH _ _ _ _ E) as [-> ?].
  cbn. auto with lia.
Qed.

Lemma fgets_progress sz f l r e :
  1 < sz -> fgets sz f = Some (l, r, e) -> length r < length f.
Proof.
  intros Hsz H. destruct f as [|c f]; [done|].
  unfold fgets in H. injection H as H.
  pose proof (fgets_go_rest _ _ _ _ _ H) as [Hf _].
  destruct l as [|x l]; [|rewrite Hf, length_app; cbn; lia].
  destruct sz as [|[|sz]]; [lia|lia|]. cbn in H.
  destruct (Ascii.eqb c LF); [discriminate H|].
  by destruct (fgets_go sz f) as [[? ?] ?].
Qed.

(** More fuel than the length of the file changes nothing. *)
Lemma file_lines_go_fuel n m sz f :
  1 < sz -> length f <= n -> length f <= m ->
  file_lines_go n sz f = file_lines_go m sz f.
Proof.
  intros Hsz. revert m f. induction n as [|n IH]; intros m f Hn Hm.
  { destruct f; [|cbn in Hn; lia]. by destruct m. }
  destruct m as [|m]; [destruct f; [done|cbn in Hm; lia]|].
  cbn. destruct (fgets sz f) as [[[l r] e]|] eqn:E; [|done].
  pose proof (fgets_progress _ _ _ _ _ Hsz E).
  f_equal. apply IH; lia.
Qed.

Lemma file_lines_nil sz : file_lines sz [] = [].
Proof. done. Qed.

(** A line that fits the buffer is read whole. *)
Lemma file_lines_cons sz l r :
  LF ∉ l -> length l + 1 < sz ->
  file_lines sz (l ++ LF :: r) = (l ++ [LF], false) :: file_lines sz r.
Proof.
  intros Hl Hsz. unfold file_lines at 1.
  rewrite length_app. cbn [length]. rewrite Nat.add_succ_r. cbn.
  unfold fgets. rewrite fgets_go_line by (done || lia).
  destruct (l ++ LF :: r) as [|c f] eqn:E; [by destruct l|].
  f_equal. apply file_lines_go_fuel; lia.
Qed.

(** The last line of a file that does not end in a newline. *)
Lemma fgets_go_last k l : LF ∉ l -> length l < k -> fgets_go k l = (l, [], true).
Proof.
  revert k. induction l as [|c l IH]; intros k Hl Hk.
  { destruct k; [cbn in Hk; lia|done]. }
  destruct k; [lia|]. apply not_elem_of_cons in Hl as [Hc Hl]. cbn in Hk.
  cbn [fgets_go]. rewrite (proj2 (Ascii.eqb_neq _ _)) by congruence.
  by rewrite IH by (done || lia).
Qed.

Lemma file_lines_last sz l :
  l <> [] -> LF ∉ l -> length l + 1 < sz -> file_lines sz l = [(l, true)].
Proof.
  intros H0 H1 H2. unfold file_lines. destruct l as [|c l]; [done|].
  cbn [length file_lines_go]. unfold fgets.
  rewrite fgets_go_last by (done || cbn in *; lia). by destruct (length l).
Qed.

(** *** Numbers *)

Lemma digit_val_nonneg c d : digit_val c = Some d -> (0 <= d)%Z.
Proof.
  intros H. assert (A : forall c, (match digit_val c with
    Some d => (0 <=? d)%Z | None => true end) = true).
  { apply ascii_all. vm_compute. reflexivity. }
  specialize (A c). rewrite H in A. by apply Z.leb_le.
Qed.

Lemma digits_val_nonneg base ds : (0 <= base)%Z -> (0 <= digits_val base ds)%Z.
Proof.
  intros Hb. unfold digits_val.
  assert (G : forall v, (0 <= v)%Z -> (0 <= fold_left
    (fun v c => v * base + default 0 (digit_val c)) ds v)%Z); [|by apply G].
  induction ds as [|c ds IH]; intros v Hv; cbn [fold_left]; [done|].
  apply IH. pose proof (Z.mul_nonneg_nonneg v base Hv Hb).
  destruct (digit_val c) eqn:E; cbn; [apply digit_val_nonneg in E|]; lia.
Qed.

Lemma scan_base_nonneg b : (0 <= fst (scan_base b))%Z.
Proof. unfold scan_base. repeat case_match; cbn; lia. Qed.

Lemma strtoul0_nonneg s : (0 <= sto_val (strtoul0 s))%Z.
Proof.
  unfold strtoul0. destruct (scan_sign _) as [neg body].
  pose proof (scan_base_nonneg body) as Hb.
  destruct (scan_base body) as [base b]. cbn [fst] in Hb.
  destruct (take_while _ _) as [|d ds] eqn:E; [done|].
  pose proof (digits_val_nonneg base (d :: ds) Hb) as Hv.
  destruct (_ >? _)%Z; [done|]. cbn [sto_val]. destruct neg; [|done].
  apply Z.mod_pos_bound. unfold ULONG_MAX. lia.
Qed.

(** *** Decimal text *)

Lemma digit_char_spec d :
  (0 <= d < 10)%Z ->
  isdigit (digit_char d) = true /\ digit_val (digit_char d) = Some d /\
  (digit_char d = "0"%char -> d = 0%Z).
Proof.
  intros H.
  assert (C : (d = 0 \/ d = 1 \/ d = 2 \/ d = 3 \/ d = 4 \/ d = 5 \/ d = 6 \/
               d = 7 \/ d = 8 \/ d = 9)%Z) by lia.
  destruct_or! C; subst; by vm_compute.
Qed.

Lemma dec_go_acc fuel n acc : dec_go fuel n acc = dec_go fuel n [] ++ acc.
Proof.
  revert n acc. induction fuel as [|f IH]; intros n acc; cbn -[Z.div Z.modulo];
    [done|].
  destruct (n <? 10)%Z; [done|].
  rewrite IH, (IH _ [_]), <- app_assoc. done.
Qed.

Lemma digits_val_snoc base l d :
  digits_val base (l ++ [d]) = (digits_val base l * base + default 0 (digit_val d))%Z.
Proof. unfold digits_val. by rewrite fold_left_app. Qed.

Lemma dec_go_step f n :
  (10 <= n)%Z -> dec_go (S f) n [] = dec_go f (n / 10) [] ++ [digit_char (n mod 10)].
Proof.
  intros H. cbn [dec_go]. rewrite (proj2 (Z.ltb_ge _ _)) by lia. apply dec_go_acc.
Qed.

Lemma dec_go_last f n :
  (0 <= n < 10)%Z -> dec_go (S f) n [] = [digit_char n].
Proof.
  intros H. cbn [dec_go]. rewrite (proj2 (Z.ltb_lt _ _)) by lia.
  by rewrite Z.mod_small by lia.
Qed.

(** The properties of decimal text that the parsers rely on. *)
Definition dec_text (n : Z) (t : cstr) : Prop :=
  Forall (fun c => isdigit c = true) t /\ digits_val 10 t = n /\
  (head t = Some "0"%char -> n = 0%Z) /\ t <> [].

Lemma dec_go_spec f n :
  (0 <= n < 10 ^ Z.of_nat (S f))%Z ->
  dec_text n (dec_go (S f) n []) /\ length (dec_go (S f) n []) <= S f.
Proof.
  revert n. induction f as [|f IH]; intros n Hn.
  all: destruct (Z.lt_ge_cases n 10) as [Hlt|Hge].
  1, 3: rewrite dec_go_last by lia;
    destruct (digit_char_spec n) as (H1 & H2 & H3); [lia|];
    split; [|cbn; lia]; split_and!; [by constructor| |intros [= E]; auto|done];
    unfold digits_val; cbn [fold_left]; rewrite H2; cbn; lia.
  { lia. }
  rewrite dec_go_step by lia.
  assert (Hq : (1 <= n / 10 < 10 ^ Z.of_nat (S f))%Z).
  { rewrite (Nat2Z.inj_succ (S f)), Z.pow_succ_r in Hn by lia.
    split; [apply Z.div_le_lower_bound; lia|apply Z.div_lt_upper_bound; lia]. }
  destruct (IH (n / 10)%Z) as ((I1 & I2 & I3 & I4) & I5); [lia|].
  destruct (digit_char_spec (n mod 10)) as (H1 & H2 & H3);
    [apply Z.mod_pos_bound; lia|].
  split; [|rewrite length_app; cbn [length]; lia].
  split_and!.
  - apply Forall_app. split; [done|by constructor].
  - rewrite digits_val_snoc, I2, H2. cbn [default from_option].
    pose proof (Z.div_mod n 10). cbn. lia.
  - destruct (dec_go (S f) (n / 10) []); [done|]. cbn in *. intros E.
    specialize (I3 E). lia.
  - by destruct (dec_go (S f) (n / 10) []).
Qed.

Lemma fmt_u_spec n :
  (0 <= n <= ULONG_MAX)%Z -> dec_text n (fmt_u n) /\ length (fmt_u n) <= 20.
Proof. intros H. apply dec_go_spec. unfold ULONG_MAX in H. cbn. lia. Qed.
