(* ===== verification/CfgPath.v ===== *)
(** Configuration paths: the tokenizer of cfg.c ([parse_key_tok],
    [parse_index_tok], [parse_path], [path_file_ok]) and the grammar it
    implements. *)
From S2P Require Import Prelude CLib.

Definition CFG_PATH_SEG_MAX : nat := 128.
Definition CFG_PATH_DEPTH_MAX : nat := 64.

(** [struct cfg_tok], as a tagged union. *)
Inductive cfg_tok :=
| TokKey (key : cstr)
| TokIndex (idx : Z)
| TokAppend.

Definition is_key_start (c : ascii) : bool := isalpha c || Ascii.eqb c "_".
Definition is_key_char (c : ascii) : bool := isalnum c || Ascii.eqb c "_".

(** The copying loop of [parse_key_tok]; [len] bytes are already in [key]. *)
Fixpoint key_loop (len : nat) (p : cstr) : result (cstr * cstr) :=
  match p with
  | [] => Ok ([], [])
  | c :: p' =>
    if is_key_char c then
      if CFG_PATH_SEG_MAX <=? len + 1 then Err E2BIG
      else '(k, r) ← key_loop (len + 1) p'; Ok (c :: k, r)
    else Ok ([], p)
  end.

(** The token and the text after it. *)
Definition parse_key_tok (src : cstr) : result (cfg_tok * cstr) :=
  match src with
  | c :: _ =>
    if is_key_start c then
      '(k, r) ← key_loop 0 src; Ok (TokKey k, r)
    else Err EINVAL
  | [] => Err EINVAL
  end.

(** The character at [p], NUL at the end of the string. *)
Definition peek (p : cstr) : ascii := default NUL (head p).

Definition parse_index_tok (src : cstr) : result (cfg_tok * cstr) :=
  match src with
  | b :: p =>
    if negb (Ascii.eqb b "[") then Err EINVAL
    else if Ascii.eqb (peek p) "]" then Ok (TokAppend, tail p)
    else
      let digits := p in
      let p := if Ascii.eqb (peek p) "-" then tail p else p in
      if negb (isdigit (peek p)) then Err EINVAL
      else if Ascii.eqb (peek p) "0" && isdigit (peek (tail p)) then Err EINVAL
      else
        let r := strtol10 digits in
        if sto_range r || negb (sto_conv r)
           || negb (Ascii.eqb (peek (sto_rest r)) "]")
           || (sto_val r <? INT_MIN)%Z || (sto_val r >? INT_MAX)%Z
        then Err EINVAL
        else Ok (TokIndex (sto_val r), tail (sto_rest r))
  | [] => Err EINVAL
  end.

(** The loop of [parse_path] with [room] tokens left in the array. *)
Fixpoint parse_loop (room : nat) (p : cstr) : result (list cfg_tok) :=
  match p with
  | [] => Ok []
  | c :: p' =>
    match room with
    | O => Err E2BIG
    | S room' =>
      '(t, q) ← (if Ascii.eqb c "." then parse_key_tok p'
                 else if Ascii.eqb c "[" then parse_index_tok p
                 else Err EINVAL);
      ts ← parse_loop room' q;
      Ok (t :: ts)
    end
  end.

(** NULL and the empty string take the same branch: no token. *)
Definition parse_path (path : cstr) (max : nat) : result (list cfg_tok) :=
  match path with
  | [] => Ok []
  | _ =>
    match max with
    | O => Err E2BIG
    | S room =>
      '(t, q) ← parse_key_tok path;
      ts ← parse_loop room q;
      Ok (t :: ts)
    end
  end.

Fixpoint file_toks_ok (ts : list cfg_tok) : bool :=
  match ts with
  | [] => true
  | TokIndex _ :: _ => false
  | TokAppend :: ts' => bool_decide (ts' = [])
  | TokKey _ :: ts' => file_toks_ok ts'
  end.

(** Paths a configuration file may use: no index, [] only at the end. *)
Definition path_file_ok (path : cstr) : result unit :=
  ts ← parse_path path CFG_PATH_DEPTH_MAX;
  ensure (file_toks_ok ts) EINVAL.

(** ** The grammar (README, "Config grammar") *)

(** key = [A-Za-z_][A-Za-z0-9_]*, shorter than the segment buffer. *)
Definition key_ok (k : cstr) : Prop :=
  is_key_start (peek k) = true /\
  Forall (fun c => is_key_char c = true) k /\
  length k < CFG_PATH_SEG_MAX.

(** The text of an index: a decimal int without leading zeros. *)
Definition idx_text (t : cstr) (z : Z) : Prop :=
  exists (neg : bool) (ds : cstr),
    t = (if neg then ["-"%char] else []) ++ ds /\
    ds <> [] /\ Forall (fun c => isdigit c = true) ds /\
    (peek ds = "0"%char -> ds = ["0"%char]) /\
    z = (if neg then - digits_val 10 ds else digits_val 10 ds)%Z /\
    (INT_MIN <= z <= INT_MAX)%Z.

Inductive path_tail : cstr -> list cfg_tok -> Prop :=
| path_tail_nil : path_tail [] []
| path_tail_key k p ts :
    key_ok k -> path_tail p ts ->
    path_tail ("."%char :: k ++ p) (TokKey k :: ts)
| path_tail_append p ts :
    path_tail p ts ->
    path_tail ("["%char :: "]"%char :: p) (TokAppend :: ts)
| path_tail_index t z p ts :
    idx_text t z -> path_tail p ts ->
    path_tail ("["%char :: t ++ "]"%char :: p) (TokIndex z :: ts).

(** path = key (("." key) | ("[" index "]"))*, or nothing. *)
Definition path_lang (p : cstr) (ts : list cfg_tok) : Prop :=
  (p = [] /\ ts = []) \/
  exists k q ts',
    p = k ++ q /\ ts = TokKey k :: ts' /\ key_ok k /\ path_tail q ts'.

(** The text of a token after the first, as [dump_node] and the file format
    write it. *)
Definition tok_text (t : cfg_tok) : cstr :=
  match t with
  | TokKey k => "."%char :: k
  | TokIndex z => "["%char :: fmt_d z ++ ["]"%char]
  | TokAppend => ["["%char; "]"%char]
  end.

Definition path_text (ts : list cfg_tok) : cstr :=
  match ts with
  | TokKey k :: ts' => k ++ concat (map tok_text ts')
  | _ => []
  end.

Definition tok_ok (t : cfg_tok) : Prop :=
  match t with
  | TokKey k => key_ok k
  | TokIndex z => (INT_MIN <= z <= INT_MAX)%Z
  | TokAppend => True
  end.

#[export] Instance key_ok_dec k : Decision (key_ok k).
Proof. unfold key_ok. apply _. Defined.

#[export] Instance tok_ok_dec t : Decision (tok_ok t).
Proof. destruct t; cbn; apply _. Defined.

(** ** Lemmas *)

Lemma key_start_char : forall c, is_key_start c = true -> is_key_char c = true.
Proof. byte_impl. Qed.

(** A key character ends neither a key nor an index. *)
Lemma key_char_other c : is_key_char c = true ->
  (c <> "." /\ c <> "[" /\ c <> " " /\ c <> "=" /\ c <> "#" /\
   c <> TAB /\ c <> LF /\ c <> CR /\ c <> NUL)%char.
Proof.
  intros H. rewrite <- !Ascii.eqb_neq, <- !negb_true_iff, <- !andb_true_iff.
  revert c H.
  apply (ascii_impl is_key_char (fun c =>
    negb (Ascii.eqb c ".") && (negb (Ascii.eqb c "[") && (negb (Ascii.eqb c " ")
    && (negb (Ascii.eqb c "=") && (negb (Ascii.eqb c "#")
    && (negb (Ascii.eqb c TAB) && (negb (Ascii.eqb c LF)
    && (negb (Ascii.eqb c CR) && negb (Ascii.eqb c NUL)))))))))).
  vm_compute. reflexivity.
Qed.

Lemma key_loop_spec len p :
  len < CFG_PATH_SEG_MAX ->
  key_loop len p =
    if len + length (take_while is_key_char p) <? CFG_PATH_SEG_MAX
    then Ok (take_while is_key_char p, drop_while is_key_char p)
    else Err E2BIG.
Proof.
  revert len. induction p as [|c p IH]; intros len Hl; cbn -[Nat.ltb Nat.leb].
  { rewrite (proj2 (Nat.ltb_lt _ _)) by lia. done. }
  destruct (is_key_char c); cbn -[Nat.ltb Nat.leb].
  2: { rewrite (proj2 (Nat.ltb_lt _ _)) by lia. done. }
  destruct (Nat.leb_spec CFG_PATH_SEG_MAX (len + 1)).
  { rewrite (proj2 (Nat.ltb_ge _ _)) by lia. done. }
  rewrite IH by lia. rewrite <- Nat.add_assoc. cbn [plus].
  by destruct (_ <? _).
Qed.

Lemma parse_key_tok_inv p t q :
  parse_key_tok p = Ok (t, q) ->
  exists k, t = TokKey k /\ p = k ++ q /\ key_ok k /\ is_key_char (peek q) = false.
Proof.
  unfold parse_key_tok. destruct p as [|c p]; [done|]. intros H.
  inv_ok. destruct a as [k r]. inv_ok.
  rewrite key_loop_spec in E0 by (unfold CFG_PATH_SEG_MAX; lia).
  destruct (_ <? _) eqn:L; [|done]. apply Nat.ltb_lt in L.
  pose proof (take_drop_while is_key_char (c :: p)) as TD.
  assert (HD : is_key_char (peek (drop_while is_key_char (c :: p))) = false).
  { destruct (drop_while is_key_char (c :: p)) eqn:D; [done|].
    by eapply drop_while_head. }
  revert E0 L TD HD. cbn [take_while]. rewrite (key_start_char _ E).
  set (D := drop_while _ _). intros [= <- <-] L TD HD.
  eexists. split; [done|]. split; [done|].
  split; [|done]. split; [done|]. split; [|cbn in *; lia].
  constructor; [by apply key_start_char|apply take_while_Forall].
Qed.

Lemma parse_key_tok_ok k q :
  key_ok k -> is_key_char (peek q) = false ->
  parse_key_tok (k ++ q) = Ok (TokKey k, q).
Proof.
  intros (Hs & Hk & Hl) Hq. destruct k as [|c k]; [done|].
  unfold parse_key_tok. cbn [app]. cbn in Hs. rewrite Hs.
  rewrite key_loop_spec by (unfold CFG_PATH_SEG_MAX; lia).
  change (c :: k ++ q) with ((c :: k) ++ q).
  rewrite take_while_app, drop_while_app by done.
  assert (Hq' : take_while is_key_char q = [] /\ drop_while is_key_char q = q).
  { destruct q as [|d q]; [done|]. cbn in *. by rewrite Hq. }
  destruct Hq' as [-> ->]. rewrite app_nil_r.
  rewrite (proj2 (Nat.ltb_lt _ _)) by lia. done.
Qed.

Definition signed (neg : bool) (v : Z) : Z := if neg then (- v)%Z else v.

(** [strtol] on a sign and digits, as an index has them. *)
Lemma strtol10_digits (neg : bool) ds q :
  ds <> [] -> Forall (fun c => isdigit c = true) ds -> isdigit (peek q) = false ->
  strtol10 ((if neg then ["-"%char] else []) ++ ds ++ q) =
    (let v := signed neg (digits_val 10 ds) in
     if v >? LONG_MAX then Strto LONG_MAX q true true
     else if v <? LONG_MIN then Strto LONG_MIN q true true
     else Strto v q true false)%Z.
Proof.
  intros Hne Hds Hq. unfold strtol10.
  assert (Hs : scan_sign (drop_while isspace
      ((if neg then ["-"%char] else []) ++ ds ++ q)) = (neg, ds ++ q)).
  { destruct neg; [done|]. destruct ds as [|d ds]; [done|].
    apply Forall_cons in Hds as [Hd _].
    apply isdigit_other in Hd as (E1 & E2 & E3 & _).
    cbn -[isspace]. rewrite E1. cbn. by rewrite E2, E3. }
  rewrite Hs. assert (Hd : Forall (fun c => is_base_digit 10 c = true) ds).
  { eapply Forall_impl; [exact Hds|]. apply isdigit_base10. }
  rewrite take_while_app, drop_while_app by done.
  assert (Hq' : take_while (is_base_digit 10) q = []
                /\ drop_while (is_base_digit 10) q = q).
  { destruct q as [|d q]; [done|]. cbn -[is_base_digit] in *.
    destruct (is_base_digit 10 d) eqn:Hb; [|done].
    apply base10_isdigit in Hb. congruence. }
  destruct Hq' as [-> ->]. rewrite app_nil_r.
  by destruct ds as [|d ds'].
Qed.

Lemma strtol10_idx (neg : bool) ds q :
  ds <> [] -> Forall (fun c => isdigit c = true) ds -> isdigit (peek q) = false ->
  (INT_MIN <= signed neg (digits_val 10 ds) <= INT_MAX)%Z ->
  strtol10 ((if neg then ["-"%char] else []) ++ ds ++ q)
  = Strto (signed neg (digits_val 10 ds)) q true false.
Proof.
  intros Hne Hds Hq Hz. rewrite strtol10_digits by done. cbn zeta.
  unfold INT_MIN, INT_MAX in Hz.
  rewrite Z.gtb_ltb, (proj2 (Z.ltb_ge _ _)), (proj2 (Z.ltb_ge _ _))
    by (unfold LONG_MAX, LONG_MIN; lia).
  done.
Qed.

Lemma idx_text_head t z q :
  idx_text t z -> Ascii.eqb (peek (t ++ q)) "]" = false.
Proof.
  intros (neg & ds & -> & Hne & Hd & _). destruct neg; [done|].
  destruct ds as [|d ds]; [done|]. apply Forall_cons in Hd as [Hd _].
  by apply isdigit_other in Hd as (_ & _ & _ & E & _).
Qed.

Lemma parse_index_tok_ok t z q :
  idx_text t z ->
  parse_index_tok ("["%char :: t ++ "]"%char :: q) = Ok (TokIndex z, q).
Proof.
  intros Ht. pose proof (idx_text_head t z ("]"%char :: q) Ht) as Hh.
  destruct Ht as (neg & ds & -> & Hne & Hd & H0 & Hz & Hr).
  unfold parse_index_tok. cbn [negb Ascii.eqb]. rewrite Hh.
  rewrite <- app_assoc in *.
  assert (Hp : (if Ascii.eqb (peek ((if neg then ["-"%char] else [])
                                      ++ ds ++ "]"%char :: q)) "-"
                then tail ((if neg then ["-"%char] else []) ++ ds ++ "]"%char :: q)
                else (if neg then ["-"%char] else []) ++ ds ++ "]"%char :: q)
               = ds ++ "]"%char :: q).
  { destruct neg; [done|]. destruct ds as [|d ds]; [done|].
    apply Forall_cons in Hd as [Hd _].
    apply isdigit_other in Hd as (_ & E & _). cbn. by rewrite E. }
  cbn [Bool.eqb]. rewrite Hp.
  rewrite (strtol10_idx neg ds ("]"%char :: q)) by (try done; unfold signed; congruence).
  change (signed neg _) with (if neg then - digits_val 10 ds else digits_val 10 ds)%Z.
  cbn [sto_range sto_conv sto_rest sto_val orb negb peek head default from_option tail].
  rewrite <- Hz. rewrite Z.gtb_ltb, !(proj2 (Z.ltb_ge _ _)) by lia. cbn.
  destruct ds as [|d ds]; [done|]. apply Forall_cons in Hd as [Hd1 Hd2].
  cbn. rewrite Hd1. cbn.
  destruct (Ascii.eqb d "0") eqn:E; [|done]. breflect. subst.
  specialize (H0 eq_refl). injection H0 as ->. done.
Qed.

Lemma parse_index_tok_inv p t q :
  parse_index_tok p = Ok (t, q) ->
  (t = TokAppend /\ p = "["%char :: "]"%char :: q) \/
  exists x z, t = TokIndex z /\ p = "["%char :: x ++ "]"%char :: q /\ idx_text x z.
Proof.
  unfold parse_index_tok. destruct p as [|b p]; [done|]. intros H.
  destruct (Ascii.eqb b "[") eqn:Eb; cbn [negb] in H; [|done]. breflect. subst b.
  destruct (Ascii.eqb (peek p) "]") eqn:Ea.
  { injection H as <- <-. left. split; [done|].
    destruct p; [done|]. cbn in Ea. breflect. by subst. }
  right.
  set (neg := Ascii.eqb (peek p) "-") in *.
  set (p' := if neg then tail p else p) in *.
  assert (Hp : p = (if neg then ["-"%char] else []) ++ p').
  { subst p' neg. destruct p as [|c p]; [done|]. cbn.
    destruct (Ascii.eqb c "-") eqn:E; breflect; by subst. }
  clearbody p'. clearbody neg.
  destruct (isdigit (peek p')) eqn:Ed; cbn [negb] in H; [|done].
  destruct (Ascii.eqb (peek p') "0" && isdigit (peek (tail p'))) eqn:Ez; [done|].
  set (ds := take_while isdigit p'). set (r := drop_while isdigit p').
  assert (Hds : p' = ds ++ r) by (symmetry; apply take_drop_while).
  assert (Hr : isdigit (peek r) = false).
  { destruct r eqn:Er; [done|]. by eapply drop_while_head. }
  assert (Hne : ds <> []).
  { subst ds. destruct p'; [done|]. cbn in *. by rewrite Ed. }
  assert (H0 : peek ds = "0"%char -> ds = ["0"%char]).
  { clear -Ez Ed. subst ds. destruct p' as [|c [|d l]]; cbn in *; [done| |].
    - rewrite Ed. cbn. by intros ->.
    - rewrite Ed. cbn. intros ->. cbn in Ez. by rewrite Ez. }
  assert (Hall : Forall (fun c => isdigit c = true) ds) by apply take_while_Forall.
  clearbody ds r. clear Ez Ed.
  rewrite Hp, Hds, strtol10_digits in H by done. cbn zeta in H.
  destruct (_ >? LONG_MAX)%Z; [done|]. destruct (_ <? LONG_MIN)%Z; [done|].
  cbn [sto_range sto_conv sto_rest sto_val orb negb] in H.
  destruct (Ascii.eqb (peek r) "]") eqn:Eq; [|done].
  cbn [negb orb] in H.
  destruct (_ <? INT_MIN)%Z eqn:B1; [done|]. cbn [orb] in H.
  destruct (_ >? INT_MAX)%Z eqn:B2; [done|].
  injection H as <- <-. rewrite Z.gtb_ltb in B2. apply Z.ltb_ge in B1, B2.
  exists ((if neg then ["-"%char] else []) ++ ds), (signed neg (digits_val 10 ds)).
  split; [done|]. split.
  { rewrite Hp, Hds, <- app_assoc. destruct r; [done|].
    cbn in Eq. breflect. by subst. }
  exists neg, ds. by split_and!.
Qed.

Lemma path_tail_head p ts :
  path_tail p ts -> is_key_char (peek p) = false.
Proof. by destruct 1. Qed.

(** The loop accepts the grammar's tails that fit the token array. *)
Lemma parse_loop_spec room p ts :
  parse_loop room p = Ok ts <-> path_tail p ts /\ length ts <= room.
Proof.
  split.
  - revert p ts. induction room as [|room IH]; intros [|c p] ts H;
      cbn [parse_loop] in H; inv_ok; try done; [split; [constructor|cbn; lia]..|].
    destruct a as [t q]. inv_ok. apply IH in E0 as [Ht Hl].
    destruct (Ascii.eqb c ".") eqn:Ec; breflect.
    { apply parse_key_tok_inv in E as (k & -> & -> & Hk & _). subst.
      split; [by constructor|cbn; lia]. }
    destruct (Ascii.eqb c "[") eqn:Eb; [|done]. breflect. subst.
    apply parse_index_tok_inv in E as [[-> E]|(x & z & -> & E & Hx)].
    all: injection E as ->; split; [by constructor|cbn; lia].
  - intros [H Hl]. revert room Hl.
    induction H as [|k p ts Hk Hp IH|p ts Hp IH|t z p ts Ht Hp IH];
      intros room Hl; [by destruct room|..];
      (destruct room as [|room]; cbn in Hl; [lia|]);
      specialize (IH room ltac:(lia)); cbn [parse_loop Ascii.eqb Bool.eqb].
    + rewrite parse_key_tok_ok by (eauto using path_tail_head). cbn. by rewrite IH.
    + cbn. by rewrite IH.
    + rewrite (parse_index_tok_ok _ z) by done. cbn. by rewrite IH.
Qed.

Lemma parse_path_spec p max ts :
  parse_path p max = Ok ts <-> path_lang p ts /\ length ts <= max.
Proof.
  unfold parse_path. destruct p as [|c p].
  { split.
    - intros H. inv_ok. split; [by left|cbn; lia].
    - intros [[[_ ->]|(k & q & ts' & E & _ & Hk & _)] _]; [done|].
      destruct k; [|done]. by destruct Hk. }
  destruct max as [|room].
  { split; [done|]. intros [[[? _]|(k & q & ts' & _ & -> & _)] Hl]; [done|].
    cbn in Hl. lia. }
  split.
  - intros H. inv_ok. destruct a as [t q]. inv_ok.
    apply parse_loop_spec in E0 as [Ht Hl].
    apply parse_key_tok_inv in E as (k & -> & E & Hk & _).
    split; [|cbn; lia]. right. eauto 10.
  - intros [[[? _]|(k & q & ts' & E & -> & Hk & Ht)] Hl]; [done|].
    cbn in Hl. rewrite E, parse_key_tok_ok by eauto using path_tail_head.
    cbn. rewrite (proj2 (parse_loop_spec room q ts')) by (split; [done|lia]). done.
Qed.

Lemma idx_text_fmt_d z : (INT_MIN <= z <= INT_MAX)%Z -> idx_text (fmt_d z) z.
Proof.
  intros Hz. unfold fmt_d.
  assert (Hu : forall n, (0 <= n <= 2147483648)%Z -> dec_text n (fmt_u n)).
  { intros n Hn. apply fmt_u_spec. unfold ULONG_MAX. lia. }
  unfold idx_text. unfold INT_MIN, INT_MAX in *.
  destruct (Z.ltb_spec z 0) as [Hlt|Hge].
  - exists true, (fmt_u (- z)). destruct (Hu (- z)%Z) as (H1 & H2 & H3 & H4); [lia|].
    rewrite H2. split_and!; try done; try lia.
    intros H0. destruct (fmt_u (- z)); [done|]. cbn in H0. subst.
    specialize (H3 eq_refl). lia.
  - exists false, (fmt_u z). destruct (Hu z) as (H1 & H2 & H3 & H4); [lia|].
    split_and!; try done; try lia.
    intros H0. destruct (fmt_u z) as [|c l] eqn:E; [done|]. cbn in H0. subst c.
    specialize (H3 eq_refl). subst z. vm_compute in E. by injection E as <-.
Qed.

Lemma path_tail_text ts : Forall tok_ok ts -> path_tail (concat (map tok_text ts)) ts.
Proof.
  induction 1 as [|t ts Ht _ IH]; cbn; [constructor|].
  destruct t as [k|z|]; cbn in *.
  - by constructor.
  - rewrite <- app_assoc. cbn. constructor; [by apply idx_text_fmt_d|done].
  - by constructor.
Qed.

Lemma path_lang_text k ts :
  Forall tok_ok (TokKey k :: ts) -> path_lang (path_text (TokKey k :: ts)) (TokKey k :: ts).
Proof.
  intros H. apply Forall_cons in H as [Hk Ht]. right.
  exists k, (concat (map tok_text ts)), ts. split_and!; try done.
  by apply path_tail_text.
Qed.

Lemma idx_text_range t z : idx_text t z -> (INT_MIN <= z <= INT_MAX)%Z.
Proof. by intros (? & ? & ? & ? & ? & ? & ? & ?). Qed.

Lemma path_tail_ok p ts : path_tail p ts -> Forall tok_ok ts.
Proof.
  induction 1; constructor; cbn; eauto using idx_text_range.
Qed.

Lemma parse_path_toks p max ts :
  parse_path p max = Ok ts -> Forall tok_ok ts /\ length ts <= max.
Proof.
  intros H. apply parse_path_spec in H as [[[-> ->]|(k & q & ts' & _ & -> & Hk & Ht)] Hl];
    split; try done.
  constructor; [done|]. by eapply path_tail_ok.
Qed.

(** Reading the text of a token list gives the tokens back. *)
Lemma parse_path_text k ts max :
  Forall tok_ok (TokKey k :: ts) -> length ts < max ->
  parse_path (path_text (TokKey k :: ts)) max = Ok (TokKey k :: ts).
Proof.
  intros H Hl. apply parse_path_spec. split; [by apply path_lang_text|cbn; lia].
Qed.

(** ** Properties *)

(** C23: [parse_path] accepts exactly the path language of the README, with the
    tokens it stands for, as long as they fit the token array; every other
    text, and every longer path, is an error. *)
Theorem parse_path_exact (p : cstr) (max : nat) (ts : list cfg_tok) :
  parse_path p max = Ok ts <-> path_lang p ts /\ length ts <= max.
Proof. apply parse_path_spec. Qed.
