(* ===== verification/CfgTree.v ===== *)
(** The configuration tree of cfg.c: nodes, lookup by path, assignment and
    deletion.  The child/next/tail pointers of [struct cfg_node] are the list
    of children, [n_child] is its length.  [malloc] takes its outcome from an
    oracle, so that the out-of-memory branches are part of the model. *)
From S2P Require Import Prelude CLib CfgPath.

Set Warnings "-register-all".

Inductive cfg_type := CFG_OBJ | CFG_ARR | CFG_STR.

#[export] Instance cfg_type_eq : EqDecision cfg_type.
Proof. solve_decision. Defined.

(** [struct cfg_node]: type, name, val, children. *)
Inductive cfg_node :=
| Node (type : cfg_type) (name val : option cstr) (child : list cfg_node).

Definition n_type (n : cfg_node) : cfg_type := let 'Node t _ _ _ := n in t.
Definition n_name (n : cfg_node) : option cstr := let 'Node _ x _ _ := n in x.
Definition n_val (n : cfg_node) : option cstr := let 'Node _ _ v _ := n in v.
Definition n_kids (n : cfg_node) : list cfg_node := let 'Node _ _ _ c := n in c.
Definition n_child (n : cfg_node) : Z := Z.of_nat (length (n_kids n)).

Definition set_kids (c : list cfg_node) (n : cfg_node) : cfg_node :=
  let 'Node t x v _ := n in Node t x v c.
Definition set_val (v : cstr) (n : cfg_node) : cfg_node :=
  let 'Node t x _ c := n in Node t x (Some v) c.

Definition has_type (t : cfg_type) (n : cfg_node) : bool :=
  bool_decide (n_type n = t).

(** A fresh node, as [node_init] and [node_new] fill it. *)
Definition node_init (t : cfg_type) (name : option cstr) : cfg_node :=
  Node t name None [].

(** The node, then the copy of its name; NULL when either allocation fails. *)
Definition node_new (t : cfg_type) (name : option cstr) (o : oracle)
  : option cfg_node * oracle :=
  let '(ok1, o) := pop o in
  if negb ok1 then (None, o)
  else match name with
       | None => (Some (node_init t None), o)
       | Some x =>
         let '(ok2, o) := pop o in
         if ok2 then (Some (node_init t (Some x)), o) else (None, o)
       end.

Definition child_add (parent node : cfg_node) : cfg_node :=
  set_kids (n_kids parent ++ [node]) parent.

Definition name_is (name : cstr) (n : cfg_node) : bool :=
  match n_name n with Some x => streq x name | None => false end.

(** The first child with the name and its position. *)
Definition obj_find (obj : cfg_node) (name : cstr) : option (nat * cfg_node) :=
  if has_type CFG_OBJ obj then find_idx (name_is name) (n_kids obj) else None.

Definition arr_idx (arr : cfg_node) (idx : Z) : result nat :=
  if negb (has_type CFG_ARR arr) then Err ENOTDIR
  else if (0 <=? idx)%Z then
    if (n_child arr <=? idx)%Z then Err ENOENT else Ok (Z.to_nat idx)
  else
    let idx := (n_child arr + idx)%Z in
    if (idx <? 0)%Z then Err ENOENT else Ok (Z.to_nat idx).

Definition arr_nth (arr : cfg_node) (idx : nat) : option cfg_node :=
  n_kids arr !! idx.

(** ** Lookup *)

Fixpoint walk_toks (ts : list cfg_tok) (cur : cfg_node) : result cfg_node :=
  match ts with
  | [] => Ok cur
  | TokAppend :: _ => Err EINVAL
  | TokKey k :: ts' =>
    if negb (has_type CFG_OBJ cur) then Err ENOTDIR
    else match obj_find cur k with
         | Some (_, c) => walk_toks ts' c
         | None => Err ENOENT
         end
  | TokIndex idx :: ts' =>
    if negb (has_type CFG_ARR cur) then Err ENOTDIR
    else match arr_idx cur idx with
         | Err e => Err e
         | Ok i =>
           match arr_nth cur i with
           | Some c => walk_toks ts' c
           | None => Err ENOENT
           end
         end
  end.

Definition walk_get (cfg : cfg_node) (path : cstr) : result cfg_node :=
  ts ← parse_path path CFG_PATH_DEPTH_MAX; walk_toks ts cfg.

Definition cfg_get_node (cfg : cfg_node) (path : cstr) : result cfg_node :=
  match path with [] => Ok cfg | _ => walk_get cfg path end.

(** [node->val ? node->val : ""] *)
Definition val_or_empty (n : cfg_node) : cstr := default [] (n_val n).

Definition str_of (n : cfg_node) : result cstr :=
  if has_type CFG_STR n then Ok (val_or_empty n) else Err EISDIR.

Definition cfg_get_str (cfg : cfg_node) (path : cstr) : result cstr :=
  n ← cfg_get_node cfg path; str_of n.

(** The non-negative return value of [cfg_arr_len]. *)
Definition cfg_arr_len (cfg : cfg_node) (path : cstr) : result Z :=
  n ← cfg_get_node cfg path;
  if has_type CFG_ARR n then Ok (n_child n) else Err ENOTDIR.

(** ** Assignment *)

(** The state of the mutating functions: pending [malloc] outcomes and the
    node [cur] points to. *)
Abbreviation tree_st := (oracle * cfg_node)%type.

(** Run on child [i] of the current node, in place. *)
Definition zoom (i : nat) (m : ST tree_st unit) : ST tree_st unit :=
  fun '(o, p) =>
    match n_kids p !! i with
    | Some c =>
      let '(r, (o', c')) := m (o, c) in
      (r, (o', set_kids (<[i := c']> (n_kids p)) p))
    | None => (Err ENOENT, (o, p))
    end.

(** [copy = xstrdup(val); if (!copy) return -ENOMEM; node->val = copy;] *)
Definition store_val (val : cstr) : ST tree_st unit :=
  fun '(o, node) =>
    let '(ok, o) := pop o in
    if ok then (Ok tt, (o, set_val val node)) else (Err ENOMEM, (o, node)).

Definition set_str_plain (name val : cstr) : ST tree_st unit :=
  fun '(o, parent) =>
    match obj_find parent name with
    | None =>
      let '(node, o) := node_new CFG_STR (Some name) o in
      match node with
      | None => (Err ENOMEM, (o, parent))
      | Some n =>
        zoom (length (n_kids parent)) (store_val val) (o, child_add parent n)
      end
    | Some (i, node) =>
      if negb (has_type CFG_STR node) then (Err EISDIR, (o, parent))
      else zoom i (store_val val) (o, parent)
    end.

Definition set_arr_append (val : cstr) : ST tree_st unit :=
  fun '(o, arr) =>
    if negb (has_type CFG_ARR arr) then (Err ENOTDIR, (o, arr))
    else
      let '(node, o) := node_new CFG_STR None o in
      match node with
      | None => (Err ENOMEM, (o, arr))
      | Some n =>
        let '(ok, o) := pop o in
        if ok then (Ok tt, (o, child_add arr (set_val val n)))
        else (Err ENOMEM, (o, arr))
      end.

Definition set_arr_idx (idx : Z) (val : cstr) : ST tree_st unit :=
  fun '(o, arr) =>
    if negb (has_type CFG_ARR arr) then (Err ENOTDIR, (o, arr))
    else if (0 <=? idx)%Z && (idx =? n_child arr)%Z then (Err ENOENT, (o, arr))
    else match arr_idx arr idx with
         | Err _ => (Err ENOENT, (o, arr))
         | Ok i =>
           match arr_nth arr i with
           | Some n =>
             if has_type CFG_STR n then zoom i (store_val val) (o, arr)
             else (Err ENOENT, (o, arr))
           | None => (Err ENOENT, (o, arr))
           end
         end.

(** What [cfg_set_str] does with the last token. *)
Definition set_last (t : cfg_tok) (val : cstr) : ST tree_st unit :=
  fun '(o, cur) =>
    match t with
    | TokKey k =>
      if has_type CFG_OBJ cur then set_str_plain k val (o, cur)
      else (Err ENOTDIR, (o, cur))
    | TokAppend => set_arr_append val (o, cur)
    | TokIndex idx => set_arr_idx idx val (o, cur)
    end.

(** The container type the next token asks for. *)
Definition want_of (t : cfg_tok) : cfg_type :=
  match t with TokKey _ => CFG_OBJ | _ => CFG_ARR end.

(** The loop of [cfg_set_str] over all tokens but the last. *)
Fixpoint set_walk (ts : list cfg_tok) (val : cstr) : ST tree_st unit :=
  match ts with
  | [] => throw EINVAL
  | t :: rest =>
    match rest with
    | [] => set_last t val
    | u :: _ =>
      fun '(o, cur) =>
        match t with
        | TokAppend => (Err EINVAL, (o, cur))
        | TokIndex idx =>
          if negb (has_type CFG_ARR cur) then (Err ENOTDIR, (o, cur))
          else match arr_idx cur idx with
               | Err e => (Err e, (o, cur))
               | Ok i => zoom i (set_walk rest val) (o, cur)
               end
        | TokKey k =>
          if negb (has_type CFG_OBJ cur) then (Err ENOTDIR, (o, cur))
          else
            let want := want_of u in
            match obj_find cur k with
            | None =>
              let '(child, o) := node_new want (Some k) o in
              match child with
              | None => (Err ENOMEM, (o, cur))
              | Some c =>
                zoom (length (n_kids cur)) (set_walk rest val)
                  (o, child_add cur c)
              end
            | Some (i, c) =>
              if negb (has_type want c) then (Err ENOTDIR, (o, cur))
              else zoom i (set_walk rest val) (o, cur)
            end
        end
    end
  end.

Definition cfg_set_str (path val : cstr) : ST tree_st unit :=
  fun s =>
    match parse_path path CFG_PATH_DEPTH_MAX with
    | Err e => (Err e, s)
    | Ok ts => set_walk ts val s
    end.

(** ** Deletion *)

(** The node with child [i] unlinked and freed. *)
Definition unlink (i : nat) (p : cfg_node) : cfg_node :=
  set_kids (delete i (n_kids p)) p.

Definition del_arr (arr : cfg_node) (idx : Z) : result cfg_node :=
  if negb (has_type CFG_ARR arr) then Err ENOENT
  else match arr_idx arr idx with
       | Err _ => Err ENOENT
       | Ok i =>
         match arr_nth arr i with
         | Some _ => Ok (unlink i arr)
         | None => Err ENOENT
         end
       end.

Definition del_plain (parent : cfg_node) (name : cstr) : result cfg_node :=
  match find_idx (name_is name) (n_kids parent) with
  | Some (i, _) => Ok (unlink i parent)
  | None => Err ENOENT
  end.

(** Replace child [i] by the outcome of [f] on it. *)
Definition in_child (i : nat) (f : cfg_node -> result cfg_node) (p : cfg_node)
  : result cfg_node :=
  match n_kids p !! i with
  | Some c => c' ← f c; Ok (set_kids (<[i := c']> (n_kids p)) p)
  | None => Err ENOENT
  end.

(** [cfg_del] changes nothing on an error, so the new tree is in the result. *)
Fixpoint del_walk (ts : list cfg_tok) (cur : cfg_node) : result cfg_node :=
  match ts with
  | [] => Err EINVAL
  | [TokAppend] => Err EINVAL
  | [TokIndex idx] => del_arr cur idx
  | [TokKey k] =>
    if negb (has_type CFG_OBJ cur) then Err ENOTDIR else del_plain cur k
  | TokAppend :: _ => Err EINVAL
  | TokIndex idx :: rest =>
    if negb (has_type CFG_ARR cur) then Err ENOTDIR
    else match arr_idx cur idx with
         | Err e => Err e
         | Ok i => in_child i (del_walk rest) cur
         end
  | TokKey k :: rest =>
    if negb (has_type CFG_OBJ cur) then Err ENOTDIR
    else match obj_find cur k with
         | Some (i, _) => in_child i (del_walk rest) cur
         | None => Err ENOENT
         end
  end.

Definition cfg_del (cfg : cfg_node) (path : cstr) : result cfg_node :=
  ts ← parse_path path CFG_PATH_DEPTH_MAX; del_walk ts cfg.

(** ** Accessors *)

Definition cfg_init : cfg_node := node_init CFG_OBJ None.

(** The children are freed, the root is zeroed; [CFG_OBJ] is 0. *)
Definition cfg_free (cfg : cfg_node) : cfg_node := Node CFG_OBJ None None [].

Definition cfg_child (n : cfg_node) (name : cstr) : option cfg_node :=
  snd <$> obj_find n name.

(** [cfg_first] and [cfg_next] enumerate the children in order. *)
Definition cfg_children (n : cfg_node) : list cfg_node := n_kids n.

Definition cfg_child_count (n : cfg_node) : Z := n_child n.

(** ** Well-formed trees *)

(** Objects hold named children with distinct valid names, arrays unnamed
    strings, strings nothing. *)
Inductive wf_node : cfg_node -> Prop :=
| wf_str name val : wf_node (Node CFG_STR name val [])
| wf_arr name kids :
    Forall (fun c => n_type c = CFG_STR /\ n_name c = None) kids ->
    Forall wf_node kids ->
    wf_node (Node CFG_ARR name None kids)
| wf_obj name kids :
    Forall (fun c => exists k, n_name c = Some k /\ key_ok k) kids ->
    NoDup (map n_name kids) ->
    Forall wf_node kids ->
    wf_node (Node CFG_OBJ name None kids).

(** Two paths that part at a key. *)
Definition diverge (ts us : list cfg_tok) : Prop :=
  exists pre k l ts' us',
    ts = pre ++ TokKey k :: ts' /\ us = pre ++ TokKey l :: us' /\ k <> l.

Definition is_append (t : cfg_tok) : bool :=
  match t with TokAppend => true | _ => false end.

(** ** Lemmas *)

Lemma has_type_true t n : has_type t n = true <-> n_type n = t.
Proof. apply bool_decide_eq_true. Qed.

Lemma has_type_false t n : has_type t n = false <-> n_type n <> t.
Proof. apply bool_decide_eq_false. Qed.

Lemma name_is_true k n : name_is k n = true <-> n_name n = Some k.
Proof.
  unfold name_is. destruct (n_name n); [rewrite streq_true|]; split; congruence.
Qed.

Lemma n_kids_set c n : n_kids (set_kids c n) = c.
Proof. by destruct n. Qed.

Lemma n_type_set c n : n_type (set_kids c n) = n_type n.
Proof. by destruct n. Qed.

Lemma n_name_set c n : n_name (set_kids c n) = n_name n.
Proof. by destruct n. Qed.

Lemma has_type_set t c n : has_type t (set_kids c n) = has_type t n.
Proof. by destruct n. Qed.

Lemma set_kids_set c d n : set_kids c (set_kids d n) = set_kids c n.
Proof. by destruct n. Qed.

Lemma set_kids_id n : set_kids (n_kids n) n = n.
Proof. by destruct n. Qed.

Lemma n_type_set_val v n : n_type (set_val v n) = n_type n.
Proof. by destruct n. Qed.

Lemma n_name_set_val v n : n_name (set_val v n) = n_name n.
Proof. by destruct n. Qed.

Create Rewrite HintDb tree.
#[export] Hint Rewrite n_kids_set n_type_set n_name_set has_type_set set_kids_set
  n_type_set_val n_name_set_val : tree.

Lemma node_new_inv t name o c o' :
  node_new t name o = (Some c, o') -> c = node_init t name.
Proof.
  unfold node_new. destruct (pop o) as [[] o1]; cbn; [|done].
  destruct name; [|by intros [= <- _]].
  destruct (pop o1) as [[] ?]; [by intros [= <- _]|done].
Qed.

Lemma obj_find_inv n k i c :
  obj_find n k = Some (i, c) ->
  n_type n = CFG_OBJ /\ n_kids n !! i = Some c /\ n_name c = Some k.
Proof.
  unfold obj_find. destruct (has_type _ _) eqn:E; [|done]. intros H.
  apply find_idx_Some in H as (? & ? & _).
  split; [by apply has_type_true|]. split; [done|by apply name_is_true].
Qed.

Lemma arr_idx_inv n z i :
  arr_idx n z = Ok i -> n_type n = CFG_ARR /\ i < length (n_kids n).
Proof.
  unfold arr_idx, n_child. destruct (has_type _ _) eqn:E; cbn; [|done].
  apply has_type_true in E. split; [done|].
  destruct (Z.leb_spec 0 z); inv_ok.
  - apply Z.leb_gt in E0. lia.
  - apply Z.ltb_ge in E0. lia.
Qed.

Lemma zoom_some i m o p c :
  n_kids p !! i = Some c ->
  zoom i m (o, p) =
    let '(r, (o', c')) := m (o, c) in
    (r, (o', set_kids (<[i := c']> (n_kids p)) p)).
Proof. intros H. unfold zoom. by rewrite H. Qed.

(** An action that keeps a node's place in the tree. *)
Definition keeps (pre : cfg_node -> Prop) (m : ST tree_st unit) : Prop :=
  forall o n, pre n ->
    n_type (snd (snd (m (o, n)))) = n_type n /\
    n_name (snd (snd (m (o, n)))) = n_name n /\
    (wf_node n -> wf_node (snd (snd (m (o, n))))).

Lemma wf_insert p i c c' :
  wf_node p -> n_kids p !! i = Some c -> wf_node c' ->
  n_type c' = n_type c -> n_name c' = n_name c ->
  wf_node (set_kids (<[i := c']> (n_kids p)) p).
Proof.
  intros Hp Hi Hc Ht Hn. destruct Hp as [| |name kids Hk Hnd Hw]; cbn in *.
  - done.
  - constructor; apply Forall_insert; try done.
    pose proof (Forall_lookup_1 _ _ _ _ H Hi) as [? ?]. split; congruence.
  - constructor; [apply Forall_insert|..|by apply Forall_insert]; try done.
    + pose proof (Forall_lookup_1 _ _ _ _ Hk Hi). by rewrite Hn.
    + rewrite list_fmap_insert, list_insert_id; [done|].
      rewrite list_lookup_fmap, Hi. cbn. by rewrite Hn.
Qed.

Lemma wf_lookup p i c : wf_node p -> n_kids p !! i = Some c -> wf_node c.
Proof.
  intros Hp Hi. destruct Hp; cbn in Hi; [done|..]; by eapply Forall_lookup_1.
Qed.

Lemma keeps_zoom (pre : cfg_node -> Prop) i m :
  keeps pre m -> keeps (fun p => forall c, n_kids p !! i = Some c -> pre c) (zoom i m).
Proof.
  intros Hm o p Hp. unfold zoom. destruct (n_kids p !! i) as [c|] eqn:E; [|done].
  destruct (Hm o c (Hp _ eq_refl)) as (Ht & Hn & Hw).
  destruct (m (o, c)) as [r [o' c']]. cbn in *. autorewrite with tree.
  split_and!; [done..|]. intros Hwp. eapply wf_insert; eauto using wf_lookup.
Qed.

Lemma keeps_store v : keeps (fun n => n_type n = CFG_STR) (store_val v).
Proof.
  intros o n Hn. unfold store_val. destruct (pop o) as [[] ?]; cbn; [|done].
  autorewrite with tree. split_and!; [done..|].
  intros H. destruct H; [constructor|done..].
Qed.

Lemma wf_obj_add p c k :
  wf_node p -> n_type p = CFG_OBJ -> obj_find p k = None ->
  n_name c = Some k -> key_ok k -> wf_node c -> wf_node (child_add p c).
Proof.
  intros Hp Ht Hf Hn Hk Hc. unfold obj_find in Hf.
  rewrite (proj2 (has_type_true _ _) Ht) in Hf.
  destruct Hp as [| |name kids Hks Hnd Hw]; [done..|]. cbn in *.
  apply find_idx_None in Hf.
  constructor; [apply Forall_app; split; [done|constructor; eauto]| |
                apply Forall_app; split; [done|by constructor]].
  rewrite map_app. apply NoDup_app. split_and!; [done| |apply NoDup_singleton].
  intros x Hx. apply list_elem_of_fmap in Hx as (d & -> & Hd).
  intros Hxc. apply list_elem_of_singleton in Hxc.
  rewrite Forall_forall in Hf. specialize (Hf d Hd).
  rewrite Hn in Hxc. apply name_is_true in Hxc. congruence.
Qed.

Lemma wf_init t k : wf_node (node_init t k).
Proof. destruct t; constructor; by constructor. Qed.

Lemma lookup_child_add p c : n_kids (child_add p c) !! length (n_kids p) = Some c.
Proof. unfold child_add. rewrite n_kids_set. by rewrite list_lookup_middle. Qed.

Lemma keeps_set_str_plain k v :
  key_ok k -> keeps (fun n => n_type n = CFG_OBJ) (set_str_plain k v).
Proof.
  intros Hk o n Hn. unfold set_str_plain.
  destruct (obj_find n k) as [[i c]|] eqn:Ef.
  - destruct (has_type CFG_STR c) eqn:Ec; cbn [negb]; [|done].
    apply has_type_true in Ec. apply obj_find_inv in Ef as (_ & Hi & _).
    apply (keeps_zoom _ i _ (keeps_store v)). by intros ? ?; simplify_eq.
  - destruct (node_new _ _ _) as [[c|] o'] eqn:En; [|done].
    apply node_new_inv in En as ->.
    destruct (keeps_zoom _ (length (n_kids n)) _ (keeps_store v) o'
      (child_add n (node_init CFG_STR (Some k)))) as (H1 & H2 & H3).
    { intros c. rewrite lookup_child_add. by intros [= <-]. }
    split_and!; [by rewrite H1; destruct n|by rewrite H2; destruct n|].
    intros Hw. apply H3. eapply wf_obj_add; eauto using wf_init.
Qed.

Lemma keeps_set_arr_append v : keeps (fun _ => True) (set_arr_append v).
Proof.
  intros o n _. unfold set_arr_append.
  destruct (has_type CFG_ARR n) eqn:Et; cbn [negb]; [|done].
  apply has_type_true in Et.
  destruct (node_new _ _ _) as [[c|] o'] eqn:En; [|done].
  apply node_new_inv in En as ->.
  destruct (pop o') as [[] ?]; cbn; [|done]. unfold child_add.
  autorewrite with tree. split_and!; [done..|].
  intros Hw. destruct Hw as [|name kids Hk Hw|]; [done| |done]. cbn.
  constructor; apply Forall_app; split; try done; constructor; try done.
  constructor.
Qed.

Lemma keeps_set_arr_idx z v : keeps (fun _ => True) (set_arr_idx z v).
Proof.
  intros o n _. unfold set_arr_idx.
  destruct (has_type CFG_ARR n) eqn:Et; cbn [negb]; [|done].
  destruct (_ && _); [done|]. destruct (arr_idx n z) as [i|]; [|done].
  destruct (arr_nth n i) as [c|] eqn:Ei; [|done].
  destruct (has_type CFG_STR c) eqn:Ec; [|done]. apply has_type_true in Ec.
  apply (keeps_zoom _ i _ (keeps_store v)). unfold arr_nth in Ei.
  by intros ? ?; simplify_eq.
Qed.

Lemma keeps_set_last t v : tok_ok t -> keeps (fun _ => True) (set_last t v).
Proof.
  intros Ht o n _. unfold set_last. destruct t as [k|z|].
  - destruct (has_type CFG_OBJ n) eqn:E; [|done]. apply has_type_true in E.
    by apply keeps_set_str_plain.
  - by apply keeps_set_arr_idx.
  - by apply keeps_set_arr_append.
Qed.

(** Every assignment keeps the tree well formed, on success and on failure,
    whatever [malloc] does. *)
Lemma keeps_set_walk ts v : Forall tok_ok ts -> keeps (fun _ => True) (set_walk ts v).
Proof.
  induction 1 as [|t ts Ht Hts IH]; [done|]. cbn [set_walk].
  destruct ts as [|u ts]; [by apply keeps_set_last|]. intros o n _.
  destruct t as [k|z|]; [| |done].
  - destruct (has_type CFG_OBJ n) eqn:Eo; cbn [negb]; [|done].
    apply has_type_true in Eo. destruct (obj_find n k) as [[i c]|] eqn:Ef.
    + destruct (has_type (want_of u) c); cbn [negb]; [|done].
      by apply (keeps_zoom _ i _ IH).
    + destruct (node_new _ _ _) as [[c|] o'] eqn:En; [|done].
      apply node_new_inv in En as ->.
      destruct (keeps_zoom _ (length (n_kids n)) _ IH o'
        (child_add n (node_init (want_of u) (Some k)))) as (H1 & H2 & H3); [done|].
      split_and!; [by rewrite H1; destruct n|by rewrite H2; destruct n|].
      intros Hw. apply H3. eapply wf_obj_add; eauto using wf_init.
  - destruct (has_type CFG_ARR n); cbn [negb]; [|done].
    destruct (arr_idx n z) as [i|]; [|done]. by apply (keeps_zoom _ i _ IH).
Qed.

(** *** Finding a child after an update *)

Lemma obj_find_insert n k i c c' :
  obj_find n k = Some (i, c) -> n_name c' = n_name c ->
  obj_find (set_kids (<[i := c']> (n_kids n)) n) k = Some (i, c').
Proof.
  intros H Hn. pose proof (obj_find_inv _ _ _ _ H) as (_ & _ & Hk).
  unfold obj_find in *. rewrite has_type_set, n_kids_set.
  destruct (has_type _ _); [|done]. eapply find_idx_insert; [done|].
  apply name_is_true. congruence.
Qed.

Lemma obj_find_insert_ne n k l i c c' :
  n_kids n !! i = Some c -> n_name c = Some k -> n_name c' = Some k -> k <> l ->
  obj_find (set_kids (<[i := c']> (n_kids n)) n) l = obj_find n l.
Proof.
  intros Hi Hc Hc' Hne. unfold obj_find. rewrite has_type_set, n_kids_set.
  destruct (has_type _ _); [|done].
  assert (Hf : forall d, n_name d = Some k -> name_is l d = false).
  { intros d Hd. destruct (name_is l d) eqn:E; [|done].
    apply name_is_true in E. congruence. }
  eapply find_idx_insert_ne; eauto.
Qed.

Lemma obj_find_add n k c :
  n_type n = CFG_OBJ -> obj_find n k = None -> n_name c = Some k ->
  obj_find (child_add n c) k = Some (length (n_kids n), c).
Proof.
  intros Ht Hf Hc. unfold obj_find, child_add in *.
  rewrite has_type_set, n_kids_set. rewrite (proj2 (has_type_true _ _) Ht) in *.
  rewrite find_idx_app_r by done. cbn.
  rewrite (proj2 (name_is_true _ _) Hc). by rewrite Nat.add_0_r.
Qed.

Lemma obj_find_add_ne n k l c :
  n_name c = Some k -> k <> l -> obj_find (child_add n c) l = obj_find n l.
Proof.
  intros Hc Hne. unfold obj_find, child_add. rewrite has_type_set, n_kids_set.
  destruct (has_type _ _); [|done].
  destruct (find_idx (name_is l) (n_kids n)) as [[i d]|] eqn:E.
  - by apply find_idx_app_l.
  - rewrite find_idx_app_r by done. cbn.
    destruct (name_is l c) eqn:E'; [|done]. apply name_is_true in E'. congruence.
Qed.

Lemma arr_idx_set n kids z :
  length kids = length (n_kids n) -> arr_idx (set_kids kids n) z = arr_idx n z.
Proof.
  intros H. unfold arr_idx, n_child. by rewrite has_type_set, n_kids_set, H.
Qed.

(** *** One step of an assignment *)

(** What a key step leaves to its child: the object it works on, which is the
    old one or the old one with a fresh child, and the child's position. *)
Definition key_step (n : cfg_node) (k : cstr) (t : cfg_type)
    (n1 : cfg_node) (i : nat) (c : cfg_node) : Prop :=
  n_type n = CFG_OBJ /\ obj_find n1 k = Some (i, c) /\ n_type c = t /\
  (n1 = n \/ (obj_find n k = None /\ n1 = child_add n c /\
              c = node_init t (Some k))).

Lemma set_walk_key_eq k u ts v (o : oracle) n :
  set_walk (TokKey k :: u :: ts) v (o, n) =
    if negb (has_type CFG_OBJ n) then (Err ENOTDIR, (o, n))
    else match obj_find n k with
         | None =>
           let '(child, o) := node_new (want_of u) (Some k) o in
           match child with
           | None => (Err ENOMEM, (o, n))
           | Some c => zoom (length (n_kids n)) (set_walk (u :: ts) v)
                         (o, child_add n c)
           end
         | Some (i, c) =>
           if negb (has_type (want_of u) c) then (Err ENOTDIR, (o, n))
           else zoom i (set_walk (u :: ts) v) (o, n)
         end.
Proof. done. Qed.

Lemma set_walk_key k u ts v (o : oracle) n :
  (exists e, set_walk (TokKey k :: u :: ts) v (o, n) = (Err e, (o, n))) \/
  (exists o1 : oracle, set_walk (TokKey k :: u :: ts) v (o, n) = (Err ENOMEM, (o1, n))
              /\ o <> []) \/
  (exists (o1 : oracle) n1 i c, key_step n k (want_of u) n1 i c /\ (o = [] -> o1 = []) /\
     set_walk (TokKey k :: u :: ts) v (o, n)
     = zoom i (set_walk (u :: ts) v) (o1, n1)).
Proof.
  rewrite set_walk_key_eq.
  destruct (has_type CFG_OBJ n) eqn:Et; cbn [negb]; [|eauto].
  apply has_type_true in Et. destruct (obj_find n k) as [[i c]|] eqn:Ef.
  - destruct (has_type (want_of u) c) eqn:Ec; cbn [negb]; [|eauto].
    apply has_type_true in Ec. right; right. exists o, n, i, c.
    unfold key_step. split_and!; auto.
  - destruct (node_new (want_of u) (Some k) o) as [[c|] o1] eqn:En.
    + pose proof (node_new_inv _ _ _ _ _ En) as ->. right; right.
      eexists o1, _, _, _. split; [|split; [|reflexivity]].
      * split_and!; [done|by apply obj_find_add|done|by right].
      * intros ->. by injection En as <-.
    + right; left. exists o1. split; [done|]. by intros ->.
Qed.

Lemma set_plain_key k v (o : oracle) n :
  (exists e, set_last (TokKey k) v (o, n) = (Err e, (o, n))) \/
  (exists o1 : oracle, set_last (TokKey k) v (o, n) = (Err ENOMEM, (o1, n)) /\ o <> []) \/
  (exists (o1 : oracle) n1 i c, key_step n k CFG_STR n1 i c /\ (o = [] -> o1 = []) /\
     set_last (TokKey k) v (o, n) = zoom i (store_val v) (o1, n1)).
Proof.
  unfold set_last, set_str_plain.
  destruct (has_type CFG_OBJ n) eqn:Et; [|eauto]. apply has_type_true in Et.
  destruct (obj_find n k) as [[i c]|] eqn:Ef.
  - destruct (has_type CFG_STR c) eqn:Ec; cbn [negb]; [|eauto].
    apply has_type_true in Ec. right; right. exists o, n, i, c.
    unfold key_step. split_and!; auto.
  - destruct (node_new CFG_STR (Some k) o) as [[c|] o1] eqn:En.
    + pose proof (node_new_inv _ _ _ _ _ En) as ->. right; right.
      eexists o1, _, _, _. split; [|split; [|reflexivity]].
      * split_and!; [done|by apply obj_find_add|done|by right].
      * intros ->. by injection En as <-.
    + right; left. exists o1. split; [done|]. by intros ->.
Qed.

Lemma key_step_type n k t n1 i c : key_step n k t n1 i c -> n_type n1 = CFG_OBJ.
Proof. by intros (_ & H & _); apply obj_find_inv in H as [? _]. Qed.

Lemma key_step_lookup n k t n1 i c :
  key_step n k t n1 i c -> n_kids n1 !! i = Some c /\ n_name c = Some k.
Proof. by intros (_ & H & _); apply obj_find_inv in H as [_ ?]. Qed.

(** *** Reading after writing *)

Lemma zoom_result i m o p r o' p' c :
  n_kids p !! i = Some c -> zoom i m (o, p) = (r, (o', p')) ->
  exists c', m (o, c) = (r, (o', c')) /\ p' = set_kids (<[i := c']> (n_kids p)) p.
Proof.
  intros Hi. rewrite (zoom_some _ _ _ _ _ Hi).
  destruct (m (o, c)) as [r1 [o1 c1]]. intros [= -> -> <-]. eauto.
Qed.

Lemma keeps_at pre m o n r o' n' :
  keeps pre m -> pre n -> m (o, n) = (r, (o', n')) ->
  n_type n' = n_type n /\ n_name n' = n_name n /\ (wf_node n -> wf_node n').
Proof. intros Hm Hp E. specialize (Hm o n Hp). by rewrite E in Hm. Qed.

Lemma walk_key_found ts k n i c :
  obj_find n k = Some (i, c) -> walk_toks (TokKey k :: ts) n = walk_toks ts c.
Proof.
  intros H. cbn. pose proof (obj_find_inv _ _ _ _ H) as (Ht & _).
  by rewrite (proj2 (has_type_true _ _) Ht), H.
Qed.

Lemma walk_idx_found ts z n i c :
  arr_idx n z = Ok i -> n_kids n !! i = Some c ->
  walk_toks (TokIndex z :: ts) n = walk_toks ts c.
Proof.
  intros H Hc. cbn. pose proof (arr_idx_inv _ _ _ H) as (Ht & _).
  rewrite (proj2 (has_type_true _ _) Ht), H. unfold arr_nth. by rewrite Hc.
Qed.

Lemma set_walk_idx z u ts v o n :
  (exists e, set_walk (TokIndex z :: u :: ts) v (o, n) = (Err e, (o, n))) \/
  (exists i c, arr_idx n z = Ok i /\ n_kids n !! i = Some c /\
     set_walk (TokIndex z :: u :: ts) v (o, n)
     = zoom i (set_walk (u :: ts) v) (o, n)).
Proof.
  change (set_walk (TokIndex z :: u :: ts) v (o, n)) with
    (if negb (has_type CFG_ARR n) then (Err ENOTDIR, (o, n))
     else match arr_idx n z with
          | Err e => (Err e, (o, n))
          | Ok i => zoom i (set_walk (u :: ts) v) (o, n)
          end).
  destruct (has_type CFG_ARR n); cbn [negb]; [|eauto].
  destruct (arr_idx n z) as [i|] eqn:E; [|eauto].
  pose proof (arr_idx_inv _ _ _ E) as [_ Hi].
  destruct (lookup_lt_is_Some_2 _ _ Hi) as [c Hc]. right. eauto 10.
Qed.

Lemma set_idx_last z v o n :
  (exists e, set_last (TokIndex z) v (o, n) = (Err e, (o, n))) \/
  (exists i c, arr_idx n z = Ok i /\ n_kids n !! i = Some c /\
     n_type c = CFG_STR /\
     set_last (TokIndex z) v (o, n) = zoom i (store_val v) (o, n)).
Proof.
  unfold set_last, set_arr_idx.
  destruct (has_type CFG_ARR n); cbn [negb]; [|eauto].
  destruct (_ && _); [eauto|]. destruct (arr_idx n z) as [i|] eqn:E; [|eauto].
  unfold arr_nth. destruct (n_kids n !! i) as [c|] eqn:Ec; [|eauto].
  destruct (has_type CFG_STR c) eqn:Et; [|eauto]. apply has_type_true in Et.
  right. eauto 10.
Qed.

Lemma store_val_get v o c o' c' :
  n_type c = CFG_STR -> store_val v (o, c) = (Ok tt, (o', c')) ->
  n_name c' = n_name c /\ str_of c' = Ok v.
Proof.
  intros Hc E. unfold store_val in E.
  destruct (pop o) as [[] o3]; [|done]. injection E as <- <-.
  destruct c; cbn in *; subst. split; done.
Qed.

Lemma walk_key_insert ts k n i c c' :
  obj_find n k = Some (i, c) -> n_name c' = n_name c ->
  walk_toks (TokKey k :: ts) (set_kids (<[i := c']> (n_kids n)) n)
  = walk_toks ts c'.
Proof. intros H Hn. eapply walk_key_found, obj_find_insert; eauto. Qed.

Lemma walk_idx_insert ts z n i c c' :
  arr_idx n z = Ok i -> n_kids n !! i = Some c ->
  walk_toks (TokIndex z :: ts) (set_kids (<[i := c']> (n_kids n)) n)
  = walk_toks ts c'.
Proof.
  intros Hz Hi. eapply walk_idx_found.
  - rewrite arr_idx_set by apply length_insert. done.
  - rewrite n_kids_set. apply list_lookup_insert_eq. by eapply lookup_lt_Some.
Qed.

Lemma set_last_get t v o n o' n' :
  is_append t = false -> set_last t v (o, n) = (Ok tt, (o', n')) ->
  exists c, walk_toks [t] n' = Ok c /\ str_of c = Ok v.
Proof.
  intros Ha H. destruct t as [k|z|]; [| |done].
  - destruct (set_plain_key k v o n) as [[e E]|[(o1 & E & _)|
      (o1 & n1 & i & c & Hk & _ & E)]]; rewrite E in H; try done.
    pose proof (key_step_lookup _ _ _ _ _ _ Hk) as [Hi Hn].
    destruct Hk as (_ & Hf & Hc & _).
    destruct (zoom_result _ _ _ _ _ _ _ _ Hi H) as (c' & Hm & ->).
    destruct (store_val_get _ _ _ _ _ Hc Hm) as [Hn' Hv].
    erewrite walk_key_insert by eauto. eexists; split; [done|done].
  - destruct (set_idx_last z v o n) as [[e E]|(i & c & Hz & Hi & Hc & E)];
      rewrite E in H; [done|].
    destruct (zoom_result _ _ _ _ _ _ _ _ Hi H) as (c' & Hm & ->).
    destruct (store_val_get _ _ _ _ _ Hc Hm) as [_ Hv].
    erewrite walk_idx_insert by eauto. eexists; split; [done|done].
Qed.

(** After a successful assignment the path reads the value. *)
Lemma set_walk_get ts v o n o' n' :
  Forall tok_ok ts -> Forall (fun t => is_append t = false) ts ->
  set_walk ts v (o, n) = (Ok tt, (o', n')) ->
  exists c, walk_toks ts n' = Ok c /\ str_of c = Ok v.
Proof.
  intros Hok. revert o n o' n'. induction Hok as [|t ts Ht Hts IH]; [done|].
  intros o n o' n' [Ha Has]%Forall_cons H.
  destruct ts as [|u ts]; [by eapply set_last_get|].
  pose proof (keeps_set_walk _ v Hts) as Hkeep. destruct t as [k|z|]; [| |done].
  - destruct (set_walk_key k u ts v o n) as [[e E]|[(o1 & E & _)|
      (o1 & n1 & i & c & Hk & _ & E)]]; rewrite E in H; try done.
    pose proof (key_step_lookup _ _ _ _ _ _ Hk) as [Hi Hn].
    destruct Hk as (_ & Hf & Hc & _).
    destruct (zoom_result _ _ _ _ _ _ _ _ Hi H) as (c' & Hm & ->).
    destruct (keeps_at _ _ _ _ _ _ _ Hkeep I Hm) as (_ & Hn' & _).
    erewrite walk_key_insert by eauto. by eapply IH.
  - destruct (set_walk_idx z u ts v o n) as [[e E]|(i & c & Hz & Hi & E)];
      rewrite E in H; [done|].
    destruct (zoom_result _ _ _ _ _ _ _ _ Hi H) as (c' & Hm & ->).
    erewrite walk_idx_insert by eauto. by eapply IH.
Qed.

(** *** Frame *)

(** The empty container of the type a token asks for has nothing below. *)
Lemma walk_fresh u us k :
  is_append u = false ->
  walk_toks (u :: us) (node_init (want_of u) k) = Err ENOENT.
Proof.
  destruct u as [x|z|]; intros H; [done| |done].
  cbn [walk_toks want_of]. unfold arr_idx, n_child.
  change (has_type CFG_ARR (node_init CFG_ARR k)) with true.
  change (Z.of_nat (length (n_kids (node_init CFG_ARR k)))) with 0%Z.
  cbn [negb]. destruct (Z.leb_spec 0 z); [done|].
  by rewrite (proj2 (Z.ltb_lt _ _)) by lia.
Qed.

(** A write below key [k] is not seen under another key of the object. *)
Lemma key_step_frame n k t n1 i c c' l us :
  key_step n k t n1 i c -> n_name c' = n_name c -> k <> l ->
  walk_toks (TokKey l :: us) (set_kids (<[i := c']> (n_kids n1)) n1)
  = walk_toks (TokKey l :: us) n.
Proof.
  intros Hk Hn Hne. pose proof (key_step_lookup _ _ _ _ _ _ Hk) as [Hi Hc].
  cbn. rewrite has_type_set. erewrite obj_find_insert_ne by (eauto; congruence).
  destruct Hk as (_ & _ & _ & [->|(_ & -> & ->)]); [done|].
  rewrite (obj_find_add_ne n k l) by done. unfold child_add.
  by rewrite has_type_set.
Qed.

Lemma set_key_frame k l ts us v o n :
  Forall tok_ok ts -> k <> l ->
  walk_toks (TokKey l :: us) (snd (snd (set_walk (TokKey k :: ts) v (o, n))))
  = walk_toks (TokKey l :: us) n.
Proof.
  intros Hts Hne. destruct ts as [|u ts].
  - cbn [set_walk]. destruct (set_plain_key k v o n) as [[e E]|[(o1 & E & _)|
      (o1 & n1 & i & c & Hk & _ & E)]]; rewrite E; try done.
    pose proof (key_step_lookup _ _ _ _ _ _ Hk) as [Hi Hn].
    rewrite (zoom_some _ _ _ _ _ Hi).
    destruct (store_val v (o1, c)) as [r [o2 c']] eqn:Em.
    destruct (keeps_at _ _ _ _ _ _ _ (keeps_store v) (proj1 (proj2 (proj2 Hk))) Em)
      as (_ & Hn' & _).
    cbn [snd]. by eapply key_step_frame.
  - destruct (set_walk_key k u ts v o n) as [[e E]|[(o1 & E & _)|
      (o1 & n1 & i & c & Hk & _ & E)]]; rewrite E; try done.
    pose proof (key_step_lookup _ _ _ _ _ _ Hk) as [Hi Hn].
    rewrite (zoom_some _ _ _ _ _ Hi).
    destruct (set_walk (u :: ts) v (o1, c)) as [r [o2 c']] eqn:Em.
    destruct (keeps_at _ _ _ _ _ _ _ (keeps_set_walk _ v Hts) I Em) as (_ & Hn' & _).
    cbn [snd]. by eapply key_step_frame.
Qed.

(** An assignment leaves what other paths read, whatever its outcome. *)
Lemma set_walk_frame ts us v o n :
  diverge ts us -> Forall tok_ok ts -> Forall (fun t => is_append t = false) us ->
  walk_toks us (snd (snd (set_walk ts v (o, n)))) = walk_toks us n.
Proof.
  intros (pre & k & l & ts' & us' & -> & -> & Hne). revert o n.
  induction pre as [|t pre IH]; intros o n Hts Hus; cbn [app] in *.
  { apply set_key_frame; [|done]. by apply Forall_cons in Hts as [_ ?]. }
  apply Forall_cons in Hts as [Ht Hts]. apply Forall_cons in Hus as [Hu Hus].
  specialize (fun o n => IH o n Hts Hus). rename IH into IHpre.
  assert (Hsplit : exists u ts2 us2, pre ++ TokKey k :: ts' = u :: ts2 /\
      exists w, pre ++ TokKey l :: us' = w :: us2 /\ want_of w = want_of u).
  { destruct pre as [|u pre]; cbn; eauto 10. }
  destruct Hsplit as (u & ts2 & us2 & Ets & w & Eus & Hw).
  rewrite Ets, Eus in *. destruct t as [x|z|]; [| |done].
  - destruct (set_walk_key x u ts2 v o n) as [[e E]|[(o1 & E & _)|
      (o1 & n1 & i & c & Hk & _ & E)]]; rewrite E; try done.
    pose proof (key_step_lookup _ _ _ _ _ _ Hk) as [Hi Hn].
    rewrite (zoom_some _ _ _ _ _ Hi). specialize (IHpre o1 c).
    destruct (set_walk (u :: ts2) v (o1, c)) as [r [o2 c']] eqn:Em.
    destruct (keeps_at _ _ _ _ _ _ _ (keeps_set_walk _ v Hts) I Em) as (_ & Hn' & _).
    destruct Hk as (Ht0 & Hf & Hc & Hor). cbn [snd] in *.
    erewrite walk_key_insert by eauto. rewrite IHpre.
    destruct Hor as [->|(Hnone & -> & ->)];
      [symmetry; by eapply walk_key_found|].
    rewrite <- Hw. apply Forall_cons in Hus as [Hw' _]. rewrite walk_fresh by done.
    cbn. by rewrite (proj2 (has_type_true _ _) Ht0), Hnone.
  - destruct (set_walk_idx z u ts2 v o n) as [[e E]|(i & c & Hz & Hi & E)];
      rewrite E; [done|].
    rewrite (zoom_some _ _ _ _ _ Hi). specialize (IHpre o c).
    destruct (set_walk (u :: ts2) v (o, c)) as [r [o2 c']] eqn:Em.
    cbn [snd] in *.
    erewrite walk_idx_insert by eauto. rewrite IHpre. symmetry. by eapply walk_idx_found.
Qed.

(** *** A failed assignment *)

(** The string a token path reads, if it reads one. *)
Definition reads (n : cfg_node) (us : list cfg_tok) : option cstr :=
  match walk_toks us n with
  | Ok c => if has_type CFG_STR c then Some (val_or_empty c) else None
  | Err _ => None
  end.

Lemma reads_set_kids n kids us :
  reads (set_kids kids n) us =
    match us with
    | [] => reads n []
    | TokAppend :: _ => None
    | TokKey k :: us' =>
      match obj_find (set_kids kids n) k with
      | Some (_, c) => reads c us'
      | None => None
      end
    | TokIndex z :: us' =>
      match arr_idx (set_kids kids n) z with
      | Ok i => match kids !! i with Some c => reads c us' | None => None end
      | Err _ => None
      end
    end.
Proof.
  destruct us as [|[k|z|] us]; [by destruct n| | |done]; unfold reads.
  - cbn. unfold obj_find. rewrite n_kids_set.
    destruct (has_type CFG_OBJ _) eqn:E; cbn [negb]; [|done].
    by destruct (find_idx _ _) as [[? ?]|].
  - cbn. unfold arr_nth. rewrite n_kids_set. unfold arr_idx.
    destruct (has_type CFG_ARR _) eqn:E; cbn [negb]; [|done].
    destruct (if (0 <=? z)%Z then _ else _) as [i|]; [|done].
    by destruct (kids !! i).
Qed.

Lemma reads_eta n us :
  reads n us = reads (set_kids (n_kids n) n) us.
Proof. by rewrite set_kids_id. Qed.

(** Replacing a child by one that reads alike is not seen. *)
Lemma reads_insert n i c c' us :
  n_kids n !! i = Some c -> n_name c' = n_name c ->
  (forall us, reads c' us = reads c us) ->
  reads (set_kids (<[i := c']> (n_kids n)) n) us = reads n us.
Proof.
  intros Hi Hn Hr. rewrite (reads_eta n), !reads_set_kids, set_kids_id.
  destruct us as [|[k|z|] us]; [done| | |done].
  - unfold obj_find. rewrite has_type_set, n_kids_set.
    destruct (has_type CFG_OBJ n); [|done].
    rewrite (find_idx_insert_same _ _ _ c) by (unfold name_is; by rewrite ?Hn).
    destruct (find_idx _ _) as [[j d]|] eqn:Ej; [|done].
    case_decide; [|done]. subst. apply find_idx_Some in Ej as [Ej _].
    rewrite Hi in Ej. injection Ej as ->. apply Hr.
  - rewrite arr_idx_set by apply length_insert.
    destruct (arr_idx n z) as [j|] eqn:Ej; [|done].
    destruct (decide (j = i)) as [->|Hne].
    + rewrite list_lookup_insert_eq by (by eapply lookup_lt_Some). by rewrite Hi.
    + by rewrite list_lookup_insert_ne.
Qed.

Lemma reads_init t k us : t <> CFG_STR -> reads (node_init t k) us = None.
Proof.
  intros Ht. unfold reads. destruct us as [|[x|z|] us]; [by destruct t| | |done].
  - destruct t; by cbn.
  - destruct t; try done. pose proof (walk_fresh (TokIndex z) us k eq_refl) as E.
    cbn [want_of] in E. by rewrite E.
Qed.

(** Adding an empty container is not seen. *)
Lemma reads_add_empty n t k us :
  n_type n = CFG_OBJ -> t <> CFG_STR -> obj_find n k = None ->
  reads (child_add n (node_init t (Some k))) us = reads n us.
Proof.
  intros Hn Ht Hf. unfold child_add.
  rewrite (reads_eta n), !reads_set_kids, set_kids_id.
  destruct us as [|[l|z|] us]; [done| | |done].
  - destruct (decide (k = l)) as [<-|Hne].
    + change (set_kids _ n) with (child_add n (node_init t (Some k))).
      rewrite obj_find_add, Hf by done. by apply reads_init.
    + change (set_kids _ n) with (child_add n (node_init t (Some k))).
      by rewrite (obj_find_add_ne n k l).
  - unfold arr_idx. rewrite has_type_set.
    by rewrite (proj2 (has_type_false CFG_ARR n)) by congruence.
Qed.

Lemma want_container u : want_of u <> CFG_STR.
Proof. by destruct u. Qed.

(** The object a key step works on reads like the old one. *)
Lemma key_step_reads n k t n1 i c us :
  t <> CFG_STR -> key_step n k t n1 i c -> reads n1 us = reads n us.
Proof.
  intros Ht (Hn & _ & _ & [->|(Hf & -> & ->)]); [done|]. by apply reads_add_empty.
Qed.

Lemma zoom_reads i m o n n1 c r o' n' :
  keeps (fun _ => True) m -> n_kids n1 !! i = Some c ->
  (forall us, reads n1 us = reads n us) ->
  (forall r o' c', m (o, c) = (Err r, (o', c')) -> forall us, reads c' us = reads c us) ->
  zoom i m (o, n1) = (Err r, (o', n')) ->
  forall us, reads n' us = reads n us.
Proof.
  intros Hk Hi Hn Hm H us.
  destruct (zoom_result _ _ _ _ _ _ _ _ Hi H) as (c' & Hc & ->).
  destruct (keeps_at _ _ _ _ _ _ _ Hk I Hc) as (_ & Hn' & _).
  rewrite (reads_insert _ _ c) by eauto. apply Hn.
Qed.

Lemma set_last_fail t v n e o' n' :
  set_last t v ([], n) = (Err e, (o', n')) -> n' = n.
Proof.
  intros H. destruct t as [k|z|].
  - destruct (set_plain_key k v [] n) as [[e' E]|[(o1 & E & Hne)|
      (o1 & n1 & i & c & Hk & Ho & E)]]; rewrite E in H; [by injection H|done|].
    rewrite (Ho eq_refl) in H.
    pose proof (key_step_lookup _ _ _ _ _ _ Hk) as [Hi _].
    by destruct (zoom_result _ _ _ _ _ _ _ _ Hi H) as (c' & Hm & _).
  - destruct (set_idx_last z v [] n) as [[e' E]|(i & c & Hz & Hi & Hc & E)];
      rewrite E in H; [by injection H|].
    by destruct (zoom_result _ _ _ _ _ _ _ _ Hi H) as (c' & Hm & _).
  - unfold set_last, set_arr_append in H.
    destruct (has_type CFG_ARR n); cbn in H; [done|by injection H].
Qed.

(** With enough memory, an assignment that fails leaves every string. *)
Lemma set_walk_fail ts v n e o' n' :
  Forall tok_ok ts -> set_walk ts v ([], n) = (Err e, (o', n')) ->
  forall us, reads n' us = reads n us.
Proof.
  intros Hok. revert n e o' n'. induction Hok as [|t ts Ht Hts IH];
    intros n e o' n' H us; [by injection H as _ _ <-|].
  destruct ts as [|u ts]; [by apply set_last_fail in H as ->|].
  pose proof (keeps_set_walk _ v Hts) as Hkeep. destruct t as [k|z|].
  - destruct (set_walk_key k u ts v [] n) as [[e' E]|[(o1 & E & Hne)|
      (o1 & n1 & i & c & Hk & Ho & E)]]; rewrite E in H;
      [by injection H as _ _ <-|done|].
    rewrite (Ho eq_refl) in H.
    pose proof (key_step_lookup _ _ _ _ _ _ Hk) as [Hi _].
    eapply zoom_reads; eauto using key_step_reads, want_container.
  - destruct (set_walk_idx z u ts v [] n) as [[e' E]|(i & c & Hz & Hi & E)];
      rewrite E in H; [by injection H as _ _ <-|].
    eapply zoom_reads; eauto.
  - by injection H as _ _ <-.
Qed.

(** *** Appending *)

Lemma set_walk_append ts v o n o' n' :
  Forall tok_ok ts -> Forall (fun t => is_append t = false) ts ->
  set_walk (ts ++ [TokAppend]) v (o, n) = (Ok tt, (o', n')) ->
  exists a, walk_toks ts n' = Ok a /\ n_type a = CFG_ARR /\
    n_kids a = match walk_toks ts n with Ok b => n_kids b | Err _ => [] end
               ++ [Node CFG_STR None (Some v) []].
Proof.
  intros Hok. revert o n o' n'. induction Hok as [|t ts Ht Hts IH].
  { intros o n o' n' _ H. cbn [app set_walk set_last] in H.
    unfold set_arr_append in H.
    destruct (has_type CFG_ARR n) eqn:Et; cbn [negb] in H; [|done].
    apply has_type_true in Et.
    destruct (node_new CFG_STR None o) as [[c|] o1] eqn:En; [|done].
    apply node_new_inv in En as ->. destruct (pop o1) as [[] o2]; [|done].
    injection H as <- <-. exists (child_add n (Node CFG_STR None (Some v) [])).
    unfold child_add. autorewrite with tree. by split_and!. }
  intros o n o' n' [Ha Has]%Forall_cons H.
  assert (Hts' : Forall tok_ok (ts ++ [TokAppend])).
  { apply Forall_app. split; [done|by constructor]. }
  pose proof (keeps_set_walk _ v Hts') as Hkeep.
  destruct (ts ++ [TokAppend]) as [|u us] eqn:Eu; [by destruct ts|].
  cbn [app] in H. rewrite Eu in H. destruct t as [k|z|]; [| |done].
  - destruct (set_walk_key k u us v o n) as [[e E]|[(o1 & E & _)|
      (o1 & n1 & i & c & Hk & _ & E)]]; rewrite E in H; try done.
    pose proof (key_step_lookup _ _ _ _ _ _ Hk) as [Hi _].
    destruct Hk as (Ht0 & Hf & Hc & Hor).
    destruct (zoom_result _ _ _ _ _ _ _ _ Hi H) as (c' & Hm & ->).
    destruct (keeps_at _ _ _ _ _ _ _ Hkeep I Hm) as (_ & Hn' & _).
    erewrite walk_key_insert by eauto.
    destruct (IH _ _ _ _ Has Hm) as (a & Hw & Hat & Hka). exists a.
    split_and!; [done..|]. rewrite Hka. f_equal.
    destruct Hor as [->|(Hnone & -> & ->)]; [by erewrite walk_key_found by eauto|].
    cbn [walk_toks]. rewrite (proj2 (has_type_true _ _) Ht0), Hnone. cbn [negb].
    destruct ts as [|w ts]; [by injection Eu as <- _|].
    injection Eu as -> _. apply Forall_cons in Has as [Hw' _].
    by rewrite walk_fresh.
  - destruct (set_walk_idx z u us v o n) as [[e E]|(i & c & Hz & Hi & E)];
      rewrite E in H; [done|].
    destruct (zoom_result _ _ _ _ _ _ _ _ Hi H) as (c' & Hm & ->).
    erewrite walk_idx_insert, walk_idx_found by eauto. by eapply IH.
Qed.

(** *** Deleting *)

Lemma wf_unlink p i : wf_node p -> wf_node (unlink i p).
Proof.
  intros H. destruct H as [|name kids H1 H2|name kids H1 H2 H3]; unfold unlink; cbn.
  - constructor.
  - constructor; by apply Forall_delete.
  - constructor; [by apply Forall_delete| |by apply Forall_delete].
    eapply sublist_NoDup; [exact H2|].
    change (map n_name (delete i kids)) with (n_name <$> delete i kids).
    rewrite list_fmap_delete. apply sublist_delete.
Qed.

(** Names are distinct, so the unlinked child was the only one with its name. *)
Lemma unlink_not_found n k i c :
  wf_node n -> obj_find n k = Some (i, c) -> obj_find (unlink i n) k = None.
Proof.
  intros Hw Hf. unfold obj_find, unlink in *. rewrite has_type_set, n_kids_set.
  destruct (has_type CFG_OBJ n) eqn:Et; [|done]. apply has_type_true in Et.
  destruct Hw as [| |name kids _ Hnd _]; [done..|]. cbn in *. clear Et.
  revert i Hf. induction kids as [|a l IH]; intros i Hf; [done|].
  apply NoDup_cons in Hnd as [Hn Hnd]. cbn [find_idx] in Hf.
  destruct (name_is k a) eqn:Ea.
  - injection Hf as <- <-. cbn. apply find_idx_None, Forall_forall. intros d Hd.
    destruct (name_is k d) eqn:Ed; [|done]. exfalso. apply Hn.
    apply name_is_true in Ea, Ed. apply list_elem_of_fmap.
    exists d. split; [congruence|done].
  - destruct (find_idx (name_is k) l) as [[j d]|] eqn:Ej; [|done].
    injection Hf as <- <-. change (delete (S j) (a :: l)) with (a :: delete j l).
    cbn [find_idx]. rewrite Ea. by rewrite (IH Hnd j eq_refl).
Qed.

Lemma in_child_inv i f p p' :
  in_child i f p = Ok p' ->
  exists c c', n_kids p !! i = Some c /\ f c = Ok c' /\
    p' = set_kids (<[i := c']> (n_kids p)) p.
Proof.
  unfold in_child. destruct (n_kids p !! i) as [c|]; [|done]. intros H. inv_ok. eauto.
Qed.

Lemma del_walk_cons t u ts n :
  del_walk (t :: u :: ts) n =
    match t with
    | TokAppend => Err EINVAL
    | TokIndex idx =>
      if negb (has_type CFG_ARR n) then Err ENOTDIR
      else match arr_idx n idx with
           | Err e => Err e
           | Ok i => in_child i (del_walk (u :: ts)) n
           end
    | TokKey k =>
      if negb (has_type CFG_OBJ n) then Err ENOTDIR
      else match obj_find n k with
           | Some (i, _) => in_child i (del_walk (u :: ts)) n
           | None => Err ENOENT
           end
    end.
Proof. by destruct t. Qed.

(** Deletion keeps the tree well formed and the node's place. *)
Lemma del_walk_keeps ts n n' :
  del_walk ts n = Ok n' ->
  n_type n' = n_type n /\ n_name n' = n_name n /\ (wf_node n -> wf_node n').
Proof.
  assert (Hu : forall i n, n_type (unlink i n) = n_type n /\
      n_name (unlink i n) = n_name n /\ (wf_node n -> wf_node (unlink i n))).
  { intros i m. unfold unlink. autorewrite with tree.
    split_and!; [done..|]. apply wf_unlink. }
  revert n n'. induction ts as [|t ts IH]; intros n n' H; [done|].
  destruct ts as [|u ts].
  { destruct t as [k|z|]; cbn in H; [| |done].
    - destruct (has_type CFG_OBJ n); [|done]. cbn in H. unfold del_plain in H.
      destruct (find_idx _ _) as [[? ?]|]; inv_ok. apply Hu.
    - unfold del_arr in H. destruct (has_type CFG_ARR n); [|done]. cbn in H.
      destruct (arr_idx n z); [|done]. destruct (arr_nth n _); inv_ok. apply Hu. }
  assert (Hc : forall i, in_child i (del_walk (u :: ts)) n = Ok n' ->
      n_type n' = n_type n /\ n_name n' = n_name n /\ (wf_node n -> wf_node n')).
  { intros i Hi. apply in_child_inv in Hi as (c & c' & Hi & Hd & ->).
    destruct (IH _ _ Hd) as (H1 & H2 & H3). autorewrite with tree.
    split_and!; [done..|]. intros Hw. eapply wf_insert; eauto using wf_lookup. }
  rewrite del_walk_cons in H. destruct t as [k|z|]; [| |done].
  - destruct (has_type CFG_OBJ n); [|done]. cbn [negb] in H.
    destruct (obj_find n k) as [[i c]|]; [|done]. eauto.
  - destruct (has_type CFG_ARR n); [|done]. cbn [negb] in H.
    destruct (arr_idx n z); [|done]. eauto.
Qed.

(** After deleting a key, the path names nothing. *)
Lemma del_walk_get ts k n n' :
  wf_node n -> del_walk (ts ++ [TokKey k]) n = Ok n' ->
  walk_toks (ts ++ [TokKey k]) n' = Err ENOENT.
Proof.
  revert n n'. induction ts as [|t ts IH]; intros n n' Hw H.
  { cbn in H |- *. destruct (has_type CFG_OBJ n) eqn:Et; [|done]. cbn in H.
    unfold del_plain in H.
    destruct (find_idx _ _) as [[i c]|] eqn:Ef; inv_ok.
    assert (Hf : obj_find n k = Some (i, c)) by (unfold obj_find; by rewrite Et).
    pose proof (unlink_not_found _ _ _ _ Hw Hf) as E. rewrite E.
    unfold unlink. by rewrite has_type_set, Et. }
  cbn [app] in H |- *.
  destruct (ts ++ [TokKey k]) as [|u us] eqn:Eu; [by destruct ts|].
  rewrite del_walk_cons in H. destruct t as [x|z|]; [| |done].
  - destruct (has_type CFG_OBJ n); [|done]. cbn [negb] in H.
    destruct (obj_find n x) as [[i c]|] eqn:Ef; [|done].
    apply in_child_inv in H as (c0 & c' & Hi & Hd & ->).
    pose proof (obj_find_inv _ _ _ _ Ef) as (_ & Hi' & _).
    rewrite Hi in Hi'. injection Hi' as ->.
    erewrite walk_key_insert by (eauto; by apply del_walk_keeps in Hd as (_ & ? & _)).
    eapply IH; [by eapply wf_lookup|done].
  - destruct (has_type CFG_ARR n); [|done]. cbn [negb] in H.
    destruct (arr_idx n z) as [i|] eqn:Ez; [|done].
    apply in_child_inv in H as (c & c' & Hi & Hd & ->).
    erewrite walk_idx_insert by eauto. eapply IH; [by eapply wf_lookup|done].
Qed.

(** A lookup depends only on the child it goes to. *)
Lemma walk_key_same us l n n' :
  n_type n' = n_type n -> snd <$> obj_find n' l = snd <$> obj_find n l ->
  walk_toks (TokKey l :: us) n' = walk_toks (TokKey l :: us) n.
Proof.
  intros Ht Hf. cbn. unfold has_type. rewrite Ht.
  destruct (obj_find n' l) as [[? ?]|], (obj_find n l) as [[? ?]|]; by simplify_eq/=.
Qed.

Lemma unlink_find_ne n k l i c :
  obj_find n k = Some (i, c) -> k <> l ->
  snd <$> obj_find (unlink i n) l = snd <$> obj_find n l.
Proof.
  intros Hf Hne. pose proof (obj_find_inv _ _ _ _ Hf) as (_ & Hi & Hn).
  unfold obj_find, unlink. rewrite has_type_set, n_kids_set.
  destruct (has_type CFG_OBJ n); [|done]. eapply find_idx_delete_ne; [done|].
  destruct (name_is l c) eqn:E; [|done]. apply name_is_true in E. congruence.
Qed.

(** Deleting a key, or below it, does not touch its siblings. *)
Lemma del_walk_sibling k ts l us n n' :
  del_walk (TokKey k :: ts) n = Ok n' -> k <> l ->
  walk_toks (TokKey l :: us) n' = walk_toks (TokKey l :: us) n.
Proof.
  intros H Hne. pose proof (del_walk_keeps _ _ _ H) as (Ht & _ & _).
  apply walk_key_same; [done|]. destruct ts as [|u ts].
  - cbn in H. destruct (has_type CFG_OBJ n) eqn:Et; [|done]. cbn in H.
    unfold del_plain in H. destruct (find_idx _ _) as [[i c]|] eqn:Ef; inv_ok.
    eapply unlink_find_ne; [|done]. unfold obj_find. by rewrite Et.
  - rewrite del_walk_cons in H. destruct (has_type CFG_OBJ n); [|done]. cbn [negb] in H.
    destruct (obj_find n k) as [[i c]|] eqn:Ef; [|done].
    apply in_child_inv in H as (c0 & c' & Hi & Hd & ->).
    pose proof (obj_find_inv _ _ _ _ Ef) as (_ & Hi' & Hk). simplify_eq.
    apply del_walk_keeps in Hd as (_ & Hn & _).
    erewrite obj_find_insert_ne; [done|done|exact Hk|congruence|done].
Qed.

Lemma del_walk_frame ts us n n' :
  del_walk ts n = Ok n' -> diverge ts us -> walk_toks us n' = walk_toks us n.
Proof.
  intros H (pre & k & l & ts' & us' & -> & -> & Hne). revert n n' H.
  induction pre as [|t pre IH]; intros n n' H; [by eapply del_walk_sibling|].
  cbn [app] in *. destruct (pre ++ TokKey k :: ts') as [|u ts] eqn:Eu; [by destruct pre|].
  rewrite del_walk_cons in H. destruct t as [x|z|]; [| |done].
  - destruct (has_type CFG_OBJ n); [|done]. cbn [negb] in H.
    destruct (obj_find n x) as [[i c]|] eqn:Ef; [|done].
    apply in_child_inv in H as (c0 & c' & Hi & Hd & ->).
    pose proof (obj_find_inv _ _ _ _ Ef) as (_ & Hi' & _). simplify_eq.
    erewrite walk_key_insert by (eauto; by apply del_walk_keeps in Hd as (_ & ? & _)).
    rewrite (walk_key_found _ _ _ _ _ Ef). by apply IH.
  - destruct (has_type CFG_ARR n); [|done]. cbn [negb] in H.
    destruct (arr_idx n z) as [i|] eqn:Ez; [|done].
    apply in_child_inv in H as (c & c' & Hi & Hd & ->).
    erewrite walk_idx_insert by eauto. rewrite (walk_idx_found _ _ _ _ _ Ez Hi). by apply IH.
Qed.

(** The last token takes one child out of the node it is looked up in. *)
Definition takes_out (t : cfg_tok) (l1 l2 : list cfg_node) (c : cfg_node) : Prop :=
  match t with
  | TokKey k => n_name c = Some k
  | TokIndex idx =>
    Z.of_nat (length l1) =
      (if (idx <? 0)%Z then Z.of_nat (length l1 + S (length l2)) + idx else idx)%Z
  | TokAppend => False
  end.

Lemma unlink_split i n c :
  n_kids n !! i = Some c ->
  exists l1 l2, n_kids n = l1 ++ c :: l2 /\ length l1 = i /\ unlink i n = set_kids (l1 ++ l2) n.
Proof.
  intros Hi. pose proof (lookup_lt_Some _ _ _ Hi). exists (take i (n_kids n)), (drop (S i) (n_kids n)).
  split_and!; [by rewrite take_drop_middle|rewrite length_take; lia|].
  unfold unlink. by rewrite delete_take_drop.
Qed.

Lemma del_walk_last t n n' :
  del_walk [t] n = Ok n' ->
  exists l1 c l2, n_kids n = l1 ++ c :: l2 /\ takes_out t l1 l2 c /\
    n' = set_kids (l1 ++ l2) n.
Proof.
  destruct t as [k|z|]; cbn; intros H; [| |done].
  - destruct (has_type CFG_OBJ n); [|done]. cbn in H. unfold del_plain in H.
    destruct (find_idx _ _) as [[i c]|] eqn:Ef; inv_ok.
    apply find_idx_Some in Ef as (Hi & Hn & _). apply name_is_true in Hn.
    destruct (unlink_split _ _ _ Hi) as (l1 & l2 & E & _ & ->). by exists l1, c, l2.
  - unfold del_arr, arr_nth in H. destruct (has_type CFG_ARR n) eqn:Et; [|done]. cbn in H.
    destruct (arr_idx n z) as [i|] eqn:Ez; [|done].
    destruct (n_kids n !! i) as [c|] eqn:Hi; [|done]. injection H as <-.
    destruct (unlink_split _ _ _ Hi) as (l1 & l2 & E & El & ->). exists l1, c, l2.
    split_and!; [done| |done]. unfold arr_idx, n_child in Ez. rewrite Et, E, length_app in Ez.
    cbn in *. destruct (Z.leb_spec 0 z); inv_ok; breflect.
    + rewrite (proj2 (Z.ltb_ge _ _)) by lia. lia.
    + apply Z.ltb_ge in E0. rewrite (proj2 (Z.ltb_lt _ _)) by lia. lia.
Qed.

(** A deletion is the deletion in the node its path leads to. *)
Lemma del_walk_at ts t n n' :
  del_walk (ts ++ [t]) n = Ok n' ->
  exists a a', walk_toks ts n = Ok a /\ del_walk [t] a = Ok a' /\ walk_toks ts n' = Ok a'.
Proof.
  revert n n'. induction ts as [|u ts IH]; intros n n' H; [by exists n, n'|].
  cbn [app] in H. destruct (ts ++ [t]) as [|w us] eqn:Eu; [by destruct ts|].
  rewrite del_walk_cons in H. destruct u as [x|z|]; [| |done].
  - destruct (has_type CFG_OBJ n); [|done]. cbn [negb] in H.
    destruct (obj_find n x) as [[i c]|] eqn:Ef; [|done].
    apply in_child_inv in H as (c0 & c' & Hi & Hd & ->).
    pose proof (obj_find_inv _ _ _ _ Ef) as (_ & Hi' & _). simplify_eq.
    erewrite walk_key_insert by (eauto; by apply del_walk_keeps in Hd as (_ & ? & _)).
    rewrite (walk_key_found _ _ _ _ _ Ef). by apply IH.
  - destruct (has_type CFG_ARR n); [|done]. cbn [negb] in H.
    destruct (arr_idx n z) as [i|] eqn:Ez; [|done].
    apply in_child_inv in H as (c & c' & Hi & Hd & ->).
    erewrite walk_idx_insert by eauto. rewrite (walk_idx_found _ _ _ _ _ Ez Hi). by apply IH.
Qed.

(** *** Enough memory stays enough *)

Lemma zoom_nil i m n :
  (forall c, fst (snd (m ([], c))) = []) -> fst (snd (zoom i m ([], n))) = [].
Proof.
  intros Hm. unfold zoom. destruct (n_kids n !! i) as [c|]; [|done].
  specialize (Hm c). by destruct (m ([], c)) as [r [o' c']].
Qed.

Lemma set_walk_nil ts v n : fst (snd (set_walk ts v ([], n))) = [].
Proof.
  assert (Hs : forall c, fst (snd (store_val v ([], c))) = []) by done.
  revert n. induction ts as [|t ts IH]; intros n; [done|].
  destruct ts as [|u ts].
  - cbn [set_walk]. destruct t as [k|z|].
    + destruct (set_plain_key k v [] n) as [[e E]|[(o1 & E & ?)|
        (o1 & n1 & i & c & _ & Ho & E)]]; rewrite E; [done..|].
      rewrite (Ho eq_refl). by apply zoom_nil.
    + destruct (set_idx_last z v [] n) as [[e E]|(i & c & _ & _ & _ & E)];
        rewrite E; [done|]. by apply zoom_nil.
    + cbn. unfold set_arr_append. by destruct (has_type CFG_ARR n).
  - destruct t as [k|z|]; [| |done].
    + destruct (set_walk_key k u ts v [] n) as [[e E]|[(o1 & E & ?)|
        (o1 & n1 & i & c & _ & Ho & E)]]; rewrite E; [done..|].
      rewrite (Ho eq_refl). by apply zoom_nil.
    + destruct (set_walk_idx z u ts v [] n) as [[e E]|(i & c & _ & _ & E)];
        rewrite E; [done|]. by apply zoom_nil.
Qed.

(** *** Paths and tokens *)

Lemma cfg_get_node_toks cfg p ts :
  parse_path p CFG_PATH_DEPTH_MAX = Ok ts -> cfg_get_node cfg p = walk_toks ts cfg.
Proof.
  intros H. unfold cfg_get_node, walk_get. destruct p as [|c p]; [|by rewrite H].
  by injection H as <-.
Qed.

Lemma cfg_set_str_toks p v s ts :
  parse_path p CFG_PATH_DEPTH_MAX = Ok ts -> cfg_set_str p v s = set_walk ts v s.
Proof. intros H. unfold cfg_set_str. by rewrite H. Qed.

Lemma cfg_get_str_reads cfg p ts s :
  parse_path p CFG_PATH_DEPTH_MAX = Ok ts ->
  cfg_get_str cfg p = Ok s <-> reads cfg ts = Some s.
Proof.
  intros H. unfold cfg_get_str, reads, str_of. rewrite (cfg_get_node_toks _ _ _ H).
  destruct (walk_toks ts cfg) as [c|e]; cbn; [|done].
  destruct (has_type CFG_STR c); split; congruence.
Qed.

Lemma cfg_get_str_noparse cfg p e :
  parse_path p CFG_PATH_DEPTH_MAX = Err e -> cfg_get_str cfg p = Err e.
Proof.
  intros H. unfold cfg_get_str, cfg_get_node, walk_get.
  destruct p; [done|]. by rewrite H.
Qed.

Lemma cfg_set_str_keeps o cfg p v :
  wf_node cfg -> wf_node (snd (snd (cfg_set_str p v (o, cfg)))).
Proof.
  intros H. unfold cfg_set_str.
  destruct (parse_path p CFG_PATH_DEPTH_MAX) as [ts|e] eqn:E; [|done].
  apply parse_path_toks in E as [E _]. by apply keeps_set_walk.
Qed.

(** A configuration for the examples. *)
Definition sample_tree : cfg_node :=
  Node CFG_OBJ None None
    [Node CFG_OBJ (Some (#"bridge")) None
       [Node CFG_STR (Some (#"name")) (Some (#"br0")) [];
        Node CFG_ARR (Some (#"ports")) None
          [Node CFG_STR None (Some (#"eth1")) []]]].

Lemma sample_tree_wf : wf_node sample_tree.
Proof.
  repeat match goal with
  | |- key_ok _ => compute_decide
  | |- NoDup _ => compute_decide
  | |- _ /\ _ => split
  | |- exists _, _ => eexists; split; [reflexivity|]
  | |- _ => constructor
  end.
Qed.

(** ** Properties *)

(** C26: whatever the path, the value, the outcome and the failing allocations,
    [cfg_set_str] leaves a well-formed tree: distinct valid keys in objects,
    only strings in arrays, nothing below strings. *)
Theorem cfg_set_str_wf (o : oracle) (cfg : cfg_node) (p v : cstr) :
  wf_node cfg -> wf_node (snd (snd (cfg_set_str p v (o, cfg)))).
Proof. apply cfg_set_str_keeps. Qed.

Lemma cfg_set_str_wf_witness :
  wf_node (snd (snd (cfg_set_str (#"bridge.ports[0]") (#"eth2") ([true], sample_tree)))).
Proof. apply (cfg_set_str_wf [true] sample_tree). exact sample_tree_wf. Defined.

(** C24: after a successful [cfg_set_str] to a path without an append token,
    [cfg_get_str] of that path gives the value. *)
Theorem cfg_set_str_get (o o' : oracle) (cfg cfg' : cfg_node) (p v : cstr)
    (ts : list cfg_tok) :
  parse_path p CFG_PATH_DEPTH_MAX = Ok ts ->
  Forall (fun t => is_append t = false) ts ->
  cfg_set_str p v (o, cfg) = (Ok tt, (o', cfg')) ->
  cfg_get_str cfg' p = Ok v.
Proof.
  intros Hp Ha H. rewrite (cfg_set_str_toks _ _ _ _ Hp) in H.
  apply set_walk_get in H as (c & Hw & Hs); [|by eapply parse_path_toks|done].
  unfold cfg_get_str. by rewrite (cfg_get_node_toks _ _ _ Hp), Hw.
Qed.

Lemma cfg_set_str_get_witness :
  cfg_get_str (snd (snd (cfg_set_str (#"bridge.ports[-1]") (#"eth2") ([], sample_tree))))
    (#"bridge.ports[-1]") = Ok (#"eth2").
Proof.
  apply (cfg_set_str_get [] [] sample_tree _ _ _
           [TokKey (#"bridge"); TokKey (#"ports"); TokIndex (-1)]).
  - vm_compute. reflexivity.
  - repeat constructor.
  - vm_compute. reflexivity.
Defined.

(** C25: [cfg_set_str], successful or not and whatever allocations fail, changes
    nothing at or below a path that parts from the written one at a key (paths
    that part at an array index are not covered). *)
Theorem cfg_set_str_frame (o : oracle) (cfg : cfg_node) (p q v : cstr)
    (ts us : list cfg_tok) :
  parse_path p CFG_PATH_DEPTH_MAX = Ok ts ->
  parse_path q CFG_PATH_DEPTH_MAX = Ok us ->
  diverge ts us -> Forall (fun t => is_append t = false) us ->
  cfg_get_node (snd (snd (cfg_set_str p v (o, cfg)))) q = cfg_get_node cfg q.
Proof.
  intros Hp Hq Hd Ha. rewrite (cfg_set_str_toks _ _ _ _ Hp).
  rewrite !(cfg_get_node_toks _ _ _ Hq). apply set_walk_frame; [done| |done].
  by eapply parse_path_toks.
Qed.

Lemma cfg_set_str_frame_witness :
  cfg_get_node (snd (snd (cfg_set_str (#"bridge.addr") (#"10.0.0.1/24") ([], sample_tree))))
    (#"bridge.name") = Ok (Node CFG_STR (Some (#"name")) (Some (#"br0")) []).
Proof.
  rewrite (cfg_set_str_frame [] sample_tree _ _ _
    [TokKey (#"bridge"); TokKey (#"addr")] [TokKey (#"bridge"); TokKey (#"name")]).
  - vm_compute. reflexivity.
  - vm_compute. reflexivity.
  - vm_compute. reflexivity.
  - exists [TokKey (#"bridge")], (#"addr"), (#"name"), [], []. done.
  - repeat constructor.
Defined.

(** C27: a [cfg_set_str] that fails although every allocation succeeds (a bad
    path, a path through a value, an index out of range) leaves every string of
    the tree readable at the same paths and adds none; all it may leave behind are
    empty containers. *)
Theorem cfg_set_str_fail_reads (cfg cfg' : cfg_node) (o' : oracle) (p v : cstr)
    (e : errno) :
  cfg_set_str p v ([], cfg) = (Err e, (o', cfg')) ->
  forall q s, cfg_get_str cfg' q = Ok s <-> cfg_get_str cfg q = Ok s.
Proof.
  intros H q s. unfold cfg_set_str in H.
  destruct (parse_path p CFG_PATH_DEPTH_MAX) as [ts|e'] eqn:Hp; [|by injection H as _ _ <-].
  destruct (parse_path q CFG_PATH_DEPTH_MAX) as [us|e''] eqn:Hq.
  - rewrite !(cfg_get_str_reads _ _ _ _ Hq).
    rewrite (set_walk_fail _ _ _ _ _ _ (proj1 (parse_path_toks _ _ _ Hp)) H). done.
  - by rewrite !(cfg_get_str_noparse _ _ _ Hq).
Qed.

Lemma cfg_set_str_fail_reads_witness :
  cfg_get_str (snd (snd (cfg_set_str (#"vlan.tags[0]") (#"7") ([], sample_tree))))
    (#"bridge.ports[0]") = Ok (#"eth1").
Proof.
  apply (proj2 (cfg_set_str_fail_reads sample_tree _ [] (#"vlan.tags[0]") (#"7") ENOENT
    ltac:(vm_compute; reflexivity) (#"bridge.ports[0]") (#"eth1"))).
  vm_compute. reflexivity.
Defined.

(** Out of memory is different: when the copy of the value fails, the new key
    stays and reads as an empty string. *)
Example cfg_set_str_nomem :
  let '(rc, (_, cfg')) :=
    cfg_set_str (#"bridge.mtu") (#"1500") ([true; true; false], sample_tree) in
  rc = Err ENOMEM /\ cfg_get_str sample_tree (#"bridge.mtu") = Err ENOENT /\
  cfg_get_str cfg' (#"bridge.mtu") = Ok [].
Proof. vm_compute. done. Qed.

(** Assigning to [path[]] appends one string to the array at [path], which
    is created empty when it is not there; its other elements stay. *)
Lemma cfg_set_str_append (o o' : oracle) (cfg cfg' : cfg_node) (p v : cstr)
    (ts : list cfg_tok) :
  parse_path p CFG_PATH_DEPTH_MAX = Ok (ts ++ [TokAppend]) ->
  Forall (fun t => is_append t = false) ts ->
  cfg_set_str p v (o, cfg) = (Ok tt, (o', cfg')) ->
  exists a, walk_toks ts cfg' = Ok a /\ n_type a = CFG_ARR /\
    n_kids a = match walk_toks ts cfg with Ok b => n_kids b | Err _ => [] end
               ++ [Node CFG_STR None (Some v) []].
Proof.
  intros Hp Ha H. rewrite (cfg_set_str_toks _ _ _ _ Hp) in H.
  apply parse_path_toks in Hp as [Hp%Forall_app _].
  by apply set_walk_append with (1 := proj1 Hp) in H.
Qed.

(** C28: a successful [cfg_del] keeps the tree well-formed and takes exactly one
    child out of the object or array at the path before the last token, the
    child of that key or at that index (counted from the end when negative), the
    others keeping their order; a deleted key is gone (looking it up gives
    ENOENT), and nothing changes at or below a path that parts from the deleted
    one at a key. *)
Theorem cfg_del_gone (cfg cfg' : cfg_node) (p : cstr) (ts : list cfg_tok) (t : cfg_tok) :
  wf_node cfg ->
  parse_path p CFG_PATH_DEPTH_MAX = Ok (ts ++ [t]) ->
  cfg_del cfg p = Ok cfg' ->
  wf_node cfg' /\
  (exists a l1 c l2, walk_toks ts cfg = Ok a /\ n_kids a = l1 ++ c :: l2 /\
     takes_out t l1 l2 c /\ walk_toks ts cfg' = Ok (set_kids (l1 ++ l2) a)) /\
  (forall k, t = TokKey k -> cfg_get_node cfg' p = Err ENOENT) /\
  (forall q us, parse_path q CFG_PATH_DEPTH_MAX = Ok us -> diverge (ts ++ [t]) us ->
     cfg_get_node cfg' q = cfg_get_node cfg q).
Proof.
  intros Hw Hp H. unfold cfg_del in H. rewrite Hp in H. cbn [mbind result_bind] in H.
  split_and!; [by apply (del_walk_keeps _ _ _ H)| | |].
  - destruct (del_walk_at _ _ _ _ H) as (a & a' & Ha & Hd & Ha').
    destruct (del_walk_last _ _ _ Hd) as (l1 & c & l2 & E & Ht & ->).
    by exists a, l1, c, l2.
  - intros k ->. rewrite (cfg_get_node_toks _ _ _ Hp). by apply (del_walk_get _ _ _ _ Hw H).
  - intros q us Hq Hd. rewrite !(cfg_get_node_toks _ _ _ Hq). by eapply del_walk_frame.
Qed.

Lemma cfg_del_gone_witness :
  exists cfg', cfg_del sample_tree (#"bridge.ports[-1]") = Ok cfg' /\
    exists a l1 c l2, walk_toks [TokKey (#"bridge"); TokKey (#"ports")] sample_tree = Ok a /\
      n_kids a = l1 ++ c :: l2 /\ takes_out (TokIndex (-1)) l1 l2 c /\
      walk_toks [TokKey (#"bridge"); TokKey (#"ports")] cfg' = Ok (set_kids (l1 ++ l2) a).
Proof.
  eexists. split; [vm_compute; reflexivity|].
  apply (cfg_del_gone sample_tree _ (#"bridge.ports[-1]")
    [TokKey (#"bridge"); TokKey (#"ports")] (TokIndex (-1))).
  - exact sample_tree_wf.
  - vm_compute. reflexivity.
  - vm_compute. reflexivity.
Defined.
