(* ===== verification/CfgFile.v ===== *)
(** The line-based configuration file of cfg.c: reading ([load_line],
    [parse_value], [cfg_load]) and writing ([quote], [dump_node], [cfg_dump]),
    and that reading a written file gives the tree back. *)
From S2P Require Import Prelude CLib CfgPath CfgTree.

Set Warnings "-register-all,-clear-no-such-hyp".

(** ** Reading *)

Definition is_blank (c : ascii) : bool := Ascii.eqb c " " || Ascii.eqb c TAB.

Definition rstrip (p : ascii -> bool) (s : cstr) : cstr :=
  reverse (drop_while p (reverse s)).

Definition trim (s : cstr) : cstr := rstrip is_blank (drop_while is_blank s).

Definition trim_eol (s : cstr) : cstr :=
  rstrip (fun c => Ascii.eqb c LF || Ascii.eqb c CR) s.

(** The copying loop of a quoted value: the value and the text after the
    closing quote. *)
Fixpoint unquote (s : cstr) : result (cstr * cstr) :=
  match s with
  | [] => Err EINVAL
  | c :: s' =>
    if Ascii.eqb c DQUOTE then Ok ([], s')
    else if Ascii.eqb c BSLASH then
      match s' with
      | [] => Err EINVAL
      | d :: s'' =>
        '(v, r) ← unquote s'';
        Ok ((if Ascii.eqb d "n" then LF
             else if Ascii.eqb d "t" then TAB else d) :: v, r)
      end
    else '(v, r) ← unquote s'; Ok (c :: v, r)
  end.

(** [*out = xstrdup(s); return *out ? 0 : -ENOMEM;] *)
Definition dup (s : cstr) : ST oracle cstr :=
  fun o => let '(ok, o) := pop o in (if ok then Ok s else Err ENOMEM, o).

Definition parse_value (src : cstr) : ST oracle cstr :=
  match trim src with
  | [] => dup []
  | q :: body =>
    if negb (Ascii.eqb q DQUOTE) then
      dup (trim (match strchr "#" (q :: body) with
                 | Some (before, _) => before
                 | None => q :: body
                 end))
    else fun o =>
      let '(ok, o) := pop o in
      if negb ok then (Err ENOMEM, o)
      else ('(v, r) ← unquote body;
            let r := trim r in
            if negb (bool_decide (r = [])) && negb (Ascii.eqb (peek r) "#")
            then Err EINVAL else Ok v, o)
  end.

Definition load_line (line : cstr) : ST tree_st unit :=
  fun '(o, cfg) =>
    let key := trim line in
    if bool_decide (key = []) || Ascii.eqb (peek key) "#" then (Ok tt, (o, cfg))
    else match strchr "=" key with
         | None => (Err EINVAL, (o, cfg))
         | Some (before, after) =>
           let key := trim before in
           let eq := trim after in
           if bool_decide (key = []) then (Err EINVAL, (o, cfg))
           else match path_file_ok key with
                | Err e => (Err e, (o, cfg))
                | Ok _ =>
                  match parse_value eq o with
                  | (Err e, o) => (Err e, (o, cfg))
                  | (Ok val, o) => cfg_set_str key val (o, cfg)
                  end
                end
         end.

Definition CFG_LINE_SZ : nat := 4096.

(** The loop of [cfg_load] over what [fgets] returns. *)
Fixpoint load_lines (ls : list (list ascii * bool)) : ST tree_st unit :=
  match ls with
  | [] => mret tt
  | (buf, eof) :: ls' =>
    let line := c_string buf in
    if negb (bool_decide (LF ∈ line)) && negb eof then throw E2BIG
    else _ ← load_line (trim_eol line); load_lines ls'
  end.

(** [cfg_load]: [file] is what [fopen] gives, the bytes of the file or an
    error.  On an error the tree is freed. *)
Definition cfg_load (o : oracle) (file : result (list ascii))
  : result cfg_node * oracle :=
  match file with
  | Err e => (Err e, o)
  | Ok bytes =>
    match load_lines (file_lines CFG_LINE_SZ bytes) (o, cfg_init) with
    | (Ok _, (o, cfg)) => (Ok cfg, o)
    | (Err e, (o, _)) => (Err e, o)
    end
  end.

(** ** Writing *)

(** Pending outcomes of stdio calls and the bytes written so far. *)
Abbreviation out_st := (oracle * list ascii)%type.

(** One [fputc], [fputs] or [fprintf]. *)
Definition fput (s : list ascii) : ST out_st unit :=
  fun '(o, f) =>
    let '(ok, o) := pop o in
    if ok then (Ok tt, (o, f ++ s)) else (Err EIO, (o, f)).

Fixpoint quote_loop (s : cstr) : ST out_st unit :=
  match s with
  | [] => mret tt
  | c :: s' =>
    _ ← (if Ascii.eqb c BSLASH || Ascii.eqb c DQUOTE
         then _ ← fput [BSLASH]; fput [c]
         else if Ascii.eqb c LF then fput [BSLASH; "n"%char]
         else if Ascii.eqb c TAB then fput [BSLASH; "t"%char]
         else fput [c]);
    quote_loop s'
  end.

Definition quote (s : cstr) : ST out_st unit :=
  _ ← fput [DQUOTE]; _ ← quote_loop s; fput [DQUOTE].

(** One [path = "value"] line. *)
Definition put_line (path val : cstr) : ST out_st unit :=
  _ ← fput (path ++ #" = "); _ ← quote val; fput [LF].

(** The loop over the elements of an array. *)
Fixpoint dump_items (path : cstr) (kids : list cfg_node) : ST out_st unit :=
  match kids with
  | [] => mret tt
  | c :: kids' =>
    if negb (has_type CFG_STR c) then throw EOPNOTSUPP
    else _ ← put_line (path ++ #"[]") (val_or_empty c); dump_items path kids'
  end.

(** The path of a child, or [-E2BIG] when [snprintf] cannot write it whole. *)
Definition child_path (path name : cstr) (sz : nat) : result cstr :=
  let p := if bool_decide (path = []) then name else path ++ "."%char :: name in
  if sz <=? length p then Err E2BIG else Ok p.

(** The children of an object have names ([wf_node]); the empty name stands for
    the NULL pointer of one without, which [snprintf] must not be given. *)
Fixpoint dump_node (n : cfg_node) (path : cstr) (sz : nat) : ST out_st unit :=
  match n with
  | Node CFG_STR _ _ _ => put_line path (val_or_empty n)
  | Node CFG_ARR _ _ kids => dump_items path kids
  | Node CFG_OBJ _ _ kids =>
    (fix dump_kids (kids : list cfg_node) : ST out_st unit :=
       match kids with
       | [] => mret tt
       | c :: kids' =>
         p ← lift (child_path path (default [] (n_name c)) sz);
         _ ← dump_node c p sz;
         dump_kids kids'
       end) kids
  end.

Definition CFG_DUMP_PATH_SZ : nat := 512.

Definition cfg_dump_file (cfg : cfg_node) : ST out_st unit :=
  dump_node cfg [] CFG_DUMP_PATH_SZ.

(** The end of [cfg_dump]: [fflush], [fclose], and [remove] after an error;
    [io] is the errno of a failing [fflush] or [fclose]. *)
Definition dump_close (io : errno) (rc : result unit) (o : oracle) (f : list ascii)
  : result unit * option (list ascii) :=
  let '(rc, o) :=
    if is_ok rc then
      let '(ok, o) := pop o in (if ok then rc else Err io, o)
    else (rc, o) in
  let '(ok, o) := pop o in
  let rc := if negb ok && is_ok rc then Err io else rc in
  (rc, if is_ok rc then Some f else None).

(** [cfg_dump]: the outcome and the file it leaves at the path, if any.
    [fopen_rc] is the outcome of [fopen]. *)
Definition cfg_dump (fopen_rc : result unit) (io : errno) (cfg : cfg_node)
    (o : oracle) : result unit * option (list ascii) :=
  match fopen_rc with
  | Err e => (Err e, None)
  | Ok _ => let '(rc, (o, f)) := cfg_dump_file cfg (o, []) in dump_close io rc o f
  end.

(** ** What a file says *)

Definition esc (c : ascii) : cstr :=
  if Ascii.eqb c BSLASH || Ascii.eqb c DQUOTE then [BSLASH; c]
  else if Ascii.eqb c LF then [BSLASH; "n"%char]
  else if Ascii.eqb c TAB then [BSLASH; "t"%char]
  else [c].

Definition quoted (v : cstr) : cstr := DQUOTE :: concat (map esc v) ++ [DQUOTE].

(** The assignments a tree stands for, in the order they are written. *)
Fixpoint leaves (n : cfg_node) : list (list cfg_tok * cstr) :=
  match n with
  | Node CFG_STR _ _ _ => [([], val_or_empty n)]
  | Node CFG_ARR _ _ kids => map (fun c => ([TokAppend], val_or_empty c)) kids
  | Node CFG_OBJ _ _ kids =>
    (fix kid_leaves (kids : list cfg_node) : list (list cfg_tok * cstr) :=
       match kids with
       | [] => []
       | c :: kids' =>
         map (fun l => (TokKey (default [] (n_name c)) :: fst l, snd l)) (leaves c)
         ++ kid_leaves kids'
       end) kids
  end.

Definition line_text (l : list cfg_tok * cstr) : cstr :=
  path_text (fst l) ++ #" = " ++ quoted (snd l).

Definition file_text (ls : list (list cfg_tok * cstr)) : cstr :=
  concat (map (fun l => line_text l ++ [LF]) ls).

(** Trees without what a file cannot express: empty containers below the root,
    NULL values, values with NUL bytes. *)
Inductive canon : cfg_node -> Prop :=
| canon_str name v : cstring v -> canon (Node CFG_STR name (Some v) [])
| canon_arr name kids :
    kids <> [] ->
    Forall (fun c => n_type c = CFG_STR /\ n_name c = None) kids ->
    Forall canon kids -> canon (Node CFG_ARR name None kids)
| canon_obj name kids :
    kids <> [] ->
    Forall (fun c => exists k, n_name c = Some k /\ key_ok k) kids ->
    NoDup (map n_name kids) ->
    Forall canon kids -> canon (Node CFG_OBJ name None kids).

Definition canon_root (n : cfg_node) : Prop := n = cfg_init \/ (canon n /\
  n_type n = CFG_OBJ /\ n_name n = None).

(** The assignments one after the other. *)
Fixpoint run_sets (ls : list (list cfg_tok * cstr)) : ST tree_st unit :=
  match ls with
  | [] => mret tt
  | l :: ls' => _ ← set_walk (fst l) (snd l); run_sets ls'
  end.

(** ** Lemmas *)

(** *** Trimming *)

Lemma rstrip_id p s c : p c = false -> rstrip p (s ++ [c]) = s ++ [c].
Proof.
  intros H. unfold rstrip. rewrite reverse_snoc. cbn [drop_while]. rewrite H.
  by rewrite reverse_cons, reverse_involutive.
Qed.

Lemma rstrip_drop p s r :
  Forall (fun c => p c = true) r -> rstrip p (s ++ r) = rstrip p s.
Proof.
  intros H. unfold rstrip. rewrite reverse_app, drop_while_app; [done|].
  by apply Forall_reverse.
Qed.

(** Text that begins and ends with other characters is not trimmed. *)
Lemma trim_id c s d :
  is_blank c = false -> is_blank d = false -> trim (c :: s ++ [d]) = c :: s ++ [d].
Proof.
  intros Hc Hd. unfold trim. cbn [drop_while]. rewrite Hc.
  change (c :: s ++ [d]) with ((c :: s) ++ [d]). by apply rstrip_id.
Qed.

Lemma trim_lblank s : trim (" "%char :: s) = trim s.
Proof. done. Qed.

Lemma trim_rblank c s : is_blank c = false ->
  trim ((c :: s) ++ [" "%char]) = trim (c :: s).
Proof.
  intros H. unfold trim. cbn [app drop_while]. rewrite H.
  change (c :: s ++ [" "%char]) with ((c :: s) ++ [" "%char]).
  apply rstrip_drop. by constructor.
Qed.

(** *** Values *)

Lemma unquote_quoted v r :
  unquote (concat (map esc v) ++ DQUOTE :: r) = Ok (v, r).
Proof.
  induction v as [|c v IH]; [done|].
  cbn [map concat]. rewrite <- app_assoc. unfold esc at 1.
  destruct (Ascii.eqb c BSLASH || Ascii.eqb c DQUOTE) eqn:E1.
  { cbn. rewrite IH. cbn.
    apply orb_true_iff in E1 as [E|E]; breflect; by subst. }
  apply orb_false_iff in E1 as [Eb Eq].
  destruct (Ascii.eqb c LF) eqn:E2; [breflect; subst; cbn; by rewrite IH|].
  destruct (Ascii.eqb c TAB) eqn:E3; [breflect; subst; cbn; by rewrite IH|].
  cbn. rewrite Eq, Eb. by rewrite IH.
Qed.

Lemma quoted_snoc v : exists s, quoted v = DQUOTE :: s ++ [DQUOTE].
Proof. by eexists. Qed.

Lemma parse_value_quoted v : parse_value (quoted v) [] = (Ok v, []).
Proof.
  unfold parse_value, quoted. rewrite trim_id by done.
  cbn [Ascii.eqb Bool.eqb negb pop]. by rewrite unquote_quoted.
Qed.

Lemma quote_loop_out v f :
  quote_loop v ([], f) = (Ok tt, ([], f ++ concat (map esc v))).
Proof.
  revert f. induction v as [|c v IH]; intros f; cbn -[Ascii.eqb].
  { by rewrite app_nil_r. }
  unfold esc at 1. unfold mbind, ST_bind.
  destruct (Ascii.eqb c BSLASH || Ascii.eqb c DQUOTE); cbn [fput pop].
  { rewrite IH, <- !app_assoc. done. }
  destruct (Ascii.eqb c LF); cbn [fput pop]; [by rewrite IH, <- !app_assoc|].
  destruct (Ascii.eqb c TAB); cbn [fput pop]; by rewrite IH, <- !app_assoc.
Qed.

Lemma quote_out v f : quote v ([], f) = (Ok tt, ([], f ++ quoted v)).
Proof.
  unfold quote, mbind, ST_bind. cbn [fput pop]. rewrite quote_loop_out. cbn.
  by rewrite <- !app_assoc.
Qed.

Lemma put_line_out p v f :
  put_line p v ([], f) = (Ok tt, ([], f ++ p ++ #" = " ++ quoted v ++ [LF])).
Proof.
  unfold put_line, mbind, ST_bind. cbn [fput pop]. rewrite quote_out. cbn [fput pop].
  by rewrite <- !app_assoc.
Qed.

(** *** The text of a tree *)

Lemma cfg_node_ind' (P : cfg_node -> Prop) :
  (forall t x v kids, Forall P kids -> P (Node t x v kids)) -> forall n, P n.
Proof.
  intros H. fix IH 1. intros [t x v kids]. apply H.
  induction kids as [|c kids IHk]; constructor; [apply IH|exact IHk].
Qed.

(** The children part of [leaves], outside its local fixpoint. *)
Definition under (k : cstr) (ls : list (list cfg_tok * cstr))
  : list (list cfg_tok * cstr) :=
  map (fun l => (TokKey k :: fst l, snd l)) ls.

Fixpoint kid_leaves (kids : list cfg_node) : list (list cfg_tok * cstr) :=
  match kids with
  | [] => []
  | c :: kids' => under (default [] (n_name c)) (leaves c) ++ kid_leaves kids'
  end.

Lemma leaves_obj x v kids : leaves (Node CFG_OBJ x v kids) = kid_leaves kids.
Proof. induction kids as [|c kids IH]; cbn; [done|]. by rewrite <- IH. Qed.

Fixpoint dump_kids (kids : list cfg_node) (path : cstr) (sz : nat)
  : ST out_st unit :=
  match kids with
  | [] => mret tt
  | c :: kids' =>
    p ← lift (child_path path (default [] (n_name c)) sz);
    _ ← dump_node c p sz;
    dump_kids kids' path sz
  end.

Lemma dump_obj x v kids path sz :
  dump_node (Node CFG_OBJ x v kids) path sz = dump_kids kids path sz.
Proof. induction kids as [|c kids IH]; cbn; [done|]. by rewrite <- IH. Qed.

(** The path text of tokens below the path text of a non-empty prefix. *)
Definition sub_text (ts : list cfg_tok) : cstr := concat (map tok_text ts).

Definition below (path : cstr) (ls : list (list cfg_tok * cstr)) : cstr :=
  concat (map (fun l => path ++ sub_text (fst l) ++ #" = " ++ quoted (snd l) ++ [LF]) ls).

Lemma below_app path l1 l2 : below path (l1 ++ l2) = below path l1 ++ below path l2.
Proof. unfold below. by rewrite map_app, concat_app. Qed.

Lemma below_under path k ls :
  below path (under k ls) = below (path ++ "."%char :: k) ls.
Proof.
  unfold below, under. rewrite map_map. f_equal. apply map_ext. intros [ts v]. cbn.
  by rewrite <- !app_assoc.
Qed.

Lemma dump_items_out path kids f :
  Forall (fun c => n_type c = CFG_STR) kids ->
  dump_items path kids ([], f) =
  (Ok tt, ([], f ++ below path (map (fun c => ([TokAppend], val_or_empty c)) kids))).
Proof.
  intros H. revert f. induction H as [|c kids Hc _ IH]; intros f; cbn [dump_items].
  { cbn. by rewrite app_nil_r. }
  rewrite (proj2 (has_type_true _ _) Hc). cbn [negb]. unfold mbind, ST_bind.
  rewrite put_line_out, IH. unfold below. cbn. by rewrite <- !app_assoc.
Qed.

(** A canonical tree has something to write. *)
Lemma leaves_some n : canon n -> leaves n <> [].
Proof.
  induction n as [t x v kids IH] using cfg_node_ind'. intros Hc.
  inversion Hc as [? w Hw|? ? Hne Hk Hks|? ? Hne Hk Hnd Hks]; subst; [done| |].
  - by destruct kids.
  - rewrite leaves_obj. destruct kids as [|c kids]; [done|]. cbn [kid_leaves].
    apply Forall_cons in IH as [IHc _]. apply Forall_cons in Hks as [Hcc _].
    specialize (IHc Hcc). by destruct (leaves c).
Qed.

(** A dump below a non-empty path writes the leaves in order when their paths
    fit the buffer. *)
Definition fits_below (path : cstr) (sz : nat) (ls : list (list cfg_tok * cstr)) : Prop :=
  Forall (fun l => length (path ++ sub_text (fst l)) < sz) ls.

Lemma fits_below_under path sz k ls :
  fits_below path sz (under k ls) -> fits_below (path ++ "."%char :: k) sz ls.
Proof.
  unfold fits_below, under. rewrite Forall_map. intros H.
  eapply Forall_impl; [exact H|]. intros [ts v]. unfold sub_text. cbn. rewrite !length_app. cbn. rewrite length_app. lia.
Qed.

Lemma fits_below_path path sz ls : fits_below path sz ls -> ls <> [] -> length path < sz.
Proof.
  intros H Hn. destruct H as [|l ls Hl _]; [done|]. rewrite length_app in Hl. lia.
Qed.

Lemma dump_node_out n : canon n -> forall path sz f, path <> [] ->
  fits_below path sz (leaves n) ->
  dump_node n path sz ([], f) = (Ok tt, ([], f ++ below path (leaves n))).
Proof.
  induction n as [t x v kids IH] using cfg_node_ind'. intros Hc path sz f Hp Hf.
  inversion Hc as [? w Hw|? ? Hne Hk Hks|? ? Hne Hk Hnd Hks]; subst.
  - cbn [dump_node]. rewrite put_line_out. unfold below. cbn. by rewrite app_nil_r.
  - cbn [dump_node]. rewrite dump_items_out; [done|].
    eapply Forall_impl; [exact Hk|]. by intros ? [? _].
  - rewrite dump_obj, leaves_obj in *. clear Hc Hne Hk Hnd.
    revert f. induction kids as [|c kids IHk]; intros f.
    { cbn. by rewrite app_nil_r. }
    apply Forall_cons in IH as [IHc IH]. apply Forall_cons in Hks as [Hcc Hks].
    cbn [kid_leaves] in *. unfold fits_below in Hf. apply Forall_app in Hf as [Hfc Hf].
    apply fits_below_under in Hfc.
    pose proof (fits_below_path _ _ _ Hfc (leaves_some c Hcc)) as Hl.
    cbn [dump_kids]. unfold mbind, ST_bind, lift, child_path.
    rewrite bool_decide_eq_false_2 by done.
    destruct (Nat.leb_spec sz (length (path ++ "."%char :: default [] (n_name c)))); [lia|].
    rewrite IHc by (done || by destruct path). rewrite IHk by done.
    by rewrite below_app, below_under, <- app_assoc.
Qed.

Lemma dump_kids_root kids sz f :
  Forall canon kids -> Forall (fun c => exists k, n_name c = Some k /\ k <> []) kids ->
  Forall (fun l => length (path_text (fst l)) < sz) (kid_leaves kids) ->
  dump_kids kids [] sz ([], f) = (Ok tt, ([], f ++ file_text (kid_leaves kids))).
Proof.
  intros Hc. revert f. induction Hc as [|c kids Hc Hcs IH]; intros f Hn Hf.
  { cbn. by rewrite app_nil_r. }
  apply Forall_cons in Hn as [(k & Hk & Hne) Hn]. cbn [kid_leaves] in *.
  rewrite Hk in *. cbn [default from_option] in *. apply Forall_app in Hf as [Hfc Hf].
  assert (Hb : fits_below k sz (leaves c)).
  { unfold under in Hfc. rewrite Forall_map in Hfc. exact Hfc. }
  pose proof (fits_below_path _ _ _ Hb (leaves_some c Hc)) as Hl.
  cbn [dump_kids]. unfold mbind, ST_bind, lift, child_path. rewrite Hk. cbn.
  destruct (Nat.leb_spec sz (length k)); [lia|].
  rewrite dump_node_out, IH by done.
  unfold file_text. rewrite map_app, concat_app, app_assoc. do 3 f_equal.
  unfold below, under. rewrite map_map. do 2 f_equal. apply map_ext. intros [ts v].
  unfold line_text. cbn [fst snd path_text]. by rewrite <- !app_assoc.
Qed.

(** *** Rebuilding a tree from its assignments *)

Lemma run_sets_app l1 l2 s :
  run_sets (l1 ++ l2) s =
    match run_sets l1 s with
    | (Ok _, s') => run_sets l2 s'
    | (Err e, s') => (Err e, s')
    end.
Proof.
  revert s. induction l1 as [|l l1 IH]; intros s; [done|].
  cbn [app run_sets]. unfold mbind, ST_bind.
  destruct (set_walk _ _ s) as [[[]|e] s']; [apply IH|done].
Qed.

(** Token lists that ask for a container of type [t]. *)
Definition asks (t : cfg_type) (l : list cfg_tok * cstr) : Prop :=
  exists u us, fst l = u :: us /\ want_of u = t.

Definition fresh_name (k : cstr) (kids : list cfg_node) : Prop :=
  Forall (fun c => name_is k c = false) kids.

Section rebuild.
Context (x : option cstr) (done : list cfg_node) (k : cstr).
Hypothesis Hfresh : fresh_name k done.

Let obj (kids : list cfg_node) : cfg_node := Node CFG_OBJ x None kids.

Lemma obj_find_last d :
  n_name d = Some k -> obj_find (obj (done ++ [d])) k = Some (length done, d).
Proof.
  intros Hd. unfold obj_find. cbn.
  rewrite find_idx_app_r by (by apply find_idx_None). cbn.
  rewrite (proj2 (name_is_true _ _) Hd). by rewrite Nat.add_0_r.
Qed.

Lemma obj_find_missing : obj_find (obj done) k = None.
Proof. unfold obj_find. cbn. by apply find_idx_None. Qed.

(** Asking for a missing container creates it first. *)
Lemma set_walk_create u us v :
  set_walk (TokKey k :: u :: us) v ([], obj done) =
  set_walk (TokKey k :: u :: us) v
    ([], obj (done ++ [node_init (want_of u) (Some k)])).
Proof.
  rewrite !set_walk_key_eq, obj_find_missing, obj_find_last by done.
  change (has_type CFG_OBJ (obj ?l)) with true. cbn [negb node_new pop].
  unfold has_type. cbn [n_type node_init].
  by rewrite bool_decide_eq_true_2.
Qed.

Lemma set_plain_create v :
  set_walk [TokKey k] v ([], obj done)
  = (Ok tt, ([], obj (done ++ [Node CFG_STR (Some k) (Some v) []]))).
Proof.
  cbn [set_walk set_last]. change (has_type CFG_OBJ (obj done)) with true.
  cbn [negb]. unfold set_str_plain. cbn beta iota.
  rewrite obj_find_missing. cbn [node_new pop negb].
  rewrite (zoom_some _ _ _ _ _ (lookup_child_add _ _)). cbn.
  by rewrite length_insert_snoc.
Qed.

(** Assignments below the last child run on that child. *)
Lemma set_walk_last u us v d d' :
  n_name d = Some k -> n_type d = want_of u ->
  set_walk (u :: us) v ([], d) = (Ok tt, ([], d')) ->
  set_walk (TokKey k :: u :: us) v ([], obj (done ++ [d]))
  = (Ok tt, ([], obj (done ++ [d']))).
Proof.
  intros Hn Ht Hs. rewrite set_walk_key_eq, obj_find_last by done.
  change (has_type CFG_OBJ (obj (done ++ [d]))) with true. cbn [negb].
  rewrite (proj2 (has_type_true _ _) Ht). cbn [negb].
  assert (Hl : n_kids (obj (done ++ [d])) !! length done = Some d)
    by (cbn; by rewrite list_lookup_middle).
  rewrite (zoom_some _ _ _ _ _ Hl). rewrite Hs. cbn. by rewrite length_insert_snoc.
Qed.

Lemma run_under t ls d d' :
  Forall (asks t) ls -> Forall (fun l => Forall tok_ok (fst l)) ls ->
  n_name d = Some k -> n_type d = t ->
  run_sets ls ([], d) = (Ok tt, ([], d')) ->
  run_sets (under k ls) ([], obj (done ++ [d])) = (Ok tt, ([], obj (done ++ [d']))).
Proof.
  intros Ha Ht. revert d. induction Ha as [|l ls (u & us & El & Hu) Ha IH];
    intros d Hn Hd H; cbn [run_sets under map] in *.
  { by injection H as <-. }
  apply Forall_cons in Ht as [Hl Ht]. destruct l as [ts v]. cbn [fst snd] in *.
  subst ts. unfold mbind, ST_bind in *.
  destruct (set_walk (u :: us) v ([], d)) as [[[]|e] [o1 d1]] eqn:E; [|done].
  destruct (keeps_at _ _ _ _ _ _ _ (keeps_set_walk _ v Hl) I E) as (Ht1 & Hn1 & _).
  assert (o1 = []) as ->.
  { pose proof (set_walk_nil (u :: us) v d) as Hnil. by rewrite E in Hnil. }
  erewrite set_walk_last by (eauto; congruence). apply IH; congruence.
Qed.

End rebuild.

Lemma run_create x done k t l ls :
  fresh_name k done -> asks t l ->
  run_sets (under k (l :: ls)) ([], Node CFG_OBJ x None done) =
  run_sets (under k (l :: ls))
    ([], Node CFG_OBJ x None (done ++ [node_init t (Some k)])).
Proof.
  intros Hf (u & us & El & Hu). destruct l as [ts v]. cbn [fst] in El. subst ts t.
  cbn [under map run_sets fst snd]. unfold mbind, ST_bind.
  by rewrite set_walk_create.
Qed.

Lemma arr_run x kids1 kids2 :
  Forall (fun c => n_type c = CFG_STR /\ n_name c = None) kids2 ->
  Forall canon kids2 ->
  run_sets (map (fun c => ([TokAppend], val_or_empty c)) kids2)
    ([], Node CFG_ARR x None kids1)
  = (Ok tt, ([], Node CFG_ARR x None (kids1 ++ kids2))).
Proof.
  intros Hs Hc. revert kids1. induction Hc as [|c kids Hc Hcs IH]; intros kids1.
  { cbn. by rewrite app_nil_r. }
  apply Forall_cons in Hs as [[Ht Hn] Hs].
  destruct Hc as [nm v Hv| |]; [|done..]. cbn in Hn. subst nm.
  cbn [map run_sets fst snd]. unfold mbind, ST_bind.
  change (set_walk [TokAppend] _ ([], Node CFG_ARR x None kids1)) with
    (Ok tt, (@nil bool, Node CFG_ARR x None (kids1 ++ [Node CFG_STR None (Some v) []]))).
  cbn beta iota. rewrite IH by done. by rewrite <- app_assoc.
Qed.

(** What the assignments of a canonical tree look like. *)
Definition leaf_ok (l : list cfg_tok * cstr) : Prop :=
  Forall tok_ok (fst l) /\ file_toks_ok (fst l) = true /\ cstring (snd l).

Lemma leaves_ok n : canon n -> Forall leaf_ok (leaves n).
Proof.
  induction n as [t x v kids IH] using cfg_node_ind'. intros Hc.
  inversion Hc as [? w Hw|? ? Hne Hk Hks|? ? Hne Hk Hnd Hks]; subst.
  - by repeat constructor.
  - cbn. apply Forall_map.
    eapply Forall_impl; [exact (proj2 (Forall_and _ _) (conj Hk Hks))|].
    intros c [[Ht _] Hcc]. destruct Hcc; [|done..]. by repeat constructor.
  - rewrite leaves_obj. clear Hc Hnd Hne.
    induction kids as [|c kids IHk]; [constructor|]. cbn [kid_leaves].
    apply Forall_cons in IH as [IHc IH]. apply Forall_cons in Hks as [Hcc Hks].
    apply Forall_cons in Hk as [(k & Hk1 & Hk2) Hk].
    apply Forall_app. split; [|by apply IHk]. apply Forall_map.
    eapply Forall_impl; [apply IHc, Hcc|]. intros [ts v] (H1 & H2 & H3).
    rewrite Hk1. split_and!; [by constructor|done..].
Qed.

Lemma kid_leaves_asks kids : Forall (asks CFG_OBJ) (kid_leaves kids).
Proof.
  induction kids as [|c kids IH]; [constructor|]. cbn. apply Forall_app.
  split; [|done]. apply Forall_map, Forall_forall. intros [ts v] _.
  eexists _, _. split; reflexivity.
Qed.

Definition rebuilds (c : cfg_node) : Prop := forall x done k,
  n_name c = Some k -> fresh_name k done ->
  run_sets (under k (leaves c)) ([], Node CFG_OBJ x None done)
  = (Ok tt, ([], Node CFG_OBJ x None (done ++ [c]))).

Lemma names_fresh k c done kids :
  n_name c = Some k -> NoDup (map n_name (done ++ c :: kids)) -> fresh_name k done.
Proof.
  intros Hk Hnd. rewrite map_app in Hnd. apply NoDup_app in Hnd as (_ & Hd & _).
  apply Forall_forall. intros d Hin. destruct (name_is k d) eqn:E; [|done].
  apply name_is_true in E. exfalso. apply (Hd (n_name d)).
  - by apply list_elem_of_fmap_2.
  - cbn. rewrite E, Hk. by left.
Qed.

Lemma kids_run x kids done :
  Forall rebuilds kids ->
  Forall (fun c => exists k, n_name c = Some k /\ key_ok k) kids ->
  NoDup (map n_name (done ++ kids)) ->
  run_sets (kid_leaves kids) ([], Node CFG_OBJ x None done)
  = (Ok tt, ([], Node CFG_OBJ x None (done ++ kids))).
Proof.
  intros Hr. revert done. induction Hr as [|c kids Hc Hr IH]; intros done Hk Hnd.
  { cbn. by rewrite app_nil_r. }
  apply Forall_cons in Hk as [(k & Hk1 & _) Hk]. cbn [kid_leaves].
  rewrite run_sets_app, Hk1. cbn [default from_option].
  rewrite Hc by eauto using names_fresh.
  rewrite IH; [by rewrite <- app_assoc|done|by rewrite <- app_assoc].
Qed.

Lemma canon_rebuilds c : canon c -> rebuilds c.
Proof.
  induction c as [t nm v kids IH] using cfg_node_ind'. intros Hc x done k Hn Hf.
  cbn in Hn. subst nm. pose proof (leaves_ok _ Hc) as Hlk.
  assert (Htoks : Forall (fun l => Forall tok_ok (fst l)) (leaves (Node t (Some k) v kids))).
  { eapply Forall_impl; [exact Hlk|]. by intros l [? _]. }
  inversion Hc as [? w Hw|? ? Hne Hk Hks|? ? Hne Hk Hnd Hks]; subst.
  - cbn [leaves under map run_sets fst snd]. unfold mbind, ST_bind.
    by rewrite set_plain_create.
  - pose proof (leaves_some _ Hc) as Hnil.
    destruct (leaves (Node CFG_ARR (Some k) None kids)) as [|l ls] eqn:El; [done|].
    assert (Ha : Forall (asks CFG_ARR) (l :: ls)).
    { rewrite <- El. cbn. apply Forall_map, Forall_forall. intros c _.
      by eexists _, _. }
    rewrite (run_create _ _ _ CFG_ARR) by (done || by apply Forall_cons in Ha as [? _]).
    eapply run_under; eauto; [done..|]. rewrite <- El. cbn [leaves].
    unfold node_init. by rewrite arr_run.
  - pose proof (leaves_some _ Hc) as Hnil.
    assert (Hr : Forall rebuilds kids).
    { apply Forall_forall. intros c Hin. rewrite Forall_forall in IH, Hks. eauto. }
    rewrite leaves_obj in *.
    destruct (kid_leaves kids) as [|l ls] eqn:El; [done|].
    pose proof (kid_leaves_asks kids) as Ha. rewrite El in Ha.
    rewrite (run_create _ _ _ CFG_OBJ) by (done || by apply Forall_cons in Ha as [? _]).
    eapply run_under; eauto; [done..|]. rewrite <- El.
    unfold node_init. by rewrite kids_run.
Qed.

Lemma canon_root_run n :
  canon_root n -> run_sets (leaves n) ([], cfg_init) = (Ok tt, ([], n)).
Proof.
  intros [->|(Hc & Ht & Hn)]; [done|].
  destruct Hc as [| |nm kids Hne Hk Hnd Hks]; [done..|]. cbn in Hn. subst nm.
  rewrite leaves_obj. unfold cfg_init, node_init.
  rewrite kids_run; [done| |done|done].
  eapply Forall_impl; [exact Hks|]. apply canon_rebuilds.
Qed.

(** *** Reading the lines back *)

(** Characters of a path without indices. *)
Definition path_char (c : ascii) : bool :=
  is_key_char c || Ascii.eqb c "." || Ascii.eqb c "[" || Ascii.eqb c "]".

Lemma path_char_facts c : path_char c = true ->
  is_blank c = false /\ Ascii.eqb c "#" = false /\
  (c <> "=" /\ c <> LF /\ c <> NUL)%char.
Proof.
  intros H. rewrite <- !Ascii.eqb_neq, <- !negb_true_iff, <- !andb_true_iff.
  revert c H.
  apply (ascii_impl path_char (fun c => negb (is_blank c) &&
    (negb (Ascii.eqb c "#") && (negb (Ascii.eqb c "=") && (negb (Ascii.eqb c LF)
     && negb (Ascii.eqb c NUL)))))).
  vm_compute. reflexivity.
Qed.

Lemma key_path_char c : is_key_char c = true -> path_char c = true.
Proof. intros H. unfold path_char. by rewrite H. Qed.

Lemma sub_text_chars ts :
  Forall tok_ok ts -> file_toks_ok ts = true ->
  Forall (fun c => path_char c = true) (sub_text ts).
Proof.
  induction 1 as [|t ts Ht Hts IH]; intros Hf; [constructor|].
  unfold sub_text in *. cbn [map concat]. destruct t as [k|z|]; cbn in Hf; [|done|].
  - apply Forall_app. split; [|by apply IH]. constructor; [done|].
    destruct Ht as (_ & Hk & _). eapply Forall_impl; [exact Hk|]. apply key_path_char.
  - apply bool_decide_eq_true in Hf as ->. by repeat constructor.
Qed.

(** A list of path characters does not end in a blank. *)
Lemma trim_path c p :
  Forall (fun c => path_char c = true) (c :: p) -> trim (c :: p) = c :: p.
Proof.
  intros H. unfold trim. pose proof H as [Hc _]%Forall_cons.
  cbn [drop_while]. rewrite (proj1 (path_char_facts c Hc)).
  destruct (List.exists_last (l := c :: p)) as (q & d & E); [done|]. rewrite E in *.
  apply rstrip_id. apply Forall_app in H as [_ [Hd _]%Forall_cons].
  by apply path_char_facts.
Qed.

Lemma esc_chars c : cstring [c] -> (LF ∉ esc c) /\ cstring (esc c).
Proof.
  intros [Hc _]%Forall_cons. unfold esc.
  destruct (Ascii.eqb c BSLASH || Ascii.eqb c DQUOTE) eqn:E1.
  { apply orb_true_iff in E1 as [E|E]; breflect; subst;
      (split; [set_solver|by repeat constructor]). }
  destruct (Ascii.eqb c LF) eqn:E2; [split; [set_solver|by repeat constructor]|].
  destruct (Ascii.eqb c TAB) eqn:E3; [split; [set_solver|by repeat constructor]|].
  breflect. split; [set_solver|by repeat constructor].
Qed.

Lemma quoted_chars v : cstring v -> (LF ∉ quoted v) /\ cstring (quoted v).
Proof.
  intros Hv. unfold quoted.
  assert (H : (LF ∉ concat (map esc v)) /\ cstring (concat (map esc v))).
  { induction Hv as [|c v Hc Hv IH]; [split; [set_solver|constructor]|].
    destruct (esc_chars c) as [H1 H2]; [by repeat constructor|].
    destruct IH as [H3 H4]. cbn. split; [set_solver|by apply Forall_app]. }
  destruct H as [H1 H2]. split; [set_solver|].
  constructor; [done|]. apply Forall_app. split; [done|by repeat constructor].
Qed.

Lemma path_text_chars k ts :
  key_ok k -> Forall tok_ok ts -> file_toks_ok ts = true ->
  Forall (fun c => path_char c = true) (path_text (TokKey k :: ts)).
Proof.
  intros (_ & Hk & _) Ht Hf. cbn. apply Forall_app. split.
  - eapply Forall_impl; [exact Hk|]. apply key_path_char.
  - by apply sub_text_chars.
Qed.

Lemma line_chars k ts v :
  leaf_ok (TokKey k :: ts, v) ->
  (LF ∉ line_text (TokKey k :: ts, v)) /\ cstring (line_text (TokKey k :: ts, v)).
Proof.
  intros ([Hk Ht]%Forall_cons & Hf & Hv). cbn in Hf, Hv.
  pose proof (path_text_chars k ts Hk Ht Hf) as Hp.
  destruct (quoted_chars v Hv) as [Hq1 Hq2]. unfold line_text. cbn [fst snd].
  split.
  - rewrite !not_elem_of_app. split_and!; [|unfold lit; cbn; set_solver|done].
    intros Hin. rewrite Forall_forall in Hp.
    apply Hp, path_char_facts in Hin as (_ & _ & _ & ? & _). done.
  - apply Forall_app. split; [|apply Forall_app; split; [by repeat constructor|done]].
    eapply Forall_impl; [exact Hp|]. intros c Hc.
    by apply path_char_facts in Hc as (_ & _ & _ & _ & ?).
Qed.

(** One written line, read back, is the assignment it was written for. *)
Lemma load_line_text k ts v cfg :
  leaf_ok (TokKey k :: ts, v) -> length ts < CFG_PATH_DEPTH_MAX ->
  load_line (line_text (TokKey k :: ts, v)) ([], cfg)
  = set_walk (TokKey k :: ts) v ([], cfg).
Proof.
  intros (Htok & Hf & Hv) Hl. pose proof Htok as [Hk Ht]%Forall_cons.
  cbn [fst snd] in *.
  pose proof (path_text_chars k ts Hk Ht Hf) as Hp.
  pose proof (parse_path_text k ts CFG_PATH_DEPTH_MAX Htok Hl) as Hparse.
  unfold line_text. cbn [fst snd]. set (path := path_text (TokKey k :: ts)) in *.
  assert (Hne : exists c p, path = c :: p).
  { subst path. destruct k as [|c k]; [by destruct Hk|]. by eexists _, _. }
  destruct Hne as (c & p & Ep). clearbody path. subst path.
  pose proof Hp as [Hc _]%Forall_cons. apply path_char_facts in Hc as (Hb & Hh & _).
  unfold load_line.
  assert (Htrim : trim ((c :: p) ++ #" = " ++ quoted v) = (c :: p) ++ #" = " ++ quoted v).
  { unfold quoted. change (#" = ") with [" "; "="; " "]%char. cbn [app].
    rewrite !app_comm_cons, app_assoc, <- app_comm_cons. by apply trim_id. }
  rewrite Htrim. change (peek ((c :: p) ++ #" = " ++ quoted v)) with c.
  rewrite Hh, bool_decide_eq_false_2 by done. cbn [orb].
  change ((c :: p) ++ #" = " ++ quoted v) with
    ((c :: p) ++ [" "]%char ++ "="%char :: " "%char :: quoted v).
  rewrite app_assoc, strchr_app.
  2: { rewrite not_elem_of_app. split; [|compute_decide]. intros Hin.
       rewrite Forall_forall in Hp. apply Hp, path_char_facts in Hin. by destruct Hin as (_ & _ & ? & _). }
  rewrite trim_rblank, trim_lblank, trim_path by done.
  rewrite bool_decide_eq_false_2 by done.
  unfold path_file_ok, cfg_set_str. rewrite Hparse. cbn [mbind result_bind].
  rewrite Hf. cbn [ensure].
  assert (Hq : trim (quoted v) = quoted v) by (by apply trim_id).
  rewrite Hq, parse_value_quoted. done.
Qed.

Lemma trim_eol_line s c :
  c <> LF -> c <> CR -> trim_eol ((s ++ [c]) ++ [LF]) = s ++ [c].
Proof.
  intros H1 H2. unfold trim_eol. rewrite rstrip_drop by (by repeat constructor).
  apply rstrip_id. apply orb_false_iff. split; by apply Ascii.eqb_neq.
Qed.

(** The lines fit the reader's buffers. *)
Definition leaf_fits (l : list cfg_tok * cstr) : Prop :=
  length (fst l) <= CFG_PATH_DEPTH_MAX /\ length (line_text l) + 1 < CFG_LINE_SZ.

Lemma load_file_text ls cfg :
  Forall leaf_ok ls -> Forall (asks CFG_OBJ) ls -> Forall leaf_fits ls ->
  load_lines (file_lines CFG_LINE_SZ (file_text ls)) ([], cfg)
  = run_sets ls ([], cfg).
Proof.
  intros Hok. revert cfg. induction Hok as [|l ls Hl Hok IH]; intros cfg Ha Hf; [done|].
  apply Forall_cons in Ha as [(u & us & El & Hu) Ha].
  apply Forall_cons in Hf as [[Hd Hlen] Hf].
  destruct l as [ts v]. cbn [fst] in El, Hd. subst ts.
  destruct u as [k|z|]; [|done..]. cbn [length] in Hd.
  destruct (line_chars k us v Hl) as [Hlf Hcs].
  unfold file_text. cbn [map concat]. rewrite <- app_assoc. cbn [app].
  rewrite file_lines_cons by done. cbn [load_lines].
  rewrite c_string_id.
  2: { apply Forall_app. split; [done|by repeat constructor]. }
  rewrite bool_decide_eq_true_2 by set_solver. cbn [negb andb].
  assert (Hend : exists s, line_text (TokKey k :: us, v) = s ++ [DQUOTE]).
  { unfold line_text, quoted. cbn [fst snd].
    exists (path_text (TokKey k :: us) ++ #" = " ++ DQUOTE :: concat (map esc v)).
    by rewrite <- !app_assoc. }
  destruct Hend as (s & Es). rewrite Es, trim_eol_line, <- Es by done.
  cbn [run_sets fst snd]. unfold mbind, ST_bind.
  rewrite load_line_text by (done || lia).
  pose proof (set_walk_nil (TokKey k :: us) v cfg) as Hnil.
  destruct (set_walk (TokKey k :: us) v ([], cfg)) as [[[]|e] [o c']]; [|done].
  cbn in Hnil. subst o. by apply IH.
Qed.

(** Reading the text of a tree gives the tree. *)
Lemma load_tree_text n :
  canon_root n -> Forall leaf_fits (leaves n) ->
  cfg_load [] (Ok (file_text (leaves n))) = (Ok n, []).
Proof.
  intros Hn Hfit.
  assert (Hl : Forall leaf_ok (leaves n) /\ Forall (asks CFG_OBJ) (leaves n)).
  { destruct Hn as [->|(Hc & Ht & Hn)]; [split; constructor|].
    split; [by apply leaves_ok|].
    destruct n as [t x v kids]. cbn in Ht. subst t. rewrite leaves_obj.
    apply kid_leaves_asks. }
  destruct Hl as [Hok Ha]. unfold cfg_load.
  rewrite load_file_text by done. by rewrite canon_root_run.
Qed.

(** The path buffer of the dump holds the path of an assignment. *)
Definition path_fits (l : list cfg_tok * cstr) : Prop :=
  length (path_text (fst l)) < CFG_DUMP_PATH_SZ.

Lemma cfg_dump_text n :
  canon_root n -> Forall path_fits (leaves n) ->
  cfg_dump_file n ([], []) = (Ok tt, ([], file_text (leaves n))).
Proof.
  intros [->|(Hc & Ht & _)] Hf; [done|].
  destruct Hc as [| |nm kids Hne Hk Hnd Hks]; [done..|].
  unfold cfg_dump_file. rewrite dump_obj. rewrite leaves_obj in *.
  rewrite dump_kids_root; [done|done| |done].
  eapply Forall_impl; [exact Hk|]. intros c (k & Hk1 & Hk2). exists k.
  split; [done|]. intros ->. by destruct Hk2.
Qed.

(** *** Loaded trees *)

Lemma load_line_wf line o cfg :
  wf_node cfg -> wf_node (snd (snd (load_line line (o, cfg)))).
Proof.
  intros H. unfold load_line. cbn zeta. destruct (_ || _); [done|].
  destruct (strchr "=" (trim line)) as [[before after]|]; [|done].
  case_bool_decide; [done|]. destruct (path_file_ok _); [|done].
  destruct (parse_value _ o) as [[v|e] o']; [|done].
  by apply cfg_set_str_keeps.
Qed.

Lemma load_lines_wf ls o cfg :
  wf_node cfg -> wf_node (snd (snd (load_lines ls (o, cfg)))).
Proof.
  revert o cfg. induction ls as [|[buf eof] ls IH]; intros o cfg H; [done|].
  cbn [load_lines]. destruct (_ && _); [done|].
  unfold mbind, ST_bind. pose proof (load_line_wf (trim_eol (c_string buf)) o cfg H) as W.
  destruct (load_line _ (o, cfg)) as [[[]|e] [o' cfg']]; cbn in W; [by apply IH|done].
Qed.

Lemma cfg_load_tree o file n o' : cfg_load o file = (Ok n, o') -> wf_node n.
Proof.
  unfold cfg_load. destruct file as [bytes|e]; [|done].
  pose proof (load_lines_wf (file_lines CFG_LINE_SZ bytes) o cfg_init
    ltac:(apply wf_init)) as W.
  destruct (load_lines _ _) as [[[]|e] [o1 n1]]; [|done]. by intros [= <- _].
Qed.

(** Every string has a value without NUL, no container is empty and no path
    below the node has more than [d] tokens. *)
Inductive full : nat -> cfg_node -> Prop :=
| full_str d name v kids : cstring v -> full d (Node CFG_STR name (Some v) kids)
| full_cont d t name val kids :
    t <> CFG_STR -> kids <> [] -> Forall (full d) kids -> full (S d) (Node t name val kids).

Lemma canon_full n : wf_node n -> forall d, full d n -> canon n.
Proof.
  induction n as [t x v kids IH] using cfg_node_ind'. intros Hw d Hf.
  assert (Hks : Forall wf_node kids -> forall d, Forall (full d) kids -> Forall canon kids).
  { clear Hf d Hw. induction IH as [|c kids Hc _ IHk]; intros Hw d Hf; [constructor|].
    apply Forall_cons in Hw as [? ?]. apply Forall_cons in Hf as [? ?].
    constructor; [by eapply Hc|by eapply IHk]. }
  inversion Hw; subst; inversion Hf; subst; try done; constructor; eauto.
Qed.

Lemma full_depth d n :
  full d n -> wf_node n -> Forall (fun l => length (fst l) <= d) (leaves n).
Proof.
  revert d. induction n as [t x v kids IH] using cfg_node_ind'. intros d Hf Hw.
  inversion Hf as [? ? w ?|d' ? ? ? ? Ht Hne Hks]; subst.
  { repeat constructor. cbn. lia. }
  inversion Hw as [|? ? Hs Hwk|? ? Hk Hnd Hwk]; subst; [done| |].
  - cbn. apply Forall_map, Forall_true. intros c. cbn. lia.
  - rewrite leaves_obj. clear Hf Hw Hk Hnd Hne Ht.
    induction kids as [|c kids IHk]; [constructor|]. cbn [kid_leaves].
    apply Forall_cons in IH as [IHc IH]. apply Forall_cons in Hks as [Hc Hks].
    apply Forall_cons in Hwk as [Hwc Hwk].
    apply Forall_app. split; [|by apply IHk]. apply Forall_map.
    eapply Forall_impl; [by apply IHc|]. intros l. cbn. lia.
Qed.

Lemma full_kids d n : full (S d) n -> n_type n <> CFG_STR -> Forall (full d) (n_kids n).
Proof. intros Hf Ht. inversion Hf; subst; [done|done]. Qed.

Lemma full_node d n :
  n_type n <> CFG_STR -> n_kids n <> [] -> Forall (full d) (n_kids n) -> full (S d) n.
Proof. destruct n. cbn. by constructor. Qed.

(** A successful assignment of a file path fills the containers it makes. *)
Lemma zoom_full d i m o p o' p' c :
  n_type p <> CFG_STR -> n_kids p !! i = Some c ->
  (forall j e, n_kids p !! j = Some e -> j <> i -> full d e) ->
  (forall o c' o', m (o, c) = (Ok tt, (o', c')) -> full d c') ->
  zoom i m (o, p) = (Ok tt, (o', p')) -> full (S d) p'.
Proof.
  intros Ht Hi Hk Hm. rewrite (zoom_some _ _ _ _ _ Hi).
  destruct (m (o, c)) as [r [o1 c']] eqn:E. intros [= -> <- <-]. apply Hm in E.
  apply full_node.
  - by rewrite n_type_set.
  - rewrite n_kids_set. intros E'. apply (f_equal length) in E'.
    rewrite length_insert in E'. apply lookup_lt_Some in Hi. cbn in E'. lia.
  - rewrite n_kids_set. apply Forall_lookup_2. intros j e Hj.
    apply list_lookup_insert_Some in Hj as [(-> & <- & _)|[Hne Hj]]; [done|eauto].
Qed.

Lemma node_new_kids t k o c o' :
  node_new t k o = (Some c, o') -> n_kids c = [] /\ n_type c = t.
Proof.
  unfold node_new. destruct (pop o) as [[] o1]; cbn; [|done].
  destruct k as [k|]; [destruct (pop o1) as [[] o2]; [|done]|]; by intros [= <- _].
Qed.

Lemma store_val_full d v o c o' c' :
  cstring v -> n_type c = CFG_STR -> store_val v (o, c) = (Ok tt, (o', c')) -> full d c'.
Proof.
  intros Hv Ht. unfold store_val. destruct (pop o) as [[] o1]; [|done]. intros [= _ <-].
  destruct c. cbn in *. subst. by constructor.
Qed.

(** The children of a node with a new last child. *)
Lemma child_add_other d n c j e :
  Forall (full d) (n_kids n) -> n_kids (child_add n c) !! j = Some e ->
  j <> length (n_kids n) -> full d e.
Proof.
  intros Hk. unfold child_add. rewrite n_kids_set, lookup_app_Some.
  intros [Hj|[Hl Hj]] Hne; [by eapply Forall_lookup_1|].
  apply list_lookup_singleton_Some in Hj as [? _]. lia.
Qed.

Lemma set_str_plain_full d k v o n o' n' :
  cstring v -> n_type n = CFG_OBJ -> Forall (full d) (n_kids n) ->
  set_str_plain k v (o, n) = (Ok tt, (o', n')) -> full (S d) n'.
Proof.
  intros Hv Ht Hk. unfold set_str_plain. destruct (obj_find n k) as [[i c]|] eqn:Ef.
  - apply obj_find_inv in Ef as (_ & Hi & _).
    destruct (has_type CFG_STR c) eqn:Ec; cbn [negb]; [|done]. apply has_type_true in Ec.
    apply (zoom_full d _ _ _ _ _ _ c); [congruence|done| |].
    + intros j e Hj _. by eapply Forall_lookup_1.
    + intros o1 c' o2. by apply store_val_full.
  - destruct (node_new _ _ o) as [[c|] o1] eqn:En; [|done].
    apply node_new_kids in En as [_ Ec].
    apply (zoom_full d _ _ _ _ _ _ c).
    + unfold child_add. rewrite n_type_set. congruence.
    + apply lookup_child_add.
    + intros j e. by apply child_add_other.
    + intros o2 c' o3. by apply store_val_full.
Qed.

Lemma set_arr_append_full d v o n o' n' :
  cstring v -> Forall (full d) (n_kids n) ->
  set_arr_append v (o, n) = (Ok tt, (o', n')) -> full (S d) n'.
Proof.
  intros Hv Hk. unfold set_arr_append.
  destruct (has_type CFG_ARR n) eqn:Ea; cbn [negb]; [|done]. apply has_type_true in Ea.
  destruct (node_new _ _ o) as [[c|] o1] eqn:En; [|done].
  apply node_new_kids in En as [_ Ec]. destruct (pop o1) as [[] o2]; [|done].
  intros [= _ <-]. apply full_node; unfold child_add.
  - rewrite n_type_set. congruence.
  - rewrite n_kids_set. by destruct (n_kids n).
  - rewrite n_kids_set. apply Forall_app. split; [done|]. constructor; [|constructor].
    destruct c. cbn in *. subst. by constructor.
Qed.

Lemma want_of_cont u : want_of u <> CFG_STR.
Proof. by destruct u. Qed.

Lemma set_walk_full ts v : cstring v -> file_toks_ok ts = true ->
  forall d o n o' n', length ts <= S d -> Forall (full d) (n_kids n) ->
  set_walk ts v (o, n) = (Ok tt, (o', n')) -> full (S d) n'.
Proof.
  intros Hv. induction ts as [|t ts IH]; intros Hf d o n o' n' Hl Hk E; [done|].
  destruct t as [k|z|]; [|done|].
  2: { cbn in Hf. apply bool_decide_eq_true in Hf as ->. by eapply set_arr_append_full. }
  destruct ts as [|u us].
  { cbn in E. destruct (has_type CFG_OBJ n) eqn:Eo; [|done]. apply has_type_true in Eo.
    by eapply set_str_plain_full. }
  destruct d as [|d]; [cbn in Hl; lia|]. rewrite set_walk_key_eq in E.
  destruct (has_type CFG_OBJ n) eqn:Eo; cbn [negb] in E; [|done]. apply has_type_true in Eo.
  destruct (obj_find n k) as [[i c]|] eqn:Ef.
  - destruct (has_type (want_of u) c) eqn:Ec; cbn [negb] in E; [|done].
    apply has_type_true in Ec. apply obj_find_inv in Ef as (_ & Hi & _).
    revert E. apply (zoom_full (S d) _ _ _ _ _ _ c); [congruence|done| |].
    + intros j e Hj _. by eapply Forall_lookup_1.
    + intros o1 c' o2. apply IH; [done|cbn in *; lia|]. apply full_kids.
      * by eapply Forall_lookup_1.
      * rewrite Ec. apply want_of_cont.
  - destruct (node_new _ _ o) as [[c|] o1] eqn:En; [|done].
    apply node_new_kids in En as [Ek Ec]. revert E. apply (zoom_full (S d) _ _ _ _ _ _ c).
    + unfold child_add. rewrite n_type_set. congruence.
    + apply lookup_child_add.
    + intros j e. by apply child_add_other.
    + intros o2 c' o3. apply IH; [done|cbn in *; lia|]. rewrite Ek. constructor.
Qed.

(** The tree during a load. *)
Definition loading (n : cfg_node) : Prop :=
  n = cfg_init \/ (full CFG_PATH_DEPTH_MAX n /\ n_type n = CFG_OBJ /\ n_name n = None).

Lemma cstring_trim s : cstring s -> cstring (trim s).
Proof.
  intros H. unfold trim, rstrip. apply Forall_reverse, cstring_while, Forall_reverse.
  by apply cstring_while.
Qed.

Lemma unquote_cstring s v r :
  cstring s -> unquote s = Ok (v, r) -> cstring v.
Proof.
  revert s v r. fix IH 1. intros [|c s] v r Hs E; [done|]. cbn [unquote] in E.
  apply Forall_cons in Hs as [Hc Hs].
  destruct (Ascii.eqb c DQUOTE); [injection E as <- _; constructor|].
  destruct (Ascii.eqb c BSLASH).
  - destruct s as [|d s]; [done|]. apply Forall_cons in Hs as [Hd Hs].
    destruct (unquote s) as [[w r']|] eqn:Eu; [|done]. injection E as <- _.
    constructor; [|by eapply IH]. by repeat destruct (Ascii.eqb d _).
  - destruct (unquote s) as [[w r']|] eqn:Eu; [|done]. injection E as <- _.
    constructor; [done|by eapply IH].
Qed.

Lemma parse_value_cstring s o v o' :
  cstring s -> parse_value s o = (Ok v, o') -> cstring v.
Proof.
  intros Hs. unfold parse_value. pose proof (cstring_trim s Hs) as Ht.
  destruct (trim s) as [|q body].
  { unfold dup. destruct (pop o) as [[] ?]; [|done]. intros [= <- _]. constructor. }
  destruct (negb _).
  - pose proof (strchr_Some "#"%char (q :: body)) as Hc.
    destruct (strchr "#" (q :: body)) as [[x y]|].
    + destruct (Hc x y eq_refl) as [E _]. rewrite E in Ht. apply Forall_app in Ht as [Hx _].
      unfold dup. destruct (pop o) as [[] ?]; [|done]. intros [= <- _]. by apply cstring_trim.
    + unfold dup. destruct (pop o) as [[] ?]; [|done]. intros [= <- _]. by apply cstring_trim.
  - destruct (pop o) as [ok o1]. destruct (negb ok); [done|]. intros [= E _].
    destruct (unquote body) as [[w r]|] eqn:Eu; [|done]. cbn in E.
    destruct (_ && _); [done|]. injection E as <-.
    apply Forall_cons in Ht as [_ Ht]. by eapply unquote_cstring.
Qed.

Lemma loading_set k v o n o' n' :
  cstring v -> path_file_ok k = Ok tt -> k <> [] -> loading n ->
  cfg_set_str k v (o, n) = (Ok tt, (o', n')) -> loading n'.
Proof.
  intros Hv Hf Hk Hn. unfold path_file_ok in Hf. unfold cfg_set_str.
  destruct (parse_path k CFG_PATH_DEPTH_MAX) as [ts|] eqn:Ep; [|done]. intros E.
  apply parse_path_toks in Ep as [Ht Hl]. cbn in Hf. inv_ok.
  destruct (keeps_at _ _ _ _ _ _ _ (keeps_set_walk ts v Ht) I E) as (Et & En & _).
  right. rewrite Et, En. split_and!; [|by destruct Hn as [->|(_ & ? & ?)]..].
  eapply set_walk_full; [done|done|exact Hl| |exact E].
  destruct Hn as [->|(Hfu & Hty & _)]; [constructor|]. apply full_kids; [done|congruence].
Qed.

Lemma load_line_loading line o n o' n' :
  cstring line -> loading n -> load_line line (o, n) = (Ok tt, (o', n')) -> loading n'.
Proof.
  intros Hs Hn. unfold load_line. cbn zeta. destruct (_ || _); [by intros [= _ <-]|].
  destruct (strchr "=" (trim line)) as [[before after]|] eqn:Ec; [|done].
  case_bool_decide; [done|]. destruct (path_file_ok _) as [[]|] eqn:Ef; [|done].
  destruct (parse_value _ o) as [[v|e] o1] eqn:Ev; [|done].
  apply loading_set; [|done|done|done].
  eapply parse_value_cstring; [|exact Ev]. apply cstring_trim.
  apply strchr_Some in Ec as [Ec _]. pose proof (cstring_trim line Hs) as Ht.
  rewrite Ec in Ht. apply Forall_app in Ht as [_ Ht]. by apply Forall_cons in Ht as [_ ?].
Qed.

Lemma load_lines_loading ls o n o' n' :
  loading n -> load_lines ls (o, n) = (Ok tt, (o', n')) -> loading n'.
Proof.
  revert o n. induction ls as [|[buf eof] ls IH]; intros o n Hn; cbn [load_lines].
  { by intros [= _ <-]. }
  destruct (_ && _); [done|]. unfold mbind, ST_bind.
  destruct (load_line _ (o, n)) as [[[]|e] [o1 n1]] eqn:E; [|done]. apply IH.
  eapply load_line_loading; [|exact Hn|exact E].
  apply Forall_reverse, cstring_while, Forall_reverse, c_string_cstring.
Qed.

Lemma cfg_load_full o file n o' : cfg_load o file = (Ok n, o') -> loading n.
Proof.
  unfold cfg_load. destruct file as [bytes|e]; [|done].
  destruct (load_lines _ _) as [[[]|e] [o1 n1]] eqn:E; [|done]. intros [= <- _].
  eapply load_lines_loading; [by left|exact E].
Qed.

(** ** Properties *)

(** A value of any bytes, quotes, backslashes, tabs and newlines included,
    that [quote] writes is read back by [parse_value] unchanged. *)
Lemma quote_parse_value (v : cstr) :
  exists text, quote v ([], []) = (Ok tt, ([], text)) /\
    parse_value text [] = (Ok v, []).
Proof.
  exists (quoted v). rewrite quote_out. split; [done|]. apply parse_value_quoted.
Qed.

(** C6: [cfg_dump] followed by [cfg_load] succeeds and gives the same tree, for
    every tree without empty containers and NULL values whose paths fit the
    path buffer and whose lines fit the line buffer and the token array. *)
Theorem cfg_dump_load (n : cfg_node) (io : errno) :
  canon_root n -> Forall leaf_fits (leaves n) -> Forall path_fits (leaves n) ->
  exists out, cfg_dump (Ok tt) io n [] = (Ok tt, Some out) /\
    cfg_load [] (Ok out) = (Ok n, []).
Proof.
  intros Hn Hl Hp. exists (file_text (leaves n)). split; [|by apply load_tree_text].
  unfold cfg_dump. by rewrite cfg_dump_text.
Qed.

Lemma cfg_dump_load_witness :
  exists out, cfg_dump (Ok tt) EIO sample_tree [] = (Ok tt, Some out) /\
    cfg_load [] (Ok out) = (Ok sample_tree, []).
Proof.
  apply (cfg_dump_load sample_tree EIO).
  - right. split_and!; [|reflexivity|reflexivity].
    repeat match goal with
    | |- key_ok _ => compute_decide
    | |- NoDup _ => compute_decide
    | |- cstring _ => repeat constructor; discriminate
    | |- _ <> _ => discriminate
    | |- _ /\ _ => split
    | |- exists _, _ => eexists; split; [reflexivity|]
    | |- _ => constructor
    end.
  - unfold leaf_fits. compute_decide.
  - unfold path_fits. compute_decide.
Defined.

(** C29: every tree [cfg_load] returns, from any file and with any allocation
    failures, is well-formed and one that a file can express: its strings are
    set, its containers are not empty, and its paths fit the token array. *)
Theorem cfg_load_canon (o o' : oracle) (file : result (list ascii)) (n : cfg_node) :
  cfg_load o file = (Ok n, o') ->
  wf_node n /\ canon_root n /\
  Forall (fun l => length (fst l) <= CFG_PATH_DEPTH_MAX) (leaves n).
Proof.
  intros E. pose proof (cfg_load_tree _ _ _ _ E) as Hw. split; [done|].
  destruct (cfg_load_full _ _ _ _ E) as [->|(Hf & Ht & Hn)].
  - split; [by left|constructor].
  - split; [right; split_and!; [by eapply canon_full|done|done]|by apply full_depth].
Qed.

Lemma cfg_load_canon_witness :
  exists n, cfg_load [] (Ok (#"a.b = 1 # one")) = (Ok n, []) /\ canon_root n.
Proof.
  eexists. split; [vm_compute; reflexivity|].
  apply (cfg_load_canon [] [] (Ok (#"a.b = 1 # one"))). vm_compute. reflexivity.
Defined.
