(* ===== verification/Heap.v ===== *)
(** The memory of cfg.c: nodes and strings in a heap, the monad of programs
    over it, in which touching memory that is not allocated is a fault, and a
    linear separation logic for those programs.  Linear: an assertion owns
    exactly its blocks, so a program cannot lose one unnoticed. *)
From iris.proofmode Require Import proofmode.
From S2P Require Import Prelude CLib CfgPath CfgTree.

Set Warnings "-register-all,-clear-no-such-hyp,-redundant-canonical-projection".

(** ** Memory *)

Abbreviation loc := positive.

(** [struct cfg_node] with its pointers. *)
Record hnode := HNode {
  h_type : cfg_type;
  h_name : option loc;
  h_val : option loc;
  h_parent : option loc;
  h_next : option loc;
  h_child : option loc;
  h_tail : option loc;
  h_n_child : Z
}.

#[export] Instance hnode_eta : Eta hnode := fun n =>
  HNode (h_type n) (h_name n) (h_val n) (h_parent n) (h_next n) (h_child n) (h_tail n)
    (h_n_child n).

(** What [memset] leaves; [CFG_OBJ] is 0. *)
Definition hnode_zero : hnode := HNode CFG_OBJ None None None None None None 0.

(** A block is a node or a string. *)
Inductive cell :=
| CNode (n : hnode)
| CStr (s : cstr).

Abbreviation heap := (gmap loc cell).

(** ** Programs *)

(** A program takes the pending outcomes of [malloc] and the heap; [None] is a
    fault: a read, write or [free] outside the allocated blocks, or a loop over
    links that does not end. *)
Definition HM (A : Type) : Type := oracle * heap -> option (A * (oracle * heap)).

#[export] Instance HM_ret : MRet HM := fun A a s => Some (a, s).
#[export] Instance HM_bind : MBind HM := fun A B f m s =>
  match m s with
  | Some (a, s) => f a s
  | None => None
  end.

Definition fault {A} : HM A := fun _ => None.

(** NULL, or a new block with this content. *)
Definition h_malloc (c : cell) : HM (option loc) := fun '(o, h) =>
  let '(ok, o) := pop o in
  if ok then let l := fresh (dom h) in Some (Some l, (o, <[l := c]> h))
  else Some (None, (o, h)).

Definition h_free (p : option loc) : HM unit := fun '(o, h) =>
  match p with
  | None => Some (tt, (o, h))
  | Some l =>
    match h !! l with
    | Some _ => Some (tt, (o, delete l h))
    | None => None
    end
  end.

Definition load_node (l : loc) : HM hnode := fun '(o, h) =>
  match h !! l with
  | Some (CNode n) => Some (n, (o, h))
  | _ => None
  end.

Definition load_str (l : loc) : HM cstr := fun '(o, h) =>
  match h !! l with
  | Some (CStr s) => Some (s, (o, h))
  | _ => None
  end.

(** An assignment to fields of a node. *)
Definition modify_node (f : hnode -> hnode) (l : loc) : HM unit := fun '(o, h) =>
  match h !! l with
  | Some (CNode n) => Some (tt, (o, <[l := CNode (f n)]> h))
  | _ => None
  end.

(** Filling a string block. *)
Definition store_str (l : loc) (s : cstr) : HM unit := fun '(o, h) =>
  match h !! l with
  | Some (CStr _) => Some (tt, (o, <[l := CStr s]> h))
  | _ => None
  end.

(** A bound for loops over links: no chain of distinct blocks is longer than
    the heap is large. *)
Definition heap_size : HM nat := fun '(o, h) => Some (size h, (o, h)).

(** ** Assertions *)

Record heapProp := HeapProp { holds : heap -> Prop }.
Add Printing Constructor heapProp.

Section Ofe.

#[local] Instance heapProp_equiv : Equiv heapProp := fun P Q =>
  forall h, holds P h <-> holds Q h.
#[local] Instance heapProp_equivalence : Equivalence (≡@{heapProp}).
Proof.
  split.
  - by intros P h.
  - by intros P Q E h.
  - intros P Q R E1 E2 h. by rw (E1 h).
Qed.

Canonical Structure heapPropO := discreteO heapProp.
End Ofe.

Record hp_entails (P Q : heapProp) : Prop := HpEntails {
  entails_at h : holds P h -> holds Q h
}.
Definition hp_pure (p : Prop) : heapProp := HeapProp (fun _ => p).
Definition hp_emp : heapProp := HeapProp (fun h => h = ∅).
Definition hp_and (P Q : heapProp) : heapProp := HeapProp (fun h => holds P h /\ holds Q h).
Definition hp_or (P Q : heapProp) : heapProp := HeapProp (fun h => holds P h \/ holds Q h).
Definition hp_impl (P Q : heapProp) : heapProp :=
  HeapProp (fun h => holds P h -> holds Q h).
Definition hp_forall A (F : A -> heapProp) : heapProp :=
  HeapProp (fun h => forall a, holds (F a) h).
Definition hp_exist A (F : A -> heapProp) : heapProp :=
  HeapProp (fun h => exists a, holds (F a) h).

(** Two disjoint parts. *)
Definition hp_sep (P Q : heapProp) : heapProp := HeapProp (fun h =>
  exists h1 h2, h = h1 ∪ h2 /\ h1 ##ₘ h2 /\ holds P h1 /\ holds Q h2).
Definition hp_wand (P Q : heapProp) : heapProp := HeapProp (fun h =>
  forall h', h ##ₘ h' -> holds P h' -> holds Q (h ∪ h')).
Definition hp_persistently (P : heapProp) : heapProp := hp_pure (hp_entails hp_emp P).
Definition hp_later (P : heapProp) : heapProp := P.

(** Entailments heap by heap, forwards and backwards. *)
Ltac heaps := repeat match goal with
  | |- hp_entails _ _ => constructor; intros ?h ?H
  | H : hp_entails _ _ |- _ => destruct H as [H]
  end; cbn in *.

Lemma heapProp_mixin :
  BiMixin hp_entails hp_emp hp_pure hp_and hp_or hp_impl hp_forall hp_exist hp_sep hp_wand.
Proof.
  split.
  - split; [by intros P; heaps|]. intros P Q R E1 E2. heaps. auto.
  - intros P Q. split.
    + intros E. split; constructor; apply E.
    + intros [[E1] [E2]]. intros h. split; auto.
  - intros n p q E h. exact E.
  - intros n P P' E Q Q' F h. cbn. by rw (E h) (F h).
  - intros n P P' E Q Q' F h. cbn. by rw (E h) (F h).
  - intros n P P' E Q Q' F h. cbn. by rw (E h) (F h).
  - intros A n F G E h. cbn. split; intros H a; apply (E a h), H.
  - intros A n F G E h. cbn. split; intros [a H]; exists a; apply (E a h), H.
  - intros n P P' E Q Q' F h. cbn. split; intros (h1 & h2 & ? & ? & H1 & H2);
      exists h1, h2; (do 2 (split; [done|])); by split; [apply (E h1)|apply (F h2)].
  - intros n P P' E Q Q' F h. cbn.
    split; intros H h' Hd HP; apply (F (h ∪ h')), H, (E h'); done.
  - intros p P Hp. by heaps.
  - intros p P H. constructor. intros h Hp. by apply (entails_at _ _ (H Hp)).
  - intros P Q. heaps. tauto.
  - intros P Q. heaps. tauto.
  - intros P Q R H1 H2. heaps. auto.
  - intros P Q. heaps. auto.
  - intros P Q. heaps. auto.
  - intros P Q R H1 H2. heaps. naive_solver.
  - intros P Q R H. heaps. auto.
  - intros P Q R H. heaps. naive_solver.
  - intros A P F H. constructor. intros h HP a. by apply (entails_at _ _ (H a)).
  - intros A F a. heaps. auto.
  - intros A F a. heaps. eauto.
  - intros A F Q H. constructor. intros h [a Ha]. by apply (entails_at _ _ (H a)).
  - intros P P' Q Q' H1 H2. heaps. naive_solver.
  - intros P. heaps. exists ∅, h.
    split_and!; [by rw left_id_L|apply map_disjoint_empty_l|done|done].
  - intros P. heaps. destruct H as (h1 & h2 & -> & _ & -> & HP). by rw left_id_L.
  - intros P Q. heaps. destruct H as (h1 & h2 & -> & Hd & HP & HQ). exists h2, h1.
    split_and!; [by rw map_union_comm|done|done|done].
  - intros P Q R. heaps.
    destruct H as (h12 & h3 & -> & Hd & (h1 & h2 & -> & Hd' & HP & HQ) & HR).
    apply map_disjoint_union_l in Hd as [Hd1 Hd2]. exists h1, (h2 ∪ h3).
    split_and!; [by rw assoc_L|by apply map_disjoint_union_r_2|done|].
    by exists h2, h3.
  - intros P Q R H. heaps. intros h' Hd HQ. apply H. by exists h, h'.
  - intros P Q R H. heaps. destruct H0 as (h1 & h2 & -> & Hd & HP & HQ). by apply (H h1 HP).
Qed.

Lemma heapProp_persistently :
  BiPersistentlyMixin hp_entails hp_emp hp_and hp_exist hp_sep hp_persistently.
Proof.
  eapply bi_persistently_mixin_discrete; [done| |done|apply heapProp_mixin].
  intros A F H. heaps. destruct (H ∅ eq_refl) as [a Ha]. exists a. heaps. by subst.
Qed.

Lemma heapProp_later :
  BiLaterMixin hp_entails hp_pure hp_or hp_impl hp_forall hp_exist hp_sep hp_persistently
    hp_later.
Proof. eapply bi_later_mixin_id; [done|apply heapProp_mixin]. Qed.

Canonical Structure heapPropI : bi :=
  {| bi_ofe_mixin := ofe_mixin_of heapProp;
     bi_bi_mixin := heapProp_mixin;
     bi_bi_persistently_mixin := heapProp_persistently;
     bi_bi_later_mixin := heapProp_later |}.

#[export] Instance heapProp_pure_forall : BiPureForall heapPropI.
Proof. intros A p. by constructor. Qed.

(** The block at [l]. *)
Definition points_to (l : loc) (c : cell) : heapProp := HeapProp (fun h => h = {[l := c]}).
Notation "l ↦ c" := (points_to l c) (at level 20) : bi_scope.

(** A fact that owns nothing. *)
Notation "⌞ p ⌟" := (<affine> ⌜p⌝)%I (at level 0, p at level 200) : bi_scope.

(** ** Programs that do not fault *)

(** From its heap and any further blocks, the program ends without a fault,
    leaves the further blocks alone and ends in [F]. *)
Definition wp {A} (o : oracle) (m : HM A) (F : A -> oracle -> heapProp) : heapProp :=
  HeapProp (fun h => forall hf, h ##ₘ hf -> exists a o' h',
    m (o, h ∪ hf) = Some (a, (o', h' ∪ hf)) /\ h' ##ₘ hf /\ holds (F a o') h').

Lemma hp_entails_fold (P Q : heapProp) : (forall h, holds P h -> holds Q h) -> P ⊢ Q.
Proof. by constructor. Qed.

Lemma hp_entails_unfold (P Q : heapProp) h : (P ⊢ Q) -> holds P h -> holds Q h.
Proof. intros [H]. apply H. Qed.

Lemma wp_ret {A} o (a : A) F : F a o ⊢ wp o (mret a) F.
Proof. apply hp_entails_fold. intros h H hf Hd. by exists a, o, h. Qed.

Lemma wp_bind {A B} o (m : HM A) (f : A -> HM B) F :
  wp o m (fun a o' => wp o' (f a) F) ⊢ wp o (m ≫= f) F.
Proof.
  apply hp_entails_fold. intros h H hf Hd.
  destruct (H hf Hd) as (a & o1 & h1 & E & Hd1 & H1).
  destruct (H1 hf Hd1) as (b & o2 & h2 & E2 & Hd2 & H2). exists b, o2, h2.
  split; [|done]. unfold mbind, HM_bind. by rw E.
Qed.

Lemma wp_wand {A} o (m : HM A) F G :
  wp o m F -∗ (∀ a o', F a o' -∗ G a o') -∗ wp o m G.
Proof.
  apply bi.entails_wand, bi.wand_intro_l, hp_entails_fold.
  intros h (hw & h1 & -> & Hd & Hw & H1) hf Hf.
  apply map_disjoint_union_l in Hf as [Hf1 Hf2].
  destruct (H1 (hw ∪ hf)) as (a & o' & h' & E & Hd' & HF).
  { by apply map_disjoint_union_r_2. }
  apply map_disjoint_union_r in Hd' as [Hd1 Hd2]. exists a, o', (hw ∪ h'). split_and!.
  - rw (map_union_comm hw h1) // -assoc_L E assoc_L (map_union_comm h' hw) //.
  - by apply map_disjoint_union_l_2.
  - by apply (Hw a o' h').
Qed.

(** A block that is owned is in the heap. *)
Lemma singleton_lookup l (c : cell) (hf : heap) : ({[l := c]} ∪ hf) !! l = Some c.
Proof. by rw lookup_union_l' // lookup_singleton_eq. Qed.

(** A step with a known result. *)
Lemma wp_step {A B} o (m : HM A) P a o' Q (k : A -> HM B) F :
  (forall h hf, holds P h -> h ##ₘ hf -> exists h',
     m (o, h ∪ hf) = Some (a, (o', h' ∪ hf)) /\ h' ##ₘ hf /\ holds Q h') ->
  P -∗ (Q -∗ wp o' (k a) F) -∗ wp o (m ≫= k) F.
Proof.
  intros Hm. iIntros "HP Hk". iApply wp_bind.
  iApply (wp_wand _ _ (fun b o2 => ⌞b = a /\ o2 = o'⌟ ∗ Q)%I with "[HP]").
  - iStopProof. apply hp_entails_fold. intros h HP hf Hd.
    destruct (Hm h hf HP Hd) as (h' & E & Hd' & HQ). exists a, o', h'.
    split; [done|]. split; [done|]. apply (hp_entails_unfold Q); [|done]. by iIntros "$".
  - iIntros (b o2) "[%E HQ]". destruct E as [-> ->]. by iApply "Hk".
Qed.

Lemma wp_load_node {A} o l n (k : hnode -> HM A) F :
  l ↦ CNode n -∗ (l ↦ CNode n -∗ wp o (k n) F) -∗ wp o (load_node l ≫= k) F.
Proof.
  apply wp_step. intros h hf Hh Hd. cbn in Hh. subst h. exists {[l := CNode n]}. split; [|done].
  unfold load_node. by rw singleton_lookup.
Qed.

Lemma wp_load_str {A} o l s (k : cstr -> HM A) F :
  l ↦ CStr s -∗ (l ↦ CStr s -∗ wp o (k s) F) -∗ wp o (load_str l ≫= k) F.
Proof.
  apply wp_step. intros h hf Hh Hd. cbn in Hh. subst h. exists {[l := CStr s]}. split; [|done].
  unfold load_str. by rw singleton_lookup.
Qed.

Lemma wp_modify {A} o l f n (k : unit -> HM A) F :
  l ↦ CNode n -∗ (l ↦ CNode (f n) -∗ wp o (k tt) F) -∗ wp o (modify_node f l ≫= k) F.
Proof.
  apply wp_step. intros h hf Hh Hd. cbn in Hh. subst h.
  exists {[l := CNode (f n)]}. split_and!; [| |done].
  - unfold modify_node. rw singleton_lookup. do 3 f_equal.
    by rw insert_union_l insert_singleton_eq.
  - by apply map_disjoint_singleton_l in Hd as ?; apply map_disjoint_singleton_l.
Qed.

Lemma wp_store_str {A} o l s s' (k : unit -> HM A) F :
  l ↦ CStr s -∗ (l ↦ CStr s' -∗ wp o (k tt) F) -∗ wp o (store_str l s' ≫= k) F.
Proof.
  apply wp_step. intros h hf Hh Hd. cbn in Hh. subst h.
  exists {[l := CStr s']}. split_and!; [| |done].
  - unfold store_str. rw singleton_lookup. do 3 f_equal.
    by rw insert_union_l insert_singleton_eq.
  - by apply map_disjoint_singleton_l in Hd as ?; apply map_disjoint_singleton_l.
Qed.

Lemma wp_free {A} o l c (k : unit -> HM A) F :
  l ↦ c -∗ wp o (k tt) F -∗ wp o (h_free (Some l) ≫= k) F.
Proof.
  iIntros "Hl Hk". iApply (wp_step _ _ (l ↦ c)%I tt o emp%I with "Hl"); [|by iIntros "_"].
  intros h hf Hh Hd. cbn in Hh. subst h. exists ∅. split_and!; [|apply map_disjoint_empty_l|done].
  cbn. rw singleton_lookup. do 3 f_equal. rw delete_union left_id_L.
  rw delete_singleton_eq left_id_L delete_id //.
  by apply map_disjoint_singleton_l in Hd.
Qed.

Lemma wp_free_null {A} o (k : unit -> HM A) F :
  wp o (k tt) F ⊢ wp o (h_free None ≫= k) F.
Proof. done. Qed.

(** [malloc]: the oracle says whether it gives NULL. *)
Lemma wp_malloc {A} o c (k : option loc -> HM A) F :
  (if fst (pop o) then ∀ l, l ↦ c -∗ wp (snd (pop o)) (k (Some l)) F
   else wp (snd (pop o)) (k None) F) ⊢ wp o (h_malloc c ≫= k) F.
Proof.
  destruct (pop o) as [[] o1] eqn:Ep; cbn.
  - iIntros "Hk". iApply wp_bind.
    iApply (wp_wand _ _ (fun p o2 => ∃ l, ⌞p = Some l /\ o2 = o1⌟ ∗ l ↦ c)%I with "[]").
    + iStopProof. apply hp_entails_fold. intros h Hh hf Hd.
      change (h = ∅) in Hh. subst h. rw left_id_L. set (l := fresh (dom hf)). exists (Some l), o1, {[l := c]}. split_and!.
      * unfold h_malloc. rw Ep. by rw -insert_union_singleton_l.
      * apply map_disjoint_singleton_l, not_elem_of_dom, is_fresh.
      * exists l. apply (hp_entails_unfold (l ↦ c)%I); [|done]. by iIntros "$".
    + iIntros (p o2) "(%l & %E & Hl)". destruct E as [-> ->]. by iApply "Hk".
  - iIntros "Hk". iApply wp_bind. iStopProof. apply hp_entails_fold. intros h H hf Hd.
    exists None, o1, h. split; [|done]. unfold h_malloc. by rw Ep.
Qed.

(** What owns [n] blocks bounds a loop by [n]. *)
Definition sized (n : nat) (P : heapProp) : Prop := forall h, holds P h -> n <= size h.

Lemma wp_heap_size {A} o n P (k : nat -> HM A) F :
  sized n P -> P -∗ (∀ m, ⌞n <= m⌟ -∗ P -∗ wp o (k m) F) -∗ wp o (heap_size ≫= k) F.
Proof.
  intros Hn. iIntros "HP Hk". iApply wp_bind.
  iApply (wp_wand _ _ (fun m o2 => ⌞n <= m /\ o2 = o⌟ ∗ P)%I with "[HP]").
  - iStopProof. apply hp_entails_fold. intros h HP hf Hd.
    exists (size (h ∪ hf)), o, h. split; [done|]. split; [done|].
    apply (hp_entails_unfold P); [|done]. iIntros "$". iPureIntro. split; [|done].
    rw map_size_disj_union //. specialize (Hn h HP). lia.
  - iIntros (m o2) "[%E HP]". destruct E as [? ->]. by iApply ("Hk" with "[//] HP").
Qed.

Lemma sized_sep n m (P Q : heapProp) : sized n P -> sized m Q -> sized (n + m) (P ∗ Q)%I.
Proof.
  intros HP HQ h (h1 & h2 & -> & Hd & H1 & H2). rw map_size_disj_union //.
  specialize (HP h1 H1). specialize (HQ h2 H2). lia.
Qed.

Lemma sized_exist {A} n (P : A -> heapProp) :
  (forall a, sized n (P a)) -> sized n (∃ a, P a)%I.
Proof. intros HP h [a Ha]. by apply (HP a). Qed.

Lemma sized_points_to l c : sized 1 (l ↦ c)%I.
Proof. intros h ->. by rw map_size_singleton. Qed.

Lemma sized_0 P : sized 0 P.
Proof. intros h _. lia. Qed.

(** No block is owned twice. *)
Lemma points_to_excl l c d : l ↦ c -∗ l ↦ d -∗ False.
Proof.
  apply bi.entails_wand, bi.wand_intro_l, hp_entails_fold.
  intros h (h1 & h2 & _ & Hd & H1 & H2). cbn in H1, H2. subst.
  apply map_disjoint_singleton_l in Hd. by rw lookup_singleton_eq in Hd.
Qed.

(** Nothing comes after the last step. *)
Lemma wp_last {A} o (m : HM A) F : wp o (m ≫= mret) F ⊢ wp o m F.
Proof.
  apply hp_entails_fold. intros h H hf Hd. destruct (H hf Hd) as (a & o' & h' & E & ?).
  exists a, o', h'. split; [|done]. unfold mbind, HM_bind in E.
  by destruct (m (o, h ∪ hf)) as [[? ?]|].
Qed.

(** What a proof in the logic says of a run. *)
Lemma wp_run {A} o (m : HM A) P F h hf :
  (P ⊢ wp o m F) -> holds P h -> h ##ₘ hf ->
  exists a o' h', m (o, h ∪ hf) = Some (a, (o', h' ∪ hf)) /\ h' ##ₘ hf /\ holds (F a o') h'.
Proof. intros HP Hh. apply (hp_entails_unfold _ _ _ HP Hh). Qed.

Lemma points_to_holds l c : holds (l ↦ c)%I {[l := c]}.
Proof. done. Qed.

Lemma pure_points_to (p : Prop) l c h : holds (⌞p⌟ ∗ l ↦ c)%I h -> p /\ h = {[l := c]}.
Proof.
  intros (h1 & h2 & -> & _ & [H1 Hp] & H2). change (h1 = ∅) in H1. cbn in H2. subst.
  split; [done|]. by rw left_id_L.
Qed.

#[global] Opaque wp points_to.
