(* ===== verification/CfgHeap.v ===== *)
(** cfg.c at the level of its pointers: nodes linked by child, next and tail,
    names and values in blocks of their own, and every [malloc] and [free].
    CfgHeapSpec.v relates it to the trees of CfgTree.v. *)
From S2P Require Import Prelude CLib CfgPath CfgTree CfgFile Heap.

Set Warnings "-register-all".

(** ** Nodes *)

(** NULL for NULL, or a copy. *)
Definition h_xstrdup (s : option cstr) : HM (option loc) :=
  match s with
  | None => mret None
  | Some s => h_malloc (CStr s)
  end.

Definition h_node_new (type : cfg_type) (name : option cstr) : HM (option loc) :=
  node ← h_malloc (CNode hnode_zero);
  match node with
  | None => mret None
  | Some node =>
    _ ← modify_node (fun n => n <| h_type := type |>) node;
    p ← h_xstrdup name;
    _ ← modify_node (fun n => n <| h_name := p |>) node;
    match name, p with
    | Some _, None => _ ← h_free (Some node); mret None
    | _, _ => mret (Some node)
    end
  end.

Fixpoint h_node_free (fuel : nat) (node : loc) : HM unit :=
  match fuel with
  | O => fault
  | S f =>
    n ← load_node node;
    _ ← (fix free_kids (g : nat) (child : option loc) : HM unit :=
           match child with
           | None => mret tt
           | Some c =>
             match g with
             | O => fault
             | S g =>
               cn ← load_node c;
               _ ← h_node_free f c;
               free_kids g (h_next cn)
             end
           end) f (h_child n);
    _ ← h_free (h_name n);
    _ ← h_free (h_val n);
    h_free (Some node)
  end.

(** [parent->tail->next] is only reached when there is a child. *)
Definition h_child_add (parent node : loc) : HM unit :=
  _ ← modify_node (fun n => n <| h_parent := Some parent |>) node;
  p ← load_node parent;
  _ ← match h_child p with
      | None => modify_node (fun n => n <| h_child := Some node |>) parent
      | Some _ =>
        match h_tail p with
        | None => fault
        | Some t => modify_node (fun n => n <| h_next := Some node |>) t
        end
      end;
  _ ← modify_node (fun n => n <| h_tail := Some node |>) parent;
  modify_node (fun n => n <| h_n_child ::= Z.add 1 |>) parent.

(** [n->name && !strcmp(n->name, name)] *)
Definition h_name_is (name : cstr) (n : hnode) : HM bool :=
  match h_name n with
  | None => mret false
  | Some p => s ← load_str p; mret (streq s name)
  end.

Fixpoint find_loop (fuel : nat) (name : cstr) (child : option loc) : HM (option loc) :=
  match child with
  | None => mret None
  | Some c =>
    match fuel with
    | O => fault
    | S f =>
      cn ← load_node c;
      hit ← h_name_is name cn;
      if hit : bool then mret (Some c) else find_loop f name (h_next cn)
    end
  end.

Definition h_obj_find (obj : loc) (name : cstr) : HM (option loc) :=
  n ← load_node obj;
  if negb (bool_decide (h_type n = CFG_OBJ)) then mret None
  else fuel ← heap_size; find_loop fuel name (h_child n).

Definition h_arr_idx (arr : hnode) (idx : Z) : result nat :=
  if negb (bool_decide (h_type arr = CFG_ARR)) then Err ENOTDIR
  else if (0 <=? idx)%Z then
    if (h_n_child arr <=? idx)%Z then Err ENOENT else Ok (Z.to_nat idx)
  else
    let idx := (h_n_child arr + idx)%Z in
    if (idx <? 0)%Z then Err ENOENT else Ok (Z.to_nat idx).

Fixpoint nth_loop (fuel i : nat) (child : option loc) : HM (option loc) :=
  match child with
  | None => mret None
  | Some c =>
    match fuel with
    | O => fault
    | S f =>
      match i with
      | O => mret (Some c)
      | S i => cn ← load_node c; nth_loop f i (h_next cn)
      end
    end
  end.

Definition h_arr_nth (arr : loc) (idx : nat) : HM (option loc) :=
  n ← load_node arr; fuel ← heap_size; nth_loop fuel idx (h_child n).

(** ** Lookup *)

Fixpoint h_walk_toks (ts : list cfg_tok) (cur : loc) : HM (result loc) :=
  match ts with
  | [] => mret (Ok cur)
  | TokAppend :: _ => mret (Err EINVAL)
  | TokKey k :: ts' =>
    n ← load_node cur;
    if negb (bool_decide (h_type n = CFG_OBJ)) then mret (Err ENOTDIR)
    else
      c ← h_obj_find cur k;
      match c with
      | None => mret (Err ENOENT)
      | Some c => h_walk_toks ts' c
      end
  | TokIndex idx :: ts' =>
    n ← load_node cur;
    if negb (bool_decide (h_type n = CFG_ARR)) then mret (Err ENOTDIR)
    else
      match h_arr_idx n idx with
      | Err e => mret (Err e)
      | Ok i =>
        c ← h_arr_nth cur i;
        match c with
        | None => mret (Err ENOENT)
        | Some c => h_walk_toks ts' c
        end
      end
  end.

Definition h_walk_get (root : loc) (path : cstr) : HM (result loc) :=
  match parse_path path CFG_PATH_DEPTH_MAX with
  | Err e => mret (Err e)
  | Ok ts => h_walk_toks ts root
  end.

Definition h_cfg_get_node (root : loc) (path : cstr) : HM (result loc) :=
  match path with [] => mret (Ok root) | _ => h_walk_get root path end.

(** [node->val ? node->val : ""], read. *)
Definition h_val_or_empty (n : hnode) : HM cstr :=
  match h_val n with None => mret [] | Some p => load_str p end.

Definition h_cfg_get_str (root : loc) (path : cstr) : HM (result cstr) :=
  r ← h_cfg_get_node root path;
  match r with
  | Err e => mret (Err e)
  | Ok node =>
    n ← load_node node;
    if negb (bool_decide (h_type n = CFG_STR)) then mret (Err EISDIR)
    else v ← h_val_or_empty n; mret (Ok v)
  end.

Definition h_cfg_arr_len (root : loc) (path : cstr) : HM (result Z) :=
  r ← h_cfg_get_node root path;
  match r with
  | Err e => mret (Err e)
  | Ok node =>
    n ← load_node node;
    if negb (bool_decide (h_type n = CFG_ARR)) then mret (Err ENOTDIR)
    else mret (Ok (h_n_child n))
  end.

(** ** Assignment *)

(** [copy = xstrdup(val); ... free(node->val); node->val = copy;] *)
Definition h_store_val (val : cstr) (node : loc) : HM (result unit) :=
  copy ← h_xstrdup (Some val);
  match copy with
  | None => mret (Err ENOMEM)
  | Some _ =>
    n ← load_node node;
    _ ← h_free (h_val n);
    _ ← modify_node (fun n => n <| h_val := copy |>) node;
    mret (Ok tt)
  end.

Definition h_set_str_plain (parent : loc) (name val : cstr) : HM (result unit) :=
  node ← h_obj_find parent name;
  match node with
  | None =>
    node ← h_node_new CFG_STR (Some name);
    match node with
    | None => mret (Err ENOMEM)
    | Some node => _ ← h_child_add parent node; h_store_val val node
    end
  | Some node =>
    n ← load_node node;
    if negb (bool_decide (h_type n = CFG_STR)) then mret (Err EISDIR)
    else h_store_val val node
  end.

Definition h_set_arr_append (arr : loc) (val : cstr) : HM (result unit) :=
  a ← load_node arr;
  if negb (bool_decide (h_type a = CFG_ARR)) then mret (Err ENOTDIR)
  else
    node ← h_node_new CFG_STR None;
    match node with
    | None => mret (Err ENOMEM)
    | Some node =>
      copy ← h_xstrdup (Some val);
      match copy with
      | None => fuel ← heap_size; _ ← h_node_free fuel node; mret (Err ENOMEM)
      | Some _ =>
        _ ← modify_node (fun n => n <| h_val := copy |>) node;
        _ ← h_child_add arr node;
        mret (Ok tt)
      end
    end.

Definition h_set_arr_idx (arr : loc) (idx : Z) (val : cstr) : HM (result unit) :=
  a ← load_node arr;
  if negb (bool_decide (h_type a = CFG_ARR)) then mret (Err ENOTDIR)
  else if (0 <=? idx)%Z && (idx =? h_n_child a)%Z then mret (Err ENOENT)
  else
    match h_arr_idx a idx with
    | Err _ => mret (Err ENOENT)
    | Ok i =>
      node ← h_arr_nth arr i;
      match node with
      | None => mret (Err ENOENT)
      | Some node =>
        n ← load_node node;
        if negb (bool_decide (h_type n = CFG_STR)) then mret (Err ENOENT)
        else h_store_val val node
      end
    end.

(** What [cfg_set_str] does with the last token. *)
Definition h_set_last (t : cfg_tok) (val : cstr) (cur : loc) : HM (result unit) :=
  match t with
  | TokKey k =>
    n ← load_node cur;
    if negb (bool_decide (h_type n = CFG_OBJ)) then mret (Err ENOTDIR)
    else h_set_str_plain cur k val
  | TokAppend => h_set_arr_append cur val
  | TokIndex idx => h_set_arr_idx cur idx val
  end.

(** The loop of [cfg_set_str]. *)
Fixpoint h_set_walk (ts : list cfg_tok) (val : cstr) (cur : loc) : HM (result unit) :=
  match ts with
  | [] => mret (Err EINVAL)
  | t :: rest =>
    match rest with
    | [] => h_set_last t val cur
    | u :: _ =>
      match t with
      | TokAppend => mret (Err EINVAL)
      | TokIndex idx =>
        n ← load_node cur;
        if negb (bool_decide (h_type n = CFG_ARR)) then mret (Err ENOTDIR)
        else
          match h_arr_idx n idx with
          | Err e => mret (Err e)
          | Ok i =>
            c ← h_arr_nth cur i;
            match c with
            | None => mret (Err ENOENT)
            | Some c => h_set_walk rest val c
            end
          end
      | TokKey k =>
        n ← load_node cur;
        if negb (bool_decide (h_type n = CFG_OBJ)) then mret (Err ENOTDIR)
        else
          let want := want_of u in
          c ← h_obj_find cur k;
          match c with
          | None =>
            c ← h_node_new want (Some k);
            match c with
            | None => mret (Err ENOMEM)
            | Some c => _ ← h_child_add cur c; h_set_walk rest val c
            end
          | Some c =>
            cn ← load_node c;
            if negb (bool_decide (h_type cn = want)) then mret (Err ENOTDIR)
            else h_set_walk rest val c
          end
      end
    end
  end.

Definition h_cfg_set_str (root : loc) (path val : cstr) : HM (result unit) :=
  match parse_path path CFG_PATH_DEPTH_MAX with
  | Err e => mret (Err e)
  | Ok ts => h_set_walk ts val root
  end.

(** ** Deletion *)

(** The loops of [del_arr] and [del_plain]: the node before and the node. *)
Fixpoint del_nth_loop (fuel i : nat) (prev node : option loc)
  : HM (option loc * option loc) :=
  match node with
  | None => mret (prev, None)
  | Some c =>
    match i with
    | O => mret (prev, Some c)
    | S i =>
      match fuel with
      | O => fault
      | S f => cn ← load_node c; del_nth_loop f i (Some c) (h_next cn)
      end
    end
  end.

Fixpoint del_name_loop (fuel : nat) (name : cstr) (prev node : option loc)
  : HM (option loc * option loc) :=
  match node with
  | None => mret (prev, None)
  | Some c =>
    match fuel with
    | O => fault
    | S f =>
      cn ← load_node c;
      hit ← h_name_is name cn;
      if hit : bool then mret (prev, Some c)
      else del_name_loop f name (Some c) (h_next cn)
    end
  end.

(** Take [node], which comes after [prev], out of the list and free it. *)
Definition h_unlink (parent : loc) (prev : option loc) (node : loc) : HM unit :=
  n ← load_node node;
  _ ← match prev with
      | Some p => modify_node (fun m => m <| h_next := h_next n |>) p
      | None => modify_node (fun m => m <| h_child := h_next n |>) parent
      end;
  p ← load_node parent;
  _ ← (if bool_decide (h_tail p = Some node)
       then modify_node (fun m => m <| h_tail := prev |>) parent else mret tt);
  _ ← modify_node (fun m => m <| h_n_child ::= Z.add (-1) |>) parent;
  _ ← modify_node (fun m => m <| h_next := None |>) node;
  fuel ← heap_size;
  h_node_free fuel node.

Definition h_del_arr (arr : loc) (idx : Z) : HM (result unit) :=
  a ← load_node arr;
  if negb (bool_decide (h_type a = CFG_ARR)) then mret (Err ENOENT)
  else
    match h_arr_idx a idx with
    | Err _ => mret (Err ENOENT)
    | Ok i =>
      fuel ← heap_size;
      '(prev, node) ← del_nth_loop fuel i None (h_child a);
      match node with
      | None => mret (Err ENOENT)
      | Some node => _ ← h_unlink arr prev node; mret (Ok tt)
      end
    end.

Definition h_del_plain (parent : loc) (name : cstr) : HM (result unit) :=
  p ← load_node parent;
  fuel ← heap_size;
  '(prev, node) ← del_name_loop fuel name None (h_child p);
  match node with
  | None => mret (Err ENOENT)
  | Some node => _ ← h_unlink parent prev node; mret (Ok tt)
  end.

(** The loop of [cfg_del] and what it does with the last token. *)
Fixpoint h_del_walk (ts : list cfg_tok) (cur : loc) : HM (result unit) :=
  match ts with
  | [] => mret (Err EINVAL)
  | t :: rest =>
    match rest with
    | [] =>
      match t with
      | TokAppend => mret (Err EINVAL)
      | TokIndex idx => h_del_arr cur idx
      | TokKey k =>
        n ← load_node cur;
        if negb (bool_decide (h_type n = CFG_OBJ)) then mret (Err ENOTDIR)
        else h_del_plain cur k
      end
    | _ :: _ =>
      match t with
      | TokAppend => mret (Err EINVAL)
      | TokIndex idx =>
        n ← load_node cur;
        if negb (bool_decide (h_type n = CFG_ARR)) then mret (Err ENOTDIR)
        else
          match h_arr_idx n idx with
          | Err e => mret (Err e)
          | Ok i =>
            c ← h_arr_nth cur i;
            match c with
            | None => mret (Err ENOENT)
            | Some c => h_del_walk rest c
            end
          end
      | TokKey k =>
        n ← load_node cur;
        if negb (bool_decide (h_type n = CFG_OBJ)) then mret (Err ENOTDIR)
        else
          c ← h_obj_find cur k;
          match c with
          | None => mret (Err ENOENT)
          | Some c => h_del_walk rest c
          end
      end
    end
  end.

Definition h_cfg_del (root : loc) (path : cstr) : HM (result unit) :=
  match parse_path path CFG_PATH_DEPTH_MAX with
  | Err e => mret (Err e)
  | Ok ts => h_del_walk ts root
  end.

(** ** The whole configuration *)

(** [memset], then [node_init]; [root] is the node inside [struct cfg]. *)
Definition h_cfg_init (root : loc) : HM unit :=
  modify_node (fun _ => hnode_zero <| h_type := CFG_OBJ |> <| h_name := None |>) root.

Fixpoint cfg_free_loop (fuel : nat) (child : option loc) : HM unit :=
  match child with
  | None => mret tt
  | Some c =>
    match fuel with
    | O => fault
    | S f =>
      cn ← load_node c;
      _ ← modify_node (fun n => n <| h_next := None |>) c;
      size ← heap_size;
      _ ← h_node_free size c;
      cfg_free_loop f (h_next cn)
    end
  end.

Definition h_cfg_free (root : loc) : HM unit :=
  n ← load_node root;
  fuel ← heap_size;
  _ ← cfg_free_loop fuel (h_child n);
  _ ← h_free (h_name n);
  _ ← h_free (h_val n);
  modify_node (fun _ => hnode_zero) root.

(** ** Reading *)

(** The block of the value. *)
Definition h_parse_value (src : cstr) : HM (result loc) :=
  let dup s := p ← h_xstrdup (Some s);
               mret (match p with Some p => Ok p | None => Err ENOMEM end) in
  match trim src with
  | [] => dup []
  | q :: body =>
    if negb (Ascii.eqb q DQUOTE) then
      dup (trim (match strchr "#" (q :: body) with
                 | Some (before, _) => before
                 | None => q :: body
                 end))
    else
      dst ← h_malloc (CStr []);
      match dst with
      | None => mret (Err ENOMEM)
      | Some dst =>
        match unquote body with
        | Err e => _ ← h_free (Some dst); mret (Err e)
        | Ok (v, r) =>
          _ ← store_str dst v;
          let r := trim r in
          if negb (bool_decide (r = [])) && negb (Ascii.eqb (peek r) "#")
          then _ ← h_free (Some dst); mret (Err EINVAL)
          else mret (Ok dst)
        end
      end
  end.

Definition h_load_line (root : loc) (line : cstr) : HM (result unit) :=
  let key := trim line in
  if bool_decide (key = []) || Ascii.eqb (peek key) "#" then mret (Ok tt)
  else
    match strchr "=" key with
    | None => mret (Err EINVAL)
    | Some (before, after) =>
      let key := trim before in
      let eq := trim after in
      if bool_decide (key = []) then mret (Err EINVAL)
      else
        match path_file_ok key with
        | Err e => mret (Err e)
        | Ok _ =>
          r ← h_parse_value eq;
          match r with
          | Err e => mret (Err e)
          | Ok p =>
            val ← load_str p;
            rc ← h_cfg_set_str root key val;
            _ ← h_free (Some p);
            mret rc
          end
        end
    end.

Fixpoint h_load_lines (root : loc) (ls : list (list ascii * bool)) : HM (result unit) :=
  match ls with
  | [] => mret (Ok tt)
  | (buf, eof) :: ls' =>
    let line := c_string buf in
    if negb (bool_decide (LF ∈ line)) && negb eof then mret (Err E2BIG)
    else
      rc ← h_load_line root (trim_eol line);
      match rc with
      | Err e => mret (Err e)
      | Ok _ => h_load_lines root ls'
      end
  end.

(** Every error path frees the configuration. *)
Definition h_cfg_load (root : loc) (file : result (list ascii)) : HM (result unit) :=
  _ ← h_cfg_init root;
  match file with
  | Err e => _ ← h_cfg_free root; mret (Err e)
  | Ok bytes =>
    rc ← h_load_lines root (file_lines CFG_LINE_SZ bytes);
    match rc with
    | Err e => _ ← h_cfg_free root; mret (Err e)
    | Ok _ => mret (Ok tt)
    end
  end.

(** ** Writing *)

(** The loop over the elements of an array; [s] is the file. *)
Fixpoint h_dump_items (fuel : nat) (path : cstr) (child : option loc) (s : out_st)
  : HM (result unit * out_st) :=
  match child with
  | None => mret (Ok tt, s)
  | Some c =>
    match fuel with
    | O => fault
    | S f =>
      cn ← load_node c;
      if negb (bool_decide (h_type cn = CFG_STR)) then mret (Err EOPNOTSUPP, s)
      else
        v ← h_val_or_empty cn;
        match put_line (path ++ #"[]") v s with
        | (Err e, s) => mret (Err e, s)
        | (Ok _, s) => h_dump_items f path (h_next cn) s
        end
    end
  end.

(** [child->name] is printed, so it must not be NULL. *)
Fixpoint h_dump_node (fuel : nat) (node : loc) (path : cstr) (sz : nat) (s : out_st)
  : HM (result unit * out_st) :=
  match fuel with
  | O => fault
  | S f =>
    n ← load_node node;
    match h_type n with
    | CFG_STR => v ← h_val_or_empty n; mret (put_line path v s)
    | CFG_ARR => h_dump_items f path (h_child n) s
    | CFG_OBJ =>
      (fix dump_kids (g : nat) (child : option loc) (s : out_st)
         : HM (result unit * out_st) :=
         match child with
         | None => mret (Ok tt, s)
         | Some c =>
           match g with
           | O => fault
           | S g =>
             cn ← load_node c;
             match h_name cn with
             | None => fault
             | Some p =>
               name ← load_str p;
               match child_path path name sz with
               | Err e => mret (Err e, s)
               | Ok p =>
                 '(rc, s) ← h_dump_node f c p sz s;
                 match rc with
                 | Err e => mret (Err e, s)
                 | Ok _ => dump_kids g (h_next cn) s
                 end
               end
             end
           end
         end) f (h_child n) s
    end
  end.

Definition h_cfg_dump_file (root : loc) (s : out_st) : HM (result unit * out_st) :=
  fuel ← heap_size; h_dump_node fuel root [] CFG_DUMP_PATH_SZ s.

Definition h_cfg_dump (fopen_rc : result unit) (io : errno) (root : loc) (o : oracle)
  : HM (result unit * option (list ascii)) :=
  match fopen_rc with
  | Err e => mret (Err e, None)
  | Ok _ =>
    '(rc, (o, f)) ← h_cfg_dump_file root (o, []);
    mret (dump_close io rc o f)
  end.
