(* ===== verification/CfgHeapSpec.v ===== *)
(** The pointers of cfg.c implement the trees of CfgTree.v: what a linked tree
    looks like in memory, and that every operation of CfgHeap.v does to it what
    its counterpart does to the tree, without touching memory it must not touch
    and without losing a block. *)
From iris.proofmode Require Import proofmode.
From S2P Require Import Prelude CLib CfgPath CfgTree CfgFile Heap CfgHeap.

Set Warnings "-register-all,-clear-no-such-hyp".

(** ** Representation *)

(** A string that is NULL or in a block of its own. *)
Definition str_rep (p : option loc) (s : option cstr) : heapProp :=
  match p, s with
  | None, None => emp
  | Some l, Some s => l ↦ CStr s
  | _, _ => False
  end%I.

(** The first of a list of nodes, or what comes after it. *)
Definition hd_or (nx : option loc) (ls : list loc) : option loc :=
  match ls with [] => nx | l :: _ => Some l end.

(** The tree [n] at [l]: its [parent] and [next] are [par] and [nx], its
    children are linked by [next] from [child] to [tail]. *)
Fixpoint tree (n : cfg_node) (l : loc) (par nx : option loc) : heapProp :=
  let 'Node t x v kids := n in
  (∃ nm vl ls,
     l ↦ CNode (HNode t nm vl par nx (hd_or None ls) (last ls) (Z.of_nat (length kids))) ∗
     str_rep nm x ∗ str_rep vl v ∗
     (fix go (kids : list cfg_node) (ls : list loc) : heapProp :=
        match kids, ls with
        | [], [] => emp
        | k :: kids, lk :: ls => tree k lk (Some l) (hd_or None ls) ∗ go kids ls
        | _, _ => False
        end) kids ls)%I.

(** A piece of a list of children, with what comes after it. *)
Fixpoint nodes (par : option loc) (kids : list cfg_node) (ls : list loc) (nx : option loc)
  : heapProp :=
  match kids, ls with
  | [], [] => emp
  | k :: kids, lk :: ls => tree k lk par (hd_or nx ls) ∗ nodes par kids ls nx
  | _, _ => False
  end%I.

(** The node itself, its strings and the list of its children. *)
Definition node_at (n : cfg_node) (l : loc) (par nx : option loc) (ls : list loc)
    (hn : hnode) : heapProp :=
  (⌞h_type hn = n_type n /\ h_parent hn = par /\ h_next hn = nx /\
    h_child hn = hd_or None ls /\ h_tail hn = last ls /\ h_n_child hn = n_child n⌟ ∗
   l ↦ CNode hn ∗ str_rep (h_name hn) (n_name n) ∗ str_rep (h_val hn) (n_val n))%I.

Lemma node_at_fields n l par nx ls hn :
  node_at n l par nx ls hn ⊢ ⌜h_type hn = n_type n /\ h_parent hn = par /\ h_next hn = nx /\
    h_child hn = hd_or None ls /\ h_tail hn = last ls /\ h_n_child hn = n_child n⌝.
Proof. by iIntros "(%E & _)". Qed.

Lemma tree_nodes n l par nx :
  tree n l par nx ⊣⊢
  ∃ ls hn, node_at n l par nx ls hn ∗ nodes (Some l) (n_kids n) ls None.
Proof.
  destruct n as [t x v kids]. cbn [tree n_kids].
  assert (Hg : forall ls, (fix go (kids : list cfg_node) (ls : list loc) : heapProp :=
        match kids, ls with
        | [], [] => emp
        | k :: kids, lk :: ls => tree k lk (Some l) (hd_or None ls) ∗ go kids ls
        | _, _ => False
        end)%I kids ls = nodes (Some l) kids ls None).
  { induction kids as [|k kids IH]; intros [|lk ls]; cbn; try done. by rw IH. }
  iSplit.
  - iIntros "(%nm & %vl & %ls & Hl & Hn & Hv & Hk)". rw Hg. iExists ls, _. iFrame "Hk".
    iFrame "Hl". cbn. iFrame. done.
  - iIntros "(%ls & %hn & (%E & Hl & Hn & Hv) & Hk)".
    destruct hn as [t' nm vl par' nx' ch tl nc]. cbn in *.
    destruct E as (-> & -> & -> & -> & -> & ->). iExists nm, vl, ls. rw Hg. iFrame.
Qed.

(** ** Lists of children *)

Lemma nodes_length par kids ls nx : nodes par kids ls nx ⊢ ⌜length ls = length kids⌝.
Proof.
  revert ls. induction kids as [|k kids IH]; intros [|l ls]; cbn;
    [by iIntros "_"|by iIntros "%"|by iIntros "%"|].
  iIntros "[_ H]". rw IH. iDestruct "H" as %E. iPureIntro. lia.
Qed.

Lemma hd_or_app nx l1 l2 : hd_or nx (l1 ++ l2) = hd_or (hd_or nx l2) l1.
Proof. by destruct l1. Qed.

Lemma nodes_app par k1 k2 l1 l2 nx :
  length l1 = length k1 ->
  nodes par (k1 ++ k2) (l1 ++ l2) nx ⊣⊢
  nodes par k1 l1 (hd_or nx l2) ∗ nodes par k2 l2 nx.
Proof.
  revert l1. induction k1 as [|k k1 IH]; intros [|l l1] E; try done; cbn.
  - by rw left_id.
  - injection E as E. by rw hd_or_app IH // assoc.
Qed.

(** The child at a position, and the list around it. *)
Lemma nodes_split par kids ls nx i c :
  kids !! i = Some c -> nodes par kids ls nx ⊢
  ∃ lc, ⌞ls !! i = Some lc⌟ ∗ nodes par (take i kids) (take i ls) (Some lc) ∗
    tree c lc par (hd_or nx (drop (S i) ls)) ∗ nodes par (drop (S i) kids) (drop (S i) ls) nx.
Proof.
  iIntros (Hi) "H". iDestruct (nodes_length with "H") as %El.
  destruct (lookup_lt_is_Some_2 ls i) as [lc Hl].
  { apply lookup_lt_Some in Hi. lia. }
  iExists lc. iSplitR; [done|].
  rw -{1}(take_drop_middle kids i c Hi) -{1}(take_drop_middle ls i lc Hl).
  rw nodes_app; [|rw !length_take; lia]. done.
Qed.

Lemma nodes_join par kids ls nx i c lc :
  i < length kids -> length ls = length kids -> ls !! i = Some lc ->
  nodes par (take i kids) (take i ls) (Some lc) -∗
  tree c lc par (hd_or nx (drop (S i) ls)) -∗
  nodes par (drop (S i) kids) (drop (S i) ls) nx -∗
  nodes par (<[i := c]> kids) ls nx.
Proof.
  iIntros (Hi El Hl) "H1 Hc H2".
  iEval (rw insert_take_drop // -{1}(take_drop_middle ls i lc Hl)).
  rw nodes_app; [|rw !length_take; lia]. cbn. iFrame.
Qed.

(** Take a child out and put another in its place. *)
Lemma nodes_focus par kids ls nx i c :
  kids !! i = Some c -> nodes par kids ls nx ⊢
  ∃ lc nxc, ⌞ls !! i = Some lc⌟ ∗ tree c lc par nxc ∗
    (∀ c', tree c' lc par nxc -∗ nodes par (<[i := c']> kids) ls nx).
Proof.
  iIntros (Hi) "H". iDestruct (nodes_length with "H") as %El.
  iDestruct (nodes_split _ _ _ _ _ _ Hi with "H") as "(%lc & %Hl & H1 & Hc & H2)".
  iExists lc, _. iSplitR; [done|]. iFrame "Hc". iIntros (c') "Hc".
  apply lookup_lt_Some in Hi. by iApply (nodes_join with "H1 Hc H2").
Qed.

(** The node of a tree is owned by it. *)
Lemma tree_excl n m l p1 n1 p2 n2 : tree n l p1 n1 -∗ tree m l p2 n2 -∗ False.
Proof.
  rw !tree_nodes. iIntros "(% & % & (_ & H1 & _) & _) (% & % & (_ & H2 & _) & _)".
  iApply (points_to_excl with "H1 H2").
Qed.

Lemma nodes_fresh c l p nxc par kids ls nx :
  tree c l p nxc -∗ nodes par kids ls nx -∗ ⌜l ∉ ls⌝.
Proof.
  revert ls. induction kids as [|k kids IH]; intros [|lk ls]; cbn.
  - iIntros "_ _". iPureIntro. apply not_elem_of_nil.
  - iIntros "_ %". done.
  - iIntros "_ %". done.
  - iIntros "Hc [Hk H]". rw not_elem_of_cons. iSplit.
    + destruct (decide (l = lk)) as [->|Hne]; [|done].
      by iDestruct (tree_excl with "Hc Hk") as %[].
    + iApply (IH with "Hc H").
Qed.

(** ** Sizes *)

(** The nodes of a tree, which bound every loop over it. *)
Fixpoint node_size (n : cfg_node) : nat :=
  let 'Node _ _ _ kids := n in
  S ((fix sum (kids : list cfg_node) : nat :=
        match kids with [] => 0 | k :: kids => node_size k + sum kids end) kids).

Definition kids_size (kids : list cfg_node) : nat := sum_list_with node_size kids.

Lemma node_size_eq n : node_size n = S (kids_size (n_kids n)).
Proof.
  destruct n as [t x v kids]. cbn [node_size n_kids]. apply f_equal.
  induction kids as [|k kids IH]; [done|]. cbn. by rw IH.
Qed.

Lemma kids_size_length kids : length kids <= kids_size kids.
Proof.
  induction kids as [|k kids IH]; cbn; [done|]. rw node_size_eq. unfold kids_size in IH. lia.
Qed.

Lemma sized_mono n m P : sized n P -> m <= n -> sized m P.
Proof. intros H Hm h Hh. specialize (H h Hh). lia. Qed.

Lemma sized_entails n (P Q : heapProp) : (P ⊢ Q) -> sized n Q -> sized n P.
Proof. intros E H h Hh. by apply H, (hp_entails_unfold P). Qed.

Lemma sized_nodes_all par kids :
  Forall (fun k => forall l p nx, sized (node_size k) (tree k l p nx)) kids ->
  forall ls nx, sized (kids_size kids) (nodes par kids ls nx).
Proof.
  induction 1 as [|k kids Hk _ IH]; intros [|l ls] nx; try apply sized_0; cbn.
  - intros h [].
  - by apply sized_sep.
Qed.

Lemma sized_tree n l par nx : sized (node_size n) (tree n l par nx).
Proof.
  revert l par nx. induction n as [t x v kids IH] using cfg_node_ind'. intros l par nx.
  eapply sized_entails; [by rw tree_nodes|].
  apply sized_exist. intros ls. apply sized_exist. intros hn. rw node_size_eq.
  apply (sized_sep 1); [|by apply sized_nodes_all].
  apply (sized_sep 0); [apply sized_0|]. apply (sized_mono (1 + 0)); [|done].
  apply (sized_sep 1); [apply sized_points_to|apply sized_0].
Qed.

Lemma sized_nodes par kids ls nx : sized (kids_size kids) (nodes par kids ls nx).
Proof. apply sized_nodes_all, Forall_true. intros k l p nx'. apply sized_tree. Qed.

(** ** Looking at a node *)

Lemma wp_node {A} o n l par nx (k : hnode -> HM A) F :
  tree n l par nx -∗
  (∀ ls hn, node_at n l par nx ls hn -∗ nodes (Some l) (n_kids n) ls None -∗ wp o (k hn) F) -∗
  wp o (load_node l ≫= k) F.
Proof.
  rw tree_nodes. iIntros "(%ls & %hn & (%E & Hl & Hs) & Hk) Hc".
  iApply (wp_load_node with "Hl"). iIntros "Hl". iApply ("Hc" with "[Hl Hs] Hk").
  iFrame. done.
Qed.

(** Only the type and the number of children matter. *)
Lemma wp_peek {A} o n l par nx (k : hnode -> HM A) F :
  tree n l par nx -∗
  (∀ hn, ⌞h_type hn = n_type n /\ h_n_child hn = n_child n⌟ -∗ tree n l par nx -∗
     wp o (k hn) F) -∗
  wp o (load_node l ≫= k) F.
Proof.
  iIntros "H Hc". iApply (wp_node with "H"). iIntros (ls hn) "(%E & Hl) Hk".
  iApply ("Hc" with "[]"); [iPureIntro; tauto|]. rw tree_nodes. iExists ls, hn.
  iFrame "Hk Hl". done.
Qed.

Lemma wp_name_is {A} o name n l par nx ls hn (k : bool -> HM A) F :
  node_at n l par nx ls hn -∗ (node_at n l par nx ls hn -∗ wp o (k (name_is name n)) F) -∗
  wp o (h_name_is name hn ≫= k) F.
Proof.
  iIntros "(%E & Hl & Hn & Hv) Hc". unfold h_name_is, name_is.
  destruct (h_name hn) as [p|] eqn:Ep, (n_name n) as [s|] eqn:Es; cbn; try done.
  - iApply wp_bind. iApply (wp_load_str with "Hn"). iIntros "Hn". iApply wp_ret.
    iApply "Hc". unfold node_at. rw Ep Es. iFrame. done.
  - iApply wp_bind. iApply wp_ret. iApply "Hc". unfold node_at. rw Ep Es. iFrame. done.
Qed.

(** The value of a string node, read. *)
Lemma wp_val_or_empty {A} o n l par nx ls hn (k : cstr -> HM A) F :
  node_at n l par nx ls hn -∗ (node_at n l par nx ls hn -∗ wp o (k (val_or_empty n)) F) -∗
  wp o (h_val_or_empty hn ≫= k) F.
Proof.
  iIntros "(%E & Hl & Hn & Hv) Hc". unfold h_val_or_empty, val_or_empty.
  destruct (h_val hn) as [p|] eqn:Ep, (n_val n) as [s|] eqn:Es; cbn; try done.
  - iApply (wp_load_str with "Hv"). iIntros "Hv".
    iApply "Hc". unfold node_at. rw Ep Es. iFrame. done.
  - iApply wp_bind. iApply wp_ret. iApply "Hc". unfold node_at. rw Ep Es. iFrame. done.
Qed.

(** ** Finding a child *)

(** A search for a child ends with nothing found, or with a child taken out and
    the way to put another in its place. *)
Definition found_in (par : option loc) (kids : list cfg_node) (ls : list loc)
    (r : option (nat * cfg_node)) (o : oracle) (F : option loc -> oracle -> heapProp)
  : heapProp :=
  match r with
  | None => nodes par kids ls None -∗ F None o
  | Some (i, c) => ∀ lc nxc, tree c lc par nxc -∗
      (∀ c', tree c' lc par nxc -∗ nodes par (<[i := c']> kids) ls None) -∗ F (Some lc) o
  end%I.

(** The search goes on behind the first child. *)
Lemma found_cons par k kids l ls r o F :
  tree k l par (hd_or None ls) -∗
  found_in par (k :: kids) (l :: ls) (match r with Some (i, c) => Some (S i, c) | None => None end) o F -∗
  found_in par kids ls r o F.
Proof.
  iIntros "Hk HF". destruct r as [[i c]|]; cbn.
  - iIntros (lc nxc) "Hc Hw". iApply ("HF" with "Hc"). iIntros (c') "Hc".
    iFrame "Hk". by iApply "Hw".
  - iIntros "H". iApply "HF". iFrame.
Qed.

Lemma find_loop_spec name par kids ls fuel o F :
  length kids <= fuel ->
  nodes par kids ls None -∗ found_in par kids ls (find_idx (name_is name) kids) o F -∗
  wp o (find_loop fuel name (hd_or None ls)) F.
Proof.
  revert ls fuel F. induction kids as [|k kids IH]; intros [|l ls] fuel F Hf; cbn [nodes].
  - iIntros "H HF". destruct fuel; iApply wp_ret; by iApply "HF".
  - by iIntros "%".
  - by iIntros "%".
  - destruct fuel as [|fuel]; [cbn in Hf; lia|]. iIntros "[Hk H] HF". cbn [find_loop hd_or].
    iApply (wp_node with "Hk"). iIntros (ls' hn) "Hk Hks".
    iApply (wp_name_is with "Hk"). iIntros "Hk".
    iDestruct (node_at_fields with "Hk") as %(_ & _ & En & _).
    iAssert (tree k l par (hd_or None ls)) with "[Hk Hks]" as "Hk".
    { rw tree_nodes. iExists ls', hn. iFrame. }
    cbn [find_idx]. destruct (name_is name k).
    + iApply wp_ret. iApply ("HF" with "Hk"). iIntros (c') "Hc". cbn. iFrame.
    + rw En. iApply (IH with "H"); [cbn in Hf; lia|].
      iApply (found_cons with "Hk HF").
Qed.

(** The same for the whole tree. *)
Definition found (n : cfg_node) (l : loc) (par nx : option loc)
    (r : option (nat * cfg_node)) (o : oracle) (F : option loc -> oracle -> heapProp)
  : heapProp :=
  match r with
  | None => tree n l par nx -∗ F None o
  | Some (i, c) => ∀ lc nxc, tree c lc (Some l) nxc -∗
      (∀ c', tree c' lc (Some l) nxc -∗
         tree (set_kids (<[i := c']> (n_kids n)) n) l par nx) -∗ F (Some lc) o
  end%I.

Lemma tree_set_kids n l par nx ls hn kids :
  length kids = length (n_kids n) ->
  node_at n l par nx ls hn -∗ nodes (Some l) kids ls None -∗ tree (set_kids kids n) l par nx.
Proof.
  iIntros (El) "Hn Hk". rw tree_nodes. iExists ls, hn. rw n_kids_set. iFrame "Hk".
  unfold node_at, n_child. destruct n as [t x v kids0]. cbn in *. by rw El.
Qed.

Lemma tree_close n l par nx ls hn :
  node_at n l par nx ls hn -∗ nodes (Some l) (n_kids n) ls None -∗ tree n l par nx.
Proof. iIntros "Hn Hk". rw tree_nodes. iExists ls, hn. iFrame. Qed.

Lemma found_nodes n l par nx ls hn r o F :
  node_at n l par nx ls hn -∗ found n l par nx r o F -∗
  found_in (Some l) (n_kids n) ls r o F.
Proof.
  iIntros "Hn HF". destruct r as [[i c]|]; cbn.
  - iIntros (lc nxc) "Hc Hw". iApply ("HF" with "Hc"). iIntros (c') "Hc".
    iApply (tree_set_kids with "Hn"); [by rw length_insert|]. by iApply "Hw".
  - iIntros "Hk". iApply "HF". by iApply (tree_close with "Hn").
Qed.

(** A loop over the children has enough rounds. *)
Lemma wp_kids_fuel {A} o par kids ls nx (k : nat -> HM A) F :
  nodes par kids ls nx -∗
  (∀ m, ⌞kids_size kids <= m⌟ -∗ nodes par kids ls nx -∗ wp o (k m) F) -∗
  wp o (heap_size ≫= k) F.
Proof. apply wp_heap_size, sized_nodes. Qed.

Lemma obj_find_spec name n l par nx o F :
  tree n l par nx -∗ found n l par nx (obj_find n name) o F -∗
  wp o (h_obj_find l name) F.
Proof.
  iIntros "H HF". unfold h_obj_find, obj_find, has_type. iApply (wp_node with "H").
  iIntros (ls hn) "Hn Hk".
  iDestruct (node_at_fields with "Hn") as %(-> & _ & _ & -> & _).
  case_bool_decide; cbn [negb].
  - iApply (wp_kids_fuel with "Hk"). iIntros (m Hm) "Hk".
    pose proof (kids_size_length (n_kids n)).
    iApply (find_loop_spec with "Hk"); [lia|]. iApply (found_nodes with "Hn HF").
  - iApply wp_ret. iApply "HF". by iApply (tree_close with "Hn").
Qed.

(** The child at an index, as a search. *)
Definition nth_kid (kids : list cfg_node) (i : nat) : option (nat * cfg_node) :=
  match kids !! i with Some c => Some (i, c) | None => None end.

Lemma nth_loop_spec par kids ls fuel i o F :
  length kids <= fuel ->
  nodes par kids ls None -∗ found_in par kids ls (nth_kid kids i) o F -∗
  wp o (nth_loop fuel i (hd_or None ls)) F.
Proof.
  revert ls fuel i F. induction kids as [|k kids IH]; intros [|l ls] fuel i F Hf; cbn [nodes].
  - iIntros "H HF". destruct fuel; iApply wp_ret; by iApply "HF".
  - by iIntros "%".
  - by iIntros "%".
  - destruct fuel as [|fuel]; [cbn in Hf; lia|]. iIntros "[Hk H] HF". cbn [nth_loop hd_or].
    destruct i as [|i].
    + iApply wp_ret. iApply ("HF" with "Hk"). iIntros (c') "Hc". cbn. iFrame.
    + iApply (wp_node with "Hk"). iIntros (ls' hn) "Hk Hks".
      iDestruct (node_at_fields with "Hk") as %(_ & _ & -> & _).
      iApply (IH with "H"); [cbn in Hf; lia|].
      iApply (found_cons with "[Hk Hks]"); [by iApply (tree_close with "Hk")|].
      unfold nth_kid. cbn [lookup list_lookup]. by destruct (kids !! i).
Qed.

Lemma arr_nth_spec n l par nx i o F :
  tree n l par nx -∗ found n l par nx (nth_kid (n_kids n) i) o F -∗
  wp o (h_arr_nth l i) F.
Proof.
  iIntros "H HF". unfold h_arr_nth. iApply (wp_node with "H").
  iIntros (ls hn) "Hn Hk". iDestruct (node_at_fields with "Hn") as %(_ & _ & _ & -> & _).
  iApply (wp_kids_fuel with "Hk"). iIntros (m Hm) "Hk".
  pose proof (kids_size_length (n_kids n)).
  iApply (nth_loop_spec with "Hk"); [lia|]. iApply (found_nodes with "Hn HF").
Qed.

Lemma arr_idx_hnode n hn idx :
  h_type hn = n_type n -> h_n_child hn = n_child n -> h_arr_idx hn idx = arr_idx n idx.
Proof. intros E1 E2. unfold h_arr_idx, arr_idx, has_type. by rw E1 E2. Qed.

(** ** Lookup *)

(** A lookup gives the node and the way back to the tree. *)
Definition reached (n : cfg_node) (l : loc) (par nx : option loc) (r : result cfg_node)
    (o : oracle) (F : result loc -> oracle -> heapProp) : heapProp :=
  match r with
  | Err e => tree n l par nx -∗ F (Err e) o
  | Ok c => ∀ lc parc nxc, tree c lc parc nxc -∗
      (tree c lc parc nxc -∗ tree n l par nx) -∗ F (Ok lc) o
  end%I.

Lemma reached_below n l par nx i c lc nxc r o F :
  n_kids n !! i = Some c ->
  (∀ c', tree c' lc (Some l) nxc -∗ tree (set_kids (<[i := c']> (n_kids n)) n) l par nx) -∗
  reached n l par nx r o F -∗ reached c lc (Some l) nxc r o F.
Proof.
  iIntros (Hi) "Hw HF". iSpecialize ("Hw" $! c). rw list_insert_id // set_kids_id.
  destruct r as [d|e]; cbn.
  - iIntros (ld pard nxd) "Hd Hw'". iApply ("HF" with "Hd"). iIntros "Hd".
    iApply "Hw". by iApply "Hw'".
  - iIntros "Hc". iApply "HF". by iApply "Hw".
Qed.

Lemma walk_toks_spec ts n l par nx o F :
  tree n l par nx -∗ reached n l par nx (walk_toks ts n) o F -∗ wp o (h_walk_toks ts l) F.
Proof.
  revert n l par nx. induction ts as [|[k|z|] ts IH]; intros n l par nx; cbn [walk_toks h_walk_toks].
  - iIntros "H HF". iApply wp_ret. iApply ("HF" with "H"). by iIntros "$".
  - iIntros "H HF". iApply (wp_peek with "H"). iIntros (hn [Et En]) "H". unfold has_type.
    rw Et. case_bool_decide as Ht; cbn [negb]; [|iApply wp_ret; by iApply "HF"].
    iApply wp_bind. iApply (obj_find_spec with "H").
    destruct (obj_find n k) as [[i c]|] eqn:Ef; cbn.
    + iIntros (lc nxc) "Hc Hw". iApply (IH with "Hc").
      apply obj_find_inv in Ef as (_ & Hi & _). by iApply (reached_below with "Hw HF").
    + iIntros "H". iApply wp_ret. by iApply "HF".
  - iIntros "H HF". iApply (wp_peek with "H"). iIntros (hn [Et En]) "H". unfold has_type.
    rw Et. case_bool_decide as Ht; cbn [negb]; [|iApply wp_ret; by iApply "HF"].
    rw (arr_idx_hnode n) //. destruct (arr_idx n z) as [i|e]; [|iApply wp_ret; by iApply "HF"].
    iApply wp_bind. iApply (arr_nth_spec with "H"). unfold nth_kid, arr_nth.
    destruct (n_kids n !! i) as [c|] eqn:Hi; cbn.
    + iIntros (lc nxc) "Hc Hw". iApply (IH with "Hc"). by iApply (reached_below with "Hw HF").
    + iIntros "H". iApply wp_ret. by iApply "HF".
  - iIntros "H HF". iApply wp_ret. by iApply "HF".
Qed.

Lemma get_node_spec path n l par nx o F :
  tree n l par nx -∗ reached n l par nx (cfg_get_node n path) o F -∗
  wp o (h_cfg_get_node l path) F.
Proof.
  iIntros "H HF". unfold h_cfg_get_node, cfg_get_node, h_walk_get, walk_get.
  destruct path as [|c path].
  - iApply wp_ret. iApply ("HF" with "H"). by iIntros "$".
  - destruct (parse_path (c :: path) _) as [ts|e]; cbn [mbind result_bind].
    + iApply (walk_toks_spec with "H HF").
    + iApply wp_ret. by iApply "HF".
Qed.

Lemma get_str_spec path n l par nx o F :
  tree n l par nx -∗ (tree n l par nx -∗ F (cfg_get_str n path) o) -∗
  wp o (h_cfg_get_str l path) F.
Proof.
  iIntros "H HF". unfold h_cfg_get_str, cfg_get_str. iApply wp_bind.
  iApply (get_node_spec with "H"). destruct (cfg_get_node n path) as [c|e]; cbn.
  - iIntros (lc parc nxc) "Hc Hw". iApply (wp_node with "Hc"). iIntros (ls hn) "Hc Hk".
    iDestruct (node_at_fields with "Hc") as %(Et & _). unfold str_of, has_type. rw Et.
    case_bool_decide; cbn [negb].
    + iApply (wp_val_or_empty with "Hc"). iIntros "Hc". iApply wp_ret. iApply "HF".
      iApply "Hw". by iApply (tree_close with "Hc").
    + iApply wp_ret. iApply "HF". iApply "Hw". by iApply (tree_close with "Hc").
  - iIntros "H". iApply wp_ret. by iApply "HF".
Qed.

Lemma arr_len_spec path n l par nx o F :
  tree n l par nx -∗ (tree n l par nx -∗ F (cfg_arr_len n path) o) -∗
  wp o (h_cfg_arr_len l path) F.
Proof.
  iIntros "H HF". unfold h_cfg_arr_len, cfg_arr_len. iApply wp_bind.
  iApply (get_node_spec with "H"). destruct (cfg_get_node n path) as [c|e]; cbn.
  - iIntros (lc parc nxc) "Hc Hw". iApply (wp_peek with "Hc").
    iIntros (hn [Et En]) "Hc". unfold has_type. rw Et En.
    case_bool_decide; cbn [negb]; iApply wp_ret; iApply "HF"; by iApply "Hw".
  - iIntros "H". iApply wp_ret. by iApply "HF".
Qed.

(** ** New nodes and values *)

(** A copy of a string, unless memory is out. *)
Lemma wp_xstrdup {A} o s (k : option loc -> HM A) F :
  (if fst (pop o) then ∀ p, p ↦ CStr s -∗ wp (snd (pop o)) (k (Some p)) F
   else wp (snd (pop o)) (k None) F) ⊢ wp o (h_xstrdup (Some s) ≫= k) F.
Proof. apply wp_malloc. Qed.

(** A leaf in memory. *)
Lemma tree_leaf t nm x vl v l par nx :
  l ↦ CNode (HNode t nm vl par nx None None 0) -∗ str_rep nm x -∗ str_rep vl v -∗
  tree (Node t x v []) l par nx.
Proof.
  iIntros "Hl Hn Hv". rw tree_nodes. iExists [], _. iFrame "Hl". cbn. iFrame. done.
Qed.

Lemma node_new_spec t x o F :
  match node_new t x o with
  | (None, o') => F None o'
  | (Some c, o') => ∀ lc, tree c lc None None -∗ F (Some lc) o'
  end ⊢ wp o (h_node_new t x) F.
Proof.
  iIntros "HF". unfold h_node_new, node_new. iApply wp_malloc.
  destruct (pop o) as [[] o1]; cbn; [|by iApply wp_ret]. iIntros (l) "Hl".
  iApply (wp_modify with "Hl"). iIntros "Hl". destruct x as [x|].
  - iApply wp_xstrdup. destruct (pop o1) as [[] o2]; cbn.
    + iIntros (p) "Hp". iApply (wp_modify with "Hl"). iIntros "Hl". iApply wp_ret.
      iApply "HF". by iApply (tree_leaf _ (Some p) (Some x) None None with "Hl Hp").
    + iApply (wp_modify with "Hl"). iIntros "Hl".
      iApply (wp_free with "Hl"). by iApply wp_ret.
  - iApply wp_bind. iApply wp_ret. iApply (wp_modify with "Hl"). iIntros "Hl".
    iApply wp_ret. iApply "HF". by iApply (tree_leaf _ None None None None with "Hl").
Qed.

(** Replacing the value of a node frees the old one. *)
Lemma wp_free_str {A} o p s (k : unit -> HM A) F :
  str_rep p s -∗ wp o (k tt) F -∗ wp o (h_free p ≫= k) F.
Proof.
  iIntros "Hp Hk". destruct p as [p|], s as [s|]; cbn; try done.
  iApply (wp_free with "Hp Hk").
Qed.

(** An operation in memory that does to the tree what [m] does. *)
Definition implements (mh : loc -> HM (result unit)) (m : ST tree_st unit) : Prop :=
  forall o n l par nx F,
    tree n l par nx -∗
    (let '(r, (o', n')) := m (o, n) in tree n' l par nx -∗ F r o') -∗
    wp o (mh l) F.

Lemma store_val_spec v : implements (h_store_val v) (store_val v).
Proof.
  intros o n l par nx F. iIntros "H HF". unfold h_store_val, store_val.
  iApply wp_xstrdup. destruct (pop o) as [[] o1]; cbn.
  - iIntros (p) "Hp". iApply (wp_node with "H"). iIntros (ls hn) "(%E & Hl & Hn & Hv) Hk".
    iApply (wp_free_str with "Hv"). iApply (wp_modify with "Hl"). iIntros "Hl".
    iApply wp_ret. iApply "HF". rw tree_nodes. iExists ls, _.
    destruct n as [t x w kids]. cbn. iFrame "Hk Hl". cbn. iFrame. iPureIntro. exact E.
  - iApply wp_ret. by iApply "HF".
Qed.

(** Only the links of the node change. *)
Lemma wp_set_next {A} o n l par nx nx' (k : unit -> HM A) F :
  tree n l par nx -∗ (tree n l par nx' -∗ wp o (k tt) F) -∗
  wp o (modify_node (fun n => n <| h_next := nx' |>) l ≫= k) F.
Proof.
  rw !tree_nodes. iIntros "(%ls & %hn & (%E & Hl & Hs) & Hk) Hc".
  iApply (wp_modify with "Hl"). iIntros "Hl". iApply "Hc". iExists ls, _. iFrame "Hk Hl".
  cbn. iFrame. iPureIntro. tauto.
Qed.

Lemma wp_set_parent {A} o n l par par' nx (k : unit -> HM A) F :
  tree n l par nx -∗ (tree n l par' nx -∗ wp o (k tt) F) -∗
  wp o (modify_node (fun n => n <| h_parent := par' |>) l ≫= k) F.
Proof.
  rw !tree_nodes. iIntros "(%ls & %hn & (%E & Hl & Hs) & Hk) Hc".
  iApply (wp_modify with "Hl"). iIntros "Hl". iApply "Hc". iExists ls, _. iFrame "Hk Hl".
  cbn. iFrame. iPureIntro. tauto.
Qed.

(** A list of children is empty or has a last one. *)
Lemma nodes_last par kids ls nx :
  nodes par kids ls nx ⊢ ⌞kids = [] /\ ls = []⌟ ∨
  ∃ ks k ls' t, ⌞kids = ks ++ [k] /\ ls = ls' ++ [t] /\ length ls' = length ks⌟ ∗
    nodes par ks ls' (Some t) ∗ tree k t par nx.
Proof.
  iIntros "H". iDestruct (nodes_length with "H") as %El.
  destruct kids as [|k kids _] using rev_ind.
  { iLeft. destruct ls; [|done]. cbn. done. }
  destruct ls as [|t ls _] using rev_ind; [rw length_app /= in El; lia|].
  rw !length_app /= in El. iRight. iExists kids, k, ls, t.
  rw nodes_app; [|lia]. cbn. iDestruct "H" as "($ & $ & _)". iPureIntro.
  split_and!; [done|done|lia].
Qed.

(** The new child is the last one; it can be worked on where it is. *)
Lemma child_add_spec {A} o p lp par nx c lc pc (k : unit -> HM A) F :
  tree p lp par nx -∗ tree c lc pc None -∗
  (tree c lc (Some lp) None -∗
   (∀ c', tree c' lc (Some lp) None -∗ tree (child_add p c') lp par nx) -∗ wp o (k tt) F) -∗
  wp o (h_child_add lp lc ≫= k) F.
Proof.
  iIntros "Hp Hc HF". iApply wp_bind. unfold h_child_add.
  iApply (wp_set_parent with "Hc"). iIntros "Hc".
  iApply (wp_node with "Hp"). iIntros (ls hn) "(%E & Hl & Hs) Hk".
  destruct E as (E1 & E2 & E3 & E4 & E5 & E6).
  iDestruct (nodes_last with "Hk") as "[%E|(%ks & %kl & %ls' & %t & %E & Hk & Ht)]".
  - destruct E as [Ek ->]. rw E4. cbn [hd_or].
    iApply (wp_modify with "Hl"). iIntros "Hl".
    iApply (wp_modify with "Hl"). iIntros "Hl".
    iApply wp_last. iApply (wp_modify with "Hl"). iIntros "Hl". iApply wp_ret.
    iApply ("HF" with "Hc"). iIntros (c') "Hc". iEval (rw tree_nodes). iExists [lc], _.
    unfold child_add. destruct p as [tp x v kids]. cbn in *. subst kids. iFrame "Hl Hc".
    cbn. iFrame. iPureIntro. split_and!; try done. rw E6. done.
  - destruct E as (Ek & -> & Elen). rw E4 E5 last_snoc. destruct (hd_or None (ls' ++ [t])) eqn:Eh;
      [|by destruct ls'].
    iApply (wp_set_next with "Ht"). iIntros "Ht".
    iApply (wp_modify with "Hl"). iIntros "Hl".
    iApply wp_last. iApply (wp_modify with "Hl"). iIntros "Hl". iApply wp_ret.
    iApply ("HF" with "Hc"). iIntros (c') "Hc". iEval (rw tree_nodes).
    iExists ((ls' ++ [t]) ++ [lc]), _.
    unfold child_add. destruct p as [tp x v kids]. cbn in *. subst kids. iFrame "Hl".
    rw nodes_app; [|rw !length_app /=; lia]. rw nodes_app; [|lia]. cbn. iFrame.
    iPureIntro. split_and!; try done.
    + rw E4. by destruct ls'.
    + by rw last_snoc.
    + rw E6. unfold n_child. cbn. rw !length_app. cbn. lia.
Qed.

(** ** Freeing *)

(** The loop of [node_free] over the children. *)
Definition free_kids (f : nat) : nat -> option loc -> HM unit :=
  fix go (g : nat) (child : option loc) :=
  match child with
  | None => mret tt
  | Some c =>
    match g with
    | O => fault
    | S g => cn ← load_node c; _ ← h_node_free f c; go g (h_next cn)
    end
  end.

Lemma h_node_free_eq f node :
  h_node_free (S f) node =
  (n ← load_node node; _ ← free_kids f f (h_child n); _ ← h_free (h_name n);
   _ ← h_free (h_val n); h_free (Some node)).
Proof. done. Qed.

Lemma free_kids_spec par kids f g ls o F :
  Forall (fun k => forall fuel l p nx o F, node_size k <= fuel ->
    tree k l p nx -∗ F tt o -∗ wp o (h_node_free fuel l) F) kids ->
  kids_size kids <= f -> length kids <= g ->
  nodes par kids ls None -∗ F tt o -∗ wp o (free_kids f g (hd_or None ls)) F.
Proof.
  intros Hk. revert g ls F. induction Hk as [|k kids Hk _ IH]; intros g [|l ls] F Hf Hg;
    cbn [nodes].
  - iIntros "_ HF". destruct g; by iApply wp_ret.
  - by iIntros "%".
  - by iIntros "%".
  - destruct g as [|g]; [cbn in Hg; lia|]. iIntros "[Hk H] HF". cbn [free_kids hd_or].
    iApply (wp_node with "Hk"). iIntros (ls' hn) "Hk Hks".
    iDestruct (node_at_fields with "Hk") as %(_ & _ & -> & _).
    iDestruct (tree_close with "Hk Hks") as "Hk". iApply wp_bind.
    unfold kids_size in Hf. cbn in Hf, Hg. iApply (Hk with "Hk"); [lia|].
    iApply (IH with "H HF"); unfold kids_size; lia.
Qed.

Lemma node_free_spec n : forall fuel l par nx o F, node_size n <= fuel ->
  tree n l par nx -∗ F tt o -∗ wp o (h_node_free fuel l) F.
Proof.
  induction n as [t x v kids IH] using cfg_node_ind'. intros fuel l par nx o F Hf.
  rw node_size_eq in Hf. destruct fuel as [|f]; [lia|]. rw h_node_free_eq.
  iIntros "H HF". iApply (wp_node with "H"). iIntros (ls hn) "(%E & Hl & Hn & Hv) Hk".
  destruct E as (_ & _ & _ & -> & _). cbn [n_kids] in *. pose proof (kids_size_length kids).
  iApply wp_bind. iApply (free_kids_spec with "Hk"); [done|lia|lia|].
  iApply (wp_free_str with "Hn"). iApply (wp_free_str with "Hv").
  iApply wp_last. iApply (wp_free with "Hl"). by iApply wp_ret.
Qed.

Lemma wp_node_free {A} n l par nx o (k : unit -> HM A) F :
  tree n l par nx -∗ wp o (k tt) F -∗ wp o (fuel ← heap_size; h_node_free fuel l ≫= k) F.
Proof.
  iIntros "H HF". iApply (wp_heap_size with "H"); [apply sized_tree|].
  iIntros (m Hm) "H". iApply wp_bind. by iApply (node_free_spec with "H").
Qed.

(** ** Assignment *)

(** Work on a child that was taken out. *)
Lemma zoom_spec mh m o n l par nx i c lc nxc F :
  implements mh m -> n_kids n !! i = Some c ->
  tree c lc (Some l) nxc -∗
  (∀ c', tree c' lc (Some l) nxc -∗ tree (set_kids (<[i := c']> (n_kids n)) n) l par nx) -∗
  (let '(r, (o', n')) := zoom i m (o, n) in tree n' l par nx -∗ F r o') -∗
  wp o (mh lc) F.
Proof.
  iIntros (Hm Hi) "Hc Hw HF". iApply (Hm with "Hc"). rw (zoom_some _ _ _ _ _ Hi).
  destruct (m (o, c)) as [r [o' c']]. iIntros "Hc". iApply "HF". by iApply "Hw".
Qed.

Lemma zoom_child_add m (o : oracle) n c :
  zoom (length (n_kids n)) m (o, child_add n c) =
  let '(r, (o', c')) := m (o, c) in (r, (o', child_add n c')).
Proof.
  rw (zoom_some _ _ _ _ _ (lookup_child_add n c)). destruct (m (o, c)) as [r [o' c']].
  do 2 f_equal. destruct n as [t x v kids]. unfold child_add. cbn.
  by rw length_insert_snoc.
Qed.

(** Work on a child that was just added. *)
Lemma zoom_new_spec mh m o n l par nx c lc F :
  implements mh m ->
  tree c lc (Some l) None -∗
  (∀ c', tree c' lc (Some l) None -∗ tree (child_add n c') l par nx) -∗
  (let '(r, (o', n')) := zoom (length (n_kids n)) m (o, child_add n c) in
   tree n' l par nx -∗ F r o') -∗
  wp o (mh lc) F.
Proof.
  iIntros (Hm) "Hc Hw HF". iApply (Hm with "Hc"). rw zoom_child_add.
  destruct (m (o, c)) as [r [o' c']]. iIntros "Hc". iApply "HF". by iApply "Hw".
Qed.

Lemma set_str_plain_spec k v :
  implements (fun l => h_set_str_plain l k v) (set_str_plain k v).
Proof.
  intros o n l par nx F. iIntros "H HF". unfold h_set_str_plain, set_str_plain.
  iApply wp_bind. iApply (obj_find_spec with "H").
  destruct (obj_find n k) as [[i c]|] eqn:Ef; cbn [found].
  - apply obj_find_inv in Ef as (_ & Hi & _). iIntros (lc nxc) "Hc Hw".
    iApply (wp_peek with "Hc"). iIntros (hn [Et _]) "Hc". unfold has_type. rw Et.
    case_bool_decide; cbn [negb].
    + by iApply (zoom_spec _ _ _ _ _ _ _ _ _ _ _ _ (store_val_spec v) with "Hc Hw HF").
    + iApply wp_ret. iApply "HF". iSpecialize ("Hw" with "Hc").
      by rw list_insert_id // set_kids_id.
  - iIntros "H". iApply wp_bind. iApply node_new_spec.
    destruct (node_new CFG_STR (Some k) o) as [[c|] o1].
    + iIntros (lc) "Hc". iApply (child_add_spec with "H Hc"). iIntros "Hc Hw".
      by iApply (zoom_new_spec _ _ _ _ _ _ _ _ _ _ (store_val_spec v) with "Hc Hw HF").
    + iApply wp_ret. by iApply "HF".
Qed.

Lemma set_arr_append_spec v :
  implements (fun l => h_set_arr_append l v) (set_arr_append v).
Proof.
  intros o n l par nx F. iIntros "H HF". unfold h_set_arr_append, set_arr_append.
  iApply (wp_peek with "H"). iIntros (hn [Et _]) "H". unfold has_type. rw Et.
  case_bool_decide; cbn [negb]; [|iApply wp_ret; by iApply "HF"].
  iApply wp_bind. iApply node_new_spec. unfold node_new.
  destruct (pop o) as [[] o1]; cbn [negb]; [|iApply wp_ret; by iApply "HF"].
  iIntros (lc) "Hc". iApply wp_xstrdup. destruct (pop o1) as [[] o2]; cbn [fst snd].
  - iIntros (p) "Hp". iEval (rw tree_nodes) in "Hc".
    iDestruct "Hc" as "(%ls & %cn & (%E & Hl & Hn & Hv) & Hk)".
    iApply (wp_modify with "Hl"). iIntros "Hl".
    iApply (child_add_spec _ _ _ _ _ (set_val v (node_init CFG_STR None)) with "H [Hl Hn Hv Hk Hp]").
    + iEval (rw tree_nodes). iExists ls, _. iFrame "Hk Hl". cbn.
      destruct (h_val cn); [done|]. iFrame. iPureIntro. exact E.
    + iIntros "Hc Hw". iApply wp_ret. iApply "HF". by iApply "Hw".
  - iApply (wp_node_free with "Hc"). iApply wp_ret. by iApply "HF".
Qed.

Lemma set_arr_idx_spec z v :
  implements (fun l => h_set_arr_idx l z v) (set_arr_idx z v).
Proof.
  intros o n l par nx F. iIntros "H HF". unfold h_set_arr_idx, set_arr_idx.
  iApply (wp_peek with "H"). iIntros (hn [Et En]) "H". unfold has_type. rw Et En.
  case_bool_decide; cbn [negb]; [|iApply wp_ret; by iApply "HF"].
  destruct (_ && _); [iApply wp_ret; by iApply "HF"|].
  rw (arr_idx_hnode n) //. destruct (arr_idx n z) as [i|e]; [|iApply wp_ret; by iApply "HF"].
  iApply wp_bind. iApply (arr_nth_spec with "H"). unfold nth_kid, arr_nth.
  destruct (n_kids n !! i) as [c|] eqn:Hi; cbn [found].
  - iIntros (lc nxc) "Hc Hw". iApply (wp_peek with "Hc"). iIntros (cn [Ec _]) "Hc". rw Ec.
    case_bool_decide; cbn [negb].
    + by iApply (zoom_spec _ _ _ _ _ _ _ _ _ _ _ _ (store_val_spec v) with "Hc Hw HF").
    + iApply wp_ret. iApply "HF". iSpecialize ("Hw" with "Hc").
      by rw list_insert_id // set_kids_id.
  - iIntros "H". iApply wp_ret. by iApply "HF".
Qed.

Lemma set_last_spec t v : implements (h_set_last t v) (set_last t v).
Proof.
  intros o n l par nx F. iIntros "H HF". unfold h_set_last, set_last.
  destruct t as [k|z|].
  - iApply (wp_peek with "H"). iIntros (hn [Et _]) "H". unfold has_type. rw Et.
    case_bool_decide; cbn [negb]; [|iApply wp_ret; by iApply "HF"].
    by iApply (set_str_plain_spec with "H").
  - by iApply (set_arr_idx_spec with "H").
  - by iApply (set_arr_append_spec with "H").
Qed.

Lemma set_walk_spec ts v : implements (h_set_walk ts v) (set_walk ts v).
Proof.
  induction ts as [|t ts IH].
  { intros o n l par nx F. iIntros "H HF". iApply wp_ret. by iApply "HF". }
  destruct ts as [|u ts]; [apply set_last_spec|].
  intros o n l par nx F. iIntros "H HF". cbn [h_set_walk]. destruct t as [k|z|].
  - rw set_walk_key_eq. iApply (wp_peek with "H"). iIntros (hn [Et _]) "H".
    unfold has_type at 1. rw Et. case_bool_decide; cbn [negb]; [|iApply wp_ret; by iApply "HF"].
    iApply wp_bind. iApply (obj_find_spec with "H").
    destruct (obj_find n k) as [[i c]|] eqn:Ef; cbn [found].
    + apply obj_find_inv in Ef as (_ & Hi & _). iIntros (lc nxc) "Hc Hw".
      iApply (wp_peek with "Hc"). iIntros (cn [Ec _]) "Hc". unfold has_type. rw Ec.
      case_bool_decide; cbn [negb].
      * by iApply (zoom_spec _ _ _ _ _ _ _ _ _ _ _ _ IH with "Hc Hw HF").
      * iApply wp_ret. iApply "HF". iSpecialize ("Hw" with "Hc").
        by rw list_insert_id // set_kids_id.
    + iIntros "H". iApply wp_bind. iApply node_new_spec.
      destruct (node_new (want_of u) (Some k) o) as [[c|] o1].
      * iIntros (lc) "Hc". iApply (child_add_spec with "H Hc"). iIntros "Hc Hw".
        by iApply (zoom_new_spec _ _ _ _ _ _ _ _ _ _ IH with "Hc Hw HF").
      * iApply wp_ret. by iApply "HF".
  - cbn [set_walk]. iApply (wp_peek with "H"). iIntros (hn [Et En]) "H". unfold has_type.
    rw Et. case_bool_decide; cbn [negb]; [|iApply wp_ret; by iApply "HF"].
    rw (arr_idx_hnode n) //.
    destruct (arr_idx n z) as [i|e] eqn:Ei; [|iApply wp_ret; by iApply "HF"].
    iApply wp_bind. iApply (arr_nth_spec with "H"). unfold nth_kid.
    apply arr_idx_inv in Ei as [_ Hi]. apply lookup_lt_is_Some_2 in Hi as [c Hi]. rw Hi.
    cbn [found]. iIntros (lc nxc) "Hc Hw".
    by iApply (zoom_spec _ _ _ _ _ _ _ _ _ _ _ _ IH with "Hc Hw HF").
  - iApply wp_ret. by iApply "HF".
Qed.

Lemma cfg_set_str_spec p v :
  implements (fun l => h_cfg_set_str l p v) (cfg_set_str p v).
Proof.
  intros o n l par nx F. iIntros "H HF". unfold h_cfg_set_str, cfg_set_str.
  destruct (parse_path p _) as [ts|e]; [by iApply (set_walk_spec with "H")|].
  iApply wp_ret. by iApply "HF".
Qed.

(** ** Deletion *)

(** The node before position [i]. *)
Definition before (prev : option loc) (ls : list loc) (i : nat) : option loc :=
  match i with O => prev | S j => ls !! j end.

(** Where a search that keeps the previous node ends. *)
Definition located (par : option loc) (kids : list cfg_node) (ls : list loc)
    (prev : option loc) (r : option nat) (o : oracle)
    (F : option loc * option loc -> oracle -> heapProp) : heapProp :=
  match r with
  | None => nodes par kids ls None -∗ ∀ p, F (p, None) o
  | Some i => nodes par kids ls None -∗ F (before prev ls i, ls !! i) o
  end%I.

Lemma located_cons par k kids l ls prev r o F :
  tree k l par (hd_or None ls) -∗
  located par (k :: kids) (l :: ls) prev (match r with Some i => Some (S i) | None => None end) o F -∗
  located par kids ls (Some l) r o F.
Proof.
  iIntros "Hk HF". destruct r as [i|]; cbn; iIntros "H".
  - iSpecialize ("HF" with "[$Hk $H]"). by destruct i.
  - iIntros (p). iApply ("HF" with "[$Hk $H]").
Qed.

Lemma del_name_loop_spec name par kids ls fuel prev o F :
  length kids <= fuel ->
  nodes par kids ls None -∗
  located par kids ls prev (fst <$> find_idx (name_is name) kids) o F -∗
  wp o (del_name_loop fuel name prev (hd_or None ls)) F.
Proof.
  revert ls fuel prev F.
  induction kids as [|k kids IH]; intros [|l ls] fuel prev F Hf; cbn [nodes].
  - iIntros "H HF". destruct fuel; cbn; iApply wp_ret; by iApply ("HF" with "H").
  - by iIntros "%".
  - by iIntros "%".
  - destruct fuel as [|fuel]; [cbn in Hf; lia|]. iIntros "[Hk H] HF".
    cbn [del_name_loop hd_or]. iApply (wp_node with "Hk"). iIntros (ls' hn) "Hk Hks".
    iApply (wp_name_is with "Hk"). iIntros "Hk".
    iDestruct (node_at_fields with "Hk") as %(_ & _ & -> & _).
    iDestruct (tree_close with "Hk Hks") as "Hk".
    cbn [find_idx]. destruct (name_is name k).
    + iApply wp_ret. cbn. iApply ("HF" with "[$Hk $H]").
    + iApply (IH with "H"); [cbn in Hf; lia|].
      iApply (located_cons with "Hk"). by destruct (find_idx (name_is name) kids) as [[? ?]|].
Qed.

Lemma del_nth_loop_spec par kids ls fuel i prev o F :
  length kids <= fuel ->
  nodes par kids ls None -∗
  located par kids ls prev (fst <$> nth_kid kids i) o F -∗
  wp o (del_nth_loop fuel i prev (hd_or None ls)) F.
Proof.
  revert ls fuel i prev F.
  induction kids as [|k kids IH]; intros [|l ls] fuel i prev F Hf; cbn [nodes].
  - iIntros "H HF". destruct fuel; cbn; iApply wp_ret; by iApply ("HF" with "H").
  - by iIntros "%".
  - by iIntros "%".
  - iIntros "[Hk H] HF". destruct i as [|i].
    { destruct fuel; cbn; iApply wp_ret; iApply ("HF" with "[$Hk $H]"). }
    destruct fuel as [|fuel]; [cbn in Hf; lia|].
    cbn [del_nth_loop hd_or]. iApply (wp_node with "Hk"). iIntros (ls' hn) "Hk Hks".
    iDestruct (node_at_fields with "Hk") as %(_ & _ & -> & _).
    iDestruct (tree_close with "Hk Hks") as "Hk".
    iApply (IH with "H"); [cbn in Hf; lia|].
    iApply (located_cons with "Hk"). unfold nth_kid. cbn [lookup list_lookup].
    by destruct (kids !! i).
Qed.

(** The last node of a list without one of its nodes. *)
Lemma last_delete (ls : list loc) i lc :
  ls !! i = Some lc -> lc ∉ drop (S i) ls ->
  (if bool_decide (last ls = Some lc) then before None ls i else last ls) = last (delete i ls).
Proof.
  intros Hi Hn. rw delete_take_drop.
  assert (El : last ls = last (take i ls ++ lc :: drop (S i) ls)) by by rw take_drop_middle.
  rw El. destruct (drop (S i) ls) as [|z l2] eqn:Ed.
  - rw last_snoc bool_decide_eq_true_2 // app_nil_r. destruct i as [|j]; cbn; [done|].
    destruct (lookup_lt_is_Some_2 ls j) as [p Hp].
    { apply lookup_lt_Some in Hi. lia. }
    by rw Hp (take_S_r _ _ _ Hp) last_snoc.
  - rw !last_app. assert (last (lc :: z :: l2) = last (z :: l2)) as -> by done.
    destruct (last (z :: l2)) as [y|] eqn:Ey; [|by apply last_None in Ey].
    rw bool_decide_eq_false_2 //. intros [= ->]. apply Hn. by apply last_Some_elem_of.
Qed.

(** The second half of [unlink]: the list has been relinked. *)
Lemma unlink_rest {A} n l par nx ls hn i c lc nxc o (k : unit -> HM A) F :
  n_kids n !! i = Some c -> ls !! i = Some lc ->
  h_type hn = n_type n -> h_parent hn = par -> h_next hn = nx ->
  h_child hn = hd_or None (delete i ls) -> h_tail hn = last ls ->
  h_n_child hn = n_child n ->
  l ↦ CNode hn -∗ str_rep (h_name hn) (n_name n) -∗ str_rep (h_val hn) (n_val n) -∗
  ⌞lc ∉ drop (S i) ls⌟ -∗
  tree c lc (Some l) nxc -∗ nodes (Some l) (delete i (n_kids n)) (delete i ls) None -∗
  (tree (unlink i n) l par nx -∗ wp o (k tt) F) -∗
  wp o ((p ← load_node l;
         _ ← (if bool_decide (h_tail p = Some lc)
              then modify_node (fun m => m <| h_tail := before None ls i |>) l else mret tt);
         _ ← modify_node (fun m => m <| h_n_child ::= Z.add (-1) |>) l;
         _ ← modify_node (fun m => m <| h_next := None |>) lc;
         fuel ← heap_size;
         h_node_free fuel lc) ≫= k) F.
Proof.
  iIntros (Hi Hl E1 E2 E3 E4 E5 E6) "Hl Hn Hv %Hf Hc Hk HF". iApply wp_bind.
  iApply (wp_load_node with "Hl"). iIntros "Hl". rw E5.
  pose proof (last_delete ls i lc Hl Hf) as Ed.
  iApply wp_bind.
  iApply (wp_wand _ _ (fun _ o' => ∃ hn', ⌞o' = o /\ hn' = hn <| h_tail := last (delete i ls) |>⌟ ∗
    l ↦ CNode hn')%I with "[Hl]").
  { case_bool_decide.
    - iApply wp_last. iApply (wp_modify with "Hl"). iIntros "Hl". iApply wp_ret.
      iExists _. iFrame "Hl". by rw Ed.
    - iApply wp_ret. iExists hn. iFrame "Hl". iPureIntro. split; [done|].
      rw -Ed -E5. by destruct hn. }
  iIntros ([] o') "(%hn' & %E & Hl)". destruct E as [-> ->].
  iApply (wp_modify with "Hl"). iIntros "Hl".
  iApply (wp_set_next with "Hc"). iIntros "Hc". iApply wp_last.
  iApply (wp_node_free with "Hc"). iApply wp_ret. iApply "HF".
  iEval (rw tree_nodes). iExists (delete i ls), _. unfold unlink. rw n_kids_set. iFrame "Hk Hl".
  destruct n as [t x v kids]. cbn in *. iFrame. iPureIntro. split_and!; try done.
  rw E6. unfold n_child. cbn. apply lookup_lt_Some in Hi as ?. rw length_delete //. lia.
Qed.

Lemma delete_hd i (ls : list loc) lc :
  ls !! i = Some lc ->
  hd_or None (delete i ls) = match i with O => hd_or None (drop 1 ls) | S _ => hd_or None ls end.
Proof. destruct ls as [|z ls]; [done|]. by destruct i. Qed.

(** The list around the node, relinked. *)
Lemma nodes_delete par kids ls nx i lc :
  length ls = length kids -> ls !! i = Some lc ->
  nodes par (take i kids) (take i ls) (hd_or nx (drop (S i) ls)) -∗
  nodes par (drop (S i) kids) (drop (S i) ls) nx -∗
  nodes par (delete i kids) (delete i ls) nx.
Proof.
  iIntros (El Hl) "H1 H2". rw !delete_take_drop nodes_app; [iFrame|].
  apply lookup_lt_Some in Hl. rw !length_take. lia.
Qed.

Lemma unlink_spec {A} n l par nx ls hn i c lc o (k : unit -> HM A) F :
  n_kids n !! i = Some c -> ls !! i = Some lc ->
  node_at n l par nx ls hn -∗ nodes (Some l) (n_kids n) ls None -∗
  (tree (unlink i n) l par nx -∗ wp o (k tt) F) -∗
  wp o (h_unlink l (before None ls i) lc ≫= k) F.
Proof.
  iIntros (Hi Hl) "(%E & Hl & Hn & Hv) Hk HF". destruct E as (E1 & E2 & E3 & E4 & E5 & E6).
  iDestruct (nodes_length with "Hk") as %El.
  iDestruct (nodes_split _ _ _ _ _ _ Hi with "Hk") as "(%lc' & %Hl' & H1 & Hc & H2)".
  rw Hl in Hl'. injection Hl' as <-.
  iDestruct (nodes_fresh with "Hc H2") as %Hf.
  unfold h_unlink. iApply wp_bind. iApply (wp_node with "Hc").
  iIntros (lsc cn) "Hc Hkc". iDestruct (node_at_fields with "Hc") as %(_ & _ & -> & _).
  iDestruct (tree_close with "Hc Hkc") as "Hc". destruct i as [|j].
  - cbn [before]. iApply (wp_modify with "Hl"). iIntros "Hl".
    iApply wp_last. iApply (unlink_rest _ _ _ _ _ _ 0 with "Hl Hn Hv [//] Hc [H1 H2]");
      try done; [by rw (delete_hd _ _ lc)| |by iIntros "H"; iApply wp_ret; iApply "HF"].
    iApply (nodes_delete _ _ _ _ 0 with "[H1] H2"); [done|done|]. cbn. by iFrame.
  - destruct (lookup_lt_is_Some_2 ls j) as [p Hp]; [apply lookup_lt_Some in Hl; lia|].
    destruct (lookup_lt_is_Some_2 (n_kids n) j) as [kp Hkp]; [apply lookup_lt_Some in Hi; lia|].
    assert (Ep : before None ls (S j) = Some p) by done. rw Ep.
    rw (take_S_r _ _ _ Hp) (take_S_r _ _ _ Hkp).
    rw nodes_app; [|rw !length_take; apply lookup_lt_Some in Hp; lia].
    cbn [nodes hd_or]. iDestruct "H1" as "(H1 & Hkp & _)".
    iApply (wp_set_next with "Hkp"). iIntros "Hkp". rw -Ep. iApply wp_last.
    iApply (unlink_rest _ _ _ _ _ _ (S j) with "Hl Hn Hv [//] Hc [H1 Hkp H2]");
      try done; [by rw (delete_hd _ _ lc)| |by iIntros "H"; iApply wp_ret; iApply "HF"].
    iApply (nodes_delete with "[H1 Hkp] H2"); [done|done|].
    rw (take_S_r _ _ _ Hp) (take_S_r _ _ _ Hkp).
    rw nodes_app; [|rw !length_take; apply lookup_lt_Some in Hp; lia].
    cbn [nodes hd_or]. iFrame. by rw Ep.
Qed.

(** A deletion in memory: the tree without the child, or the tree as it was. *)
Definition deletes (mh : loc -> HM (result unit)) (m : cfg_node -> result cfg_node) : Prop :=
  forall o n l par nx F,
    tree n l par nx -∗
    match m n with
    | Ok n' => tree n' l par nx -∗ F (Ok tt) o
    | Err e => tree n l par nx -∗ F (Err e) o
    end -∗
    wp o (mh l) F.

Lemma del_arr_spec z : deletes (fun l => h_del_arr l z) (fun n => del_arr n z).
Proof.
  intros o n l par nx F. iIntros "H HF". unfold h_del_arr, del_arr.
  iApply (wp_node with "H"). iIntros (ls hn) "Hn Hk".
  iDestruct (node_at_fields with "Hn") as %(Et & _ & _ & -> & _ & Ec). unfold has_type. rw Et.
  case_bool_decide; cbn [negb].
  2: { iApply wp_ret. iApply "HF". by iApply (tree_close with "Hn"). }
  rw (arr_idx_hnode n) //. destruct (arr_idx n z) as [i|e].
  2: { iApply wp_ret. iApply "HF". by iApply (tree_close with "Hn"). }
  iApply (wp_kids_fuel with "Hk"). iIntros (m Hm) "Hk".
  pose proof (kids_size_length (n_kids n)). iDestruct (nodes_length with "Hk") as %El.
  iApply wp_bind. iApply (del_nth_loop_spec with "Hk"); [lia|]. unfold nth_kid, arr_nth.
  destruct (n_kids n !! i) as [c|] eqn:Hi; cbn; iIntros "Hk".
  - destruct (lookup_lt_is_Some_2 ls i) as [lc Hl]; [apply lookup_lt_Some in Hi; lia|]. rw Hl.
    iApply (unlink_spec with "Hn Hk"); [done|done|]. iIntros "H". iApply wp_ret. by iApply "HF".
  - iIntros (p). iApply wp_ret. iApply "HF". by iApply (tree_close with "Hn").
Qed.

Lemma del_plain_spec k : deletes (fun l => h_del_plain l k) (fun n => del_plain n k).
Proof.
  intros o n l par nx F. iIntros "H HF". unfold h_del_plain, del_plain.
  iApply (wp_node with "H"). iIntros (ls hn) "Hn Hk".
  iDestruct (node_at_fields with "Hn") as %(_ & _ & _ & -> & _).
  iApply (wp_kids_fuel with "Hk"). iIntros (m Hm) "Hk".
  pose proof (kids_size_length (n_kids n)). iDestruct (nodes_length with "Hk") as %El.
  iApply wp_bind. iApply (del_name_loop_spec with "Hk"); [lia|].
  destruct (find_idx (name_is k) (n_kids n)) as [[i c]|] eqn:Ef; cbn; iIntros "Hk".
  - apply find_idx_Some in Ef as (Hi & _).
    destruct (lookup_lt_is_Some_2 ls i) as [lc Hl]; [apply lookup_lt_Some in Hi; lia|]. rw Hl.
    iApply (unlink_spec with "Hn Hk"); [done|done|]. iIntros "H". iApply wp_ret. by iApply "HF".
  - iIntros (p). iApply wp_ret. iApply "HF". by iApply (tree_close with "Hn").
Qed.

(** Delete below a child that was taken out. *)
Lemma in_child_spec mh m o n l par nx i c lc nxc F :
  deletes mh m -> n_kids n !! i = Some c ->
  tree c lc (Some l) nxc -∗
  (∀ c', tree c' lc (Some l) nxc -∗ tree (set_kids (<[i := c']> (n_kids n)) n) l par nx) -∗
  match in_child i m n with
  | Ok n' => tree n' l par nx -∗ F (Ok tt) o
  | Err e => tree n l par nx -∗ F (Err e) o
  end -∗
  wp o (mh lc) F.
Proof.
  iIntros (Hm Hi) "Hc Hw HF". iApply (Hm with "Hc"). unfold in_child. rw Hi.
  destruct (m c) as [c'|e]; cbn; iIntros "Hc"; iApply "HF"; [by iApply "Hw"|].
  iSpecialize ("Hw" with "Hc"). by rw list_insert_id // set_kids_id.
Qed.

Lemma del_walk_spec ts : deletes (h_del_walk ts) (del_walk ts).
Proof.
  induction ts as [|t ts IH].
  { intros o n l par nx F. iIntros "H HF". iApply wp_ret. by iApply "HF". }
  intros o n l par nx F. iIntros "H HF". destruct ts as [|u ts].
  { cbn [h_del_walk]. destruct t as [k|z|].
    - cbn [del_walk]. iApply (wp_peek with "H"). iIntros (hn [Et _]) "H".
      unfold has_type. rw Et. case_bool_decide; cbn [negb]; [|iApply wp_ret; by iApply "HF"].
      by iApply (del_plain_spec with "H").
    - by iApply (del_arr_spec with "H").
    - iApply wp_ret. by iApply "HF". }
  rw del_walk_cons. cbn [h_del_walk]. destruct t as [k|z|].
  - iApply (wp_peek with "H"). iIntros (hn [Et _]) "H".
    unfold has_type. rw Et. case_bool_decide; cbn [negb]; [|iApply wp_ret; by iApply "HF"].
    iApply wp_bind. iApply (obj_find_spec with "H").
    destruct (obj_find n k) as [[i c]|] eqn:Ef; cbn [found].
    + apply obj_find_inv in Ef as (_ & Hi & _). iIntros (lc nxc) "Hc Hw".
      by iApply (in_child_spec _ _ _ _ _ _ _ _ _ _ _ _ IH with "Hc Hw HF").
    + iIntros "H". iApply wp_ret. by iApply "HF".
  - iApply (wp_peek with "H"). iIntros (hn [Et En]) "H".
    unfold has_type. rw Et. case_bool_decide; cbn [negb]; [|iApply wp_ret; by iApply "HF"].
    rw (arr_idx_hnode n) //.
    destruct (arr_idx n z) as [i|e] eqn:Ei; [|iApply wp_ret; by iApply "HF"].
    iApply wp_bind. iApply (arr_nth_spec with "H"). unfold nth_kid.
    apply arr_idx_inv in Ei as [_ Hi]. apply lookup_lt_is_Some_2 in Hi as [c Hi]. rw Hi.
    cbn [found]. iIntros (lc nxc) "Hc Hw".
    by iApply (in_child_spec _ _ _ _ _ _ _ _ _ _ _ _ IH with "Hc Hw HF").
  - iApply wp_ret. by iApply "HF".
Qed.

Lemma cfg_del_spec p : deletes (fun l => h_cfg_del l p) (fun n => cfg_del n p).
Proof.
  intros o n l par nx F. iIntros "H HF". unfold h_cfg_del, cfg_del.
  destruct (parse_path p _) as [ts|e]; cbn [mbind result_bind].
  - by iApply (del_walk_spec with "H").
  - iApply wp_ret. by iApply "HF".
Qed.
