(* ===== verification/CfgSession.v ===== *)
(** The life of a configuration in memory: loading it, any sequence of reads,
    assignments, deletions and dumps, and freeing it. *)
From iris.proofmode Require Import proofmode.
From S2P Require Import Prelude CLib CfgPath CfgTree CfgFile Heap CfgHeap CfgHeapSpec.

Set Warnings "-register-all,-clear-no-such-hyp".

(** ** Creating and freeing *)

Lemma cfg_init_spec {A} o root hn (k : unit -> HM A) F :
  root ↦ CNode hn -∗ (tree cfg_init root None None -∗ wp o (k tt) F) -∗
  wp o (h_cfg_init root ≫= k) F.
Proof.
  iIntros "Hr HF". iApply (wp_modify with "Hr"). iIntros "Hr". iApply "HF".
  by iApply (tree_leaf _ None None None None with "Hr").
Qed.

Lemma free_loop_spec par kids ls fuel o F :
  length kids <= fuel ->
  nodes par kids ls None -∗ F tt o -∗ wp o (cfg_free_loop fuel (hd_or None ls)) F.
Proof.
  revert ls fuel. induction kids as [|k kids IH]; intros [|l ls] fuel Hf; cbn [nodes].
  - iIntros "_ HF". destruct fuel; by iApply wp_ret.
  - by iIntros "%".
  - by iIntros "%".
  - destruct fuel as [|fuel]; [cbn in Hf; lia|]. iIntros "[Hk H] HF". cbn [cfg_free_loop hd_or].
    iApply (wp_node with "Hk"). iIntros (ls' hn) "Hk Hks".
    iDestruct (node_at_fields with "Hk") as %(_ & _ & -> & _).
    iDestruct (tree_close with "Hk Hks") as "Hk".
    iApply (wp_set_next with "Hk"). iIntros "Hk". iApply (wp_node_free with "Hk").
    iApply (IH with "H HF"). cbn in Hf. lia.
Qed.

Lemma cfg_free_spec {A} o n root (k : unit -> HM A) F :
  tree n root None None -∗ (root ↦ CNode hnode_zero -∗ wp o (k tt) F) -∗
  wp o (h_cfg_free root ≫= k) F.
Proof.
  iIntros "H HF". iApply wp_bind. unfold h_cfg_free. iApply (wp_node with "H").
  iIntros (ls hn) "(%E & Hl & Hn & Hv) Hk". destruct E as (_ & _ & _ & -> & _).
  iApply (wp_kids_fuel with "Hk"). iIntros (m Hm) "Hk".
  pose proof (kids_size_length (n_kids n)).
  iApply wp_bind. iApply (free_loop_spec with "Hk"); [lia|].
  iApply (wp_free_str with "Hn"). iApply (wp_free_str with "Hv").
  iApply wp_last. iApply (wp_modify with "Hl"). iIntros "Hl". iApply wp_ret. by iApply "HF".
Qed.

(** ** Loading *)

(** A parsed value is in a block of its own. *)
Definition valued (r : result cstr * oracle) (F : result loc -> oracle -> heapProp)
  : heapProp :=
  match r with
  | (Ok v, o) => ∀ p, p ↦ CStr v -∗ F (Ok p) o
  | (Err e, o) => F (Err e) o
  end%I.

Lemma parse_value_dup s o F :
  valued (dup s o) F ⊢
  wp o (p ← h_xstrdup (Some s);
        mret (match p with Some p => Ok p | None => Err ENOMEM end)) F.
Proof.
  iIntros "HF". iApply wp_xstrdup. unfold dup. destruct (pop o) as [[] o1]; cbn.
  - iIntros (p) "Hp". iApply wp_ret. by iApply "HF".
  - by iApply wp_ret.
Qed.

Lemma parse_value_spec src o F : valued (parse_value src o) F ⊢ wp o (h_parse_value src) F.
Proof.
  unfold h_parse_value, parse_value. destruct (trim src) as [|q body].
  { apply parse_value_dup. }
  destruct (negb (Ascii.eqb q DQUOTE)); [apply parse_value_dup|].
  iIntros "HF". iApply wp_malloc. destruct (pop o) as [[] o1]; cbn [fst snd negb].
  2: { by iApply wp_ret. }
  iIntros (p) "Hp". destruct (unquote body) as [[v r]|e]; cbn [mbind result_bind].
  - iApply (wp_store_str with "Hp"). iIntros "Hp". destruct (_ && _).
    + iApply (wp_free with "Hp"). by iApply wp_ret.
    + iApply wp_ret. by iApply "HF".
  - iApply (wp_free with "Hp"). by iApply wp_ret.
Qed.

Lemma load_line_spec line : implements (fun l => h_load_line l line) (load_line line).
Proof.
  intros o n l par nx F. iIntros "H HF". unfold h_load_line, load_line. cbn zeta.
  destruct (_ || _); [iApply wp_ret; by iApply "HF"|].
  destruct (strchr "=" (trim line)) as [[before after]|]; [|iApply wp_ret; by iApply "HF"].
  case_bool_decide; [iApply wp_ret; by iApply "HF"|].
  destruct (path_file_ok _); [|iApply wp_ret; by iApply "HF"].
  iApply wp_bind. iApply parse_value_spec.
  destruct (parse_value (trim after) o) as [[v|e] o1]; cbn.
  - iIntros (p) "Hp". iApply (wp_load_str with "Hp"). iIntros "Hp".
    iApply wp_bind. iApply (cfg_set_str_spec with "H").
    destruct (cfg_set_str (trim before) v (o1, n)) as [r [o2 n2]]. iIntros "H".
    iApply (wp_free with "Hp"). iApply wp_ret. by iApply "HF".
  - iApply wp_ret. by iApply "HF".
Qed.

Lemma load_lines_spec ls : implements (fun l => h_load_lines l ls) (load_lines ls).
Proof.
  induction ls as [|[buf eof] ls IH]; intros o n l par nx F; iIntros "H HF";
    cbn [h_load_lines load_lines].
  { iApply wp_ret. by iApply "HF". }
  destruct (_ && _); [iApply wp_ret; by iApply "HF"|].
  iApply wp_bind. iApply (load_line_spec with "H"). unfold mbind, ST_bind.
  destruct (load_line (trim_eol (c_string buf)) (o, n)) as [[[]|e] [o1 n1]]; iIntros "H".
  - by iApply (IH with "H").
  - iApply wp_ret. by iApply "HF".
Qed.

(** A configuration that cannot be loaded has been freed. *)
Lemma cfg_load_spec root hn file o F :
  root ↦ CNode hn -∗
  match cfg_load o file with
  | (Ok n, o') => tree n root None None -∗ F (Ok tt) o'
  | (Err e, o') => root ↦ CNode hnode_zero -∗ F (Err e) o'
  end -∗
  wp o (h_cfg_load root file) F.
Proof.
  iIntros "Hr HF". unfold h_cfg_load, cfg_load. iApply (cfg_init_spec with "Hr").
  iIntros "H". destruct file as [bytes|e].
  - iApply wp_bind. iApply (load_lines_spec with "H").
    destruct (load_lines _ (o, cfg_init)) as [[[]|e] [o1 n1]]; iIntros "H".
    + iApply wp_ret. by iApply "HF".
    + iApply (cfg_free_spec with "H"). iIntros "Hr". iApply wp_ret. by iApply "HF".
  - iApply (cfg_free_spec with "H"). iIntros "Hr". iApply wp_ret. by iApply "HF".
Qed.

(** ** Writing *)

Lemma dump_items_spec path par kids ls fuel s o F :
  length kids <= fuel ->
  nodes par kids ls None -∗ (nodes par kids ls None -∗ F (dump_items path kids s) o) -∗
  wp o (h_dump_items fuel path (hd_or None ls) s) F.
Proof.
  revert ls fuel s F. induction kids as [|k kids IH]; intros [|l ls] fuel s F Hf; cbn [nodes].
  - iIntros "H HF". destruct fuel; iApply wp_ret; by iApply "HF".
  - by iIntros "%".
  - by iIntros "%".
  - destruct fuel as [|fuel]; [cbn in Hf; lia|]. iIntros "[Hk H] HF".
    cbn [h_dump_items hd_or dump_items]. iApply (wp_node with "Hk"). iIntros (ls' hn) "Hk Hks".
    iDestruct (node_at_fields with "Hk") as %(Et & _ & En & _). unfold has_type. rw Et.
    case_bool_decide; cbn [negb].
    2: { iApply wp_ret. iApply "HF". iFrame "H". by iApply (tree_close with "Hk"). }
    iApply (wp_val_or_empty with "Hk"). iIntros "Hk". rw En.
    iDestruct (tree_close with "Hk Hks") as "Hk". unfold mbind, ST_bind.
    destruct (put_line _ _ s) as [[[]|e] s1].
    + iApply (IH with "H"); [cbn in Hf; lia|]. iIntros "H". iApply "HF". iFrame.
    + iApply wp_ret. iApply "HF". iFrame.
Qed.

(** The loop of [dump_node] over the children of an object. *)
Definition h_dump_kids (f : nat) (path : cstr) (sz : nat)
  : nat -> option loc -> out_st -> HM (result unit * out_st) :=
  fix dump_kids (g : nat) (child : option loc) (s : out_st) :=
    match child with
    | None => mret (Ok tt, s)
    | Some c =>
      match g with
      | O => fault
      | S g =>
        cn ← load_node c;
        match h_name cn with
        | None => fault
        | Some p =>
          name ← load_str p;
          match child_path path name sz with
          | Err e => mret (Err e, s)
          | Ok p =>
            '(rc, s) ← h_dump_node f c p sz s;
            match rc with
            | Err e => mret (Err e, s)
            | Ok _ => dump_kids g (h_next cn) s
            end
          end
        end
      end
    end.

Lemma h_dump_node_eq f node path sz s :
  h_dump_node (S f) node path sz s =
  (n ← load_node node;
   match h_type n with
   | CFG_STR => v ← h_val_or_empty n; mret (put_line path v s)
   | CFG_ARR => h_dump_items f path (h_child n) s
   | CFG_OBJ => h_dump_kids f path sz f (h_child n) s
   end).
Proof. done. Qed.

(** Reading the name of a named node. *)
Lemma wp_name {A} o n l par nx ls hn x (k : cstr -> HM A) F :
  n_name n = Some x ->
  node_at n l par nx ls hn -∗ (node_at n l par nx ls hn -∗ wp o (k x) F) -∗
  wp o (match h_name hn with None => fault | Some p => load_str p ≫= k end) F.
Proof.
  iIntros (Ex) "(%E & Hl & Hn & Hv) Hc". rw Ex.
  destruct (h_name hn) as [p|] eqn:Ep; cbn; [|done].
  iApply (wp_load_str with "Hn"). iIntros "Hn". iApply "Hc". unfold node_at. rw Ep Ex.
  iFrame. done.
Qed.

Definition dumps (n : cfg_node) : Prop :=
  wf_node n -> forall fuel l par nx path sz s o F, node_size n <= fuel ->
  tree n l par nx -∗ (tree n l par nx -∗ F (dump_node n path sz s) o) -∗
  wp o (h_dump_node fuel l path sz s) F.

Lemma dump_kids_spec path sz par kids ls f g s o F :
  Forall dumps kids -> Forall wf_node kids ->
  Forall (fun c => exists k, n_name c = Some k /\ key_ok k) kids ->
  kids_size kids <= f -> length kids <= g ->
  nodes par kids ls None -∗ (nodes par kids ls None -∗ F (dump_kids kids path sz s) o) -∗
  wp o (h_dump_kids f path sz g (hd_or None ls) s) F.
Proof.
  intros Hd. revert g ls s F. induction Hd as [|k kids Hk _ IH];
    intros g [|l ls] s F Hw Hn Hf Hg; cbn [nodes].
  - iIntros "H HF". destruct g; iApply wp_ret; by iApply "HF".
  - by iIntros "%".
  - by iIntros "%".
  - destruct g as [|g]; [cbn in Hg; lia|]. iIntros "[Hk H] HF". cbn [h_dump_kids hd_or dump_kids].
    apply Forall_cons in Hw as [Hwk Hw]. apply Forall_cons in Hn as [(x & Ex & _) Hn].
    unfold kids_size in Hf. cbn in Hf, Hg. rw Ex. cbn [default from_option]. unfold id.
    iApply (wp_node with "Hk"). iIntros (ls' hn) "Hk Hks".
    iApply (wp_name with "Hk"); [done|]. iIntros "Hk".
    iDestruct (node_at_fields with "Hk") as %(_ & _ & -> & _).
    iDestruct (tree_close with "Hk Hks") as "Hk". unfold mbind, ST_bind, lift.
    destruct (child_path path x sz) as [p|e]; [|iApply wp_ret; iApply "HF"; iFrame].
    iApply wp_bind. iApply (Hk with "Hk"); [done|lia|]. iIntros "Hk".
    destruct (dump_node k p sz s) as [[[]|e] s1]; [|iApply wp_ret; iApply "HF"; iFrame].
    iApply (IH with "H"); [done|done|unfold kids_size; lia|lia|]. iIntros "H".
    iApply "HF". iFrame.
Qed.

Lemma dump_node_spec n : dumps n.
Proof.
  induction n as [t x v kids IH] using cfg_node_ind'.
  intros Hw fuel l par nx path sz s o F Hf. rw node_size_eq in Hf.
  destruct fuel as [|f]; [lia|]. rw h_dump_node_eq. cbn [n_kids] in Hf.
  pose proof (kids_size_length kids). iIntros "H HF".
  iApply (wp_node with "H"). iIntros (ls hn) "Hn Hk".
  iDestruct (node_at_fields with "Hn") as %(-> & _ & _ & -> & _). cbn [n_type n_kids].
  destruct t.
  - iApply (dump_kids_spec with "Hk"); [done| | |lia|lia|]; [by inversion Hw..|]. iIntros "Hk".
    rw dump_obj. iApply "HF". by iApply (tree_close with "Hn").
  - iApply (dump_items_spec with "Hk"); [lia|]. iIntros "Hk". iApply "HF".
    by iApply (tree_close with "Hn").
  - iApply (wp_val_or_empty with "Hn"). iIntros "Hn". iApply wp_ret. iApply "HF".
    by iApply (tree_close with "Hn").
Qed.

Lemma cfg_dump_spec fopen_rc io so n root par nx o F :
  wf_node n ->
  tree n root par nx -∗ (tree n root par nx -∗ F (cfg_dump fopen_rc io n so) o) -∗
  wp o (h_cfg_dump fopen_rc io root so) F.
Proof.
  iIntros (Hw) "H HF". unfold h_cfg_dump, cfg_dump, h_cfg_dump_file, cfg_dump_file.
  destruct fopen_rc as [[]|e]; [|iApply wp_ret; by iApply "HF"].
  iApply wp_bind. iApply (wp_heap_size with "H"); [apply sized_tree|]. iIntros (m Hm) "H".
  iApply (dump_node_spec with "H"); [done|done|]. iIntros "H".
  destruct (dump_node n [] CFG_DUMP_PATH_SZ (so, [])) as [rc [o1 f]].
  iApply wp_ret. by iApply "HF".
Qed.

(** ** Sessions *)

(** The public operations on a loaded configuration. *)
Inductive cfg_op :=
| OpSet (path val : cstr)
| OpDel (path : cstr)
| OpGet (path : cstr)
| OpLen (path : cstr)
| OpDump (fopen_rc : result unit) (io : errno) (writes : oracle).

Inductive cfg_reply :=
| RDone (rc : result unit)
| RStr (r : result cstr)
| RLen (r : result Z)
| RFile (r : result unit * option (list ascii)).

(** On the linked nodes. *)
Definition h_cfg_op (root : loc) (op : cfg_op) : HM cfg_reply :=
  match op with
  | OpSet p v => r ← h_cfg_set_str root p v; mret (RDone r)
  | OpDel p => r ← h_cfg_del root p; mret (RDone r)
  | OpGet p => r ← h_cfg_get_str root p; mret (RStr r)
  | OpLen p => r ← h_cfg_arr_len root p; mret (RLen r)
  | OpDump rc io w => r ← h_cfg_dump rc io root w; mret (RFile r)
  end.

Fixpoint h_cfg_ops (root : loc) (ops : list cfg_op) : HM (list cfg_reply) :=
  match ops with
  | [] => mret []
  | op :: ops => r ← h_cfg_op root op; rs ← h_cfg_ops root ops; mret (r :: rs)
  end.

(** Load, work, free; [cfg_load] itself frees what it cannot load. *)
Definition h_session (root : loc) (file : result (list ascii)) (ops : list cfg_op)
  : HM (result (list cfg_reply)) :=
  rc ← h_cfg_load root file;
  match rc with
  | Err e => mret (Err e)
  | Ok _ => rs ← h_cfg_ops root ops; _ ← h_cfg_free root; mret (Ok rs)
  end.

(** On the trees of CfgTree.v. *)
Definition t_cfg_op (op : cfg_op) (s : tree_st) : cfg_reply * tree_st :=
  let '(o, n) := s in
  match op with
  | OpSet p v => let '(r, s) := cfg_set_str p v (o, n) in (RDone r, s)
  | OpDel p =>
    match cfg_del n p with
    | Ok n' => (RDone (Ok tt), (o, n'))
    | Err e => (RDone (Err e), (o, n))
    end
  | OpGet p => (RStr (cfg_get_str n p), (o, n))
  | OpLen p => (RLen (cfg_arr_len n p), (o, n))
  | OpDump rc io w => (RFile (cfg_dump rc io n w), (o, n))
  end.

Fixpoint t_cfg_ops (ops : list cfg_op) (s : tree_st) : list cfg_reply * tree_st :=
  match ops with
  | [] => ([], s)
  | op :: ops =>
    let '(r, s) := t_cfg_op op s in
    let '(rs, s) := t_cfg_ops ops s in (r :: rs, s)
  end.

Definition t_session (o : oracle) (file : result (list ascii)) (ops : list cfg_op)
  : result (list cfg_reply) * oracle :=
  match cfg_load o file with
  | (Err e, o) => (Err e, o)
  | (Ok n, o) => let '(rs, (o, _)) := t_cfg_ops ops (o, n) in (Ok rs, o)
  end.

Lemma cfg_op_spec op o n root F :
  wf_node n ->
  tree n root None None -∗
  (let '(r, (o', n')) := t_cfg_op op (o, n) in
   ⌞wf_node n'⌟ -∗ tree n' root None None -∗ F r o') -∗
  wp o (h_cfg_op root op) F.
Proof.
  iIntros (Hw) "H HF". destruct op as [p v|p|p|p|rc io w]; cbn [h_cfg_op t_cfg_op]; iApply wp_bind.
  - iApply (cfg_set_str_spec with "H"). pose proof (cfg_set_str_keeps o n p v Hw) as Hw'.
    destruct (cfg_set_str p v (o, n)) as [r [o' n']]. iIntros "H". iApply wp_ret.
    by iApply ("HF" with "[//]").
  - iApply (cfg_del_spec with "H"). destruct (cfg_del n p) as [n'|e] eqn:Ed; iIntros "H";
      iApply wp_ret; iApply ("HF" with "[%] H"); [|done].
    unfold cfg_del in Ed. destruct (parse_path p _) as [ts|]; [|done].
    by apply (del_walk_keeps _ _ _ Ed).
  - iApply (get_str_spec with "H"). iIntros "H". iApply wp_ret. by iApply ("HF" with "[//]").
  - iApply (arr_len_spec with "H"). iIntros "H". iApply wp_ret. by iApply ("HF" with "[//]").
  - iApply (cfg_dump_spec with "H"); [done|]. iIntros "H". iApply wp_ret.
    by iApply ("HF" with "[//]").
Qed.

Lemma cfg_ops_spec ops o n root F :
  wf_node n ->
  tree n root None None -∗
  (let '(rs, (o', n')) := t_cfg_ops ops (o, n) in tree n' root None None -∗ F rs o') -∗
  wp o (h_cfg_ops root ops) F.
Proof.
  revert o n F. induction ops as [|op ops IH]; intros o n F Hw; iIntros "H HF";
    cbn [h_cfg_ops t_cfg_ops].
  { iApply wp_ret. by iApply "HF". }
  iApply wp_bind. iApply (cfg_op_spec with "H"); [done|].
  destruct (t_cfg_op op (o, n)) as [r [o1 n1]]. iIntros (Hw1) "H".
  iApply wp_bind. iApply (IH with "H"); [done|].
  destruct (t_cfg_ops ops (o1, n1)) as [rs [o2 n2]]. iIntros "H". iApply wp_ret.
  by iApply "HF".
Qed.

Lemma session_spec o root hn file ops F :
  root ↦ CNode hn -∗
  (let '(r, o') := t_session o file ops in root ↦ CNode hnode_zero -∗ F r o') -∗
  wp o (h_session root file ops) F.
Proof.
  iIntros "Hr HF". unfold h_session, t_session. iApply wp_bind.
  iApply (cfg_load_spec with "Hr").
  destruct (cfg_load o file) as [[n|e] o1] eqn:El.
  - iIntros "H". iApply wp_bind. iApply (cfg_ops_spec with "H"); [by eapply cfg_load_tree|].
    destruct (t_cfg_ops ops (o1, n)) as [rs [o2 n2]]. iIntros "H".
    iApply (cfg_free_spec with "H"). iIntros "Hr". iApply wp_ret. by iApply "HF".
  - iIntros "Hr". iApply wp_ret. by iApply "HF".
Qed.

(** ** Properties *)

(** C7: the pointers of cfg.c are right: loading a file, any sequence of reads,
    assignments, deletions and dumps, and freeing, with any allocations
    failing, never touches memory outside the live blocks (no NULL or dangling
    pointer is followed, nothing is freed twice, every loop over links ends),
    gives the replies and consumes the allocations that the operations on trees
    do, and leaves no block behind: the heap is as it was, with the root
    zeroed. *)
Theorem cfg_session_refines (root : loc) (hn : hnode) (h : heap) (o : oracle)
    (file : result (list ascii)) (ops : list cfg_op) :
  h !! root = Some (CNode hn) ->
  exists o' r, t_session o file ops = (r, o') /\
    h_session root file ops (o, h) = Some (r, (o', <[root := CNode hnode_zero]> h)).
Proof.
  intros Hr. destruct (t_session o file ops) as [r o'] eqn:Et. exists o', r. split; [done|].
  assert (Hd : ({[root := CNode hn]} : heap) ##ₘ delete root h).
  { apply map_disjoint_singleton_l, lookup_delete_eq. }
  destruct (wp_run o (h_session root file ops) (root ↦ CNode hn)%I
    (fun r2 o2 => ⌞r2 = r /\ o2 = o'⌟ ∗ root ↦ CNode hnode_zero)%I {[root := CNode hn]}
    (delete root h)) as (r2 & o2 & h2 & E & Hd2 & H2); [|apply points_to_holds|done|].
  { iIntros "Hr". iApply (session_spec with "Hr"). rw Et. iIntros "$". done. }
  apply pure_points_to in H2 as [[-> ->] ->].
  rw -!insert_union_singleton_l !insert_delete_eq in E.
  by rw insert_id in E.
Qed.

(** A configuration in memory: two nodes are made, one is deleted, memory runs
    out while a value is replaced, and an appended port is found again. *)
Definition sample_ops : list cfg_op :=
  [OpSet (#"lan.ports[]") (#"eth2"); OpDel (#"lan.ports[0]"); OpSet (#"lan.ports[]") (#"eth3");
   OpLen (#"lan.ports"); OpGet (#"lan.ports[1]"); OpDel (#"lan.name"); OpGet (#"lan.name");
   OpSet (#"lan.mtu") (#"1500"); OpGet (#"lan.mtu")].

Definition sample_file : list ascii := #"lan.name = br0
lan.ports[] = eth0
lan.ports[] = eth1
lan.mtu = 1400
".

(** Enough memory for the file and two more ports, but not for the new value. *)
Definition sample_memory : oracle := replicate 22 true ++ [false].

Example sample_session :
  h_session 1 (Ok sample_file) sample_ops (sample_memory, {[1%positive := CNode hnode_zero]}) =
  Some (Ok [RDone (Ok tt); RDone (Ok tt); RDone (Ok tt); RLen (Ok 3%Z); RStr (Ok (#"eth2"));
            RDone (Ok tt); RStr (Err ENOENT); RDone (Err ENOMEM); RStr (Ok (#"1400"))],
        ([], {[1%positive := CNode hnode_zero]})).
Proof. vm_compute. reflexivity. Qed.

Lemma cfg_session_refines_witness :
  exists o' r, t_session sample_memory (Ok sample_file) sample_ops = (r, o') /\
    h_session 1 (Ok sample_file) sample_ops
      (sample_memory, {[1%positive := CNode hnode_zero]}) =
    Some (r, (o', <[1%positive := CNode hnode_zero]> {[1%positive := CNode hnode_zero]})).
Proof.
  apply (cfg_session_refines 1 hnode_zero {[1%positive := CNode hnode_zero]} sample_memory
    (Ok sample_file) sample_ops).
  reflexivity.
Defined.
