(* ===== verification/State.v ===== *)
(** The data of state.h, the lookups of state.c and the reading of
    resolv.conf.  A fixed array with a count is a list; a [char] array is the
    C string it holds. *)
From S2P Require Import Prelude CLib.

Definition IFNAMSIZ : nat := 16.
Definition INET_ADDRSTRLEN : nat := 16.

Definition NR_IFACE_MAX : Z := 2048.
Definition NR_ADDR4_MAX : Z := 8192.
Definition NR_ROUTE4_MAX : Z := 32768.
Definition NR_VXLAN_MAX : Z := 1024.
Definition NR_VLAN_MAX : Z := 4096.
Definition NR_BR_PORT_MAX : nat := 32.
Definition NR_DES_ROUTE4_MAX : nat := 64.
Definition NR_DES_DNS4_MAX : nat := 4.
Definition NR_DES_STATE_MAX : nat := 16.
Definition NR_DNS4_MAX : nat := 16.

Inductive addr_mode := ADDR_NONE | ADDR_STATIC | ADDR_DHCP.

#[export] Instance addr_mode_eq : EqDecision addr_mode.
Proof. solve_decision. Defined.

Record desired_route4 := DesiredRoute {
  rt_dst : cstr;
  rt_via : cstr;
  rt_dev : cstr;
  rt_has_via : bool
}.

#[export] Instance desired_route4_eq : EqDecision desired_route4.
Proof. solve_decision. Defined.

Record desired_state := DesiredState {
  scenario : cstr;
  br_name : cstr;
  br_addr_mode : addr_mode;
  br_addr : cstr;
  br_gateway : cstr;
  br_dns : list cstr;
  br_dhcp_cmd : cstr;
  br_ports : list cstr;
  up_ifname : cstr;
  vlan_ifname : cstr;
  vlan_id : Z;
  vlan_link : cstr;
  vlan_bridge : cstr;
  wg_ifname : cstr;
  wg_peer_ip : cstr;
  wg_route_dev : cstr;
  vx_ifname : cstr;
  vx_vni : Z;
  vx_remote : cstr;
  vx_dev : cstr;
  vx_bridge : cstr;
  routes : list desired_route4
}.

#[export] Instance desired_state_eq : EqDecision desired_state.
Proof. solve_decision. Defined.

#[export] Instance desired_state_eta : Eta desired_state := fun r =>
  DesiredState (scenario r) (br_name r) (br_addr_mode r) (br_addr r)
    (br_gateway r) (br_dns r) (br_dhcp_cmd r) (br_ports r) (up_ifname r)
    (vlan_ifname r) (vlan_id r) (vlan_link r) (vlan_bridge r) (wg_ifname r)
    (wg_peer_ip r) (wg_route_dev r) (vx_ifname r) (vx_vni r) (vx_remote r)
    (vx_dev r) (vx_bridge r) (routes r).

(** The state that [memset] zeroes. *)
Definition ds_zero : desired_state :=
  DesiredState [] [] ADDR_NONE [] [] [] [] [] [] [] 0 [] [] [] [] [] [] 0 [] [] [] [].

(** [struct desired_set]: its [n_state] first entries. *)
Abbreviation desired_set := (list desired_state).

Record iface := Iface {
  if_name : cstr;
  if_kind : cstr;
  if_ifindex : Z;
  if_flags : Z;
  if_has_carrier : bool;
  if_carrier : Z;
  if_master : Z;
  if_link : Z;
  if_has_link : bool
}.

Record addr4 := Addr4 {
  a4_ifindex : Z;
  a4_addr : Z;
  a4_prefix : Z
}.

Record route4 := Route4 {
  r4_dst : Z;
  r4_prefix : Z;
  r4_gw : Z;
  r4_has_gw : bool;
  r4_oif : Z
}.

Record vxlan := Vxlan {
  vxl_ifname : cstr;
  vxl_ifindex : Z;
  vxl_vni : Z;
  vxl_has_vni : bool;
  vxl_remote : Z;
  vxl_has_remote : bool;
  vxl_link : Z;
  vxl_has_link : bool
}.

Record vlan := Vlan {
  vl_ifname : cstr;
  vl_ifindex : Z;
  vl_id : Z;
  vl_has_id : bool;
  vl_link : Z;
  vl_has_link : bool
}.

Record real_state := RealState {
  rs_ifaces : list iface;
  rs_addr4 : list addr4;
  rs_route4 : list route4;
  rs_dns4 : list Z;
  rs_vxlan : list vxlan;
  rs_vlan : list vlan
}.

#[export] Instance real_state_eta : Eta real_state := fun r =>
  RealState (rs_ifaces r) (rs_addr4 r) (rs_route4 r) (rs_dns4 r) (rs_vxlan r)
    (rs_vlan r).

(** [rs_free], and the [memset] that starts a snapshot. *)
Definition rs_zero : real_state := RealState [] [] [] [] [] [].

Definition rs_find_iface (rs : real_state) (name : cstr) : option iface :=
  find (fun i => streq (if_name i) name) (rs_ifaces rs).

Definition rs_find_iface_idx (rs : real_state) (ifindex : Z) : option iface :=
  find (fun i => (if_ifindex i =? ifindex)%Z) (rs_ifaces rs).

Definition rs_find_vxlan (rs : real_state) (name : cstr) : option vxlan :=
  find (fun v => streq (vxl_ifname v) name) (rs_vxlan rs).

Definition rs_find_vlan (rs : real_state) (name : cstr) : option vlan :=
  find (fun v => streq (vl_ifname v) name) (rs_vlan rs).

Definition rs_dns4_exists (rs : real_state) (addr : Z) : bool :=
  existsb (Z.eqb addr) (rs_dns4 rs).

(** [sscanf(line, "%31s %63s", key, val) == 2] *)
Definition resolv_words (line : cstr) : option (cstr * cstr) :=
  '(key, rest) ← scan_word 31 line;
  '(val, _) ← scan_word 63 rest;
  Some (key, val).

(** The nameserver of a line, if the line has an IPv4 one. *)
Definition resolv_addr (line : cstr) : option Z :=
  '(key, val) ← resolv_words line;
  if streq key (#"nameserver") then inet_pton val else None.

Fixpoint resolv_loop (dns : list Z) (ls : list (list ascii * bool))
  : result (list Z) :=
  match ls with
  | [] => Ok dns
  | (buf, _) :: ls' =>
    match resolv_addr (c_string buf) with
    | None => resolv_loop dns ls'
    | Some a =>
      if NR_DNS4_MAX <=? length dns then Err ENOSPC
      else resolv_loop (dns ++ [a]) ls'
    end
  end.

(** [file] is [None] when [fopen] fails. *)
Definition rs_load_resolv_conf (rs : real_state) (file : option (list ascii))
  : result real_state :=
  match file with
  | None => Ok (rs <| rs_dns4 := [] |>)
  | Some bytes =>
    dns ← resolv_loop [] (file_lines 256 bytes);
    Ok (rs <| rs_dns4 := dns |>)
  end.

(** ** Specifications *)

(** The names of each scenario. *)
Definition SCN_UPLINK : list cstr := [ #"only_uplink"; #"only_uplink_iface"].
Definition SCN_BRIDGE : list cstr := [ #"uplink_bridge"; #"uplink_in_bridge"].
Definition SCN_VLAN : list cstr := [ #"vlan_bridge"; #"vlan_in_bridge"].
Definition SCN_WG : list cstr := [ #"wg_vxlan_bridge"].


(** A string that fits a [char] array of [sz] bytes with its NUL. *)
Definition fits (sz : nat) (s : cstr) : Prop := length s < sz.

#[export] Instance fits_dec sz s : Decision (fits sz s).
Proof. unfold fits. apply _. Defined.

Record route_wf (r : desired_route4) : Prop := {
  route_dst_fits : fits 32 (rt_dst r);
  route_via_fits : fits INET_ADDRSTRLEN (rt_via r);
  route_dev_fits : fits IFNAMSIZ (rt_dev r)
}.

(** The bounds of the arrays of [struct desired_state]. *)
Record ds_wf (ds : desired_state) : Prop := {
  ds_scenario : fits 32 (scenario ds);
  ds_br_name : fits IFNAMSIZ (br_name ds);
  ds_br_addr : fits 32 (br_addr ds);
  ds_br_gateway : fits INET_ADDRSTRLEN (br_gateway ds);
  ds_br_dns : length (br_dns ds) <= NR_DES_DNS4_MAX /\
              Forall (fits INET_ADDRSTRLEN) (br_dns ds);
  ds_br_dhcp_cmd : fits 128 (br_dhcp_cmd ds);
  ds_br_ports : length (br_ports ds) <= NR_BR_PORT_MAX /\
                Forall (fits IFNAMSIZ) (br_ports ds);
  ds_up_ifname : fits IFNAMSIZ (up_ifname ds);
  ds_vlan_ifname : fits IFNAMSIZ (vlan_ifname ds);
  ds_vlan_id : (0 <= vlan_id ds <= UINT32_MAX)%Z;
  ds_vlan_link : fits IFNAMSIZ (vlan_link ds);
  ds_vlan_bridge : fits IFNAMSIZ (vlan_bridge ds);
  ds_wg_ifname : fits IFNAMSIZ (wg_ifname ds);
  ds_wg_peer_ip : fits INET_ADDRSTRLEN (wg_peer_ip ds);
  ds_wg_route_dev : fits IFNAMSIZ (wg_route_dev ds);
  ds_vx_ifname : fits IFNAMSIZ (vx_ifname ds);
  ds_vx_vni : (0 <= vx_vni ds <= UINT32_MAX)%Z;
  ds_vx_remote : fits INET_ADDRSTRLEN (vx_remote ds);
  ds_vx_dev : fits IFNAMSIZ (vx_dev ds);
  ds_vx_bridge : fits IFNAMSIZ (vx_bridge ds);
  ds_routes : length (routes ds) <= NR_DES_ROUTE4_MAX /\
              Forall route_wf (routes ds)
}.

(** ** Lemmas *)

(** One of two names, each tried by computation. *)
Ltac scn_cases H :=
  apply elem_of_cons in H as [H|H%list_elem_of_singleton]; rewrite H.

Lemma scn_disjoint s :
  (s ∈ SCN_UPLINK -> (s ∉ SCN_BRIDGE) /\ (s ∉ SCN_VLAN) /\ (s ∉ SCN_WG)) /\
  (s ∈ SCN_BRIDGE -> (s ∉ SCN_VLAN) /\ (s ∉ SCN_WG)) /\
  (s ∈ SCN_VLAN -> s ∉ SCN_WG).
Proof.
  split_and!; intros H; scn_cases H; clear; split_and?; compute_decide.
Qed.

Lemma scn_or s a b : streq s a || streq s b = true <-> s ∈ [a; b].
Proof.
  rewrite orb_true_iff, !streq_true, !elem_of_cons, elem_of_nil. tauto.
Qed.

Lemma scn_bool s a b : streq s a || streq s b = bool_decide (s ∈ [a; b]).
Proof. apply eq_true_iff_eq. by rewrite scn_or, bool_decide_eq_true. Qed.

(** States with the same fields are the same. *)
Lemma ds_ext (a b : desired_state) :
  scenario a = scenario b -> br_name a = br_name b -> br_addr_mode a = br_addr_mode b ->
  br_addr a = br_addr b -> br_gateway a = br_gateway b -> br_dns a = br_dns b ->
  br_dhcp_cmd a = br_dhcp_cmd b -> br_ports a = br_ports b -> up_ifname a = up_ifname b ->
  vlan_ifname a = vlan_ifname b -> vlan_id a = vlan_id b -> vlan_link a = vlan_link b ->
  vlan_bridge a = vlan_bridge b -> wg_ifname a = wg_ifname b -> wg_peer_ip a = wg_peer_ip b ->
  wg_route_dev a = wg_route_dev b -> vx_ifname a = vx_ifname b -> vx_vni a = vx_vni b ->
  vx_remote a = vx_remote b -> vx_dev a = vx_dev b -> vx_bridge a = vx_bridge b ->
  routes a = routes b -> a = b.
Proof. destruct a, b. cbn. by intros; subst. Qed.

Lemma ds_zero_wf : ds_wf ds_zero.
Proof.
  constructor; cbn; unfold fits, UINT32_MAX, IFNAMSIZ, INET_ADDRSTRLEN; cbn;
    try lia; (split; [lia|constructor]).
Qed.

Lemma find_first {A} (p : A -> bool) l x :
  find p l = Some x <->
  exists i, l !! i = Some x /\ p x = true /\
    forall j y, j < i -> l !! j = Some y -> p y = false.
Proof.
  rewrite find_idx_find. split.
  - intros H. destruct (find_idx p l) as [[i y]|] eqn:E; [|done].
    injection H as ->. exists i. by apply find_idx_Some.
  - intros (i & Hi & Hp & Hj). destruct (find_idx p l) as [[k y]|] eqn:E; cbn.
    + apply find_idx_Some in E as (Hk & Hpk & Hjk). f_equal.
      destruct (Nat.lt_trichotomy k i) as [L|[->|L]]; [|congruence|].
      * rewrite (Hj k y L Hk) in Hpk. done.
      * rewrite (Hjk i x L Hi) in Hp. done.
    + apply find_idx_None in E. rewrite (Forall_lookup_1 _ _ _ _ E Hi) in Hp. done.
Qed.

Lemma resolv_loop_spec dns ls :
  match resolv_loop dns ls with
  | Ok r => r = dns ++ omap (fun l => resolv_addr (c_string (fst l))) ls
            /\ (length dns <= NR_DNS4_MAX -> length r <= NR_DNS4_MAX)
  | Err e => e = ENOSPC /\
      NR_DNS4_MAX < length (dns ++ omap (fun l => resolv_addr (c_string (fst l))) ls)
  end.
Proof.
  revert dns. induction ls as [|[buf eof] ls IH]; intros dns; cbn [resolv_loop].
  { cbn. by rewrite app_nil_r. }
  change (omap _ ((buf, eof) :: ls)) with
    (match resolv_addr (c_string buf) with
     | Some y => y :: omap (fun l => resolv_addr (c_string (fst l))) ls
     | None => omap (fun l => resolv_addr (c_string (fst l))) ls
     end).
  destruct (resolv_addr (c_string buf)) as [a|]; [|apply IH].
  destruct (Nat.leb_spec NR_DNS4_MAX (length dns)) as [L|L].
  { split; [done|]. rewrite length_app. cbn [length]. lia. }
  specialize (IH (dns ++ [a])).
  destruct (resolv_loop (dns ++ [a]) ls) as [r|e].
  - destruct IH as [-> IH]. split; [by rewrite <- app_assoc|].
    intros _. apply IH. rewrite length_app. cbn [length]. lia.
  - by rewrite <- app_assoc in IH.
Qed.

(** What the loop takes from the buffers [fgets] fills. *)
Definition dns_read (bytes : list ascii) : list Z :=
  omap (fun l => resolv_addr (c_string (fst l))) (file_lines 256 bytes).

Lemma rs_find_iface_spec rs name i :
  rs_find_iface rs name = Some i <->
  exists n, rs_ifaces rs !! n = Some i /\ if_name i = name /\
    forall m j, m < n -> rs_ifaces rs !! m = Some j -> if_name j <> name.
Proof.
  unfold rs_find_iface. rewrite find_first.
  split; intros (n & Hn & Hi & Hm); exists n; (split; [done|]).
  - apply streq_true in Hi. split; [done|]. intros m j L Hj.
    by apply streq_false, (Hm m).
  - split; [by apply streq_true|]. intros m j L Hj. by apply streq_false, (Hm m).
Qed.

(** ** Properties *)

Lemma rs_load_resolv_spec (rs : real_state) (bytes : list ascii) :
  rs_load_resolv_conf rs (Some bytes) =
    if length (dns_read bytes) <=? NR_DNS4_MAX
    then Ok (rs <| rs_dns4 := dns_read bytes |>) else Err ENOSPC.
Proof.
  unfold rs_load_resolv_conf.
  pose proof (resolv_loop_spec [] (file_lines 256 bytes)) as S.
  fold (dns_read bytes) in S. cbn [app] in S.
  destruct (resolv_loop _ _) as [r|e]; cbn [mbind result_bind].
  - destruct S as [-> L]. rewrite (proj2 (Nat.leb_le _ _)); [done|].
    apply L. unfold NR_DNS4_MAX. cbn. lia.
  - destruct S as [-> L]. by rewrite (proj2 (Nat.leb_gt _ _)).
Qed.

(** ** resolv.conf *)

(** The text between separators, empty pieces included. *)
Fixpoint fields (sep : ascii -> bool) (s : cstr) : list cstr :=
  match s with
  | [] => [[]]
  | c :: s' =>
    if sep c then [] :: fields sep s'
    else match fields sep s' with
         | f :: fs => (c :: f) :: fs
         | [] => [[c]]
         end
  end.

Definition text_lines (bytes : list ascii) : list cstr := fields (Ascii.eqb LF) bytes.

Definition blank_words (line : cstr) : list cstr :=
  filter (fun w => w <> ([] : cstr)) (fields isspace line).

(** The nameserver a line names: its first word is [nameserver] and its second
    an IPv4 address; what follows is ignored. *)
Definition line_nameserver (line : cstr) : option Z :=
  match blank_words line with
  | key :: val :: _ => if decide (key = #"nameserver") then inet_pton val else None
  | _ => None
  end.

(** The IPv4 nameservers of a resolv.conf, in order. *)
Definition nameservers (bytes : list ascii) : list Z :=
  omap line_nameserver (text_lines bytes).

(** Every line fits the buffer with its newline and NUL. *)
Definition lines_fit (sz : nat) (bytes : list ascii) : Prop :=
  Forall (fun l => length l + 1 < sz) (text_lines bytes).

Lemma fields_run sep l :
  Forall (fun c => sep c = false) l -> fields sep l = [l].
Proof. induction 1 as [|c l Hc _ IH]; [done|]. cbn [fields]. by rewrite Hc, IH. Qed.

Lemma fields_app sep l c r :
  Forall (fun c => sep c = false) l -> sep c = true ->
  fields sep (l ++ c :: r) = l :: fields sep r.
Proof.
  intros Hl Hc. induction Hl as [|x l Hx _ IH]; cbn [app fields]; [by rewrite Hc|].
  by rewrite Hx, IH.
Qed.

Lemma not_LF l : LF ∉ l -> Forall (fun c => Ascii.eqb LF c = false) l.
Proof.
  intros Hl. apply Forall_forall. intros c Hc. apply Ascii.eqb_neq. by intros <-.
Qed.

(** A text is one line, or a line and more text. *)
Lemma text_lines_cases bytes :
  ((LF ∉ bytes) /\ text_lines bytes = [bytes]) \/
  exists l r, bytes = l ++ LF :: r /\ (LF ∉ l) /\ text_lines bytes = l :: text_lines r.
Proof.
  destruct (strchr LF bytes) as [[l r]|] eqn:E.
  - right. apply strchr_Some in E as [-> Hl]. exists l, r. split_and!; [done..|].
    apply fields_app; [by apply not_LF|apply Ascii.eqb_refl].
  - left. apply strchr_None in E. split; [done|]. by apply fields_run, not_LF.
Qed.

(** *** Words *)

Abbreviation notspace := (fun c => negb (isspace c)).

Lemma blank_words_step s :
  blank_words s =
    match drop_while isspace s with
    | [] => []
    | s' => take_while notspace s' :: blank_words (drop_while notspace s')
    end.
Proof.
  unfold blank_words. induction s as [|c s IH]; [done|].
  change (drop_while isspace (c :: s)) with
    (if isspace c then drop_while isspace s else c :: s).
  destruct (isspace c) eqn:Ec.
  { cbn [fields]. rewrite Ec. rewrite filter_cons_False by (intros H; by apply H). done. }
  pose proof (take_drop_while notspace (c :: s)) as E.
  pose proof (take_while_Forall notspace (c :: s)) as F.
  set (t := take_while notspace (c :: s)) in *.
  assert (Ht : t <> []) by (subst t; cbn; by rewrite Ec).
  rewrite <- E at 1.
  assert (F' : Forall (fun c => isspace c = false) t).
  { eapply Forall_impl; [exact F|]. intros y. apply negb_true_iff. }
  destruct (drop_while notspace (c :: s)) as [|d r] eqn:Ed.
  - rewrite app_nil_r, fields_run by done. by rewrite filter_cons_True by done.
  - assert (Hd : isspace d = true) by (apply negb_false_iff, (drop_while_head _ _ _ _ Ed)).
    rewrite fields_app by done. rewrite filter_cons_True by done. f_equal.
    cbn [fields]. rewrite Hd. by rewrite filter_cons_False by (intros H; by apply H).
Qed.

(** A conversation of width [w] reads the next word, or its first [w] bytes. *)
Lemma scan_word_spec w s :
  0 < w ->
  match drop_while isspace s with
  | [] => scan_word w s = None
  | s' =>
    let t := take_while notspace s' in
    if length t <=? w then scan_word w s = Some (t, drop_while notspace s')
    else exists k r, scan_word w s = Some (k, r) /\ length k = w
  end.
Proof.
  intros Hw. unfold scan_word. destruct (drop_while isspace s) as [|c s'] eqn:E.
  { by rewrite take_nil. }
  pose proof (drop_while_head _ _ _ _ E) as Hc. cbn zeta.
  pose proof (take_drop_while notspace (c :: s')) as Ed.
  pose proof (take_while_Forall notspace (c :: s')) as F.
  set (t := take_while notspace (c :: s')) in *.
  set (r := drop_while notspace (c :: s')) in *.
  assert (Ht : t <> []) by (subst t; cbn; by rewrite Hc).
  rewrite <- Ed. destruct (Nat.leb_spec (length t) w) as [L|L].
  - rewrite take_app, (take_ge t w) by lia. rewrite take_while_app by done.
    assert (take_while notspace (take (w - length t) r) = []) as ->.
    { subst r. destruct (drop_while notspace (c :: s')) as [|d r'] eqn:E2.
      - by rewrite take_nil.
      - destruct (w - length t); [done|]. cbn. by rewrite (drop_while_head _ _ _ _ E2). }
    rewrite app_nil_r. destruct t as [|x t]; [done|]. by rewrite drop_app_length.
  - rewrite take_app, (proj2 (Nat.sub_0_le w (length t))) by lia.
    rewrite take_0, app_nil_r.
    rewrite take_while_all by by apply Forall_take.
    assert (Hl : length (take w t) = w) by (rewrite length_take; lia).
    destruct (take w t) as [|x k]; [cbn in Hl; lia|]. by eexists _, _.
Qed.

Lemma pton_octet_length s v r : pton_octet s = Some (v, r) -> length s <= length r + 3.
Proof.
  unfold pton_octet. pose proof (take_drop_while isdigit (take 3 s)) as E.
  assert (length (take_while isdigit (take 3 s)) <= 3).
  { apply (f_equal length) in E. rewrite length_app, length_take in E. lia. }
  destruct (take_while isdigit (take 3 s)) as [|d ds]; [done|].
  destruct (_ && _); [done|]. destruct (_ >? _)%Z; [done|]. intros [= _ <-].
  rewrite length_drop. cbn [length] in *. lia.
Qed.

Lemma eat_length c s r : eat c s = Some r -> length s = S (length r).
Proof. destruct s as [|x s]; cbn; [done|]. destruct (Ascii.eqb x c); by intros [= ->]. Qed.

(** An address is at most 15 characters long. *)
Lemma inet_pton_length s a : inet_pton s = Some a -> length s <= 15.
Proof.
  unfold inet_pton. intros H.
  repeat match type of H with
  | context [pton_octet ?s] =>
    let E := fresh "E" in
    destruct (pton_octet s) as [[? ?]|] eqn:E; [|done]; apply pton_octet_length in E;
    cbn [mbind option_bind] in H
  | context [eat ?c ?s] =>
    let E := fresh "E" in
    destruct (eat c s) eqn:E; [|done]; apply eat_length in E; cbn [mbind option_bind] in H
  end.
  case_match; [cbn in *; lia|done].
Qed.

(** The widths of the conversions do not matter. *)
Lemma resolv_addr_words s : resolv_addr s = line_nameserver s.
Proof.
  unfold resolv_addr, resolv_words, line_nameserver. rewrite blank_words_step.
  pose proof (scan_word_spec 31 s ltac:(lia)) as H1.
  destruct (drop_while isspace s) as [|c s1]; [by rewrite H1|]. cbn zeta in H1.
  set (key := take_while notspace (c :: s1)) in *.
  destruct (Nat.leb_spec (length key) 31) as [L|L].
  2:{ destruct H1 as (k & r & -> & Hk). cbn [mbind option_bind].
      assert (Hlen : length (#"nameserver") = 10) by done.
      assert (key <> #"nameserver") by (intros E; rewrite E in L; lia).
      assert (k <> #"nameserver") by (intros ->; lia).
      destruct (scan_word 63 r) as [[v r']|]; cbn [mbind option_bind];
        rewrite ?(proj2 (streq_false _ _)) by done;
        destruct (blank_words _); by rewrite ?decide_False. }
  rewrite H1. cbn [mbind option_bind].
  set (rest := drop_while notspace (c :: s1)) in *. rewrite (blank_words_step rest).
  pose proof (scan_word_spec 63 rest ltac:(lia)) as H2.
  destruct (drop_while isspace rest) as [|d s2]; [by rewrite H2|]. cbn zeta in H2.
  set (val := take_while notspace (d :: s2)) in *.
  assert (Hkey : forall o : option Z, (if streq key (#"nameserver") then o else None) =
    if decide (key = (#"nameserver")) then o else None).
  { intros o. destruct (decide _) as [->|N]; [by rewrite (proj2 (streq_true _ _))|].
    by rewrite (proj2 (streq_false _ _)). }
  destruct (Nat.leb_spec (length val) 63) as [L2|L2].
  { rewrite H2. cbn [mbind option_bind]. apply Hkey. }
  destruct H2 as (v & r & -> & Hv). cbn [mbind option_bind]. rewrite Hkey.
  destruct (decide _); [|done].
  destruct (inet_pton v) eqn:E1; [apply inet_pton_length in E1; lia|].
  destruct (inet_pton val) eqn:E2; [apply inet_pton_length in E2; lia|done].
Qed.

Lemma fields_ne sep s : fields sep s <> [].
Proof. destruct s as [|c s]; cbn; [done|]. destruct (sep c); [done|]. by case_match. Qed.

Lemma fields_snoc sep l c : sep c = true -> fields sep (l ++ [c]) = fields sep l ++ [[]].
Proof.
  intros Hc. induction l as [|x l IH]; cbn [app fields]; [by rewrite Hc|].
  rewrite IH. destruct (sep x); [done|].
  pose proof (fields_ne sep l). by destruct (fields sep l).
Qed.

Lemma line_nameserver_LF l : line_nameserver (l ++ [LF]) = line_nameserver l.
Proof.
  unfold line_nameserver, blank_words. rewrite fields_snoc by done.
  by rewrite filter_app, app_nil_r.
Qed.

Lemma cstring_app a b : cstring (a ++ b) <-> cstring a /\ cstring b.
Proof. apply Forall_app. Qed.

(** When its lines fit the buffer, the file is read line by line. *)
Lemma dns_read_lines bytes :
  lines_fit 256 bytes -> cstring bytes -> dns_read bytes = nameservers bytes.
Proof.
  unfold lines_fit, dns_read, nameservers.
  induction bytes as [bytes IH] using (induction_ltof1 _ length).
  destruct (text_lines_cases bytes) as [[Hl E]|(l & r & E & Hl & Et)]; intros Hf Hn.
  - rewrite E in *. apply Forall_cons in Hf as [Hf _]. cbn beta in Hf.
    destruct (decide (bytes = [])) as [->|Hne]; [done|].
    rewrite file_lines_last by (done || lia). cbn. by rewrite c_string_id, resolv_addr_words by done.
  - rewrite Et in *. apply Forall_cons in Hf as [Hll Hf]. cbn beta in Hll. subst bytes.
    apply cstring_app in Hn as [Hnl [_ Hnr]%Forall_cons].
    rewrite file_lines_cons by (done || lia). cbn [omap list_omap fst].
    rewrite c_string_id, resolv_addr_words, line_nameserver_LF.
    2:{ apply cstring_app. split; [done|]. by repeat constructor. }
    rewrite IH; [done| |done..]. unfold ltof. rewrite length_app. cbn. lia.
Qed.

(** C40: for a resolv.conf whose lines fit the 256 bytes of the buffer and hold
    no NUL, [rs_load_resolv_conf] stores exactly the IPv4 nameservers of its
    lines in order, a line giving one when its first word is [nameserver] and
    its second an IPv4 address; it fails with ENOSPC exactly when there are more
    than 16. *)
Theorem rs_load_resolv_conf_exact (rs : real_state) (bytes : list ascii) :
  lines_fit 256 bytes -> cstring bytes ->
  rs_load_resolv_conf rs (Some bytes) =
    if length (nameservers bytes) <=? NR_DNS4_MAX
    then Ok (rs <| rs_dns4 := nameservers bytes |>) else Err ENOSPC.
Proof. intros Hf Hn. rewrite <- dns_read_lines by done. apply rs_load_resolv_spec. Qed.

(** A comment, two nameservers, one of them indented, and an IPv6 one. *)
Definition sample_resolv : list ascii :=
  #"# dns" ++ [LF] ++ #"nameserver 10.0.0.1" ++ [LF] ++ #"nameserver fe80::1" ++ [LF] ++
  #" nameserver  1.1.1.1 # public" ++ [LF].

Lemma rs_load_resolv_conf_exact_witness :
  rs_load_resolv_conf rs_zero (Some sample_resolv) =
    Ok (rs_zero <| rs_dns4 := [16777226; 16843009]%Z |>).
Proof.
  rewrite (rs_load_resolv_conf_exact rs_zero sample_resolv).
  - vm_compute. reflexivity.
  - apply (bool_decide_unpack _). vm_compute. exact I.
  - apply (bool_decide_unpack _). vm_compute. exact I.
Defined.

(** A longer line is read in pieces, and a piece of a comment can be taken for
    a nameserver. *)
Example resolv_long_comment :
  let comment := "#"%char :: replicate 254 "-"%char ++ #"nameserver 10.0.0.1" in
  nameservers comment = [] /\
  rs_load_resolv_conf rs_zero (Some comment) = Ok (rs_zero <| rs_dns4 := [16777226]%Z |>).
Proof. vm_compute. done. Qed.
