(* ===== verification/Yaml.v ===== *)
(** The loader of yaml.c: from a configuration tree to the desired states, and
    the conditions every accepted state meets. *)
From S2P Require Import Prelude CLib CfgPath CfgTree CfgFile State.

(** ** Scalars *)

(** [cpy(dst, sz, src)] with [sz > 0]; [None] is NULL. *)
Definition cpy (sz : nat) (src : option cstr) : cstr :=
  match src with None => [] | Some s => snprintf sz s end.

Definition parse_u32_str (s : option cstr) : result Z :=
  match s with
  | None | Some [] => Err EINVAL
  | Some s =>
    let r := strtoul0 s in
    if sto_range r || negb (bool_decide (sto_rest r = []))
       || (sto_val r >? UINT32_MAX)%Z
    then Err EINVAL else Ok (sto_val r)
  end.

Definition is_scn (ds : desired_state) (a : cstr) (b : option cstr) : bool :=
  streq (scenario ds) a ||
  match b with Some b => streq (scenario ds) b | None => false end.

(** [get_str]: the string that lands in [dst[sz]]. *)
Definition get_str (obj : cfg_node) (key : cstr) (sz : nat) (req : bool)
  : result cstr :=
  match cfg_child obj key with
  | None => if negb req then Ok [] else Err EINVAL
  | Some node =>
    if negb (has_type CFG_STR node) then Err EINVAL
    else Ok (cpy sz (n_val node))
  end.

Definition get_u32 (obj : cfg_node) (key : cstr) : result Z :=
  match cfg_child obj key with
  | None => Err EINVAL
  | Some node =>
    if negb (has_type CFG_STR node) then Err EINVAL
    else parse_u32_str (n_val node)
  end.

(** ** Arrays *)

(** The loop over the items, after [dst] holds the first ones. *)
Fixpoint arr_loop (sz max : nat) (its : list cfg_node) (dst : list cstr)
  : result (list cstr) :=
  match its with
  | [] => Ok dst
  | it :: its' =>
    if negb (has_type CFG_STR it) then Err EINVAL
    else if max <=? length dst then Err E2BIG
    else arr_loop sz max its' (dst ++ [cpy sz (n_val it)])
  end.

Definition get_arr (sz : nat) (obj : cfg_node) (key : cstr) (max : nat)
  : result (list cstr) :=
  match cfg_child obj key with
  | None => Ok []
  | Some arr =>
    if negb (has_type CFG_ARR arr) then Err EINVAL
    else arr_loop sz max (cfg_children arr) []
  end.

Definition get_str_arr := get_arr IFNAMSIZ.
Definition get_dns_arr := get_arr INET_ADDRSTRLEN.

(** ** Sections of a state *)

Definition load_route (it : cfg_node) : result desired_route4 :=
  dst ← get_str it (#"dst") 32 true;
  dev ← get_str it (#"dev") IFNAMSIZ true;
  via ← get_str it (#"via") INET_ADDRSTRLEN false;
  Ok (DesiredRoute dst via dev (negb (bool_decide (via = [])))).

Fixpoint routes_loop (its : list cfg_node) (rts : list desired_route4)
  : result (list desired_route4) :=
  match its with
  | [] => Ok rts
  | it :: its' =>
    if negb (has_type CFG_OBJ it) then Err EINVAL
    else if NR_DES_ROUTE4_MAX <=? length rts then Err E2BIG
    else rt ← load_route it; routes_loop its' (rts ++ [rt])
  end.

Definition load_routes (root : cfg_node) (ds : desired_state)
  : result desired_state :=
  match cfg_child root (#"routes") with
  | None => Ok (ds <| routes := [] |>)
  | Some rs =>
    if negb (has_type CFG_OBJ rs) then Err EINVAL
    else rts ← routes_loop (cfg_children rs) []; Ok (ds <| routes := rts |>)
  end.

(** The child, if it is an object. *)
Definition obj_child (root : cfg_node) (key : cstr) : result cfg_node :=
  match cfg_child root key with
  | Some n => if has_type CFG_OBJ n then Ok n else Err EINVAL
  | None => Err EINVAL
  end.

(** [bridge.addr_mode], checked against [bridge.addr] and [bridge.dhcp_cmd]. *)
Definition bridge_mode (mode addr dhcp_cmd : cstr) : result addr_mode :=
  let has_addr := negb (bool_decide (addr = [])) in
  if bool_decide (mode = []) then Ok (if has_addr then ADDR_STATIC else ADDR_NONE)
  else if streq mode (#"static") then
    if negb has_addr then Err EINVAL else Ok ADDR_STATIC
  else if streq mode (#"dhcp") then
    if has_addr then Err EINVAL
    else if bool_decide (dhcp_cmd = []) then Err EINVAL else Ok ADDR_DHCP
  else if streq mode (#"none") then
    if has_addr then Err EINVAL else Ok ADDR_NONE
  else Err EINVAL.

Definition load_bridge (root : cfg_node) (ds : desired_state)
  : result desired_state :=
  br ← obj_child root (#"bridge");
  name ← get_str br (#"name") IFNAMSIZ true;
  addr ← get_str br (#"addr") 32 false;
  gateway ← get_str br (#"gateway") INET_ADDRSTRLEN false;
  dns ← get_dns_arr br (#"dns") NR_DES_DNS4_MAX;
  mode ← get_str br (#"addr_mode") 16 false;
  dhcp_cmd ← get_str br (#"dhcp_cmd") 128 false;
  am ← bridge_mode mode addr dhcp_cmd;
  if negb (bool_decide (gateway = [])) && negb (bool_decide (am = ADDR_STATIC))
  then Err EINVAL
  else if negb (bool_decide (dns = [])) && negb (bool_decide (am = ADDR_STATIC))
  then Err EINVAL
  else
    ports ← get_str_arr br (#"ports") NR_BR_PORT_MAX;
    Ok (ds <| br_name := name |> <| br_addr := addr |> <| br_gateway := gateway |>
           <| br_dns := dns |> <| br_dhcp_cmd := dhcp_cmd |>
           <| br_addr_mode := am |> <| br_ports := ports |>).

Definition load_uplink (root : cfg_node) (ds : desired_state)
  : result desired_state :=
  up ← obj_child root (#"uplink");
  ifname ← get_str up (#"ifname") IFNAMSIZ true;
  Ok (ds <| up_ifname := ifname |>).

Definition load_vlan (root : cfg_node) (ds : desired_state)
  : result desired_state :=
  vl ← obj_child root (#"vlan");
  ifname ← get_str vl (#"ifname") IFNAMSIZ true;
  id ← get_u32 vl (#"id");
  link ← get_str vl (#"link") IFNAMSIZ false;
  bridge ← get_str vl (#"bridge") IFNAMSIZ false;
  let link := if bool_decide (link = []) then cpy IFNAMSIZ (Some (up_ifname ds))
              else link in
  let bridge := if bool_decide (bridge = []) then cpy IFNAMSIZ (Some (br_name ds))
                else bridge in
  if negb (streq link (up_ifname ds)) then Err EINVAL
  else if negb (streq bridge (br_name ds)) then Err EINVAL
  else Ok (ds <| vlan_ifname := ifname |> <| vlan_id := id |>
              <| vlan_link := link |> <| vlan_bridge := bridge |>).

(** One test rejects a missing or ill-typed [wg] or [vxlan]. *)
Definition load_wg_vxlan (root : cfg_node) (ds : desired_state)
  : result desired_state :=
  wg ← obj_child root (#"wg");
  vx ← obj_child root (#"vxlan");
  wg_if ← get_str wg (#"ifname") IFNAMSIZ true;
  peer ← get_str wg (#"peer_ip") INET_ADDRSTRLEN true;
  rdev ← get_str wg (#"route_dev") IFNAMSIZ true;
  vx_if ← get_str vx (#"ifname") IFNAMSIZ true;
  vni ← get_u32 vx (#"vni");
  remote ← get_str vx (#"remote") INET_ADDRSTRLEN true;
  dev ← get_str vx (#"dev") IFNAMSIZ false;
  bridge ← get_str vx (#"bridge") IFNAMSIZ true;
  if negb (bool_decide (dev = [])) && negb (streq dev wg_if) then Err EINVAL
  else if negb (streq bridge (br_name ds)) then Err EINVAL
  else Ok (ds <| wg_ifname := wg_if |> <| wg_peer_ip := peer |>
              <| wg_route_dev := rdev |> <| vx_ifname := vx_if |>
              <| vx_vni := vni |> <| vx_remote := remote |> <| vx_dev := dev |>
              <| vx_bridge := bridge |>).

(** ** States *)

(** The branch on the scenario. *)
Definition load_scenario (root : cfg_node) (ds : desired_state)
  : result desired_state :=
  if is_scn ds (#"only_uplink") (Some (#"only_uplink_iface")) then
    load_uplink root ds
  else if is_scn ds (#"uplink_bridge") (Some (#"uplink_in_bridge")) then
    ds ← load_bridge root ds; load_uplink root ds
  else if is_scn ds (#"vlan_bridge") (Some (#"vlan_in_bridge")) then
    ds ← load_bridge root ds; ds ← load_uplink root ds; load_vlan root ds
  else if streq (scenario ds) (#"wg_vxlan_bridge") then
    ds ← load_bridge root ds;
    ds ← (match cfg_child root (#"uplink") with
          | Some _ => load_uplink root ds
          | None => Ok ds
          end);
    load_wg_vxlan root ds
  else Err EINVAL.

Definition load_state (root : cfg_node) : result desired_state :=
  scn ← get_str root (#"scenario") 32 true;
  ds ← load_scenario root (ds_zero <| scenario := scn |>);
  load_routes root ds.

Fixpoint states_loop (its : list cfg_node) (set : desired_set)
  : result desired_set :=
  match its with
  | [] => Ok set
  | it :: its' =>
    if negb (has_type CFG_OBJ it) then Err EINVAL
    else if NR_DES_STATE_MAX <=? length set then Err E2BIG
    else ds ← load_state it; states_loop its' (set ++ [ds])
  end.

(** [yaml_load_desired_set] after [cfg_load]. *)
Definition load_set (root : cfg_node) : result desired_set :=
  match cfg_child root (#"scenario") with
  | Some _ => ds ← load_state root; Ok [ds]
  | None =>
    match cfg_child root (#"state") with
    | None => Err EINVAL
    | Some states =>
      if negb (has_type CFG_OBJ states) then Err EINVAL
      else
        set ← states_loop (cfg_children states) [];
        if bool_decide (set = []) then Err EINVAL else Ok set
    end
  end.

Definition yaml_load_desired_set (o : oracle) (file : result (list ascii))
  : result desired_set :=
  root ← fst (cfg_load o file); load_set root.

Definition yaml_load_desired (o : oracle) (file : result (list ascii))
  : result desired_state :=
  set ← yaml_load_desired_set o file;
  match set with [ds] => Ok ds | _ => Err EINVAL end.

(** ** What an accepted state satisfies *)

(** The address mode decides what else the bridge may have. *)
Record mode_ok (ds : desired_state) : Prop := {
  mode_static : br_addr_mode ds = ADDR_STATIC <-> br_addr ds <> [];
  mode_gateway : br_gateway ds <> [] -> br_addr_mode ds = ADDR_STATIC;
  mode_dns : br_dns ds <> [] -> br_addr_mode ds = ADDR_STATIC;
  mode_dhcp : br_addr_mode ds = ADDR_DHCP -> br_dhcp_cmd ds <> []
}.

(** What refers to what, by scenario. *)
Record refs_ok (ds : desired_state) : Prop := {
  refs_scn : scenario ds ∈ SCN_UPLINK ++ SCN_BRIDGE ++ SCN_VLAN ++ SCN_WG;
  refs_vlan : scenario ds ∈ SCN_VLAN ->
    vlan_link ds = up_ifname ds /\ vlan_bridge ds = br_name ds;
  refs_vxlan : scenario ds ∈ SCN_WG ->
    vx_bridge ds = br_name ds /\ (vx_dev ds = [] \/ vx_dev ds = wg_ifname ds);
  refs_via : Forall (fun r => rt_has_via r = true <-> rt_via r <> []) (routes ds)
}.

Record ds_ok (ds : desired_state) : Prop := {
  ok_wf : ds_wf ds;
  ok_mode : mode_ok ds;
  ok_refs : refs_ok ds
}.

(** ** Lemmas *)

Lemma cpy_fits sz s : 0 < sz -> fits sz (cpy sz s).
Proof. intros H. destruct s; [by apply snprintf_length|done]. Qed.

Lemma get_str_fits obj key sz req s :
  0 < sz -> get_str obj key sz req = Ok s -> fits sz s.
Proof.
  unfold get_str. intros Hsz H. destruct (cfg_child obj key) as [n|].
  - inv_ok. by apply cpy_fits.
  - destruct req; cbn in H; inv_ok. done.
Qed.

Lemma parse_u32_range s v : parse_u32_str s = Ok v -> (0 <= v <= UINT32_MAX)%Z.
Proof.
  unfold parse_u32_str. intros H. destruct s as [[|c s]|]; [done| |done].
  cbn zeta in H. inv_ok. breflect.
  split; [apply strtoul0_nonneg|]. rewrite Z.gtb_ltb in H0. by apply Z.ltb_ge in H0.
Qed.

Lemma get_u32_range obj key v : get_u32 obj key = Ok v -> (0 <= v <= UINT32_MAX)%Z.
Proof.
  unfold get_u32. intros H. destruct (cfg_child obj key); inv_ok.
  by apply parse_u32_range in H.
Qed.

Lemma arr_loop_wf sz max its dst l :
  0 < sz -> length dst <= max -> Forall (fits sz) dst ->
  arr_loop sz max its dst = Ok l -> length l <= max /\ Forall (fits sz) l.
Proof.
  intros Hsz. revert dst. induction its as [|it its IH]; intros dst Hl Hf H;
    cbn [arr_loop] in H; inv_ok; [done|].
  apply Nat.leb_gt in E0. apply IH in H; [done| |].
  - rewrite length_app. cbn. lia.
  - apply Forall_app. split; [done|]. constructor; [by apply cpy_fits|done].
Qed.

Lemma get_arr_wf sz obj key max l :
  0 < sz -> get_arr sz obj key max = Ok l -> length l <= max /\ Forall (fits sz) l.
Proof.
  intros Hsz H. unfold get_arr in H. destruct (cfg_child obj key); inv_ok.
  - apply arr_loop_wf in H; [done|done|cbn; lia|done].
  - split; [cbn; lia|done].
Qed.

Lemma routes_loop_wf its rts l :
  length rts <= NR_DES_ROUTE4_MAX ->
  Forall (fun r => route_wf r /\ (rt_has_via r = true <-> rt_via r <> [])) rts ->
  routes_loop its rts = Ok l ->
  length l <= NR_DES_ROUTE4_MAX /\
  Forall (fun r => route_wf r /\ (rt_has_via r = true <-> rt_via r <> [])) l.
Proof.
  revert rts. induction its as [|it its IH]; intros rts Hl Hf H;
    cbn [routes_loop] in H; inv_ok; [done|].
  apply Nat.leb_gt in E0. apply IH in H; [done| |].
  - rewrite length_app. cbn. lia.
  - apply Forall_app. split; [done|]. constructor; [|done].
    unfold load_route in E1. inv_ok.
    apply get_str_fits in E2; [|lia]. apply get_str_fits in E3; [|unfold IFNAMSIZ; lia].
    apply get_str_fits in E4; [|unfold INET_ADDRSTRLEN; lia].
    split; [by constructor|]. cbn. by rewrite negb_true_iff, bool_decide_eq_false.
Qed.

(** Bounds of every string and number read so far. *)
Ltac read_facts :=
  repeat match goal with
  | H : get_str _ _ _ _ = Ok _ |- _ =>
    apply get_str_fits in H; [|unfold IFNAMSIZ, INET_ADDRSTRLEN; lia]
  | H : get_u32 _ _ = Ok _ |- _ => apply get_u32_range in H
  | H : get_str_arr _ _ _ = Ok _ |- _ =>
    apply get_arr_wf in H; [|unfold IFNAMSIZ; lia]
  | H : get_dns_arr _ _ _ = Ok _ |- _ =>
    apply get_arr_wf in H; [|unfold INET_ADDRSTRLEN; lia]
  end.

(** A record whose fields are those of a well-formed one or just read. *)
Ltac wf_fields :=
  repeat match goal with H : ds_wf _ |- _ => destruct H | H : mode_ok _ |- _ => destruct H end;
  constructor; cbn; done.

Lemma bridge_mode_ok mode addr cmd am :
  bridge_mode mode addr cmd = Ok am ->
  (am = ADDR_STATIC <-> addr <> []) /\ (am = ADDR_DHCP -> cmd <> []).
Proof.
  unfold bridge_mode. intros H.
  destruct (decide (addr = [])) as [->|Ha]; cbn in H.
  all: repeat (case_bool_decide || case_match); inv_ok; try done.
  all: split; [split|]; congruence.
Qed.

Lemma load_bridge_ok root ds ds' :
  ds_wf ds -> load_bridge root ds = Ok ds' ->
  ds_wf ds' /\ mode_ok ds' /\ scenario ds' = scenario ds.
Proof.
  intros W H. unfold load_bridge in H. inv_ok. read_facts.
  apply bridge_mode_ok in E6 as [M1 M2].
  split_and!; [wf_fields| |done].
  constructor; cbn; try done.
  - intros Hg. destruct (decide (a6 = ADDR_STATIC)) as [|Hs]; [done|].
    rewrite !bool_decide_eq_false_2 in E7 by done. done.
  - intros Hg. destruct (decide (a6 = ADDR_STATIC)) as [|Hs]; [done|].
    rewrite !bool_decide_eq_false_2 in E8 by done. done.
Qed.

Lemma load_uplink_ok root ds ds' :
  ds_wf ds -> mode_ok ds -> load_uplink root ds = Ok ds' ->
  ds_wf ds' /\ mode_ok ds' /\ scenario ds' = scenario ds.
Proof.
  intros W M H. unfold load_uplink in H. inv_ok. read_facts.
  split_and!; [wf_fields|wf_fields|done].
Qed.

Lemma load_vlan_ok root ds ds' :
  ds_wf ds -> mode_ok ds -> load_vlan root ds = Ok ds' ->
  ds_wf ds' /\ mode_ok ds' /\ scenario ds' = scenario ds /\
  vlan_link ds' = up_ifname ds' /\ vlan_bridge ds' = br_name ds'.
Proof.
  intros W M H. unfold load_vlan in H. inv_ok. breflect. read_facts.
  cbn [cpy] in E4, E5.
  split_and!; [rewrite E4, E5; wf_fields|wf_fields|done|exact E4|exact E5].
Qed.

Lemma load_wg_vxlan_ok root ds ds' :
  ds_wf ds -> mode_ok ds -> load_wg_vxlan root ds = Ok ds' ->
  ds_wf ds' /\ mode_ok ds' /\ scenario ds' = scenario ds /\
  vx_bridge ds' = br_name ds' /\ (vx_dev ds' = [] \/ vx_dev ds' = wg_ifname ds').
Proof.
  intros W M H. unfold load_wg_vxlan in H. inv_ok. read_facts.
  split_and!; [wf_fields|wf_fields|done|cbn; breflect; congruence|].
  cbn. destruct (decide (a7 = [])) as [|Hd]; [by left|right].
  rewrite (bool_decide_eq_false_2 (a7 = [])) in E9 by done.
  cbn in E9. by breflect.
Qed.

Lemma load_routes_ok root ds ds' :
  ds_wf ds -> mode_ok ds -> load_routes root ds = Ok ds' ->
  ds_wf ds' /\ mode_ok ds' /\
  Forall (fun r => rt_has_via r = true <-> rt_via r <> []) (routes ds') /\
  ds' = ds <| routes := routes ds' |>.
Proof.
  intros W M H. unfold load_routes in H.
  assert (exists rts, ds' = ds <| routes := rts |> /\ length rts <= NR_DES_ROUTE4_MAX /\
    Forall (fun r => route_wf r /\ (rt_has_via r = true <-> rt_via r <> [])) rts)
    as (rts & -> & Hl & Hf).
  { destruct (cfg_child root _); inv_ok.
    - eexists. split; [done|]. eapply routes_loop_wf; [| |done]; [cbn; lia|done].
    - eexists. split; [done|]. split; [cbn; lia|done]. }
  apply Forall_and in Hf as [F1 F2].
  split_and!; [wf_fields|wf_fields|done|done].
Qed.

Lemma scn_in ds a b : is_scn ds a (Some b) = true -> scenario ds ∈ [a; b].
Proof.
  unfold is_scn. intros H. apply orb_true_iff in H as [H|H]; breflect;
    rewrite H; set_solver.
Qed.

(** The state before its routes are read. *)
Definition refs_pre (ds : desired_state) : Prop :=
  scenario ds ∈ SCN_UPLINK ++ SCN_BRIDGE ++ SCN_VLAN ++ SCN_WG /\
  (scenario ds ∈ SCN_VLAN ->
    vlan_link ds = up_ifname ds /\ vlan_bridge ds = br_name ds) /\
  (scenario ds ∈ SCN_WG ->
    vx_bridge ds = br_name ds /\ (vx_dev ds = [] \/ vx_dev ds = wg_ifname ds)).

Lemma refs_uplink ds : scenario ds ∈ SCN_UPLINK -> refs_pre ds.
Proof.
  intros H. unfold refs_pre. scn_cases H; split_and!; try compute_decide;
    intros C; exfalso; revert C; compute_decide.
Qed.

Lemma refs_bridge ds : scenario ds ∈ SCN_BRIDGE -> refs_pre ds.
Proof.
  intros H. unfold refs_pre. scn_cases H; split_and!; try compute_decide;
    intros C; exfalso; revert C; compute_decide.
Qed.

Lemma refs_vlan_pre ds :
  scenario ds ∈ SCN_VLAN -> vlan_link ds = up_ifname ds ->
  vlan_bridge ds = br_name ds -> refs_pre ds.
Proof.
  intros H H1 H2. unfold refs_pre. scn_cases H; split_and!; try compute_decide; try done;
    intros C; exfalso; revert C; compute_decide.
Qed.

Lemma refs_wg_pre ds :
  scenario ds = #"wg_vxlan_bridge" -> vx_bridge ds = br_name ds ->
  (vx_dev ds = [] \/ vx_dev ds = wg_ifname ds) -> refs_pre ds.
Proof.
  intros H H1 H2. unfold refs_pre. rewrite H. split_and!; try compute_decide; try done;
    intros C; exfalso; revert C; compute_decide.
Qed.

Lemma load_routes_refs root ds ds' :
  ds_wf ds -> mode_ok ds -> refs_pre ds -> load_routes root ds = Ok ds' -> ds_ok ds'.
Proof.
  intros W M (R1 & R2 & R3) H. apply load_routes_ok in H as (W' & M' & V & E); [|done..].
  constructor; [done|done|]. constructor; try done; rewrite E; cbn; done.
Qed.

Lemma zero_ok scn : fits 32 scn ->
  ds_wf (ds_zero <| scenario := scn |>) /\ mode_ok (ds_zero <| scenario := scn |>).
Proof.
  intros H. split; [destruct ds_zero_wf; constructor; cbn; done|].
  constructor; cbn; split || intros ?; done.
Qed.

Lemma load_scenario_ok root ds0 ds :
  ds_wf ds0 -> mode_ok ds0 -> load_scenario root ds0 = Ok ds ->
  ds_wf ds /\ mode_ok ds /\ refs_pre ds.
Proof.
  intros W M H. unfold load_scenario in H.
  destruct (is_scn ds0 (#"only_uplink") _) eqn:S1;
    [|destruct (is_scn ds0 (#"uplink_bridge") _) eqn:S2;
      [|destruct (is_scn ds0 (#"vlan_bridge") _) eqn:S3;
        [|destruct (streq _ _) eqn:S4; [|done]]]];
    repeat match goal with
    | S : is_scn _ _ _ = true |- _ => apply scn_in in S
    | S : is_scn _ _ _ = false |- _ => clear S
    end; inv_ok.
  - apply load_uplink_ok in H as (W1 & M1 & Sc); [|done..].
    split; [done|]. split; [done|]. apply refs_uplink. by rewrite Sc.
  - apply load_bridge_ok in E as (W1 & M1 & Sc1); [|done..].
    apply load_uplink_ok in H as (W2 & M2 & Sc); [|done..].
    split; [done|]. split; [done|]. apply refs_bridge. by rewrite Sc, Sc1.
  - apply load_bridge_ok in E as (W1 & M1 & Sc1); [|done..].
    apply load_uplink_ok in E0 as (W2 & M2 & Sc2); [|done..].
    apply load_vlan_ok in H as (W3 & M3 & Sc3 & L1 & L2); [|done..].
    split; [done|]. split; [done|].
    apply refs_vlan_pre; [|done|done]. by rewrite Sc3, Sc2, Sc1.
  - apply load_bridge_ok in E as (W1 & M1 & Sc1); [|done..].
    assert (ds_wf a0 /\ mode_ok a0 /\ scenario a0 = scenario a) as (W2 & M2 & Sc2).
    { destruct (cfg_child root _); [by apply load_uplink_ok in E0|by inv_ok]. }
    apply load_wg_vxlan_ok in H as (W3 & M3 & Sc3 & L1 & L2); [|done..].
    split; [done|]. split; [done|]. apply refs_wg_pre; [|done|done].
    breflect. congruence.
Qed.

Lemma load_state_ok root ds : load_state root = Ok ds -> ds_ok ds.
Proof.
  unfold load_state. intros H. inv_ok. read_facts.
  destruct (zero_ok a E) as [W M].
  apply load_scenario_ok in E0 as (W' & M' & R); [|done..].
  exact (load_routes_refs _ _ _ W' M' R H).
Qed.

Lemma states_loop_ok its set l :
  length set <= NR_DES_STATE_MAX -> Forall ds_ok set -> states_loop its set = Ok l ->
  length l <= NR_DES_STATE_MAX /\ Forall ds_ok l /\ length l = length set + length its.
Proof.
  revert set. induction its as [|it its IH]; intros set Hl Hf H;
    cbn [states_loop] in H; inv_ok.
  { split_and!; [done|done|cbn; lia]. }
  apply Nat.leb_gt in E0. apply load_state_ok in E1.
  apply IH in H; rewrite ?length_app in *; cbn [length] in *.
  - split_and!; [tauto|tauto|]. destruct H as (_ & _ & ->). lia.
  - lia.
  - apply Forall_app. by split; [|constructor].
Qed.

Lemma load_set_ok root set :
  load_set root = Ok set ->
  1 <= length set <= NR_DES_STATE_MAX /\ Forall ds_ok set.
Proof.
  unfold load_set. intros H. destruct (cfg_child root (#"scenario")).
  { inv_ok. apply load_state_ok in E. split; [cbn; unfold NR_DES_STATE_MAX; lia|].
    by constructor. }
  inv_ok. apply states_loop_ok in E1 as (H1 & H2 & _); [|cbn; lia|done].
  breflect. split; [|done]. destruct set; [done|]. cbn [length] in *. lia.
Qed.

(** ** Properties *)

(** C8: a configuration the loader accepts gives between 1 and 16 states, each
    within the bounds of its arrays, with an address mode consistent with its
    address, gateway, nameservers and DHCP command, with VLAN and VXLAN
    references that name its own uplink, bridge and tunnel, and with routes
    whose gateway flag tells whether there is a gateway. *)
Theorem yaml_load_desired_set_ok (o : oracle) (file : result (list ascii))
    (set : desired_set) :
  yaml_load_desired_set o file = Ok set ->
  1 <= length set <= NR_DES_STATE_MAX /\ Forall ds_ok set.
Proof.
  unfold yaml_load_desired_set. intros H. inv_ok. by apply load_set_ok in H.
Qed.

(** The example configuration of the README, without its comments. *)
Definition sample_vlan : list ascii := #"state.lan.scenario = vlan_bridge
state.lan.bridge.name = br0
state.lan.bridge.addr = 10.0.0.1/24
state.lan.bridge.dns[] = 1.1.1.1
state.lan.bridge.ports[] = eth1
state.lan.uplink.ifname = eth0
state.lan.vlan.ifname = eth0.100
state.lan.vlan.id = 100
state.lan.routes.r0.dst = 10.1.0.0/16
state.lan.routes.r0.dev = br0
state.lan.routes.r0.via = 10.0.0.2
".

Lemma yaml_load_desired_set_ok_witness :
  exists set, yaml_load_desired_set [] (Ok sample_vlan) = Ok set /\
    1 <= length set <= NR_DES_STATE_MAX /\ Forall ds_ok set.
Proof.
  eexists. split; [vm_compute; reflexivity|].
  apply (yaml_load_desired_set_ok [] (Ok sample_vlan)). vm_compute. reflexivity.
Defined.
