(* ===== verification/Verify.v ===== *)
(** The verifier of verify.c: comparison of a desired state with a snapshot of
    the kernel, the OK/MISS/ACT lines it prints and the commands it runs. *)
From S2P Require Import Prelude CLib State.

(** ** The world outside *)

(** How a [fork]/[execvp]/[waitpid] goes: [fork] fails, or the parent waits,
    [intr] times interrupted (EINTR) before [waitpid] fails or reports. *)
Inductive child :=
| ForkFailed (e : errno)
| Waited (intr : nat) (r : errno + exit_status).

(** The system the commands act on. *)
Class Sys := {
  world : Type;
  spawn : list cstr -> world -> child * world
}.

(** ** Parsing and lookup *)

Definition IFF_UP : Z := 1.

Definition parse_addr_prefix `{Libc} (s : cstr) : result (Z * Z) :=
  match s with
  | [] => Err EINVAL
  | _ =>
    match strchr "/" (snprintf 64 s) with
    | None => Err EINVAL
    | Some (buf, p) =>
      match inet_pton buf with
      | None => Err EINVAL
      | Some addr =>
        let r := strtol10 p in
        if strto_errno r || negb (bool_decide (sto_rest r = []))
           || (sto_val r <? 0)%Z || (sto_val r >? 32)%Z
        then Err EINVAL else Ok (addr, sto_val r)
      end
    end
  end.

Definition parse_ip4 (s : cstr) : result Z :=
  match inet_pton s with None => Err EINVAL | Some a => Ok a end.

Definition route_exact (rs : real_state) (dst prefix oif gw : Z) (has_gw : bool)
  : bool :=
  if (oif <=? 0)%Z then false
  else existsb (fun r =>
    if negb (r4_oif r =? oif)%Z then false
    else if negb (r4_prefix r =? prefix)%Z then false
    else if negb (r4_dst r =? dst)%Z then false
    else if has_gw && (negb (r4_has_gw r) || negb (r4_gw r =? gw)%Z) then false
    else if negb has_gw && r4_has_gw r then false
    else true) (rs_route4 rs).

Definition addr_exists (rs : real_state) (ifindex addr prefix : Z) : bool :=
  existsb (fun a =>
    if negb (a4_ifindex a =? ifindex)%Z then false
    else if negb (a4_prefix a =? prefix)%Z then false
    else (a4_addr a =? addr)%Z) (rs_addr4 rs).

Definition addr_any_exists (rs : real_state) (ifindex : Z) : bool :=
  existsb (fun a => (a4_ifindex a =? ifindex)%Z) (rs_addr4 rs).

(** ** Commands *)

Definition IFACE_KEY : cstr := #"$iface".

(** The loop of [subst_iface]; [dst] is what is written so far.  Each round
    consumes a character, so the length of [src] is fuel enough. *)
Fixpoint subst_loop (fuel sz : nat) (src ifname dst : cstr) : result cstr :=
  match fuel, src with
  | _, [] => Ok dst
  | O, _ => Ok dst
  | S n, c :: src' =>
    match strip_prefix IFACE_KEY src with
    | Some rest =>
      if sz <=? length dst + length ifname then Err ENOSPC
      else subst_loop n sz rest ifname (dst ++ ifname)
    | None =>
      if sz <=? length dst + 1 then Err ENOSPC
      else subst_loop n sz src' ifname (dst ++ [c])
    end
  end.

Definition subst_iface (sz : nat) (src ifname : cstr) : result cstr :=
  if sz =? 0 then Err ENOSPC else subst_loop (length src) sz src ifname [].

Definition is_sep (c : ascii) : bool := Ascii.eqb c " " || Ascii.eqb c TAB.

(** The loop of [cmd_split]; [argv] holds the words found so far.  A round
    that does not stop consumes a word. *)
Fixpoint split_loop (fuel max : nat) (p : cstr) (argv : list cstr)
  : result (list cstr) :=
  match fuel with
  | O => Ok argv
  | S n =>
    match drop_while is_sep p with
    | [] => Ok argv
    | p =>
      if max <=? length argv + 1 then Err E2BIG
      else split_loop n max (drop_while (fun c => negb (is_sep c)) p)
             (argv ++ [take_while (fun c => negb (is_sep c)) p])
    end
  end.

Definition cmd_split (cmd : cstr) (max : nat) : result (list cstr) :=
  split_loop (S (length cmd)) max cmd [].

(** The [waitpid] loop and the decoding of the status. *)
Fixpoint wait_loop (intr : nat) (r : errno + exit_status) : Z :=
  match intr with
  | S n => wait_loop n r
  | O =>
    match r with
    | inl e => Z.neg (errno_num e)
    | inr (Exited code) => code
    | inr (Signaled sig) => 128 + sig
    | inr OtherStatus => Z.neg (errno_num EIO)
    end
  end.

Definition starts_hash (cmd : cstr) : bool :=
  match cmd with c :: _ => Ascii.eqb c "#" | [] => false end.

Definition cmd_exec `{Sys} (cmd : cstr) (w : world) : Z * world :=
  if starts_hash cmd then (0%Z, w)
  else match cmd_split (snprintf 256 cmd) 32 with
       | Err e => (Z.neg (errno_num e), w)
       | Ok [] => (Z.neg (errno_num EINVAL), w)
       | Ok argv =>
         match spawn argv w with
         | (ForkFailed e, w) => (Z.neg (errno_num e), w)
         | (Waited intr r, w) => (wait_loop intr r, w)
         end
       end.

(** ** Output and context *)

(** A printed line. *)
Inductive event :=
| EvOk (msg : cstr)
| EvMiss (msg : cstr)
| EvAct (cmd : cstr)
| EvApplyFail (rc : Z) (cmd : cstr)
| EvApplyOk (cmd : cstr).

(** [struct vctx], the lines printed so far and the system. *)
Record vst `{Sys} := Vst {
  v_apply : bool;
  v_act_fail : bool;
  v_out : list event;
  v_world : world
}.

#[export] Instance vst_eta `{Sys} : Eta vst := fun s =>
  Vst _ (v_apply s) (v_act_fail s) (v_out s) (v_world s).

(** A check: a result and the new context. *)
Definition V `{Sys} (A : Type) : Type := vst -> A * vst.

#[export] Instance V_ret `{Sys} : MRet V := fun A a s => (a, s).
#[export] Instance V_bind `{Sys} : MBind V :=
  fun A B f m s => let '(a, s) := m s in f a s.

Section Checks.
Context `{Libc} `{Sys}.

Definition emit (e : event) : V unit := fun s => (tt, s <| v_out ::= (fun l => l ++ [e]) |>).

Definition ok (msg : cstr) : V Z := _ ← emit (EvOk msg); mret 0%Z.
Definition miss (msg : cstr) : V Z := _ ← emit (EvMiss msg); mret 1%Z.

Definition act (text : cstr) : V unit := fun s =>
  let cmd := snprintf 256 text in
  let s := s <| v_out ::= (fun l => l ++ [EvAct cmd]) |> in
  if negb (v_apply s) || starts_hash cmd then (tt, s)
  else
    let '(rc, w) := cmd_exec cmd (v_world s) in
    let s := s <| v_world := w |> in
    if negb (rc =? 0)%Z then
      (tt, s <| v_out ::= (fun l => l ++ [EvApplyFail rc cmd]) |> <| v_act_fail := true |>)
    else (tt, s <| v_out ::= (fun l => l ++ [EvApplyOk cmd]) |>).

(** ** Checks *)

(** [iface->flags & IFF_UP] *)
Definition is_up (i : iface) : bool := negb (Z.land (if_flags i) IFF_UP =? 0)%Z.

Definition check_bridge (ds : desired_state) (rs : real_state) : V Z :=
  let br_name := br_name ds in
  match rs_find_iface rs br_name with
  | Some br =>
    if streq (if_kind br) (#"bridge") then
      _ ← ok (#"bridge " ++ br_name ++ #" exists");
      if is_up br then _ ← ok (#"bridge " ++ br_name ++ #" up"); mret 0%Z
      else
        _ ← miss (#"bridge " ++ br_name ++ #" up");
        _ ← act (#"ip link set " ++ br_name ++ #" up");
        mret 1%Z
    else
      _ ← miss (#"bridge " ++ br_name ++ #" type bridge");
      _ ← act (#"ip link del " ++ br_name);
      _ ← act (#"ip link add " ++ br_name ++ #" type bridge");
      _ ← act (#"ip link set " ++ br_name ++ #" up");
      mret 1%Z
  | None =>
    _ ← miss (#"bridge " ++ br_name ++ #" exists");
    _ ← act (#"ip link add " ++ br_name ++ #" type bridge");
    _ ← act (#"ip link set " ++ br_name ++ #" up");
    mret 1%Z
  end.

Definition check_bridge_addr (ds : desired_state) (rs : real_state) : V Z :=
  let br := rs_find_iface rs (br_name ds) in
  match br_addr_mode ds with
  | ADDR_NONE => mret 0%Z
  | ADDR_DHCP =>
    let msg := #"dhcp addr dev " ++ br_name ds in
    if match br with Some br => addr_any_exists rs (if_ifindex br) | None => false end
    then _ ← ok msg; mret 0%Z
    else
      _ ← miss msg;
      match subst_iface 256 (br_dhcp_cmd ds) (br_name ds) with
      | Err _ => _ ← act (#"# bad yaml bridge.dhcp_cmd too long"); mret 1%Z
      | Ok cmd => _ ← act cmd; mret 1%Z
      end
  | ADDR_STATIC =>
    let msg := #"addr " ++ br_addr ds ++ #" dev " ++ br_name ds in
    match parse_addr_prefix (br_addr ds) with
    | Err _ =>
      _ ← miss msg; _ ← act (#"# bad yaml bridge.addr " ++ br_addr ds); mret 1%Z
    | Ok (addr, prefix) =>
      if match br with
         | Some br => addr_exists rs (if_ifindex br) addr prefix
         | None => false
         end
      then _ ← ok msg; mret 0%Z
      else
        _ ← miss msg;
        _ ← act (#"ip addr add " ++ br_addr ds ++ #" dev " ++ br_name ds);
        mret 1%Z
    end
  end.

Definition check_bridge_gateway (ds : desired_state) (rs : real_state) : V Z :=
  let msg := #"gateway " ++ br_gateway ds ++ #" dev " ++ br_name ds in
  if bool_decide (br_gateway ds = []) then mret 0%Z
  else match parse_ip4 (br_gateway ds) with
       | Err _ =>
         _ ← miss msg;
         _ ← act (#"# bad yaml bridge.gateway " ++ br_gateway ds);
         mret 1%Z
       | Ok gw =>
         if match rs_find_iface rs (br_name ds) with
            | Some br => route_exact rs 0 0 (if_ifindex br) gw true
            | None => false
            end
         then _ ← ok msg; mret 0%Z
         else
           _ ← miss msg;
           _ ← act (#"ip route replace 0.0.0.0/0 via " ++ br_gateway ds ++
                    #" dev " ++ br_name ds);
           mret 1%Z
       end.

(** One round of the loop of [check_bridge_dns]. *)
Definition check_dns (rs : real_state) (br_name dns : cstr) : V Z :=
  let msg := #"dns " ++ dns ++ #" dev " ++ br_name in
  match parse_ip4 dns with
  | Err _ => _ ← miss msg; _ ← act (#"# bad yaml bridge.dns " ++ dns); mret 1%Z
  | Ok addr =>
    if rs_dns4_exists rs addr then _ ← ok msg; mret 0%Z
    else
      _ ← miss msg;
      _ ← act (#"# set dns " ++ dns ++ #" dev " ++ br_name);
      mret 1%Z
  end.

(** [for (i = 0; i < n; i++) diff += f(x[i]);] *)
Fixpoint sum_loop {A} (f : A -> V Z) (l : list A) (diff : Z) : V Z :=
  match l with
  | [] => mret diff
  | x :: l' => d ← f x; sum_loop f l' (diff + d)
  end.

Definition check_bridge_dns (ds : desired_state) (rs : real_state) : V Z :=
  sum_loop (check_dns rs (br_name ds)) (br_dns ds) 0.

Definition check_wg_peer_route (ds : desired_state) (rs : real_state) : V Z :=
  let msg := #"route " ++ wg_peer_ip ds ++ #"/32 dev " ++ wg_route_dev ds in
  match parse_ip4 (wg_peer_ip ds) with
  | Err _ =>
    _ ← miss msg; _ ← act (#"# bad yaml wg.peer_ip " ++ wg_peer_ip ds); mret 1%Z
  | Ok ip =>
    if match rs_find_iface rs (wg_route_dev ds) with
       | Some dev => route_exact rs ip 32 (if_ifindex dev) 0 false
       | None => false
       end
    then _ ← ok msg; mret 0%Z
    else
      _ ← miss msg;
      _ ← act (#"ip route replace " ++ wg_peer_ip ds ++ #"/32 dev " ++
               wg_route_dev ds);
      mret 1%Z
  end.

Definition check_one_route (rs : real_state) (rt : desired_route4) : V Z :=
  let direct := rt_dst rt ++ #" dev " ++ rt_dev rt in
  let through := rt_dst rt ++ #" via " ++ rt_via rt ++ #" dev " ++ rt_dev rt in
  match parse_addr_prefix (rt_dst rt) with
  | Err _ =>
    _ ← miss (#"route " ++ direct);
    _ ← act (#"# bad yaml route.dst " ++ rt_dst rt);
    mret 1%Z
  | Ok (dst, prefix) =>
    match (if rt_has_via rt then parse_ip4 (rt_via rt) else Ok 0%Z) with
    | Err _ =>
      _ ← miss (#"route " ++ through);
      _ ← act (#"# bad yaml route.via " ++ rt_via rt);
      mret 1%Z
    | Ok via =>
      if match rs_find_iface rs (rt_dev rt) with
         | Some dev => route_exact rs dst prefix (if_ifindex dev) via (rt_has_via rt)
         | None => false
         end
      then
        _ ← (if rt_has_via rt then ok (#"route " ++ through)
             else ok (#"route " ++ direct));
        mret 0%Z
      else if rt_has_via rt then
        _ ← miss (#"route " ++ through);
        _ ← act (#"ip route replace " ++ through);
        mret 1%Z
      else
        _ ← miss (#"route " ++ direct);
        _ ← act (#"ip route replace " ++ direct);
        mret 1%Z
    end
  end.

Definition check_routes (ds : desired_state) (rs : real_state) : V Z :=
  sum_loop (check_one_route rs) (routes ds) 0.

Definition check_iface_exists (tag name : cstr) (i : option iface) : V Z :=
  match i with
  | Some _ => _ ← ok (tag ++ #" " ++ name ++ #" exists"); mret 0%Z
  | None => miss (tag ++ #" " ++ name ++ #" exists")
  end.

Definition check_iface_up (name : cstr) (i : option iface) : V Z :=
  match i with
  | None => _ ← miss (#"iface " ++ name); mret 1%Z
  | Some i =>
    if is_up i then _ ← ok (#"iface " ++ name ++ #" up"); mret 0%Z
    else
      _ ← miss (#"iface " ++ name ++ #" up");
      _ ← act (#"ip link set " ++ name ++ #" up");
      mret 1%Z
  end.

Definition check_master (ifname : cstr) (i : option iface) (br_name : cstr)
    (rs : real_state) : V Z :=
  match i with
  | None => mret 0%Z
  | Some i =>
    let msg := #"iface " ++ ifname ++ #" master " ++ br_name in
    if match rs_find_iface rs br_name with
       | Some br => (if_master i =? if_ifindex br)%Z
       | None => false
       end
    then _ ← ok msg; mret 0%Z
    else
      _ ← miss msg;
      _ ← act (#"ip link set " ++ ifname ++ #" master " ++ br_name);
      mret 1%Z
  end.

Definition check_port (rs : real_state) (br_name name : cstr) : V Z :=
  let port := rs_find_iface rs name in
  d1 ← check_iface_exists (#"bridge-port") name port;
  match port with
  | None => _ ← act (#"# provide bridge port iface " ++ name); mret d1
  | Some _ =>
    d2 ← check_iface_up name port;
    d3 ← check_master name port br_name rs;
    mret (d1 + d2 + d3)%Z
  end.

Definition check_bridge_ports (ds : desired_state) (rs : real_state) : V Z :=
  sum_loop (check_port rs (br_name ds)) (br_ports ds) 0.

Definition act_add_vxlan (ds : desired_state) : V unit :=
  let add := #"ip link add " ++ vx_ifname ds ++ #" type vxlan id " ++
             fmt_u (vx_vni ds) ++ #" remote " ++ vx_remote ds in
  if bool_decide (vx_dev ds = []) then act add
  else act (add ++ #" dev " ++ vx_dev ds).

(** The commands that create the interface again. *)
Definition act_vxlan_again (ds : desired_state) : V unit :=
  _ ← act_add_vxlan ds;
  _ ← act (#"ip link set " ++ vx_ifname ds ++ #" up");
  act (#"ip link set " ++ vx_ifname ds ++ #" master " ++ vx_bridge ds).

(** The diff and [*recreate]. *)
Definition check_vxlan_attrs (ds : desired_state) (rs : real_state)
    (vx_if : option iface) (vx : option vxlan) : V (Z * bool) :=
  let name := vx_ifname ds in
  match vx with
  | None =>
    _ ← (match vx_if with
         | Some _ =>
           _ ← miss (#"iface " ++ name ++ #" type vxlan");
           act (#"ip link del " ++ name)
         | None => _ ← miss (#"iface " ++ name); mret tt
         end);
    _ ← act_vxlan_again ds;
    mret (1%Z, true)
  | Some vx =>
    _ ← ok (#"iface " ++ name ++ #" exists");
    let vni := #"vxlan " ++ name ++ #" vni " ++ fmt_u (vx_vni ds) in
    '(d1, r1) ← (if vxl_has_vni vx && (vxl_vni vx =? vx_vni ds)%Z
                 then _ ← ok vni; mret (0%Z, false)
                 else _ ← miss vni; mret (1%Z, true));
    let rem := #"vxlan " ++ name ++ #" remote " ++ vx_remote ds in
    '(d2, r2) ← (match parse_ip4 (vx_remote ds) with
                 | Err _ =>
                   _ ← miss rem;
                   _ ← act (#"# bad yaml vxlan.remote " ++ vx_remote ds);
                   mret (1%Z, false)
                 | Ok remote =>
                   if vxl_has_remote vx && (vxl_remote vx =? remote)%Z
                   then _ ← ok rem; mret (0%Z, false)
                   else _ ← miss rem; mret (1%Z, true)
                 end);
    let dev := #"vxlan " ++ name ++ #" dev " ++ vx_dev ds in
    '(d3, r3) ← (if bool_decide (vx_dev ds = []) then mret (0%Z, false)
                 else if match rs_find_iface rs (vx_dev ds) with
                         | Some d => vxl_has_link vx && (vxl_link vx =? if_ifindex d)%Z
                         | None => false
                         end
                 then _ ← ok dev; mret (0%Z, false)
                 else _ ← miss dev; mret (1%Z, true));
    let diff := (d1 + d2 + d3)%Z in
    if r1 || r2 || r3 then
      _ ← act (#"ip link del " ++ name);
      _ ← act_vxlan_again ds;
      mret (diff, true)
    else d4 ← check_iface_up name vx_if; mret ((diff + d4)%Z, false)
  end.

Definition act_add_vlan (ds : desired_state) : V unit :=
  act (#"ip link add link " ++ vlan_link ds ++ #" name " ++ vlan_ifname ds ++
       #" type vlan id " ++ fmt_u (vlan_id ds)).

Definition act_vlan_again (ds : desired_state) : V unit :=
  _ ← act_add_vlan ds;
  _ ← act (#"ip link set " ++ vlan_ifname ds ++ #" up");
  act (#"ip link set " ++ vlan_ifname ds ++ #" master " ++ vlan_bridge ds).

Definition check_vlan_attrs (ds : desired_state) (rs : real_state)
    (vl_if : option iface) (vl : option vlan) : V (Z * bool) :=
  let name := vlan_ifname ds in
  match vl with
  | None =>
    _ ← (match vl_if with
         | Some _ =>
           _ ← miss (#"iface " ++ name ++ #" type vlan");
           act (#"ip link del " ++ name)
         | None => _ ← miss (#"iface " ++ name); mret tt
         end);
    _ ← act_vlan_again ds;
    mret (1%Z, true)
  | Some vl =>
    _ ← ok (#"iface " ++ name ++ #" exists");
    let id := #"vlan " ++ name ++ #" id " ++ fmt_u (vlan_id ds) in
    '(d1, r1) ← (if vl_has_id vl && (vl_id vl =? vlan_id ds)%Z
                 then _ ← ok id; mret (0%Z, false)
                 else _ ← miss id; mret (1%Z, true));
    let lnk := #"vlan " ++ name ++ #" link " ++ vlan_link ds in
    '(d2, r2) ← (if match rs_find_iface rs (vlan_link ds) with
                    | Some l => vl_has_link vl && (vl_link vl =? if_ifindex l)%Z
                    | None => false
                    end
                 then _ ← ok lnk; mret (0%Z, false)
                 else _ ← miss lnk; mret (1%Z, true));
    let diff := (d1 + d2)%Z in
    if r1 || r2 then
      _ ← act (#"ip link del " ++ name);
      _ ← act_vlan_again ds;
      mret (diff, true)
    else d3 ← check_iface_up name vl_if; mret ((diff + d3)%Z, false)
  end.

(** ** Scenarios *)

Definition verify_only_uplink (ds : desired_state) (rs : real_state) : V Z :=
  let up := rs_find_iface rs (up_ifname ds) in
  d1 ← check_iface_exists (#"uplink") (up_ifname ds) up;
  match up with
  | None => _ ← act (#"# provide uplink iface " ++ up_ifname ds); mret d1
  | Some _ => d2 ← check_iface_up (up_ifname ds) up; mret (d1 + d2)%Z
  end.

Definition verify_uplink_bridge (ds : desired_state) (rs : real_state) : V Z :=
  d1 ← check_bridge ds rs;
  d2 ← check_bridge_addr ds rs;
  d3 ← check_bridge_gateway ds rs;
  d4 ← check_bridge_dns ds rs;
  d5 ← verify_only_uplink ds rs;
  d6 ← check_master (up_ifname ds) (rs_find_iface rs (up_ifname ds)) (br_name ds) rs;
  d7 ← check_bridge_ports ds rs;
  mret (d1 + d2 + d3 + d4 + d5 + d6 + d7)%Z.

Definition verify_vlan_bridge (ds : desired_state) (rs : real_state) : V Z :=
  d1 ← check_bridge ds rs;
  d2 ← check_bridge_addr ds rs;
  d3 ← check_bridge_gateway ds rs;
  d4 ← check_bridge_dns ds rs;
  d5 ← verify_only_uplink ds rs;
  d6 ← check_bridge_ports ds rs;
  let vl_if := rs_find_iface rs (vlan_ifname ds) in
  let vl := rs_find_vlan rs (vlan_ifname ds) in
  '(d7, recreate) ← check_vlan_attrs ds rs vl_if vl;
  d8 ← (if negb recreate
        then check_master (vlan_ifname ds) vl_if (vlan_bridge ds) rs
        else mret 0%Z);
  mret (d1 + d2 + d3 + d4 + d5 + d6 + d7 + d8)%Z.

Definition check_wg (ds : desired_state) (rs : real_state) : V Z :=
  let wg := rs_find_iface rs (wg_ifname ds) in
  d1 ← (match wg with
        | Some _ => _ ← ok (#"iface " ++ wg_ifname ds ++ #" exists"); mret 0%Z
        | None =>
          d ← miss (#"iface " ++ wg_ifname ds);
          _ ← act (#"ip link add " ++ wg_ifname ds ++ #" type wireguard");
          mret d
        end);
  d2 ← (match wg with
        | Some _ => check_iface_up (wg_ifname ds) wg
        | None => mret 0%Z
        end);
  mret (d1 + d2)%Z.

Definition verify_wg_vxlan_bridge (ds : desired_state) (rs : real_state) : V Z :=
  d1 ← check_bridge ds rs;
  d2 ← check_bridge_addr ds rs;
  d3 ← check_bridge_gateway ds rs;
  d4 ← check_bridge_dns ds rs;
  d5 ← (if bool_decide (up_ifname ds = []) then mret 0%Z
        else verify_only_uplink ds rs);
  d6 ← check_bridge_ports ds rs;
  d7 ← check_wg_peer_route ds rs;
  d8 ← check_wg ds rs;
  let vx_if := rs_find_iface rs (vx_ifname ds) in
  let vx := rs_find_vxlan rs (vx_ifname ds) in
  '(d9, recreate) ← check_vxlan_attrs ds rs vx_if vx;
  d10 ← (if negb recreate
         then check_master (vx_ifname ds) vx_if (vx_bridge ds) rs
         else mret 0%Z);
  mret (d1 + d2 + d3 + d4 + d5 + d6 + d7 + d8 + d9 + d10)%Z.

(** The dispatch of [verify_state]; [None] is an unknown scenario. *)
Definition verify_scenario (ds : desired_state) : option (real_state -> V Z) :=
  if streq (scenario ds) (#"only_uplink") || streq (scenario ds) (#"only_uplink_iface")
  then Some (verify_only_uplink ds)
  else if streq (scenario ds) (#"uplink_bridge")
          || streq (scenario ds) (#"uplink_in_bridge")
  then Some (verify_uplink_bridge ds)
  else if streq (scenario ds) (#"vlan_bridge")
          || streq (scenario ds) (#"vlan_in_bridge")
  then Some (verify_vlan_bridge ds)
  else if streq (scenario ds) (#"wg_vxlan_bridge")
  then Some (verify_wg_vxlan_bridge ds)
  else None.

(** [verify_state]: the returned diff, [*act_fail] ([None] when it is left
    alone), the lines printed and the system afterwards. *)
Definition verify_state (ds : desired_state) (rs : real_state) (apply : bool)
    (w : world) : Z * option bool * list event * world :=
  match verify_scenario ds with
  | None => (1%Z, None, [], w)
  | Some check =>
    let '(diff, s) := (d1 ← check rs; d2 ← check_routes ds rs; mret (d1 + d2)%Z)
                        (Vst _ apply false [] w) in
    (diff, Some (v_act_fail s), v_out s, v_world s)
  end.

(** ** What the kernel has to look like *)

Definition if_up (i : iface) : Prop := Z.testbit (if_flags i) 0 = true.

Definition route_gw (r : route4) : option Z :=
  if r4_has_gw r then Some (r4_gw r) else None.

Definition has_route (rs : real_state) (dst prefix : Z) (dev : iface) (gw : option Z)
  : Prop :=
  (0 < if_ifindex dev)%Z /\
  exists r, r ∈ rs_route4 rs /\ r4_oif r = if_ifindex dev /\ r4_prefix r = prefix /\
            r4_dst r = dst /\ route_gw r = gw.

Definition up_sat (rs : real_state) (name : cstr) : Prop :=
  exists i, rs_find_iface rs name = Some i /\ if_up i.

Definition member_sat (rs : real_state) (name br : cstr) : Prop :=
  exists i b, rs_find_iface rs name = Some i /\ rs_find_iface rs br = Some b /\
              if_master i = if_ifindex b.

Definition bridge_sat (rs : real_state) (name : cstr) : Prop :=
  exists br, rs_find_iface rs name = Some br /\ if_kind br = #"bridge" /\ if_up br.

Definition bridge_addr_sat (ds : desired_state) (rs : real_state) : Prop :=
  match br_addr_mode ds with
  | ADDR_NONE => True
  | ADDR_DHCP => exists br a, rs_find_iface rs (br_name ds) = Some br /\
      a ∈ rs_addr4 rs /\ a4_ifindex a = if_ifindex br
  | ADDR_STATIC => exists addr prefix br,
      parse_addr_prefix (br_addr ds) = Ok (addr, prefix) /\
      rs_find_iface rs (br_name ds) = Some br /\
      Addr4 (if_ifindex br) addr prefix ∈ rs_addr4 rs
  end.

Definition gateway_sat (ds : desired_state) (rs : real_state) : Prop :=
  br_gateway ds <> [] -> exists gw br,
    inet_pton (br_gateway ds) = Some gw /\ rs_find_iface rs (br_name ds) = Some br /\
    has_route rs 0 0 br (Some gw).

Definition dns_sat (rs : real_state) (dns : cstr) : Prop :=
  exists a, inet_pton dns = Some a /\ a ∈ rs_dns4 rs.

Definition peer_route_sat (ds : desired_state) (rs : real_state) : Prop :=
  exists ip dev, inet_pton (wg_peer_ip ds) = Some ip /\
    rs_find_iface rs (wg_route_dev ds) = Some dev /\ has_route rs ip 32 dev None.

Definition route_sat (rs : real_state) (rt : desired_route4) : Prop :=
  exists dst prefix dev gw,
    parse_addr_prefix (rt_dst rt) = Ok (dst, prefix) /\
    rs_find_iface rs (rt_dev rt) = Some dev /\
    (if rt_has_via rt then exists via, gw = Some via /\ inet_pton (rt_via rt) = Some via
     else gw = None) /\
    has_route rs dst prefix dev gw.

Definition port_sat (rs : real_state) (br name : cstr) : Prop :=
  up_sat rs name /\ member_sat rs name br.

Definition vlan_sat (ds : desired_state) (rs : real_state) : Prop :=
  (exists v l, rs_find_vlan rs (vlan_ifname ds) = Some v /\
     vl_has_id v = true /\ vl_id v = vlan_id ds /\
     rs_find_iface rs (vlan_link ds) = Some l /\
     vl_has_link v = true /\ vl_link v = if_ifindex l) /\
  up_sat rs (vlan_ifname ds).

Definition vxlan_sat (ds : desired_state) (rs : real_state) : Prop :=
  (exists v remote, rs_find_vxlan rs (vx_ifname ds) = Some v /\
     vxl_has_vni v = true /\ vxl_vni v = vx_vni ds /\
     inet_pton (vx_remote ds) = Some remote /\
     vxl_has_remote v = true /\ vxl_remote v = remote /\
     (vx_dev ds <> [] -> exists l, rs_find_iface rs (vx_dev ds) = Some l /\
        vxl_has_link v = true /\ vxl_link v = if_ifindex l)) /\
  up_sat rs (vx_ifname ds).

(** The bridge of every scenario that has one. *)
Definition bridge_part_sat (ds : desired_state) (rs : real_state) : Prop :=
  bridge_sat rs (br_name ds) /\ bridge_addr_sat ds rs /\ gateway_sat ds rs /\
  Forall (dns_sat rs) (br_dns ds) /\ Forall (port_sat rs (br_name ds)) (br_ports ds).

(** What verify.c:755 asks of the uplink of a tunnel is that it is up.  README.md
    (line 208) and ctx.md (line 373) also want it in the bridge, as README.md
    (line 180) does for a VLAN, where ctx.md (line 330) does not; that is
    [uplink_documented]. *)
Definition scenario_sat (ds : desired_state) (rs : real_state) : Prop :=
  (scenario ds ∈ SCN_UPLINK /\ up_sat rs (up_ifname ds)) \/
  (scenario ds ∈ SCN_BRIDGE /\ bridge_part_sat ds rs /\
   port_sat rs (br_name ds) (up_ifname ds)) \/
  (scenario ds ∈ SCN_VLAN /\ bridge_part_sat ds rs /\ up_sat rs (up_ifname ds) /\
   vlan_sat ds rs /\ member_sat rs (vlan_ifname ds) (vlan_bridge ds)) \/
  (scenario ds ∈ SCN_WG /\ bridge_part_sat ds rs /\
   (up_ifname ds <> [] -> up_sat rs (up_ifname ds)) /\
   peer_route_sat ds rs /\ up_sat rs (wg_ifname ds) /\
   vxlan_sat ds rs /\ member_sat rs (vx_ifname ds) (vx_bridge ds)).

Definition uplink_documented (ds : desired_state) (rs : real_state) : Prop :=
  scenario ds ∈ SCN_WG -> up_ifname ds <> [] -> member_sat rs (up_ifname ds) (br_name ds).

(** The snapshot is what the desired state asks for. *)
Definition satisfied (ds : desired_state) (rs : real_state) : Prop :=
  scenario_sat ds rs /\ Forall (route_sat rs) (routes ds).

(** [out] is [src] with the keys replaced, from left to right. *)
Inductive replaced (ifname : cstr) : cstr -> cstr -> Prop :=
| replaced_nil : replaced ifname [] []
| replaced_key s out :
    replaced ifname s out -> replaced ifname (IFACE_KEY ++ s) (ifname ++ out)
| replaced_char c s out :
    strip_prefix IFACE_KEY (c :: s) = None -> replaced ifname s out ->
    replaced ifname (c :: s) (c :: out).

(** The words of a command; [cur] is the word being read. *)
Fixpoint words_from (cur s : cstr) : list cstr :=
  let flush := match cur with [] => [] | _ => [cur] end in
  match s with
  | [] => flush
  | c :: s' => if is_sep c then flush ++ words_from [] s' else words_from (cur ++ [c]) s'
  end.

Definition words (s : cstr) : list cstr := words_from [] s.

(** ** Plans *)

(** Perform a line of a plan: print it, and for an [EvAct] in apply mode run
    the command and report. *)
Definition do_event (e : event) (s : vst) : vst :=
  match e with EvAct cmd => snd (act cmd s) | _ => snd (emit e s) end.

Definition run_plan (p : list event) (s : vst) : vst :=
  fold_left (fun s e => do_event e s) p s.

Definition is_miss (e : event) : bool := match e with EvMiss _ => true | _ => false end.
Definition misses (p : list event) : nat := length (List.filter is_miss p).

Definition is_act (e : event) : bool := match e with EvAct _ => true | _ => false end.
Definition acts (p : list event) : nat := length (List.filter is_act p).

(** Plans hold no reports of executions, and commands that fit the buffer. *)
Definition is_plan (e : event) : bool :=
  match e with
  | EvOk _ | EvMiss _ => true
  | EvAct cmd => length cmd <? 256
  | _ => false
  end.

(** What [--apply] does with the lines of a dry run: print each, and after a
    command that is not a comment run it and report; the lines, whether a
    command failed, and the system afterwards. *)
Fixpoint exec_plan (p : list event) (w : world) : list event * bool * world :=
  match p with
  | [] => ([], false, w)
  | e :: p' =>
    match e with
    | EvAct cmd =>
      if starts_hash cmd then
        let '(out, fail, w) := exec_plan p' w in (e :: out, fail, w)
      else
        let '(rc, w) := cmd_exec cmd w in
        let failed := negb (rc =? 0)%Z in
        let '(out, fail, w) := exec_plan p' w in
        (e :: (if failed then EvApplyFail rc cmd else EvApplyOk cmd) :: out,
         failed || fail, w)
    | _ => let '(out, fail, w) := exec_plan p' w in (e :: out, fail, w)
    end
  end.

(** [m] returns [a] and performs [p], whatever the context. *)
Definition emits {A} (m : V A) (a : A) (p : list event) : Prop :=
  Forall (fun e => is_plan e = true) p /\ forall s, m s = (a, run_plan p s).

(** A plan that proposes commands only where it misses something. *)
Definition plans {A} (m : V A) (a : A) (p : list event) : Prop :=
  emits m a p /\ acts p <= 6 * misses p.

(** [m] counts the lines it misses, misses none exactly when [sat], and
    proposes nothing then. *)
Definition checks (m : V Z) (sat : Prop) : Prop :=
  exists p, plans m (Z.of_nat (misses p)) p /\ (misses p = 0 <-> sat).

End Checks.

(** ** Lemmas *)

(** *** Lookups *)

Lemma is_up_true i : is_up i = true <-> if_up i.
Proof.
  unfold is_up, if_up, IFF_UP. rewrite negb_true_iff, Z.eqb_neq.
  change 1%Z with (Z.ones 1). rewrite Z.land_ones by lia.
  change (2 ^ 1)%Z with 2%Z. rewrite Z.bit0_odd.
  pose proof (Zmod_odd (if_flags i)) as Ho.
  destruct (Z.odd (if_flags i)); rewrite Ho; split; done.
Qed.

Lemma existsb_elem {A} (p : A -> bool) l :
  existsb p l = true <-> exists x, x ∈ l /\ p x = true.
Proof.
  rewrite existsb_exists. split; intros (x & Hx & Hp); exists x;
    (split; [by apply list_elem_of_In|done]).
Qed.

Lemma route_exact_true rs dst prefix dev gw has_gw :
  route_exact rs dst prefix (if_ifindex dev) gw has_gw = true <->
  has_route rs dst prefix dev (if has_gw then Some gw else None).
Proof.
  unfold route_exact, has_route, route_gw.
  destruct (Z.leb_spec (if_ifindex dev) 0) as [L|L]; [split; [done|lia]|].
  rewrite existsb_elem.
  assert (F : forall r : route4, (if negb (r4_oif r =? if_ifindex dev)%Z then false
    else if negb (r4_prefix r =? prefix)%Z then false
    else if negb (r4_dst r =? dst)%Z then false
    else if has_gw && (negb (r4_has_gw r) || negb (r4_gw r =? gw)%Z) then false
    else if negb has_gw && r4_has_gw r then false else true) = true <->
    r4_oif r = if_ifindex dev /\ r4_prefix r = prefix /\ r4_dst r = dst /\
    (if r4_has_gw r then Some (r4_gw r) else None) = (if has_gw then Some gw else None)).
  { intros r. destruct (Z.eqb_spec (r4_oif r) (if_ifindex dev)); cbn; [|intuition congruence].
    destruct (Z.eqb_spec (r4_prefix r) prefix); cbn; [|intuition congruence].
    destruct (Z.eqb_spec (r4_dst r) dst); cbn; [|intuition congruence].
    destruct has_gw, (r4_has_gw r), (Z.eqb_spec (r4_gw r) gw); cbn;
      intuition congruence. }
  split.
  - intros (r & Hr & Hp). apply F in Hp. eauto.
  - intros (_ & r & Hr & Hp). exists r. split; [done|]. by apply F.
Qed.

Lemma addr_exists_true rs ifindex addr prefix :
  addr_exists rs ifindex addr prefix = true <->
  Addr4 ifindex addr prefix ∈ rs_addr4 rs.
Proof.
  unfold addr_exists. rewrite existsb_elem. split.
  - intros ([i a p] & Hin & Hp). cbn in Hp.
    destruct (Z.eqb_spec i ifindex), (Z.eqb_spec p prefix), (Z.eqb_spec a addr);
      cbn in Hp; try done. by subst.
  - intros Hin. eexists. split; [exact Hin|]. cbn. by rewrite !Z.eqb_refl.
Qed.

Lemma addr_any_true rs ifindex :
  addr_any_exists rs ifindex = true <->
  exists a, a ∈ rs_addr4 rs /\ a4_ifindex a = ifindex.
Proof.
  unfold addr_any_exists. rewrite existsb_elem.
  split; intros (a & Ha & E); exists a; (split; [done|]); by apply Z.eqb_eq.
Qed.

Lemma rs_dns4_exists_true rs a : rs_dns4_exists rs a = true <-> a ∈ rs_dns4 rs.
Proof.
  unfold rs_dns4_exists. rewrite existsb_elem. split.
  - intros (b & Hb & E). apply Z.eqb_eq in E. by subst.
  - intros Ha. exists a. split; [done|apply Z.eqb_refl].
Qed.

Lemma parse_ip4_Ok s a : parse_ip4 s = Ok a <-> inet_pton s = Some a.
Proof. unfold parse_ip4. destruct (inet_pton s); split; congruence. Qed.

Lemma parse_ip4_Err s e : parse_ip4 s = Err e -> inet_pton s = None.
Proof. unfold parse_ip4. by destruct (inet_pton s). Qed.

(** *** The plan of a computation *)

Section Plans.
Context `{Libc} `{Sys}.

Lemma run_plan_app p q s : run_plan (p ++ q) s = run_plan q (run_plan p s).
Proof. unfold run_plan. apply fold_left_app. Qed.

Lemma emits_ret {A} (a : A) : emits (mret a) a [].
Proof. split; [done|]. done. Qed.

Lemma emits_bind {A B} (m : V A) (f : A -> V B) a b p q :
  emits m a p -> emits (f a) b q -> emits (m ≫= f) b (p ++ q).
Proof.
  intros [P1 E1] [P2 E2]. split; [by apply Forall_app|].
  intros s. unfold mbind, V_bind. rewrite E1, E2. by rewrite run_plan_app.
Qed.

Lemma emits_ok msg : emits (ok msg) 0%Z [EvOk msg].
Proof. split; [by constructor|done]. Qed.

Lemma emits_miss msg : emits (miss msg) 1%Z [EvMiss msg].
Proof. split; [by constructor|done]. Qed.

(** The command is cut to the buffer before it is printed. *)
Lemma emits_act text : emits (act text) tt [EvAct (snprintf 256 text)].
Proof.
  split.
  { constructor; [|done]. apply Nat.ltb_lt, snprintf_length. lia. }
  intros s. cbn [run_plan fold_left do_event]. unfold act. unfold snprintf. rewrite take_take, Nat.min_id.
  destruct (_ || _); [done|]. destruct (cmd_exec _ _) as [rc w].
  by destruct (negb _).
Qed.

Lemma misses_app p q : misses (p ++ q) = misses p + misses q.
Proof. unfold misses. by rewrite List.filter_app, length_app. Qed.

Lemma misses_cons e p : misses (e :: p) = (if is_miss e then 1 else 0) + misses p.
Proof. unfold misses. cbn. by destruct (is_miss e). Qed.

Lemma misses_nil : misses [] = 0.
Proof. done. Qed.

Lemma acts_app p q : acts (p ++ q) = acts p + acts q.
Proof. unfold acts. by rewrite List.filter_app, length_app. Qed.

Lemma acts_cons e p : acts (e :: p) = (if is_act e then 1 else 0) + acts p.
Proof. unfold acts. cbn. by destruct (is_act e). Qed.

Lemma acts_nil : acts [] = 0.
Proof. done. Qed.

Lemma checks_intro (m : V Z) sat d p :
  emits m d p -> d = Z.of_nat (misses p) -> acts p <= 6 * misses p ->
  (misses p = 0 <-> sat) -> checks m sat.
Proof. intros He -> Ha Hs. by exists p. Qed.

(** Count the lines of a composed plan. *)
Ltac count_lines :=
  rewrite ?misses_app, ?misses_cons, ?misses_nil, ?acts_app, ?acts_cons, ?acts_nil;
  cbn [is_miss is_act].

(** Take the plans of the parts apart. *)
Ltac split_plans :=
  repeat match goal with
  | E : plans _ _ _ |- _ => let A := fresh "Acts" in destruct E as [E A]
  end.

(** The plan of a straight-line computation. *)
Ltac emits_step :=
  cbv beta iota delta [orb negb];
  lazymatch goal with
  | |- emits (mbind _ _) _ _ => eapply emits_bind
  | |- emits (mret _) _ _ => apply emits_ret
  | |- emits (ok _) _ _ => apply emits_ok
  | |- emits (miss _) _ _ => apply emits_miss
  | |- emits (act _) _ _ => apply emits_act
  | |- emits _ _ _ => eassumption
  end.
Ltac emits_all := repeat emits_step.

(** A branch of a check that prints a fixed number of misses. *)
Ltac check_leaf :=
  eapply checks_intro; [emits_all|reflexivity|cbn; lia|cbn].

(** The branch is satisfied, or it is not because of hypothesis-driven
    contradiction. *)
Ltac sat_yes := check_leaf; split; [intros _|done].
Ltac sat_no := check_leaf; split; [done|].

Lemma check_bridge_ok ds rs : checks (check_bridge ds rs) (bridge_sat rs (br_name ds)).
Proof.
  unfold check_bridge, bridge_sat.
  destruct (rs_find_iface rs (br_name ds)) as [br|] eqn:E.
  2: sat_no; intros (? & ? & _); congruence.
  destruct (streq _ _) eqn:Ek; breflect.
  2: sat_no; intros (? & [= <-] & ? & _); congruence.
  destruct (is_up br) eqn:Eu; [apply is_up_true in Eu|].
  - sat_yes. eauto.
  - sat_no. intros (? & [= <-] & _ & Hu). apply is_up_true in Hu. congruence.
Qed.

(** [find] on an interface, in both polarities. *)
Ltac find_iface E :=
  match goal with
  | |- context [match rs_find_iface ?rs ?n with _ => _ end] =>
    let i := fresh "dev" in destruct (rs_find_iface rs n) as [i|] eqn:E
  end.

Lemma check_bridge_addr_ok ds rs :
  checks (check_bridge_addr ds rs) (bridge_addr_sat ds rs).
Proof.
  unfold check_bridge_addr, bridge_addr_sat. destruct (br_addr_mode ds).
  - by sat_yes.
  - destruct (parse_addr_prefix (br_addr ds)) as [[addr prefix]|e] eqn:Ep.
    2: sat_no; intros (? & ? & ? & ? & _); congruence.
    find_iface Ef; [destruct (addr_exists _ _ _ _) eqn:Ea|].
    + apply addr_exists_true in Ea. sat_yes. eauto 7.
    + sat_no. intros (? & ? & ? & [= <- <-] & [= <-] & Ha).
      apply addr_exists_true in Ha. congruence.
    + sat_no. intros (? & ? & ? & _ & ? & _). congruence.
  - find_iface Ef; [destruct (addr_any_exists _ _) eqn:Ea|].
    + apply addr_any_true in Ea as (a & ? & ?). sat_yes. eauto 7.
    + destruct (subst_iface _ _ _); sat_no; intros (? & b & [= <-] & Ha & Hi);
        (enough (addr_any_exists rs (if_ifindex dev) = true) by congruence);
        apply addr_any_true; eauto.
    + destruct (subst_iface _ _ _); sat_no; intros (? & ? & ? & _); congruence.
Qed.

Lemma check_bridge_gateway_ok ds rs :
  checks (check_bridge_gateway ds rs) (gateway_sat ds rs).
Proof.
  unfold check_bridge_gateway, gateway_sat.
  case_bool_decide as Eg; [sat_yes; done|].
  destruct (parse_ip4 _) as [gw|e] eqn:Ep.
  2: apply parse_ip4_Err in Ep; sat_no; intros F; destruct (F Eg) as (? & ? & ? & _); congruence.
  apply parse_ip4_Ok in Ep.
  find_iface Ef; [destruct (route_exact _ _ _ _ _ _) eqn:Er|].
  - apply route_exact_true in Er. sat_yes. eauto 7.
  - sat_no. intros F. destruct (F Eg) as (? & ? & Hp & [= <-] & Hr).
    rewrite Ep in Hp. injection Hp as <-.
    apply (route_exact_true _ _ _ _ gw true) in Hr. congruence.
  - sat_no. intros F. destruct (F Eg) as (? & ? & _ & ? & _). congruence.
Qed.

Lemma check_dns_ok rs br dns : checks (check_dns rs br dns) (dns_sat rs dns).
Proof.
  unfold check_dns, dns_sat. destruct (parse_ip4 _) as [a|e] eqn:Ep.
  2: apply parse_ip4_Err in Ep; sat_no; intros (? & ? & _); congruence.
  apply parse_ip4_Ok in Ep. destruct (rs_dns4_exists rs a) eqn:Ed.
  - apply rs_dns4_exists_true in Ed. sat_yes. eauto.
  - sat_no. intros (b & Hb & Hi). apply rs_dns4_exists_true in Hi. congruence.
Qed.

Lemma check_wg_peer_route_ok ds rs :
  checks (check_wg_peer_route ds rs) (peer_route_sat ds rs).
Proof.
  unfold check_wg_peer_route, peer_route_sat. destruct (parse_ip4 _) as [ip|e] eqn:Ep.
  2: apply parse_ip4_Err in Ep; sat_no; intros (? & ? & ? & _); congruence.
  apply parse_ip4_Ok in Ep.
  find_iface Ef; [destruct (route_exact _ _ _ _ _ _) eqn:Er|].
  - apply route_exact_true in Er. sat_yes. eauto 7.
  - sat_no. intros (? & ? & Hp & [= <-] & Hr). rewrite Ep in Hp. injection Hp as <-.
    apply (route_exact_true _ _ _ _ 0 false) in Hr. congruence.
  - sat_no. intros (? & ? & _ & ? & _). congruence.
Qed.

Lemma check_one_route_ok rs rt : checks (check_one_route rs rt) (route_sat rs rt).
Proof.
  unfold check_one_route, route_sat.
  destruct (parse_addr_prefix (rt_dst rt)) as [[dst prefix]|e] eqn:Ep.
  2: sat_no; intros (? & ? & ? & ? & ? & _); congruence.
  destruct (rt_has_via rt) eqn:Ev.
  - destruct (parse_ip4 _) as [via|e] eqn:Ei.
    2: apply parse_ip4_Err in Ei; sat_no;
       intros (? & ? & ? & ? & _ & _ & (? & _ & ?) & _); congruence.
    apply parse_ip4_Ok in Ei.
    find_iface Ef; [destruct (route_exact _ _ _ _ _ _) eqn:Er|].
    + apply route_exact_true in Er. sat_yes. exists dst, prefix, dev, (Some via). eauto 7.
    + sat_no. intros (? & ? & ? & ? & [= <- <-] & [= <-] & (v & -> & Hv) & Hr).
      rewrite Ei in Hv. injection Hv as <-.
      apply (route_exact_true _ _ _ _ via true) in Hr. congruence.
    + sat_no. intros (? & ? & ? & ? & _ & ? & _). congruence.
  - find_iface Ef; [destruct (route_exact _ _ _ _ _ _) eqn:Er|].
    + apply route_exact_true in Er. sat_yes. exists dst, prefix, dev, None. eauto 7.
    + sat_no. intros (? & ? & ? & ? & [= <- <-] & [= <-] & -> & Hr).
      apply (route_exact_true _ _ _ _ 0 false) in Hr. congruence.
    + sat_no. intros (? & ? & ? & ? & _ & ? & _). congruence.
Qed.

Lemma check_iface_up_ok rs name :
  checks (check_iface_up name (rs_find_iface rs name)) (up_sat rs name).
Proof.
  unfold check_iface_up, up_sat. destruct (rs_find_iface rs name) as [i|].
  2: sat_no; intros (? & ? & _); congruence.
  destruct (is_up i) eqn:Eu.
  - apply is_up_true in Eu. sat_yes. eauto.
  - sat_no. intros (? & [= <-] & Hu). apply is_up_true in Hu. congruence.
Qed.

(** A missing interface is not reported here: another check has done it. *)
Lemma check_master_ok rs name br :
  checks (check_master name (rs_find_iface rs name) br rs)
    (rs_find_iface rs name <> None -> member_sat rs name br).
Proof.
  unfold check_master, member_sat. destruct (rs_find_iface rs name) as [i|].
  2: sat_yes; done.
  find_iface Eb; [destruct (Z.eqb_spec (if_master i) (if_ifindex dev)) as [Em|Em]|].
  - sat_yes. eauto 7.
  - sat_no. intros F. destruct F as (? & ? & [= <-] & [= <-] & ?); congruence.
  - sat_no. intros F. destruct F as (? & ? & _ & ? & _); congruence.
Qed.

Lemma checks_sum {A} (f : A -> V Z) (sat : A -> Prop) l :
  (forall x, checks (f x) (sat x)) -> checks (sum_loop f l 0) (Forall sat l).
Proof.
  intros Hf.
  assert (G : exists p, (forall d, emits (sum_loop f l d) (d + Z.of_nat (misses p))%Z p) /\
    acts p <= 6 * misses p /\ (misses p = 0 <-> Forall sat l)).
  { induction l as [|x l (q & Eq & Aq & Sq)].
    - exists []. split; [|by split; [cbn; lia|]].
      intros d. cbn. rewrite Z.add_0_r. apply emits_ret.
    - destruct (Hf x) as (p & [Ep Ap] & Sp). exists (p ++ q).
      rewrite misses_app, acts_app. split_and!.
      + intros d. cbn [sum_loop]. rewrite Nat2Z.inj_add, Z.add_assoc.
        by eapply emits_bind.
      + lia.
      + rewrite Forall_cons, <- Sp, <- Sq. lia. }
  destruct G as (p & Ep & Ap & Sp). exists p. split; [split; [apply (Ep 0%Z)|done]|done].
Qed.

(** Put the plans of established checks together. *)
Ltac chain_checks :=
  split_plans;
  eapply checks_intro;
  [emits_all|count_lines; lia|count_lines; lia|count_lines].

Lemma verify_only_uplink_ok ds rs :
  checks (verify_only_uplink ds rs) (up_sat rs (up_ifname ds)).
Proof.
  unfold verify_only_uplink, check_iface_exists.
  destruct (check_iface_up_ok rs (up_ifname ds)) as (p & E & S).
  destruct (rs_find_iface rs (up_ifname ds)) as [i|] eqn:Ef.
  - chain_checks. rewrite <- S. lia.
  - sat_no. intros (? & ? & _). congruence.
Qed.

Lemma check_port_ok rs br name : checks (check_port rs br name) (port_sat rs br name).
Proof.
  unfold check_port, port_sat, check_iface_exists.
  destruct (check_iface_up_ok rs name) as (p1 & E1 & S1).
  destruct (check_master_ok rs name br) as (p2 & E2 & S2).
  destruct (rs_find_iface rs name) as [i|] eqn:Ef.
  - chain_checks. rewrite <- S1.
    assert (member_sat rs name br <-> misses p2 = 0) as ->
      by (rewrite S2; split; [done|intros F; by apply F]).
    lia.
  - sat_no. intros [(? & ? & _) _]. congruence.
Qed.

(** A check that also says whether it scheduled a re-creation, which it does
    only after a miss. *)
Definition checks_r (m : V (Z * bool)) (sat : Prop) : Prop :=
  exists r p, plans m (Z.of_nat (misses p), r) p /\ (misses p = 0 <-> sat) /\
    (r = true -> misses p <> 0).

#[local] Instance checks_r_proper : Proper (eq ==> iff ==> iff) checks_r.
Proof.
  intros m ? <- P Q HPQ. unfold checks_r.
  split; intros (r & p & E & S & R); exists r, p; rewrite S; tauto.
Qed.

Lemma checks_r_intro (m : V (Z * bool)) (sat : Prop) d r p :
  emits m (d, r) p -> d = Z.of_nat (misses p) -> acts p <= 6 * misses p ->
  (misses p = 0 <-> sat) -> (r = true -> misses p <> 0) -> checks_r m sat.
Proof. intros He -> Ha Hs Hr. by exists r, p. Qed.

Lemma act_vlan_again_plan ds :
  exists p, emits (act_vlan_again ds) tt p /\ misses p = 0 /\ acts p = 3.
Proof.
  eexists. split; [unfold act_vlan_again, act_add_vlan; emits_all|done].
Qed.

Lemma act_vxlan_again_plan ds :
  exists p, emits (act_vxlan_again ds) tt p /\ misses p = 0 /\ acts p = 3.
Proof.
  unfold act_vxlan_again, act_add_vxlan.
  case_bool_decide; eexists; (split; [emits_all|done]).
Qed.

(** Leaves of the attribute checks. *)
Ltac attr_leaf :=
  split_plans;
  eapply checks_r_intro;
  [emits_all|count_lines; lia|count_lines; lia|count_lines|count_lines; (done || lia)].

(** A branch that has missed something. *)
Ltac attr_no := attr_leaf; split; [lia|].

Lemma check_vlan_attrs_ok ds rs :
  checks_r (check_vlan_attrs ds rs (rs_find_iface rs (vlan_ifname ds))
              (rs_find_vlan rs (vlan_ifname ds))) (vlan_sat ds rs).
Proof.
  unfold check_vlan_attrs, vlan_sat.
  destruct (act_vlan_again_plan ds) as (pa & Ea & Ma & Aa).
  destruct (check_iface_up_ok rs (vlan_ifname ds)) as (pu & Eu & Su).
  rewrite <- Su. revert Eu. generalize (rs_find_iface rs (vlan_ifname ds)).
  intros vl_if Eu. destruct (rs_find_vlan rs (vlan_ifname ds)) as [v|] eqn:Ev.
  2: destruct vl_if; attr_no; intros [(? & ? & ? & _) _]; congruence.
  destruct (vl_has_id v && (vl_id v =? vlan_id ds)%Z) eqn:Ei;
    [apply andb_true_iff in Ei as [Hi Ei]; apply Z.eqb_eq in Ei|];
    (find_iface El; [destruct (vl_has_link v && (vl_link v =? if_ifindex dev)%Z) eqn:Ek;
      [apply andb_true_iff in Ek as [Hk Ek]; apply Z.eqb_eq in Ek|]|]); cbn [orb].
  1: attr_leaf; split; [intros Hm; split; [eauto 10|lia]|intros [_ Hp]; lia].
  all: attr_no; intros [(w & l & [= <-] & H1 & H2 & [= <-] & H4 & H5) _];
    rewrite ?H1, ?H2, ?H4, ?H5, ?Z.eqb_refl in *; done.
Qed.

Lemma check_vxlan_attrs_ok ds rs :
  checks_r (check_vxlan_attrs ds rs (rs_find_iface rs (vx_ifname ds))
              (rs_find_vxlan rs (vx_ifname ds))) (vxlan_sat ds rs).
Proof.
  unfold check_vxlan_attrs, vxlan_sat.
  destruct (act_vxlan_again_plan ds) as (pa & Ea & Ma & Aa).
  destruct (check_iface_up_ok rs (vx_ifname ds)) as (pu & Eu & Su).
  rewrite <- Su. revert Eu. generalize (rs_find_iface rs (vx_ifname ds)).
  intros vx_if Eu. destruct (rs_find_vxlan rs (vx_ifname ds)) as [v|] eqn:Ev.
  2: destruct vx_if; attr_no; intros [(? & ? & ? & _) _]; congruence.
  destruct (vxl_has_vni v && (vxl_vni v =? vx_vni ds)%Z) eqn:Ei;
    [apply andb_true_iff in Ei as [Hi Ei]; apply Z.eqb_eq in Ei|];
    (destruct (parse_ip4 (vx_remote ds)) as [rem|e] eqn:Ep;
      [apply parse_ip4_Ok in Ep;
       destruct (vxl_has_remote v && (vxl_remote v =? rem)%Z) eqn:Er;
        [apply andb_true_iff in Er as [Hr Er]; apply Z.eqb_eq in Er|]
      |apply parse_ip4_Err in Ep]);
    (case_bool_decide as Ed;
      [|find_iface El; [destruct (vxl_has_link v && (vxl_link v =? if_ifindex dev)%Z) eqn:Ek;
        [apply andb_true_iff in Ek as [Hk Ek]; apply Z.eqb_eq in Ek|]|]]); cbn [orb].
  1, 2: attr_leaf; (split; [intros Hm; split; [|lia]|intros [_ Hp]; lia]);
    exists v, rem; split_and!; try done; intros _; eauto.
  all: attr_no; intros [(w & r & [= <-] & H1 & H2 & H3 & H4 & H5 & H6) _].
  all: try (destruct (H6 Ed) as (? & [= <-] & H7 & H8)).
  all: try congruence.
  all: rewrite ?H1, ?H2, ?H4, ?H7, ?H8, ?Z.eqb_refl in *; try done.
  all: assert (r = rem) by congruence; subst; rewrite ?Z.eqb_refl in *; done.
Qed.

Lemma verify_uplink_bridge_ok ds rs :
  checks (verify_uplink_bridge ds rs)
    (bridge_part_sat ds rs /\ port_sat rs (br_name ds) (up_ifname ds)).
Proof.
  unfold verify_uplink_bridge, bridge_part_sat, port_sat at 2.
  destruct (check_bridge_ok ds rs) as (p1 & E1 & S1).
  destruct (check_bridge_addr_ok ds rs) as (p2 & E2 & S2).
  destruct (check_bridge_gateway_ok ds rs) as (p3 & E3 & S3).
  destruct (checks_sum _ _ (br_dns ds) (check_dns_ok rs (br_name ds))) as (p4 & E4 & S4).
  destruct (verify_only_uplink_ok ds rs) as (p5 & E5 & S5).
  destruct (check_master_ok rs (up_ifname ds) (br_name ds)) as (p6 & E6 & S6).
  destruct (checks_sum _ _ (br_ports ds) (check_port_ok rs (br_name ds))) as (p7 & E7 & S7).
  chain_checks. rewrite <- S1, <- S2, <- S3, <- S4, <- S5, <- S7. split.
  - intros Hm. split_and!; try lia. apply S6; [lia|].
    destruct (proj1 S5) as (? & Hu & _); [lia|]. congruence.
  - intros (Hb & H5 & Hm). assert (misses p6 = 0) by (by apply S6). lia.
Qed.

Lemma verify_vlan_bridge_ok ds rs :
  checks (verify_vlan_bridge ds rs)
    (bridge_part_sat ds rs /\ up_sat rs (up_ifname ds) /\ vlan_sat ds rs /\
     member_sat rs (vlan_ifname ds) (vlan_bridge ds)).
Proof.
  unfold verify_vlan_bridge, bridge_part_sat.
  destruct (check_bridge_ok ds rs) as (p1 & E1 & S1).
  destruct (check_bridge_addr_ok ds rs) as (p2 & E2 & S2).
  destruct (check_bridge_gateway_ok ds rs) as (p3 & E3 & S3).
  destruct (checks_sum _ _ (br_dns ds) (check_dns_ok rs (br_name ds))) as (p4 & E4 & S4).
  destruct (verify_only_uplink_ok ds rs) as (p5 & E5 & S5).
  destruct (checks_sum _ _ (br_ports ds) (check_port_ok rs (br_name ds))) as (p6 & E6 & S6).
  destruct (check_vlan_attrs_ok ds rs) as (r & p7 & E7 & S7 & R7).
  destruct (check_master_ok rs (vlan_ifname ds) (vlan_bridge ds)) as (p8 & E8 & S8).
  destruct r; chain_checks; rewrite <- S1, <- S2, <- S3, <- S4, <- S5, <- S6, <- S7.
  - specialize (R7 eq_refl). lia.
  - split.
    + intros Hm. split_and!; try lia. apply S8; [lia|].
      destruct (proj1 S7) as (_ & ? & Hu & _); [lia|]. congruence.
    + intros (Hb & H5 & H7 & Hm). assert (misses p8 = 0) by (by apply S8). lia.
Qed.

Lemma check_wg_ok ds rs : checks (check_wg ds rs) (up_sat rs (wg_ifname ds)).
Proof.
  unfold check_wg. destruct (check_iface_up_ok rs (wg_ifname ds)) as (p & E & S).
  destruct (rs_find_iface rs (wg_ifname ds)) as [i|] eqn:Ef.
  - chain_checks. rewrite <- S. lia.
  - sat_no. intros (? & ? & _). congruence.
Qed.

Lemma uplink_opt_ok ds rs :
  checks (if bool_decide (up_ifname ds = []) then mret 0%Z else verify_only_uplink ds rs)
    (up_ifname ds <> [] -> up_sat rs (up_ifname ds)).
Proof.
  case_bool_decide as Eu; [by sat_yes|].
  destruct (verify_only_uplink_ok ds rs) as (p & E & S).
  exists p. split; [done|]. rewrite S. tauto.
Qed.

Lemma verify_wg_vxlan_bridge_ok ds rs :
  checks (verify_wg_vxlan_bridge ds rs)
    (bridge_part_sat ds rs /\ (up_ifname ds <> [] -> up_sat rs (up_ifname ds)) /\
     peer_route_sat ds rs /\ up_sat rs (wg_ifname ds) /\
     vxlan_sat ds rs /\ member_sat rs (vx_ifname ds) (vx_bridge ds)).
Proof.
  unfold verify_wg_vxlan_bridge, bridge_part_sat.
  destruct (check_bridge_ok ds rs) as (p1 & E1 & S1).
  destruct (check_bridge_addr_ok ds rs) as (p2 & E2 & S2).
  destruct (check_bridge_gateway_ok ds rs) as (p3 & E3 & S3).
  destruct (checks_sum _ _ (br_dns ds) (check_dns_ok rs (br_name ds))) as (p4 & E4 & S4).
  destruct (uplink_opt_ok ds rs) as (p5 & E5 & S5).
  destruct (checks_sum _ _ (br_ports ds) (check_port_ok rs (br_name ds))) as (p6 & E6 & S6).
  destruct (check_wg_peer_route_ok ds rs) as (p7 & E7 & S7).
  destruct (check_wg_ok ds rs) as (p8 & E8 & S8).
  destruct (check_vxlan_attrs_ok ds rs) as (r & p9 & E9 & S9 & R9).
  destruct (check_master_ok rs (vx_ifname ds) (vx_bridge ds)) as (q & Eq & Sq).
  destruct r; chain_checks;
    rewrite <- S1, <- S2, <- S3, <- S4, <- S5, <- S6, <- S7, <- S8, <- S9.
  - specialize (R9 eq_refl). lia.
  - split.
    + intros Hm. split_and!; try lia. apply Sq; [lia|].
      destruct (proj1 S9) as (_ & ? & Hu & _); [lia|]. congruence.
    + intros (Hb & H5 & H7 & H8 & H9 & Hm). assert (misses q = 0) by (by apply Sq). lia.
Qed.

(** *** Running a plan *)

Lemma run_plan_dry p s :
  v_apply s = false -> Forall (fun e => is_plan e = true) p ->
  run_plan p s = s <| v_out ::= (fun l => l ++ p) |>.
Proof.
  intros Ha Hp. revert s Ha. induction Hp as [|e p He Hp IH]; intros s Ha.
  { cbn. rewrite app_nil_r. by destruct s. }
  cbn [run_plan fold_left]. fold (run_plan p (do_event e s)).
  assert (do_event e s = s <| v_out ::= (fun l => l ++ [e]) |>) as ->.
  { destruct e; try done. cbn [is_plan] in He. apply Nat.ltb_lt in He.
    cbn [do_event]. unfold act. rewrite snprintf_fit by done.
    cbn. by rewrite Ha. }
  rewrite IH by done. cbn. by rewrite <- app_assoc.
Qed.

Lemma run_plan_apply p s :
  v_apply s = true -> Forall (fun e => is_plan e = true) p ->
  let '(out, fail, w) := exec_plan p (v_world s) in
  run_plan p s = Vst _ true (v_act_fail s || fail) (v_out s ++ out) w.
Proof.
  intros Ha Hp. revert s Ha. induction Hp as [|e p He Hp IH]; intros s Ha.
  { cbn. rewrite app_nil_r, orb_false_r. destruct s. cbn in *. by subst. }
  cbn [run_plan fold_left]. fold (run_plan p (do_event e s)).
  assert (P : forall out' s', do_event e s = s' -> v_apply s' = true ->
    v_out s' = v_out s ++ out' ->
    let '(out, fail, w) := exec_plan p (v_world s') in
    run_plan p (do_event e s) =
      Vst _ true (v_act_fail s' || fail) (v_out s ++ out' ++ out) w).
  { intros out' s' -> Ha' Ho. specialize (IH s' Ha').
    destruct (exec_plan p (v_world s')) as [[out fail] w].
    by rewrite IH, Ho, <- app_assoc. }
  destruct e as [m|m|cmd| |]; try done.
  1, 2: specialize (P [_] _ eq_refl Ha eq_refl); cbn [v_world] in P; cbn [exec_plan];
    cbn in P; destruct (exec_plan p (v_world s)) as [[out fail] w]; exact P.
  cbn [is_plan] in He. apply Nat.ltb_lt in He. cbn [exec_plan].
  destruct (starts_hash cmd) eqn:Eh.
  - specialize (P [EvAct cmd] (s <| v_out ::= (fun l => l ++ [EvAct cmd]) |>)).
    cbn in P. destruct (exec_plan p (v_world s)) as [[out fail] w].
    apply P; [|done|done]. unfold act. rewrite snprintf_fit by done.
    cbn. by rewrite Eh, Ha.
  - destruct (cmd_exec cmd (v_world s)) as [rc w'] eqn:Ec.
    set (ev := if negb (rc =? 0)%Z then EvApplyFail rc cmd else EvApplyOk cmd).
    specialize (P [EvAct cmd; ev]
      (Vst _ true (v_act_fail s || negb (rc =? 0)%Z) (v_out s ++ [EvAct cmd; ev]) w')).
    cbn [v_world v_act_fail v_out v_apply] in P.
    destruct (exec_plan p w') as [[out fail] w]. rewrite orb_assoc.
    apply P; [|done|done]. cbn [do_event]. unfold act. rewrite snprintf_fit by done.
    cbn. rewrite Eh, Ha. cbn. rewrite Ec. unfold ev. destruct s; cbn in *; subst.
    destruct (negb (rc =? 0)%Z); cbn; rewrite <- app_assoc, ?orb_true_r, ?orb_false_r; done.
Qed.

(** *** The whole verifier *)

Lemma verify_scenario_ok ds rs :
  match verify_scenario ds with
  | Some check => scenario ds ∈ SCN_UPLINK ++ SCN_BRIDGE ++ SCN_VLAN ++ SCN_WG /\
                  checks (check rs) (scenario_sat ds rs)
  | None => scenario ds ∉ SCN_UPLINK ++ SCN_BRIDGE ++ SCN_VLAN ++ SCN_WG
  end.
Proof.
  destruct (scn_disjoint (scenario ds)) as (D1 & D2 & D3).
  assert (W : streq (scenario ds) (#"wg_vxlan_bridge") = true <-> scenario ds ∈ SCN_WG).
  { unfold SCN_WG. by rewrite streq_true, list_elem_of_singleton. }
  unfold verify_scenario, scenario_sat.
  destruct (_ || _) eqn:E1.
  { apply scn_or in E1. destruct (verify_only_uplink_ok ds rs) as (p & E & S).
    split; [rewrite !elem_of_app; tauto|].
    exists p. split; [done|]. rewrite S. tauto. }
  destruct (streq _ (#"uplink_bridge") || _) eqn:E2.
  { apply scn_or in E2. destruct (verify_uplink_bridge_ok ds rs) as (p & E & S).
    split; [rewrite !elem_of_app; tauto|].
    exists p. split; [done|]. rewrite S. tauto. }
  destruct (streq _ (#"vlan_bridge") || _) eqn:E3.
  { apply scn_or in E3. destruct (verify_vlan_bridge_ok ds rs) as (p & E & S).
    split; [rewrite !elem_of_app; tauto|].
    exists p. split; [done|]. rewrite S. tauto. }
  destruct (streq _ (#"wg_vxlan_bridge")) eqn:E4.
  { pose proof (proj1 W eq_refl) as E5. destruct (verify_wg_vxlan_bridge_ok ds rs) as (p & E & S).
    split; [rewrite !elem_of_app; tauto|].
    exists p. split; [done|]. rewrite S. tauto. }
  apply not_true_iff_false in E1, E2, E3. rewrite scn_or in E1, E2, E3.
  fold SCN_UPLINK in E1. fold SCN_BRIDGE in E2. fold SCN_VLAN in E3.
  rewrite !elem_of_app, <- W. intros [?|[?|[?|?]]]; done.
Qed.

(** The plan of a state, and what it means. *)
Lemma verify_state_plan ds rs :
  scenario ds ∈ SCN_UPLINK ++ SCN_BRIDGE ++ SCN_VLAN ++ SCN_WG ->
  exists p, Forall (fun e => is_plan e = true) p /\ acts p <= 6 * misses p /\
    (misses p = 0 <-> satisfied ds rs) /\
    forall apply w, verify_state ds rs apply w =
      let s := run_plan p (Vst _ apply false [] w) in
      (Z.of_nat (misses p), Some (v_act_fail s), v_out s, v_world s).
Proof.
  intros Hs. pose proof (verify_scenario_ok ds rs) as C. unfold verify_state, satisfied.
  destruct (verify_scenario ds) as [check|]; [|done].
  destruct C as (_ & p1 & E1 & S1).
  destruct (checks_sum _ _ (routes ds) (check_one_route_ok rs)) as (p2 & E2 & S2).
  split_plans.
  assert (E : emits (d1 ← check rs; d2 ← check_routes ds rs; mret (d1 + d2)%Z)
    (Z.of_nat (misses (p1 ++ p2))) (p1 ++ p2)).
  { rewrite misses_app, Nat2Z.inj_add. rewrite <- (app_nil_r p2) at 2.
    unfold check_routes. emits_all. }
  destruct E as [P E]. exists (p1 ++ p2). split; [done|]. split; [count_lines; lia|]. split.
  - rewrite <- S1, <- S2, misses_app. lia.
  - intros apply w. by rewrite E.
Qed.

Lemma verify_state_dry ds rs w :
  scenario ds ∈ SCN_UPLINK ++ SCN_BRIDGE ++ SCN_VLAN ++ SCN_WG ->
  exists p, Forall (fun e => is_plan e = true) p /\
    (misses p = 0 <-> satisfied ds rs) /\
    verify_state ds rs false w = (Z.of_nat (misses p), Some false, p, w).
Proof.
  intros Hs. destruct (verify_state_plan ds rs Hs) as (p & P & _ & S & E).
  exists p. split; [done|]. split; [done|]. rewrite E.
  by rewrite run_plan_dry.
Qed.

Lemma verify_state_apply ds rs w w' :
  scenario ds ∈ SCN_UPLINK ++ SCN_BRIDGE ++ SCN_VLAN ++ SCN_WG ->
  let '(diff, _, plan, _) := verify_state ds rs false w' in
  let '(out, fail, w1) := exec_plan plan w in
  verify_state ds rs true w = (diff, Some fail, out, w1).
Proof.
  intros Hs. destruct (verify_state_plan ds rs Hs) as (p & P & _ & S & E).
  rewrite !E. rewrite run_plan_dry by done. cbn.
  pose proof (run_plan_apply p (Vst _ true false [] w) eq_refl P) as R. cbn in R.
  destruct (exec_plan p w) as [[out fail] w1]. by rewrite R.
Qed.

Lemma verify_state_exact ds rs apply w :
  fst (fst (fst (verify_state ds rs apply w))) = 0%Z <-> satisfied ds rs.
Proof.
  pose proof (verify_scenario_ok ds rs) as C.
  destruct (decide (scenario ds ∈ SCN_UPLINK ++ SCN_BRIDGE ++ SCN_VLAN ++ SCN_WG)) as [Hs|Hs].
  - destruct (verify_state_plan ds rs Hs) as (p & P & _ & S & E). rewrite E, <- S. cbn. lia.
  - unfold verify_state, satisfied, scenario_sat.
    destruct (verify_scenario ds); [by destruct C|]. cbn.
    rewrite !elem_of_app in Hs. split; [done|]. tauto.
Qed.

End Plans.

(** *** Commands *)

Lemma replaced_inv ifname s o : replaced ifname s o ->
  match strip_prefix IFACE_KEY s with
  | Some r => exists o', o = ifname ++ o' /\ replaced ifname r o'
  | None =>
    match s with
    | [] => o = []
    | c :: s' => exists o', o = c :: o' /\ replaced ifname s' o'
    end
  end.
Proof.
  destruct 1 as [|s o Hr|c s o Hn Hr]; [done| |].
  - rewrite (proj2 (strip_prefix_Some IFACE_KEY _ s) eq_refl). eauto.
  - rewrite Hn. eauto.
Qed.

Lemma replaced_fun ifname s o1 : replaced ifname s o1 ->
  forall o2, replaced ifname s o2 -> o1 = o2.
Proof.
  induction 1 as [|s o1 _ IH|c s o1 Hn _ IH]; intros o2 H2; apply replaced_inv in H2.
  - done.
  - rewrite (proj2 (strip_prefix_Some IFACE_KEY _ s) eq_refl) in H2.
    destruct H2 as (o' & -> & Hr). f_equal. by apply IH.
  - rewrite Hn in H2. destruct H2 as (o' & -> & Hr). f_equal. by apply IH.
Qed.

Lemma subst_loop_spec ifname sz fuel src dst :
  length src <= fuel -> length dst < sz ->
  exists out, replaced ifname src out /\
    subst_loop fuel sz src ifname dst =
      if length (dst ++ out) <? sz then Ok (dst ++ out) else Err ENOSPC.
Proof.
  revert src dst. induction fuel as [|n IH]; intros src dst Hf Hd.
  { destruct src; [|cbn in Hf; lia]. exists []. split; [constructor|].
    rewrite app_nil_r, (proj2 (Nat.ltb_lt _ _)) by done. done. }
  destruct src as [|c src].
  { exists []. split; [constructor|].
    rewrite app_nil_r, (proj2 (Nat.ltb_lt _ _)) by done. done. }
  cbn [subst_loop]. cbn [length] in Hf.
  destruct (strip_prefix IFACE_KEY (c :: src)) as [rest|] eqn:Es.
  - apply strip_prefix_Some in Es. rewrite Es.
    assert (length rest <= n) as Hr.
    { apply (f_equal length) in Es. rewrite length_app in Es.
      change (length IFACE_KEY) with 6 in Es. cbn [length] in Es. lia. }
    destruct (Nat.leb_spec sz (length dst + length ifname)) as [L|L].
    + destruct (IH rest [] Hr) as (out & Ho & _); [cbn; lia|].
      exists (ifname ++ out). split; [by constructor|].
      rewrite (proj2 (Nat.ltb_ge _ _)); [done|]. rewrite !length_app. lia.
    + destruct (IH rest (dst ++ ifname) Hr) as (out & Ho & E);
        [rewrite length_app; lia|].
      exists (ifname ++ out). split; [by constructor|]. by rewrite E, <- app_assoc.
  - destruct (Nat.leb_spec sz (length dst + 1)) as [L|L].
    + destruct (IH src []) as (out & Ho & _); [lia|cbn; lia|].
      exists (c :: out). split; [by constructor|].
      rewrite (proj2 (Nat.ltb_ge _ _)); [done|]. rewrite !length_app. cbn [length]. lia.
    + destruct (IH src (dst ++ [c])) as (out & Ho & E); [lia|rewrite length_app; cbn; lia|].
      exists (c :: out). split; [by constructor|]. by rewrite E, <- app_assoc.
Qed.

Lemma subst_iface_spec sz src ifname :
  0 < sz -> exists out, replaced ifname src out /\
    subst_iface sz src ifname = if length out <? sz then Ok out else Err ENOSPC.
Proof.
  intros Hsz. unfold subst_iface. destruct (Nat.eqb_spec sz 0); [lia|].
  destruct (subst_loop_spec ifname sz (length src) src []) as (out & Ho & E);
    [lia|done|]. by exists out.
Qed.

Lemma words_from_run cur w r :
  Forall (fun c => negb (is_sep c) = true) w ->
  words_from cur (w ++ r) = words_from (cur ++ w) r.
Proof.
  intros H. revert cur. induction H as [|c w Hc _ IH]; intros cur; cbn [app].
  { by rewrite app_nil_r. }
  cbn [words_from]. apply negb_true_iff in Hc. rewrite Hc, IH, <- app_assoc. done.
Qed.

Lemma words_skip s : words (drop_while is_sep s) = words s.
Proof.
  unfold words. induction s as [|c s IH]; [done|]. cbn [drop_while words_from].
  destruct (is_sep c) eqn:E; [by rewrite IH|]. cbn [words_from]. by rewrite E.
Qed.

Lemma words_cons c s : is_sep c = false ->
  words (c :: s) = take_while (fun c => negb (is_sep c)) (c :: s) ::
                   words (drop_while (fun c => negb (is_sep c)) (c :: s)).
Proof.
  intros Hc. unfold words.
  rewrite <- (take_drop_while (fun c => negb (is_sep c)) (c :: s)) at 1.
  rewrite words_from_run by apply take_while_Forall. cbn [app].
  set (w := take_while _ _). assert (w <> []) as Hw by (unfold w; cbn; by rewrite Hc).
  destruct w as [|x w']; [done|].
  destruct (drop_while _ (c :: s)) as [|d r] eqn:Ed; [done|].
  apply drop_while_head in Ed. apply negb_false_iff in Ed.
  cbn [words_from]. rewrite Ed. done.
Qed.

Lemma split_loop_spec max fuel p argv :
  length p < fuel -> length argv < max ->
  split_loop fuel max p argv =
    if length (argv ++ words p) <? max then Ok (argv ++ words p) else Err E2BIG.
Proof.
  revert p argv. induction fuel as [|n IH]; intros p argv Hp Ha; [lia|].
  cbn [split_loop]. rewrite <- words_skip.
  assert (length (drop_while is_sep p) <= length p) as Hl.
  { rewrite <- (take_drop_while is_sep p) at 2. rewrite length_app. lia. }
  destruct (drop_while is_sep p) as [|c s] eqn:Ed.
  { change (words []) with (@nil cstr).
    rewrite app_nil_r, (proj2 (Nat.ltb_lt _ _)) by done. done. }
  apply drop_while_head in Ed. rewrite words_cons by done.
  set (w := take_while _ _). set (r := drop_while _ (c :: s)).
  assert (length r <= length s) as Hr.
  { unfold r. cbn [drop_while]. rewrite Ed. cbn [negb].
    rewrite <- (take_drop_while (fun c => negb (is_sep c)) s) at 2.
    rewrite length_app. lia. }
  cbn [length] in Hl. destruct (Nat.leb_spec max (length argv + 1)) as [L|L].
  - rewrite (proj2 (Nat.ltb_ge _ _)); [done|].
    rewrite length_app. cbn [length]. lia.
  - rewrite IH; [|lia|rewrite length_app; cbn; lia].
    by rewrite <- app_assoc.
Qed.

Lemma cmd_split_spec cmd max :
  0 < max ->
  cmd_split cmd max = if length (words cmd) <? max then Ok (words cmd) else Err E2BIG.
Proof. intros H. unfold cmd_split. rewrite split_loop_spec by (cbn; lia). done. Qed.

(** A system whose state is the list of commands run so far, all of which
    succeed. *)
Definition recorder : Sys := {|
  world := list (list cstr);
  spawn := fun argv w => (Waited 0 (inr (Exited 0)), w ++ [argv])
|}.

Definition glibc : Libc := {| noconv_sets_errno := false |}.
Definition musl : Libc := {| noconv_sets_errno := true |}.

(** Where [strtol] leaves errno alone when it converts nothing, an address
    without the digits of its prefix is taken as a /0. *)
Example empty_prefix_accepted :
  @parse_addr_prefix glibc (#"10.0.0.1/") = Ok (16777226%Z, 0%Z) /\
  @parse_addr_prefix musl (#"10.0.0.1/") = Err EINVAL.
Proof. by split. Qed.

(** A bridge that should exist, and a machine that has only its uplink. *)
Definition sample_ds : desired_state :=
  ds_zero <| scenario := #"uplink_bridge" |> <| br_name := #"br0" |>
          <| up_ifname := #"eth0" |>.

Definition sample_rs : real_state :=
  rs_zero <| rs_ifaces := [Iface (#"eth0") (#"") 2 1 false 0 0 0 false] |>.

(** A tunnel in a bridge, and a machine on which all of it is there but the
    uplink is outside the bridge: the verifier finds nothing to do, although the
    documentation wants the uplink in the bridge. *)
Definition tunnel_ds : desired_state :=
  ds_zero <| scenario := #"wg_vxlan_bridge" |> <| br_name := #"br0" |>
          <| up_ifname := #"eth0" |> <| wg_ifname := #"wg0" |> <| wg_peer_ip := #"10.9.0.1" |>
          <| wg_route_dev := #"wg0" |> <| vx_ifname := #"vx0" |> <| vx_vni := 42%Z |>
          <| vx_remote := #"10.9.0.1" |> <| vx_bridge := #"br0" |>.

Definition tunnel_rs : real_state :=
  RealState [Iface (#"eth0") (#"") 2 1 false 0 0 0 false;
             Iface (#"br0") (#"bridge") 3 1 false 0 0 0 false;
             Iface (#"wg0") (#"wireguard") 4 1 false 0 0 0 false;
             Iface (#"vx0") (#"vxlan") 5 1 false 0 3 0 false]
    [] [Route4 16779530 32 0 false 4] [] [Vxlan (#"vx0") 5 42 true 16779530 true 0 false] [].

Example wg_uplink_outside :
  fst (fst (fst (@verify_state glibc recorder tunnel_ds tunnel_rs true []))) = 0%Z /\
  ~ uplink_documented tunnel_ds tunnel_rs.
Proof.
  split; [vm_compute; reflexivity|]. intros Hm.
  destruct Hm as (i & b & Ei & Eb & E); [compute_decide|done|].
  injection Ei as <-. injection Eb as <-. discriminate E.
Qed.

(** ** Properties *)

Section Properties.
Context `{Libc} `{Sys}.

(** C4: [verify_state] reports no difference exactly when the snapshot is what
    the code's checks ask for ([satisfied]): every interface there and up, bridge
    and addresses, gateway, nameservers, ports, VLAN or VXLAN attributes and
    routes, whether or not it applies its commands.  The uplink of a tunnel only
    has to be up; that the documentation also wants it in the bridge is not
    checked ([wg_uplink_outside]). *)
Theorem verify_state_zero (ds : desired_state) (rs : real_state) (apply : bool)
    (w : world) :
  fst (fst (fst (verify_state ds rs apply w))) = 0%Z <-> satisfied ds rs.
Proof. apply verify_state_exact. Qed.

(** C5: with [--apply] the verifier finds the same differences as a dry run
    and does exactly what the dry run printed: it prints the same lines in the
    same order, runs every printed command that is not a comment once and in
    order, and reports a failure when one of them fails. *)
Theorem verify_state_apply_plan (ds : desired_state) (rs : real_state) (w w' : world) :
  scenario ds ∈ SCN_UPLINK ++ SCN_BRIDGE ++ SCN_VLAN ++ SCN_WG ->
  let '(diff, _, plan, _) := verify_state ds rs false w' in
  let '(out, fail, w1) := exec_plan plan w in
  verify_state ds rs true w = (diff, Some fail, out, w1).
Proof. apply verify_state_apply. Qed.

End Properties.

Lemma verify_state_apply_plan_witness :
  let '(diff, _, plan, _) := @verify_state glibc recorder sample_ds sample_rs false [] in
  let '(out, fail, w1) := @exec_plan recorder plan [] in
  @verify_state glibc recorder sample_ds sample_rs true [] = (diff, Some fail, out, w1).
Proof.
  apply (@verify_state_apply_plan glibc recorder sample_ds sample_rs [] []).
  compute_decide.
Defined.

(** C30: [subst_iface] gives the text with every [$iface] replaced, scanning
    from the left, or ENOSPC exactly when that text and its NUL do not fit. *)
Theorem subst_iface_exact (sz : nat) (src ifname : cstr) :
  0 < sz -> exists out,
    (forall out', replaced ifname src out' <-> out' = out) /\
    subst_iface sz src ifname = if length out <? sz then Ok out else Err ENOSPC.
Proof.
  intros H. destruct (subst_iface_spec sz src ifname H) as (out & Ho & E).
  exists out. split; [|done]. intros out'.
  split; [intros Ho'; by apply (replaced_fun ifname src)|by intros ->].
Qed.

Lemma subst_iface_exact_witness :
  exists out, (forall out', replaced (#"br0") (#"udhcpc -i $iface -n") out' <-> out' = out) /\
    subst_iface 256 (#"udhcpc -i $iface -n") (#"br0")
    = if length out <? 256 then Ok out else Err ENOSPC.
Proof. apply (subst_iface_exact 256). lia. Defined.

(** C31: [cmd_split] gives the blank-separated words of the command, or E2BIG
    exactly when the array has no room for them and the final NULL. *)
Theorem cmd_split_exact (cmd : cstr) (max : nat) :
  0 < max ->
  cmd_split cmd max = if length (words cmd) <? max then Ok (words cmd) else Err E2BIG.
Proof. apply cmd_split_spec. Qed.

Lemma cmd_split_exact_witness :
  cmd_split (#" ip link  set br0 up") 32 = Ok [ #"ip"; #"link"; #"set"; #"br0"; #"up"].
Proof. rewrite (cmd_split_exact _ 32) by lia. vm_compute. reflexivity. Defined.
