(* ===== verification/UciDb.v ===== *)
(** The UCI database of uci.c: reading [uci show] text from a file or from a
    child process into items, and looking options up. *)
From S2P Require Import Prelude CLib.

Definition NR_UCI_ITEM_MAX : nat := 1024.
Definition UCI_PKG_SZ : nat := 16.
Definition UCI_SECT_SZ : nat := 64.
Definition UCI_OPT_SZ : nat := 64.
Definition UCI_VAL_SZ : nat := 256.

Record uci_item := UciItem {
  ui_pkg : cstr;
  ui_sect : cstr;
  ui_opt : cstr;
  ui_val : cstr;
  ui_is_type : bool
}.

(** [struct uci_db]: its [n_item] first items. *)
Abbreviation uci_db := (list uci_item).

(** ** Words *)

(** [cpy(dst, sz, src)] with [sz > 0]; [None] is NULL. *)
Definition uci_cpy (sz : nat) (src : option cstr) : cstr :=
  match src with
  | None => []
  | Some s => take (if sz <=? length s then sz - 1 else length s) s
  end.

Arguments uci_cpy : simpl never.

Definition is_eol (c : ascii) : bool := Ascii.eqb c LF || Ascii.eqb c CR.

Definition uci_trim_eol (s : cstr) : cstr := reverse (drop_while is_eol (reverse s)).

Definition strip_quotes (s : cstr) : cstr :=
  match s with
  | q :: r =>
    if (2 <=? length s) && Ascii.eqb q SQUOTE
       && bool_decide (last s = Some SQUOTE)
    then take (length s - 2) r else s
  | [] => s
  end.

Definition is_ws (c : ascii) : bool := Ascii.eqb c " " || Ascii.eqb c TAB.

(** The word and the rest, nothing at the end of the text, or an error when
    the word does not fit [dst[sz]]. *)
Definition next_word (src : cstr) (sz : nat) : result (option (cstr * cstr)) :=
  let s := drop_while is_ws src in
  match s with
  | [] => Ok None
  | _ =>
    let w := take_while (fun c => negb (is_ws c)) s in
    if sz <? length w + 1 then Err E2BIG
    else Ok (Some (w, drop_while (fun c => negb (is_ws c)) s))
  end.

(** Each round consumes a word. *)
Fixpoint has_token_loop (fuel : nat) (p token : cstr) : bool :=
  match fuel with
  | O => false
  | S n =>
    match next_word p UCI_VAL_SZ with
    | Ok (Some (w, p')) => if streq w token then true else has_token_loop n p' token
    | _ => false
    end
  end.

Definition value_has_token (val token : cstr) : bool :=
  has_token_loop (S (length val)) val token.

(** ** Loading *)

Definition db_add (db : uci_db) (pkg sect opt val : cstr) (is_type : bool)
  : result uci_db :=
  if NR_UCI_ITEM_MAX <=? length db then Err E2BIG
  else Ok (db ++ [UciItem (uci_cpy UCI_PKG_SZ (Some pkg)) (uci_cpy UCI_SECT_SZ (Some sect))
                    (uci_cpy UCI_OPT_SZ (Some opt)) (uci_cpy UCI_VAL_SZ (Some val)) is_type]).

Definition db_load_line (db : uci_db) (line : cstr) : result uci_db :=
  let line := uci_trim_eol line in
  if bool_decide (line = []) then Ok db
  else match strchr "=" line, strchr "." line with
       | Some (before, after), Some (pkg, _) =>
         if length before <? length pkg then Err EINVAL
         else if UCI_PKG_SZ <? length pkg + 1 then Err E2BIG
         else
           let body := drop (length pkg + 1) before in
           let val := strip_quotes (drop_while is_ws after) in
           match strchr "." body with
           | Some (sect, opt) =>
             if UCI_SECT_SZ <? length sect + 1 then Err E2BIG
             else if UCI_OPT_SZ <? length opt + 1 then Err E2BIG
             else db_add db pkg sect opt val false
           | None =>
             if UCI_SECT_SZ <? length body + 1 then Err E2BIG
             else db_add db pkg body [] val true
           end
       | _, _ => Err EINVAL
       end.

Definition UCI_LINE_SZ : nat := 1024.

(** The loop of [db_load_file] over what [fgets] returns. *)
Fixpoint db_load_lines (db : uci_db) (ls : list (list ascii * bool)) : result uci_db :=
  match ls with
  | [] => Ok db
  | (buf, eof) :: ls' =>
    let line := c_string buf in
    if negb (bool_decide (LF ∈ line)) && negb eof then Err E2BIG
    else db ← db_load_line db line; db_load_lines db ls'
  end.

Definition db_load_file (db : uci_db) (file : result (list ascii)) : result uci_db :=
  bytes ← file; db_load_lines db (file_lines UCI_LINE_SZ bytes).

(** ** A child's output *)

(** How one [read] goes: up to [n + 1] bytes are there, it is interrupted, or
    it fails. *)
Inductive rd := RdSome (n : nat) | RdIntr | RdErr (e : errno).

(** [len + 1 >= cap]: the buffer has to grow. *)
Definition is_full (cap : nat) (tmp : list ascii) : bool := cap <=? length tmp + 1.

(** The loop of [read_all_fd] on a pipe that will deliver [data] as [sched]
    says, then without further delay; [tmp] is what was read, [cap] the size of
    the buffer, [o] the outcomes of [realloc].  A round that does not stop uses
    up an entry of [sched] or a byte of [data]. *)
Fixpoint read_loop (fuel : nat) (data : list ascii) (sched : list rd) (o : oracle)
    (cap : nat) (tmp : list ascii) : result (list ascii) :=
  match fuel with
  | O => Ok tmp
  | S n =>
    let '(alloc, o) := if is_full cap tmp then pop o else (true, o) in
    if negb alloc then Err ENOMEM
    else
      let cap := if is_full cap tmp then cap * 2 else cap in
      let room := cap - length tmp - 1 in
      match sched with
      | RdIntr :: sched' => read_loop n data sched' o cap tmp
      | RdErr e :: _ => Err e
      | _ =>
        let avail := match sched with RdSome k :: _ => S k | _ => length data end in
        match take (Nat.min room avail) data with
        | [] => Ok tmp
        | got => read_loop n (drop (length got) data) (tail sched) o cap (tmp ++ got)
        end
      end
  end.

Definition read_all_fd (data : list ascii) (sched : list rd) (o : oracle)
  : result (list ascii) :=
  let '(okk, o) := pop o in
  if negb okk then Err ENOMEM
  else read_loop (S (length data + length sched)) data sched o 4096 [].

(** What becomes of a child started with its output on a pipe. *)
Record capture := Capture {
  cap_pipe : result unit;
  cap_fork : result unit;
  cap_data : list ascii;
  cap_sched : list rd;
  cap_alloc : oracle;
  cap_wait : errno + exit_status
}.

(** [run_capture]: the text of the buffer, up to its first NUL. *)
Definition run_capture (c : capture) : result cstr :=
  _ ← cap_pipe c;
  _ ← cap_fork c;
  let rc := read_all_fd (cap_data c) (cap_sched c) (cap_alloc c) in
  match cap_wait c with
  | inl e => Err e
  | inr status =>
    buf ← rc;
    match status with
    | Exited code => if (code =? 0)%Z then Ok (c_string buf) else Err EINVAL
    | _ => Err EINVAL
    end
  end.

(** Skip one [c]. *)
Definition skip (c : ascii) (s : cstr) : cstr :=
  match s with x :: s' => if Ascii.eqb x c then s' else s | [] => s end.

(** [s += len; if (s[0] == CR) s++; if (s[0] == LF) s++;] *)
Definition after_line (s : cstr) : cstr :=
  skip LF (skip CR (drop_while (fun c => negb (is_eol c)) s)).

(** The loop of [db_load_buf]; each round consumes a character. *)
Fixpoint db_buf_loop (fuel : nat) (db : uci_db) (s : cstr) : result uci_db :=
  match fuel, s with
  | _, [] => Ok db
  | O, _ => Ok db
  | S n, _ =>
    let line := take_while (fun c => negb (is_eol c)) s in
    if UCI_LINE_SZ <? length line + 1 then Err E2BIG
    else
      db ← db_load_line db line; db_buf_loop n db (after_line s)
  end.

Definition db_load_buf (db : uci_db) (buf : cstr) : result uci_db :=
  db_buf_loop (length buf) db buf.

(** The files and programs of the machine. *)
Record machine := Machine {
  fopen_r : cstr -> result (list ascii);
  popen_r : list cstr -> capture
}.

Definition db_load_live (m : machine) (db : uci_db) (uci_bin : option cstr) (pkg : cstr)
  : result uci_db :=
  buf ← run_capture (popen_r m [default (#"uci") uci_bin; #"show"; pkg]);
  db_load_buf db buf.

(** ** Lookup *)

(** The value of the last matching item. *)
Definition db_get (db : uci_db) (pkg sect opt : cstr) : option cstr :=
  ui_val <$> find (fun it =>
    if ui_is_type it then false
    else if negb (streq (ui_pkg it) pkg) then false
    else if negb (streq (ui_sect it) sect) then false
    else streq (ui_opt it) opt) (reverse db).

(** [!proto || !proto[0]] *)
Definition null_or_empty (s : option cstr) : bool :=
  match s with None | Some [] => true | _ => false end.

Definition find_iface_by_device (db : uci_db) (br_name : cstr) : option cstr :=
  ui_sect <$> find (fun it =>
    if negb (ui_is_type it) then false
    else if negb (streq (ui_pkg it) (#"network")) then false
    else if negb (streq (ui_val it) (#"interface")) then false
    else match db_get db (#"network") (ui_sect it) (#"device") with
         | None => false
         | Some dev =>
           if negb (streq dev br_name) then false
           else negb (null_or_empty (db_get db (#"network") (ui_sect it) (#"proto")))
         end) db.

(** ** Specifications *)

(** The bounds of the arrays of [struct uci_item] and [struct uci_db]. *)
Record item_wf (it : uci_item) : Prop := {
  item_pkg : length (ui_pkg it) < UCI_PKG_SZ;
  item_sect : length (ui_sect it) < UCI_SECT_SZ;
  item_opt : length (ui_opt it) < UCI_OPT_SZ;
  item_val : length (ui_val it) < UCI_VAL_SZ
}.

Definition db_wf (db : uci_db) : Prop :=
  length db <= NR_UCI_ITEM_MAX /\ Forall item_wf db.

(** Text whose lines fit the buffers of both readers. *)
Inductive short_lines : cstr -> Prop :=
| short_nil : short_lines []
| short_last l : l <> [] -> LF ∉ l -> length l + 2 <= UCI_LINE_SZ -> short_lines l
| short_cons l r :
    LF ∉ l -> length l + 2 <= UCI_LINE_SZ -> short_lines r ->
    short_lines (l ++ LF :: r).

(** The line [uci show] prints for an option whose value has no single quote; it
    prints one as a closing quote, an escaped quote and an opening quote. *)
Definition show_option (pkg sect opt val : cstr) : cstr :=
  pkg ++ "."%char :: sect ++ "."%char :: opt ++ "="%char :: SQUOTE :: val ++ [SQUOTE].


(** ** Lemmas *)

Lemma uci_cpy_length sz s : 0 < sz -> length (uci_cpy sz s) < sz.
Proof.
  intros H. unfold uci_cpy. destruct s as [s|]; [|done]. rewrite length_take.
  destruct (Nat.leb_spec sz (length s)); lia.
Qed.


Lemma db_add_wf db pkg sect opt val t db' :
  db_wf db -> db_add db pkg sect opt val t = Ok db' -> db_wf db'.
Proof.
  intros [Hl Hf] H. unfold db_add in H. inv_ok. apply Nat.leb_gt in E.
  split; [rewrite length_app; cbn [length]; lia|].
  apply Forall_app. split; [done|]. constructor; [|done].
  constructor; apply uci_cpy_length; unfold UCI_PKG_SZ, UCI_SECT_SZ, UCI_OPT_SZ, UCI_VAL_SZ; lia.
Qed.

Lemma db_load_line_wf db line db' :
  db_wf db -> db_load_line db line = Ok db' -> db_wf db'.
Proof.
  intros W H. unfold db_load_line in H. cbn zeta in H.
  case_bool_decide; [by inv_ok|].
  destruct (strchr "=" _) as [[before after]|]; [|done].
  destruct (strchr "." (uci_trim_eol line)) as [[pkg rest]|]; [|done]. inv_ok.
  destruct (strchr "." _) as [[sect opt]|]; inv_ok; by apply db_add_wf in H.
Qed.

Lemma db_load_lines_wf ls db db' :
  db_wf db -> db_load_lines db ls = Ok db' -> db_wf db'.
Proof.
  revert db. induction ls as [|[buf eof] ls IH]; intros db W H; cbn [db_load_lines] in H;
    inv_ok; [done|]. apply db_load_line_wf in E0; eauto.
Qed.

Lemma db_buf_loop_wf n db s db' :
  db_wf db -> db_buf_loop n db s = Ok db' -> db_wf db'.
Proof.
  revert db s. induction n as [|n IH]; intros db s W H; cbn [db_buf_loop] in H.
  { destruct s; by inv_ok. }
  destruct s as [|c s]; [by inv_ok|]. inv_ok. apply db_load_line_wf in E0; eauto.
Qed.

(** *** Reading a pipe *)

Lemma take_split {A} k (l : list A) :
  0 < k -> l <> [] -> take k l <> [] /\ length (take k l) <= k /\
    take k l ++ drop (length (take k l)) l = l.
Proof.
  intros Hk Hl. split_and!.
  - destruct l, k; done || lia.
  - rewrite length_take. lia.
  - rewrite length_take. destruct (Nat.le_ge_cases k (length l)).
    + by rewrite Nat.min_l, take_drop.
    + rewrite Nat.min_r, drop_all, app_nil_r by done. by rewrite take_ge.
Qed.

Lemma read_loop_all fuel data sched cap tmp :
  Forall (fun r => match r with RdErr _ => False | _ => True end) sched ->
  2 <= cap -> length tmp < cap -> length data + length sched < fuel ->
  read_loop fuel data sched [] cap tmp = Ok (tmp ++ data).
Proof.
  revert data sched cap tmp.
  induction fuel as [|n IH]; intros data sched cap tmp Hs Hc Ht Hf; [lia|].
  cbn [read_loop].
  assert ((if is_full cap tmp then pop [] else (true, [])) = (true, []) :> bool * oracle)
    as -> by (by destruct (is_full _ _)).
  cbn [negb]. set (cap' := if is_full cap tmp then cap * 2 else cap).
  assert (2 <= cap' /\ length tmp + 1 < cap') as [Hc' Hr].
  { unfold cap', is_full. destruct (Nat.leb_spec cap (length tmp + 1)); lia. }
  assert (G : forall avail, (data <> [] -> 0 < avail) ->
    match take (Nat.min (cap' - length tmp - 1) avail) data with
    | [] => Ok tmp
    | got => read_loop n (drop (length got) data) (tail sched) [] cap' (tmp ++ got)
    end = Ok (tmp ++ data)).
  { intros avail Ha. destruct (decide (data = [])) as [->|Hd].
    { by rewrite take_nil, app_nil_r. }
    specialize (Ha Hd). set (k := Nat.min _ avail).
    destruct (take_split k data) as (T1 & T2 & T3); [unfold k; lia|done|].
    destruct (take k data) as [|c r]; [done|]. set (got := c :: r) in *.
    assert (length (drop (length got) data) < length data) as Hl.
    { rewrite <- T3 at 2. rewrite length_app. unfold got. cbn [length]. lia. }
    assert (length (tail sched) <= length sched) by (destruct sched; cbn; lia).
    rewrite IH; [by rewrite <- app_assoc, T3| |done| |lia].
    - destruct Hs; cbn; [constructor|done].
    - rewrite length_app. unfold k in T2. lia. }
  destruct sched as [|[k| |e] sched]; [| | |by inversion Hs].
  - apply G. intros Hd. destruct data; [done|cbn; lia].
  - apply (G (S k)). lia.
  - rewrite IH; [done|by inversion Hs|done|lia|cbn in Hf; lia].
Qed.

(** *** The two readers agree *)

Lemma trim_eol_lf l : uci_trim_eol (l ++ [LF]) = uci_trim_eol l.
Proof. unfold uci_trim_eol. by rewrite reverse_snoc. Qed.

Lemma no_eol l : LF ∉ l -> CR ∉ l -> Forall (fun c => negb (is_eol c) = true) l.
Proof.
  intros H1 H2. apply Forall_forall. intros c Hc. unfold is_eol.
  apply negb_true_iff, orb_false_iff.
  split; apply Ascii.eqb_neq; intros ->; done.
Qed.

Lemma skip_length c s : length (skip c s) <= length s.
Proof. destruct s as [|x s]; cbn; [lia|]. destruct (Ascii.eqb x c); cbn; lia. Qed.

Lemma after_line_length c s : length (after_line (c :: s)) <= length s.
Proof.
  unfold after_line. cbn [drop_while]. destruct (is_eol c) eqn:E; cbn [negb].
  - unfold is_eol in E. cbn [skip]. destruct (Ascii.eqb c CR) eqn:Ec; [apply skip_length|].
    rewrite orb_false_r in E. cbn [skip]. rewrite E. done.
  - etrans; [apply skip_length|]. etrans; [apply skip_length|].
    rewrite <- (take_drop_while (fun c => negb (is_eol c)) s) at 2.
    rewrite length_app. lia.
Qed.

Lemma db_buf_fuel n m db s :
  length s <= n -> length s <= m -> db_buf_loop n db s = db_buf_loop m db s.
Proof.
  revert m db s. induction n as [|n IH]; intros m db s Hn Hm.
  { destruct s; [by destruct m|cbn in Hn; lia]. }
  destruct m as [|m]; [destruct s; [done|cbn in Hm; lia]|].
  destruct s as [|c s]; [done|]. cbn [db_buf_loop].
  destruct (_ <? _); [done|]. destruct (db_load_line db _) as [db'|e]; [|done].
  cbn [mbind result_bind]. pose proof (after_line_length c s).
  cbn in Hn, Hm. apply IH; lia.
Qed.

(** A word is consumed, so one round more than the text has characters is
    enough for the loops over words. *)
Lemma next_word_shorter p sz w r :
  next_word p sz = Ok (Some (w, r)) -> length r < length p.
Proof.
  unfold next_word. pose proof (drop_while_head is_ws p) as Hh.
  pose proof (take_drop_while is_ws p) as Ep.
  destruct (drop_while is_ws p) as [|c s]; [done|]. intros H.
  destruct (_ <? _); [done|]. injection H as _ <-. specialize (Hh c s eq_refl).
  rewrite <- Ep, length_app. cbn [drop_while]. rewrite Hh. cbn [negb].
  pose proof (take_drop_while (fun c => negb (is_ws c)) s) as Es.
  rewrite <- Es at 2. cbn [length]. rewrite length_app. lia.
Qed.

Lemma has_token_fuel n m p token :
  length p < n -> length p < m -> has_token_loop n p token = has_token_loop m p token.
Proof.
  revert m p. induction n as [|n IH]; intros [|m] p Hn Hm; [lia..|]. cbn [has_token_loop].
  destruct (next_word p UCI_VAL_SZ) as [[[w r]|]|e] eqn:E; [|done|done].
  apply next_word_shorter in E. destruct (streq w token); [done|]. apply IH; lia.
Qed.

(** One line of a buffer. *)
Lemma db_load_buf_cons db l r :
  LF ∉ l -> CR ∉ l -> length l + 2 <= UCI_LINE_SZ ->
  db_load_buf db (l ++ LF :: r) = db ← db_load_line db l; db_load_buf db r.
Proof.
  intros H1 H2 H3. pose proof (no_eol l H1 H2) as Hn.
  unfold db_load_buf at 1. rewrite length_app. cbn [length]. rewrite Nat.add_succ_r.
  assert (E : db_buf_loop (S (length l + length r)) db (l ++ LF :: r) =
    if UCI_LINE_SZ <? length l + 1 then Err E2BIG
    else db ← db_load_line db l; db_buf_loop (length l + length r) db r).
  { destruct (l ++ LF :: r) as [|c s] eqn:Es; [by destruct l|].
    cbn [db_buf_loop]. rewrite <- Es. unfold after_line.
    rewrite take_while_app, drop_while_app by done. cbn [take_while drop_while skip].
    change (negb (is_eol LF)) with false. cbn. by rewrite app_nil_r. }
  rewrite E, (proj2 (Nat.ltb_ge _ _)) by lia.
  destruct (db_load_line db l) as [db'|e]; [|done]. cbn [mbind result_bind].
  apply db_buf_fuel; lia.
Qed.

Lemma db_load_buf_last db l :
  l <> [] -> LF ∉ l -> CR ∉ l -> length l + 2 <= UCI_LINE_SZ ->
  db_load_buf db l = db_load_line db l.
Proof.
  intros H0 H1 H2 H3. pose proof (no_eol l H1 H2) as Hn. unfold db_load_buf.
  destruct l as [|c l]; [done|]. cbn [length db_buf_loop].
  rewrite take_while_all by done. unfold after_line. rewrite drop_while_all by done.
  rewrite (proj2 (Nat.ltb_ge _ _)) by (cbn [length] in *; lia).
  destruct (db_load_line db (c :: l)) as [db'|e]; [|done].
  cbn [mbind result_bind skip]. by destruct (length l).
Qed.

Lemma buf_file_agree t :
  short_lines t -> CR ∉ t -> cstring t ->
  forall db, db_load_buf db t = db_load_file db (Ok t).
Proof.
  unfold db_load_file. cbn [mbind result_bind].
  induction 1 as [|l H0 H1 H2|l r H1 H2 _ IH]; intros Hcr Hc db.
  - done.
  - rewrite file_lines_last by (done || lia). cbn [db_load_lines].
    rewrite andb_false_r, c_string_id, db_load_buf_last by done.
    by destruct (db_load_line db l).
  - apply not_elem_of_app in Hcr as [Hcl Hcr]. apply not_elem_of_cons in Hcr as [_ Hcr].
    apply Forall_app in Hc as [Hc1 Hc2]. apply Forall_cons in Hc2 as [Hlf Hc2].
    rewrite db_load_buf_cons, file_lines_cons by (done || lia). cbn [db_load_lines].
    rewrite c_string_id by (apply Forall_app; split; [done|by constructor]).
    rewrite bool_decide_eq_true_2 by set_solver. cbn [negb andb].
    assert (db_load_line db (l ++ [LF]) = db_load_line db l) as ->.
    { unfold db_load_line. by rewrite trim_eol_lf. }
    destruct (db_load_line db l) as [db'|e]; [|done]. cbn [mbind result_bind].
    by apply IH.
Qed.

(** *** Options *)





(** ** Properties *)

(** A value with a quote in it keeps the escaping of [uci show]. *)
Example show_quote_kept :
  (db ← db_load_line [] (show_option (#"network") (#"lan") (#"descr")
          (#"it" ++ [SQUOTE; BSLASH; SQUOTE; SQUOTE] ++ #"s"));
   Ok (db_get db (#"network") (#"lan") (#"descr"))) =
  Ok (Some (#"it" ++ [SQUOTE; BSLASH; SQUOTE; SQUOTE] ++ #"s")).
Proof. vm_compute. reflexivity. Qed.



(** C33: the database read from a child's output is the one read from a file
    with the same text, for text without CR and NUL whose lines fit. *)
Theorem live_file_agree (t : cstr) (db : uci_db) :
  short_lines t -> CR ∉ t -> cstring t -> db_load_buf db t = db_load_file db (Ok t).
Proof. intros H1 H2 H3. by apply buf_file_agree. Qed.

Lemma live_file_agree_witness :
  db_load_buf [] (#"network.lan=interface") = db_load_file [] (Ok (#"network.lan=interface")).
Proof.
  apply (live_file_agree (#"network.lan=interface") []).
  - apply short_last; [discriminate|compute_decide|compute_decide].
  - compute_decide.
  - compute_decide.
Defined.

(** C34: [read_all_fd] returns every byte of the pipe, however the reads are
    cut into pieces or interrupted, as long as none of them fails and memory
    lasts; its buffer grows when it has to. *)
Theorem read_all_fd_complete (data : list ascii) (sched : list rd) :
  Forall (fun r => match r with RdErr _ => False | _ => True end) sched ->
  read_all_fd data sched [] = Ok data.
Proof.
  intros H. unfold read_all_fd. cbn [pop negb]. rewrite read_loop_all; [done|done|..]; cbn; lia.
Qed.

Lemma read_all_fd_complete_witness :
  read_all_fd (#"network.lan=interface") [RdSome 3; RdIntr; RdSome 0] []
  = Ok (#"network.lan=interface").
Proof. apply read_all_fd_complete. repeat constructor. Defined.

(** C35: loading keeps every item within its arrays and at most 1024 items,
    from a file and from a child's output alike. *)
Theorem db_load_bounds (db db' : uci_db) (file : result (list ascii)) (buf : cstr) :
  db_wf db -> db_load_file db file = Ok db' \/ db_load_buf db buf = Ok db' -> db_wf db'.
Proof.
  intros W [H|H].
  - unfold db_load_file in H. inv_ok. by apply db_load_lines_wf in H.
  - by apply db_buf_loop_wf in H.
Qed.

Lemma db_load_bounds_witness :
  exists db', db_load_file [] (Ok (#"network.lan=interface")) = Ok db' /\ db_wf db'.
Proof.
  eexists. split; [vm_compute; reflexivity|].
  apply (db_load_bounds [] _ (Ok (#"network.lan=interface")) []).
  - split; [compute_decide|constructor].
  - left. vm_compute. reflexivity.
Defined.
