(* ===== verification/UciBuild.v ===== *)
(** The builder of uci.c: from the UCI databases of the network and wireless
    packages to the desired states. *)
From S2P Require Import Prelude CLib CfgPath CfgTree CfgFile State Yaml UciDb.

(** ** Helpers *)

Definition add_bridge_port (ds : desired_state) (ifname : option cstr)
  : result desired_state :=
  match ifname with
  | None | Some [] => Ok ds
  | Some name =>
    if negb (bool_decide (up_ifname ds = [])) && streq (up_ifname ds) name then Ok ds
    else if negb (bool_decide (vx_ifname ds = [])) && streq (vx_ifname ds) name then Ok ds
    else if existsb (fun p => streq p name) (br_ports ds) then Ok ds
    else if NR_BR_PORT_MAX <=? length (br_ports ds) then Err E2BIG
    else Ok (ds <| br_ports ::= (fun l => l ++ [uci_cpy IFNAMSIZ (Some name)]) |>)
  end.

(** The interface a wireless section adds to the network, if any. *)
Definition wireless_port (db : uci_db) (net_name : cstr) (it : uci_item) : option cstr :=
  if negb (ui_is_type it) then None
  else if negb (streq (ui_pkg it) (#"wireless")) then None
  else if negb (streq (ui_val it) (#"wifi-iface")) then None
  else
    if match db_get db (#"wireless") (ui_sect it) (#"disabled") with
       | Some d => negb (streq d (#"0"))
       | None => false
       end then None
    else if match db_get db (#"wireless") (ui_sect it) (#"network") with
            | None => true
            | Some n => negb (value_has_token n net_name)
            end then None
    else match db_get db (#"wireless") (ui_sect it) (#"ifname") with
         | None | Some [] => None
         | Some ifname => Some ifname
         end.

Fixpoint wireless_loop (db : uci_db) (net_name : cstr) (its : list uci_item)
    (ds : desired_state) : result desired_state :=
  match its with
  | [] => Ok ds
  | it :: its' =>
    match wireless_port db net_name it with
    | None => wireless_loop db net_name its' ds
    | Some ifname =>
      ds ← add_bridge_port ds (Some ifname); wireless_loop db net_name its' ds
    end
  end.

Definition add_wireless_ports (db : uci_db) (net_name : cstr) (ds : desired_state)
  : result desired_state := wireless_loop db net_name db ds.

(** The first loop of [mask_to_prefix]: no 1 bit after a 0 bit. *)
Fixpoint mask_check (fuel : nat) (bits : Z) (zero_seen : bool) (v : Z) : bool :=
  match fuel with
  | O => true
  | S n =>
    if negb (Z.land v (Z.shiftl 1 (31 - bits)) =? 0)%Z then
      if zero_seen then false else mask_check n (bits + 1) zero_seen v
    else mask_check n (bits + 1) true v
  end.

(** The second loop: count the leading 1 bits of a [uint32_t].  After 32
    shifts nothing is left. *)
Fixpoint mask_count (fuel : nat) (bits : Z) (v : Z) : Z :=
  match fuel with
  | O => bits
  | S n =>
    if (Z.land v 2147483648 =? 0)%Z then bits
    else mask_count n (bits + 1) (Z.shiftl v 1 mod 2 ^ 32)
  end.

Definition mask_to_prefix (mask : cstr) : result Z :=
  match inet_pton mask with
  | None => Err EINVAL
  | Some a =>
    let v := ntohl a in
    if negb (mask_check 32 0 false v) then Err EINVAL else Ok (mask_count 33 0 v)
  end.

(** The loop of [split_ip_list]; each round consumes a word. *)
Fixpoint ip_list_loop (fuel max : nat) (p : cstr) (dst : list cstr)
  : result (list cstr) :=
  match fuel with
  | O => Ok dst
  | S n =>
    match next_word p 32 with
    | Err e => Err e
    | Ok None => Ok dst
    | Ok (Some (w, p')) =>
      if max <=? length dst then Err E2BIG
      else ip_list_loop n max p' (dst ++ [uci_cpy INET_ADDRSTRLEN (Some w)])
    end
  end.

Definition split_ip_list (src : option cstr) (max : nat) : result (list cstr) :=
  match src with
  | None | Some [] => Ok []
  | Some s => ip_list_loop (S (length s)) max s []
  end.

(** The same code as in yaml.c. *)
Definition uci_parse_u32_str (s : option cstr) : result Z := parse_u32_str s.

(** The new state is appended by the builders; here only the room for it. *)
Definition add_state (set : desired_set) : result desired_state :=
  if NR_DES_STATE_MAX <=? length set then Err E2BIG else Ok ds_zero.

Definition DHCP_CMD : cstr := #"udhcpc -i $iface -q -n".

Definition fill_bridge_proto (db : uci_db) (if_sect : cstr) (ds : desired_state)
  : result desired_state :=
  let get := db_get db (#"network") if_sect in
  match get (#"proto") with
  | None | Some [] => Err EINVAL
  | Some proto =>
    if streq proto (#"static") then
      match get (#"ipaddr"), get (#"netmask") with
      | Some ipaddr, Some mask =>
        prefix ← mask_to_prefix mask;
        let ds := ds <| br_addr_mode := ADDR_STATIC |>
                     <| br_addr := snprintf 32 (ipaddr ++ "/"%char :: fmt_d prefix) |> in
        let ds := match get (#"gateway") with
                  | Some gw => ds <| br_gateway := uci_cpy INET_ADDRSTRLEN (Some gw) |>
                  | None => ds
                  end in
        dns ← split_ip_list (get (#"dns")) NR_DES_DNS4_MAX;
        Ok (ds <| br_dns := dns |>)
      | _, _ => Err EINVAL
      end
    else if streq proto (#"dhcp") then
      Ok (ds <| br_addr_mode := ADDR_DHCP |>
             <| br_dhcp_cmd := uci_cpy 128 (Some DHCP_CMD) |>)
    else if streq proto (#"none") then Ok (ds <| br_addr_mode := ADDR_NONE |>)
    else Err EINVAL
  end.

(** The loop of [add_device_ports]; each round consumes a word. *)
Fixpoint device_ports_loop (fuel : nat) (p : cstr) (skip_first first : bool)
    (ds : desired_state) : result desired_state :=
  match fuel with
  | O => Ok ds
  | S n =>
    match next_word p IFNAMSIZ with
    | Err e => Err e
    | Ok None => Ok ds
    | Ok (Some (w, p')) =>
      if skip_first && first then device_ports_loop n p' skip_first false ds
      else ds ← add_bridge_port ds (Some w); device_ports_loop n p' skip_first false ds
    end
  end.

Definition add_device_ports (ports : option cstr) (ds : desired_state) (skip_first : bool)
  : result desired_state :=
  match ports with
  | None | Some [] => Ok ds
  | Some p => device_ports_loop (S (length p)) p skip_first true ds
  end.

Definition first_device_port (ports : option cstr) (sz : nat) : result cstr :=
  match ports with
  | None | Some [] => Err ENOENT
  | Some p =>
    match next_word p sz with
    | Err e => Err e
    | Ok None => Err ENOENT
    | Ok (Some (w, _)) => Ok w
    end
  end.

(** The name after "wireguard_" of a peer section that allows the remote. *)
Definition wg_peer (db : uci_db) (remote : cstr) (it : uci_item) : option cstr :=
  if negb (ui_is_type it) then None
  else if negb (streq (ui_pkg it) (#"network")) then None
  else match strip_prefix (#"wireguard_") (ui_val it) with
       | None => None
       | Some name =>
         match db_get db (#"network") (ui_sect it) (#"allowed_ips") with
         | None => None
         | Some ips =>
           if negb (value_has_token ips (snprintf 32 (remote ++ #"/32")))
              && negb (value_has_token ips remote)
           then None else Some name
         end
       end.

Definition is_wg_iface (db : uci_db) (it : uci_item) : bool :=
  ui_is_type it && streq (ui_pkg it) (#"network") && streq (ui_val it) (#"interface") &&
  match db_get db (#"network") (ui_sect it) (#"proto") with
  | Some proto => streq proto (#"wireguard")
  | None => false
  end.

Definition find_wg_for_remote (db : uci_db) (remote : cstr) (sz : nat) : result cstr :=
  match head (omap (wg_peer db remote) db) with
  | Some name => Ok (uci_cpy sz (Some name))
  | None =>
    match List.filter (is_wg_iface db) db with
    | [it] => Ok (uci_cpy sz (Some (ui_sect it)))
    | _ => Err EINVAL
    end
  end.

(** ** States *)

Definition build_uplink_bridge (net wifi : uci_db) (dev_sect if_sect br_name : cstr)
    (set : desired_set) : result desired_set :=
  ds ← add_state set;
  let ds := ds <| scenario := uci_cpy 32 (Some (#"uplink_bridge")) |>
               <| State.br_name := uci_cpy IFNAMSIZ (Some br_name) |> in
  ds ← fill_bridge_proto net if_sect ds;
  let ports := db_get net (#"network") dev_sect (#"ports") in
  up ← first_device_port ports IFNAMSIZ;
  ds ← add_device_ports ports (ds <| up_ifname := up |>) true;
  ds ← add_wireless_ports wifi if_sect ds;
  Ok (set ++ [ds]).

Definition build_wg_vxlan_bridge (net wifi : uci_db) (dev_sect if_sect br_name : cstr)
    (set : desired_set) : result desired_set :=
  let ports := db_get net (#"network") dev_sect (#"ports") in
  ds ← add_state set;
  let ds := ds <| scenario := uci_cpy 32 (Some (#"wg_vxlan_bridge")) |>
               <| State.br_name := uci_cpy IFNAMSIZ (Some br_name) |>
               <| br_addr_mode := ADDR_NONE |> in
  vx ← first_device_port ports IFNAMSIZ;
  let ds := ds <| vx_ifname := vx |> in
  let get := db_get net (#"network") vx in
  match get (#"proto") with
  | None => Err EINVAL
  | Some proto =>
    if negb (streq proto (#"vxlan")) then Err EINVAL
    else match get (#"vid"), get (#"peeraddr") with
         | Some vid, Some peer =>
           vni ← uci_parse_u32_str (Some vid);
           wg ← find_wg_for_remote net peer IFNAMSIZ;
           let ds := ds <| vx_vni := vni |>
                        <| wg_ifname := uci_cpy IFNAMSIZ (Some wg) |>
                        <| wg_peer_ip := uci_cpy INET_ADDRSTRLEN (Some peer) |>
                        <| wg_route_dev := uci_cpy IFNAMSIZ (Some wg) |>
                        <| vx_remote := uci_cpy INET_ADDRSTRLEN (Some peer) |>
                        <| vx_bridge := uci_cpy IFNAMSIZ (Some br_name) |> in
           ds ← add_device_ports ports ds true;
           ds ← add_wireless_ports wifi if_sect ds;
           Ok (set ++ [ds])
         | _, _ => Err EINVAL
         end
  end.

(** One round of the loop of [uci_build_desired_set]. *)
Definition build_item (net wifi : uci_db) (it : uci_item) (set : desired_set)
  : result desired_set :=
  if negb (ui_is_type it) then Ok set
  else if negb (streq (ui_pkg it) (#"network")) then Ok set
  else if negb (streq (ui_val it) (#"device")) then Ok set
  else match db_get net (#"network") (ui_sect it) (#"type") with
       | None => Ok set
       | Some t =>
         if negb (streq t (#"bridge")) then Ok set
         else match db_get net (#"network") (ui_sect it) (#"name") with
              | None | Some [] => Err EINVAL
              | Some br_name =>
                match find_iface_by_device net br_name with
                | None => Err EINVAL
                | Some if_sect =>
                  match db_get net (#"network") if_sect (#"proto") with
                  | None | Some [] => Err EINVAL
                  | Some proto =>
                    if streq proto (#"static") || streq proto (#"dhcp")
                    then build_uplink_bridge net wifi (ui_sect it) if_sect br_name set
                    else if streq proto (#"none")
                    then build_wg_vxlan_bridge net wifi (ui_sect it) if_sect br_name set
                    else Err EINVAL
                  end
                end
              end
       end.

Fixpoint build_loop (net wifi : uci_db) (its : list uci_item) (set : desired_set)
  : result desired_set :=
  match its with
  | [] => Ok set
  | it :: its' => set ← build_item net wifi it set; build_loop net wifi its' set
  end.

(** A package from the given file, or from [uci show]. *)
Definition load_pkg (m : machine) (uci_bin path : option cstr) (pkg : cstr)
  : result uci_db :=
  match path with
  | Some p => db_load_file [] (fopen_r m p)
  | None => db_load_live m [] uci_bin pkg
  end.

Definition uci_build_desired_set (m : machine) (uci_bin network_path wireless_path : option cstr)
  : result desired_set :=
  net ← load_pkg m uci_bin network_path (#"network");
  wifi ← load_pkg m uci_bin wireless_path (#"wireless");
  set ← build_loop net wifi net [];
  if bool_decide (set = []) then Err EINVAL else Ok set.

(** ** Netmasks *)

(** The mask of a prefix length, as a 32-bit number. *)
Definition mask_of (p : Z) : Z := (2 ^ 32 - 2 ^ (32 - p))%Z.

(** The loops over words have rounds to spare. *)
Lemma ip_list_fuel n m max p dst :
  length p < n -> length p < m -> ip_list_loop n max p dst = ip_list_loop m max p dst.
Proof.
  revert m p dst. induction n as [|n IH]; intros [|m] p dst Hn Hm; [lia..|].
  cbn [ip_list_loop]. destruct (next_word p 32) as [[[w r]|]|e] eqn:E; [|done|done].
  apply next_word_shorter in E. destruct (max <=? length dst); [done|]. apply IH; lia.
Qed.

Lemma device_ports_fuel n m p skip_first first ds :
  length p < n -> length p < m ->
  device_ports_loop n p skip_first first ds = device_ports_loop m p skip_first first ds.
Proof.
  revert m p first ds. induction n as [|n IH]; intros [|m] p first ds Hn Hm; [lia..|].
  cbn [device_ports_loop]. destruct (next_word p IFNAMSIZ) as [[[w r]|]|e] eqn:E; [|done|done].
  apply next_word_shorter in E. destruct (skip_first && first); [apply IH; lia|].
  destruct (add_bridge_port ds (Some w)); cbn; [apply IH; lia|done].
Qed.

Lemma byte_of_range i v : (0 <= byte_of i v < 256)%Z.
Proof.
  unfold byte_of. change 255%Z with (Z.ones 8). rewrite Z.land_ones by lia.
  apply Z.mod_pos_bound. lia.
Qed.

Lemma ntohl_range v : (0 <= ntohl v < 2 ^ 32)%Z.
Proof.
  unfold ntohl, le32.
  pose proof (byte_of_range 0 v). pose proof (byte_of_range 1 v).
  pose proof (byte_of_range 2 v). pose proof (byte_of_range 3 v). lia.
Qed.

Lemma land_bit v i : (0 <= i)%Z ->
  negb (Z.land v (Z.shiftl 1 i) =? 0)%Z = Z.testbit v i.
Proof.
  intros Hi. rewrite Z.shiftl_1_l.
  destruct (Z.testbit v i) eqn:E.
  - apply negb_true_iff, Z.eqb_neq. intros H.
    apply (f_equal (fun x => Z.testbit x i)) in H.
    rewrite Z.land_spec, E, Z.pow2_bits_true, Z.bits_0 in H by done. done.
  - apply negb_false_iff, Z.eqb_eq. apply Z.bits_inj'. intros n Hn.
    rewrite Z.land_spec, Z.bits_0. destruct (Z.eq_dec i n) as [<-|Hne].
    + by rewrite E.
    + by rewrite Z.pow2_bits_false, andb_false_r.
Qed.

(** A mask that passes is a run of 1 bits, from the top, then 0 bits. *)
Lemma mask_check_spec n bits zero v :
  (bits = 32 - Z.of_nat n)%Z -> (0 <= bits)%Z ->
  mask_check n bits zero v = true ->
  exists p, (bits <= p <= 32)%Z /\ (zero = true -> p = bits) /\
    forall i, (bits <= i < 32)%Z -> Z.testbit v (31 - i) = (i <? p)%Z.
Proof.
  revert bits zero. induction n as [|n IH]; intros bits zero Hb H0 H.
  { exists bits. split; [lia|]. split; [done|]. lia. }
  cbn [mask_check] in H. rewrite land_bit in H by lia.
  destruct (Z.testbit v (31 - bits)) eqn:E.
  - destruct zero; [done|]. apply IH in H as (p & Hp & _ & Hi); [|lia|lia].
    exists p. split; [lia|]. split; [done|]. intros i Hr.
    destruct (Z.eq_dec i bits) as [->|]; [rewrite E; symmetry; apply Z.ltb_lt; lia|].
    apply Hi. lia.
  - apply IH in H as (p & Hp & Hz & Hi); [|lia|lia]. specialize (Hz eq_refl).
    exists bits. split; [lia|]. split; [done|]. intros i Hr.
    rewrite (proj2 (Z.ltb_ge i bits)) by lia.
    destruct (Z.eq_dec i bits) as [->|]; [done|].
    rewrite Hi by lia. apply Z.ltb_ge. lia.
Qed.

Lemma mask_of_bits p i : (0 <= p <= 32)%Z -> (0 <= i < 32)%Z ->
  Z.testbit (mask_of p) i = (31 - i <? p)%Z.
Proof.
  intros Hp Hi. unfold mask_of.
  replace (2 ^ 32 - 2 ^ (32 - p))%Z with (Z.shiftl (Z.ones p) (32 - p)).
  2: { rewrite Z.shiftl_mul_pow2 by lia. rewrite Z.ones_equiv.
       replace (2 ^ 32)%Z with (2 ^ p * 2 ^ (32 - p))%Z; [lia|].
       rewrite <- Z.pow_add_r by lia. f_equal. lia. }
  rewrite Z.shiftl_spec by lia. destruct (Z.lt_ge_cases i (32 - p)) as [L|L].
  - rewrite Z.testbit_neg_r by lia. symmetry. apply Z.ltb_ge. lia.
  - rewrite Z.ones_spec_low by lia. symmetry. apply Z.ltb_lt. lia.
Qed.

Lemma high_bits_0 v i : (0 <= v < 2 ^ 32)%Z -> (32 <= i)%Z -> Z.testbit v i = false.
Proof.
  intros Hv Hi. destruct (Z.eq_dec v 0) as [->|]; [apply Z.bits_0|].
  apply Z.bits_above_log2; [lia|]. apply Z.log2_lt_pow2; [lia|].
  eapply Z.lt_le_trans; [apply Hv|]. apply Z.pow_le_mono_r; lia.
Qed.

Lemma mask_of_range p : (0 <= p <= 32)%Z -> (0 <= mask_of p < 2 ^ 32)%Z.
Proof.
  intros Hp. unfold mask_of.
  pose proof (Z.pow_pos_nonneg 2 (32 - p) ltac:(lia) ltac:(lia)).
  pose proof (Z.pow_le_mono_r 2 (32 - p) 32 ltac:(lia) ltac:(lia)). lia.
Qed.

(** Every prefix length, by computation. *)
Lemma mask_all p : (0 <= p <= 32)%Z ->
  mask_check 32 0 false (mask_of p) = true /\ mask_count 33 0 (mask_of p) = p.
Proof.
  intros Hp.
  assert (H : forallb (fun n => let p := Z.of_nat n in
    mask_check 32 0 false (mask_of p) && (mask_count 33 0 (mask_of p) =? p)%Z)
    (seq 0 33) = true) by (vm_compute; reflexivity).
  rewrite forallb_forall in H. specialize (H (Z.to_nat p)).
  rewrite Z2Nat.id in H by lia.
  assert (In (Z.to_nat p) (seq 0 33)) as Hin by (apply in_seq; lia).
  apply H in Hin. apply andb_true_iff in Hin as [H1 H2]. apply Z.eqb_eq in H2. done.
Qed.

Arguments mask_check : simpl never.
Arguments mask_count : simpl never.

Lemma mask_to_prefix_spec mask p :
  mask_to_prefix mask = Ok p <->
  (0 <= p <= 32)%Z /\ exists a, inet_pton mask = Some a /\ ntohl a = mask_of p.
Proof.
  unfold mask_to_prefix. split.
  - intros H. destruct (inet_pton mask) as [a|]; [|done]. cbn zeta in H.
    destruct (mask_check 32 0 false (ntohl a)) eqn:E; cbn [negb] in H; [|done].
    apply mask_check_spec in E as (q & Hq & _ & Hi); [|done|done].
    assert (V : ntohl a = mask_of q).
    { apply Z.bits_inj'. intros n Hn. destruct (Z.lt_ge_cases n 32) as [L|L].
      - replace n with (31 - (31 - n))%Z by lia. rewrite Hi by lia.
        rewrite mask_of_bits by lia. f_equal. lia.
      - rewrite !high_bits_0; [done|apply mask_of_range; lia|done|apply ntohl_range|done]. }
    rewrite V in H. destruct (mask_all q) as [_ C]; [lia|]. rewrite C in H.
    injection H as <-. eauto.
  - intros (Hp & a & -> & V). cbn zeta. rewrite V.
    destruct (mask_all p Hp) as [-> ->]. done.
Qed.

(** ** Properties *)

(** C36: [mask_to_prefix] accepts exactly the contiguous netmasks, with the
    prefix length they stand for. *)
Theorem mask_to_prefix_exact (mask : cstr) (p : Z) :
  mask_to_prefix mask = Ok p <->
  (0 <= p <= 32)%Z /\ exists a, inet_pton mask = Some a /\ ntohl a = mask_of p.
Proof. apply mask_to_prefix_spec. Qed.
