(* ===== verification/UciExport.v ===== *)
(** The rest of uci.c: writing a desired set as configuration text
    ([cfg_set]), [uci2yml], and [uci_load_desired_set], which writes the text
    to a file and loads it back through yaml.c. *)
From S2P Require Import Prelude CLib CfgPath CfgTree CfgFile State Yaml UciDb UciBuild.

Set Warnings "-register-all".

(** ** Lines *)

Fixpoint cfg_quote_loop (s : cstr) : ST out_st unit :=
  match s with
  | [] => mret tt
  | c :: s' =>
    _ ← (if Ascii.eqb c BSLASH || Ascii.eqb c DQUOTE
         then _ ← fput [BSLASH]; fput [c]
         else if Ascii.eqb c LF then fput [BSLASH; "n"%char]
         else if Ascii.eqb c TAB then fput [BSLASH; "t"%char]
         else fput [c]);
    cfg_quote_loop s'
  end.

Definition cfg_quote (s : cstr) : ST out_st unit :=
  _ ← fput [DQUOTE]; _ ← cfg_quote_loop s; fput [DQUOTE].

Definition cfg_line_str (path val : cstr) : ST out_st unit :=
  _ ← fput (path ++ #" = "); _ ← cfg_quote val; fput [LF].

Definition cfg_line_u32 (path : cstr) (val : Z) : ST out_st unit :=
  fput (path ++ #" = " ++ DQUOTE :: fmt_u val ++ [DQUOTE; LF]).

Definition cfg_path (sz : nat) (id tail : cstr) : result cstr :=
  let p := #"state." ++ id ++ "."%char :: tail in
  if snprintf_trunc sz p then Err E2BIG else Ok p.

(** [cfg_path], then [cfg_line_str]: the pairs of calls of [cfg_state]. *)
Definition put (id tail val : cstr) : ST out_st unit :=
  p ← lift (cfg_path 256 id tail); cfg_line_str p val.

Definition put_u32 (id tail : cstr) (val : Z) : ST out_st unit :=
  p ← lift (cfg_path 256 id tail); cfg_line_u32 p val.

(** The body of a conditional. *)
Definition when (b : bool) (m : ST out_st unit) : ST out_st unit :=
  if b then m else mret tt.

Definition nonempty (s : cstr) : bool := negb (bool_decide (s = [])).

(** ** States *)

Definition id_start (c : ascii) : bool :=
  in_range "A" "Z" c || in_range "a" "z" c || Ascii.eqb c "_".

Definition id_char (c : ascii) : bool :=
  in_range "A" "Z" c || in_range "a" "z" c || in_range "0" "9" c || Ascii.eqb c "_".

(** The loop of [cfg_state_id]: what [dst] holds and what is left of [src]. *)
Fixpoint id_loop (sz : nat) (src dst : cstr) : result (cstr * cstr) :=
  match src with
  | [] => Ok (dst, [])
  | c :: src' =>
    if sz <=? length dst + 1 then Ok (dst, src)
    else if bool_decide (dst = []) then
      if id_start c then id_loop sz src' [c]
      else if in_range "0" "9" c then
        if sz <=? 1 + 1 then Err E2BIG else id_loop sz src' ["_"%char; c]
      else id_loop sz src' ["_"%char]
    else id_loop sz src' (dst ++ [if id_char c then c else "_"%char])
  end.

Definition cfg_state_id (ds : desired_state) (sz : nat) (idx : Z) : result cstr :=
  let src := if nonempty (br_name ds) then br_name ds else scenario ds in
  '(dst, rest) ← id_loop sz src [];
  if nonempty rest then Err E2BIG
  else if bool_decide (dst = []) then
    let s := "s"%char :: fmt_d idx in
    if snprintf_trunc sz s then Err E2BIG else Ok s
  else Ok dst.

Fixpoint put_all (id tail : cstr) (vals : list cstr) : ST out_st unit :=
  match vals with
  | [] => mret tt
  | v :: vals' => _ ← put id tail v; put_all id tail vals'
  end.

Definition put_bridge (id : cstr) (ds : desired_state) : ST out_st unit :=
  _ ← put id (#"bridge.name") (br_name ds);
  _ ← (match br_addr_mode ds with
       | ADDR_STATIC =>
         _ ← put id (#"bridge.addr_mode") (#"static");
         _ ← put id (#"bridge.addr") (br_addr ds);
         _ ← when (nonempty (br_gateway ds))
               (put id (#"bridge.gateway") (br_gateway ds));
         put_all id (#"bridge.dns[]") (br_dns ds)
       | ADDR_DHCP =>
         _ ← put id (#"bridge.addr_mode") (#"dhcp");
         put id (#"bridge.dhcp_cmd") (br_dhcp_cmd ds)
       | ADDR_NONE => put id (#"bridge.addr_mode") (#"none")
       end);
  put_all id (#"bridge.ports[]") (br_ports ds).

Definition put_vlan (id : cstr) (ds : desired_state) : ST out_st unit :=
  _ ← put id (#"vlan.ifname") (vlan_ifname ds);
  _ ← put_u32 id (#"vlan.id") (vlan_id ds);
  _ ← when (nonempty (vlan_link ds)) (put id (#"vlan.link") (vlan_link ds));
  when (nonempty (vlan_bridge ds)) (put id (#"vlan.bridge") (vlan_bridge ds)).

Definition put_wg (id : cstr) (ds : desired_state) : ST out_st unit :=
  _ ← put id (#"wg.ifname") (wg_ifname ds);
  _ ← put id (#"wg.peer_ip") (wg_peer_ip ds);
  put id (#"wg.route_dev") (wg_route_dev ds).

Definition put_vxlan (id : cstr) (ds : desired_state) : ST out_st unit :=
  _ ← put id (#"vxlan.ifname") (vx_ifname ds);
  _ ← put_u32 id (#"vxlan.vni") (vx_vni ds);
  _ ← put id (#"vxlan.remote") (vx_remote ds);
  _ ← when (nonempty (vx_dev ds)) (put id (#"vxlan.dev") (vx_dev ds));
  put id (#"vxlan.bridge") (vx_bridge ds).

(** [snprintf(route_path, sizeof(route_path), "routes.r%d.<key>", i)] *)
Definition route_path (i : Z) (key : cstr) : result cstr :=
  let p := #"routes.r" ++ fmt_d i ++ "."%char :: key in
  if snprintf_trunc 64 p then Err E2BIG else Ok p.

Definition put_route_key (id : cstr) (i : Z) (key val : cstr) : ST out_st unit :=
  p ← lift (route_path i key); put id p val.

Fixpoint put_routes (id : cstr) (i : Z) (rts : list desired_route4) : ST out_st unit :=
  match rts with
  | [] => mret tt
  | rt :: rts' =>
    _ ← put_route_key id i (#"dst") (rt_dst rt);
    _ ← put_route_key id i (#"dev") (rt_dev rt);
    _ ← when (rt_has_via rt) (put_route_key id i (#"via") (rt_via rt));
    put_routes id (i + 1) rts'
  end.

(** The last step is the test of [ferror]. *)
Definition cfg_state (ds : desired_state) (idx : Z) : ST out_st unit :=
  id ← lift (cfg_state_id ds IFNAMSIZ idx);
  _ ← put id (#"scenario") (scenario ds);
  _ ← when (nonempty (br_name ds)) (put_bridge id ds);
  _ ← when (nonempty (up_ifname ds)) (put id (#"uplink.ifname") (up_ifname ds));
  _ ← when (nonempty (vlan_ifname ds)) (put_vlan id ds);
  _ ← when (nonempty (wg_ifname ds)) (put_wg id ds);
  _ ← when (nonempty (vx_ifname ds)) (put_vxlan id ds);
  _ ← put_routes id 0 (routes ds);
  fput [].

Fixpoint cfg_set_from (idx : Z) (set : desired_set) : ST out_st unit :=
  match set with
  | [] => mret tt
  | ds :: set' => _ ← cfg_state ds idx; cfg_set_from (idx + 1) set'
  end.

Definition cfg_set (set : desired_set) : ST out_st unit := cfg_set_from 0 set.

(** ** Entry points *)

(** [fflush] and [fclose] after [rc]; [io] is the errno they leave. *)
Definition close_out {A} (io : errno) (rc : result A) (o : oracle)
  : result A * oracle :=
  let '(rc, o) :=
    if is_ok rc then let '(ok, o) := pop o in (if ok then rc else Err io, o)
    else (rc, o) in
  let '(ok, o) := pop o in
  (if negb ok && is_ok rc then Err io else rc, o).

Definition uci2yml_file (m : machine) (network_path wireless_path : option cstr)
  : ST out_st unit :=
  set ← lift (uci_build_desired_set m None network_path wireless_path); cfg_set set.

(** The outcome and the file left at [yaml_path], if any; [fopen_rc] is what
    opening it for writing gives. *)
Definition uci2yml (m : machine) (network_path wireless_path : option cstr)
    (fopen_rc : result unit) (io : errno) (o : oracle)
  : result unit * option (list ascii) :=
  match fopen_rc with
  | Err e => (Err e, None)
  | Ok _ =>
    let '(rc, (o, f)) := uci2yml_file m network_path wireless_path (o, []) in
    let '(rc, _) := close_out io rc o in
    (rc, if is_ok rc then Some f else None)
  end.

(** [mkstemp_rc] and [fdopen_rc] are the outcomes of creating the temporary
    file, [reopen_rc] that of opening it for reading, [mem] the outcomes of
    the allocations of the loader. *)
Definition uci_load_desired_set (m : machine)
    (uci_bin network_path wireless_path : option cstr)
    (mkstemp_rc fdopen_rc reopen_rc : result unit) (io : errno) (o mem : oracle)
  : result desired_set :=
  _ ← mkstemp_rc;
  _ ← fdopen_rc;
  let '(rc, (o, f)) :=
    match uci_build_desired_set m uci_bin network_path wireless_path with
    | Err e => (Err e, (o, []))
    | Ok set => cfg_set set (o, [])
    end in
  let '(rc, _) := close_out io rc o in
  _ ← rc;
  yaml_load_desired_set mem (_ ← reopen_rc; Ok f).

(** ** The tree of a set *)

Definition str_kid (k v : cstr) : cfg_node := Node CFG_STR (Some k) (Some v) [].
Definition opt_kid (k v : cstr) : list cfg_node :=
  if nonempty v then [str_kid k v] else [].
Definition arr_kid (k : cstr) (vals : list cstr) : list cfg_node :=
  match vals with
  | [] => []
  | _ => [Node CFG_ARR (Some k) None (map (fun v => Node CFG_STR None (Some v) []) vals)]
  end.
Definition obj_kid (b : bool) (k : cstr) (kids : list cfg_node) : list cfg_node :=
  if b then [Node CFG_OBJ (Some k) None kids] else [].

Definition mode_text (m : addr_mode) : cstr :=
  match m with ADDR_STATIC => #"static" | ADDR_DHCP => #"dhcp" | ADDR_NONE => #"none" end.

Definition bridge_kids (ds : desired_state) : list cfg_node :=
  [str_kid (#"name") (br_name ds);
   str_kid (#"addr_mode") (mode_text (br_addr_mode ds))] ++
  (match br_addr_mode ds with
   | ADDR_STATIC => [str_kid (#"addr") (br_addr ds)] ++
                    opt_kid (#"gateway") (br_gateway ds) ++ arr_kid (#"dns") (br_dns ds)
   | ADDR_DHCP => [str_kid (#"dhcp_cmd") (br_dhcp_cmd ds)]
   | ADDR_NONE => []
   end) ++ arr_kid (#"ports") (br_ports ds).

Definition vlan_kids (ds : desired_state) : list cfg_node :=
  [str_kid (#"ifname") (vlan_ifname ds); str_kid (#"id") (fmt_u (vlan_id ds))] ++
  opt_kid (#"link") (vlan_link ds) ++ opt_kid (#"bridge") (vlan_bridge ds).

Definition wg_kids (ds : desired_state) : list cfg_node :=
  [str_kid (#"ifname") (wg_ifname ds); str_kid (#"peer_ip") (wg_peer_ip ds);
   str_kid (#"route_dev") (wg_route_dev ds)].

Definition vxlan_kids (ds : desired_state) : list cfg_node :=
  [str_kid (#"ifname") (vx_ifname ds); str_kid (#"vni") (fmt_u (vx_vni ds));
   str_kid (#"remote") (vx_remote ds)] ++
  opt_kid (#"dev") (vx_dev ds) ++ [str_kid (#"bridge") (vx_bridge ds)].

Definition route_kids (rt : desired_route4) : list cfg_node :=
  [str_kid (#"dst") (rt_dst rt); str_kid (#"dev") (rt_dev rt)] ++
  (if rt_has_via rt then [str_kid (#"via") (rt_via rt)] else []).

Definition route_name (i : Z) : cstr := "r"%char :: fmt_d i.

Fixpoint routes_kids (i : Z) (rts : list desired_route4) : list cfg_node :=
  match rts with
  | [] => []
  | rt :: rts' =>
    Node CFG_OBJ (Some (route_name i)) None (route_kids rt) :: routes_kids (i + 1) rts'
  end.

Definition state_kids (ds : desired_state) : list cfg_node :=
  [str_kid (#"scenario") (scenario ds)] ++
  obj_kid (nonempty (br_name ds)) (#"bridge") (bridge_kids ds) ++
  obj_kid (nonempty (up_ifname ds)) (#"uplink") [str_kid (#"ifname") (up_ifname ds)] ++
  obj_kid (nonempty (vlan_ifname ds)) (#"vlan") (vlan_kids ds) ++
  obj_kid (nonempty (wg_ifname ds)) (#"wg") (wg_kids ds) ++
  obj_kid (nonempty (vx_ifname ds)) (#"vxlan") (vxlan_kids ds) ++
  obj_kid (negb (bool_decide (routes ds = []))) (#"routes") (routes_kids 0 (routes ds)).

Definition state_node (l : cstr * desired_state) : cfg_node :=
  Node CFG_OBJ (Some (fst l)) None (state_kids (snd l)).

Definition set_tree (ls : list (cstr * desired_state)) : cfg_node :=
  Node CFG_OBJ None None [Node CFG_OBJ (Some (#"state")) None (map state_node ls)].

(** The ids [cfg_set] gives the states. *)
Fixpoint state_ids (idx : Z) (set : desired_set) : result (list cstr) :=
  match set with
  | [] => Ok []
  | ds :: set' =>
    id ← cfg_state_id ds IFNAMSIZ idx; ids ← state_ids (idx + 1) set'; Ok (id :: ids)
  end.

(** ** Lemmas *)

(** *** Ids *)

Lemma id_char_key : forall c, id_char c = true -> is_key_char c = true.
Proof. byte_impl. Qed.

Lemma id_start_key : forall c, id_start c = true -> is_key_start c = true.
Proof. byte_impl. Qed.

Lemma id_digit_key : forall c, in_range "0" "9" c = true -> is_key_char c = true.
Proof. byte_impl. Qed.

Definition id_ok (sz : nat) (dst : cstr) : Prop :=
  is_key_start (peek dst) = true /\ Forall (fun c => is_key_char c = true) dst /\
  length dst < sz.

Lemma id_loop_ok sz src dst dst' rest :
  (dst = [] \/ id_ok sz dst) -> id_loop sz src dst = Ok (dst', rest) ->
  dst' = [] \/ id_ok sz dst'.
Proof.
  revert dst. induction src as [|c src IH]; intros dst Hd H; cbn [id_loop] in H.
  { by injection H as <- _. }
  destruct (Nat.leb_spec sz (length dst + 1)) as [L|L]; [by injection H as <- _|].
  case_bool_decide as Ed.
  - subst dst. destruct (id_start c) eqn:E1.
    { apply IH in H; [done|]. right. split_and!; [by apply id_start_key| |done].
      constructor; [|done]. by apply key_start_char, id_start_key. }
    destruct (in_range "0" "9" c) eqn:E2.
    { destruct (sz <=? 1 + 1) eqn:E3; [done|]. apply Nat.leb_gt in E3.
      apply IH in H; [done|]. right. split_and!; [done| |cbn; lia].
      repeat constructor. by apply id_digit_key. }
    apply IH in H; [done|]. right. split_and!; [done| |done]. by repeat constructor.
  - destruct Hd as [?|(H1 & H2 & H3)]; [done|]. apply IH in H; [done|]. right.
    split_and!.
    + by destruct dst.
    + apply Forall_app. split; [done|]. constructor; [|done].
      destruct (id_char c) eqn:E; [by apply id_char_key|done].
    + rewrite length_app. cbn. lia.
Qed.

Lemma isdigit_key : forall c, isdigit c = true -> is_key_char c = true.
Proof. byte_impl. Qed.

Lemma cfg_state_id_key ds idx id :
  (0 <= idx <= ULONG_MAX)%Z -> cfg_state_id ds IFNAMSIZ idx = Ok id ->
  key_ok id /\ length id < IFNAMSIZ.
Proof.
  intros Hi H. unfold cfg_state_id in H. inv_ok. destruct a as [dst rest]. inv_ok.
  assert (id_ok IFNAMSIZ id -> key_ok id /\ length id < IFNAMSIZ) as K.
  { intros (H1 & H2 & H3). split; [|done]. split_and!; [done|done|].
    unfold IFNAMSIZ, CFG_PATH_SEG_MAX in *. lia. }
  apply K. apply id_loop_ok in E; [|by left].
  case_bool_decide as Ed; inv_ok.
  - unfold snprintf_trunc in E1. apply Nat.leb_gt in E1.
    split_and!; [done| |done]. constructor; [done|].
    unfold fmt_d. destruct (Z.ltb_spec idx 0); [lia|].
    destruct (fmt_u_spec idx Hi) as [(F & _) _].
    eapply Forall_impl; [exact F|]. apply isdigit_key.
  - by destruct E.
Qed.

(** *** The text *)

Abbreviation leaf := (list cfg_tok * cstr)%type.

(** [m] writes the lines [ls] when no call fails. *)
Definition writes (m : ST out_st unit) (ls : list leaf) : Prop :=
  forall f, m ([], f) = (Ok tt, ([], f ++ file_text ls)).

Lemma file_text_app a b : file_text (a ++ b) = file_text a ++ file_text b.
Proof. unfold file_text. by rewrite map_app, concat_app. Qed.

Lemma writes_ret : writes (mret tt) [].
Proof. intros f. by rewrite app_nil_r. Qed.

Lemma writes_bind m (k : unit -> ST out_st unit) a b :
  writes m a -> writes (k tt) b -> writes (m ≫= k) (a ++ b).
Proof.
  intros Ha Hb f. unfold mbind, ST_bind. rewrite Ha, Hb.
  by rewrite file_text_app, app_assoc.
Qed.

Lemma writes_lift {A} (r : result A) a (k : A -> ST out_st unit) ls :
  r = Ok a -> writes (k a) ls -> writes (lift r ≫= k) ls.
Proof. intros -> H f. apply H. Qed.

Lemma writes_when b m ls : writes m ls -> writes (when b m) (if b then ls else []).
Proof. intros H. destruct b; [done|apply writes_ret]. Qed.

(** The two copies of the quoting code are the same function. *)
Lemma cfg_quote_loop_out v f :
  cfg_quote_loop v ([], f) = (Ok tt, ([], f ++ concat (map esc v))).
Proof. exact (quote_loop_out v f). Qed.

Lemma cfg_line_str_out p v f :
  cfg_line_str p v ([], f) = (Ok tt, ([], f ++ p ++ #" = " ++ quoted v ++ [LF])).
Proof.
  unfold cfg_line_str, cfg_quote, mbind, ST_bind. cbn [fput pop].
  rewrite cfg_quote_loop_out. cbn [fput pop]. unfold quoted.
  rewrite <- !app_assoc. cbn [app]. by rewrite <- !app_assoc.
Qed.

(** The lines of a state with its path prefix. *)
Definition at_state (id : cstr) (ls : list leaf) : list leaf :=
  under (#"state") (under id ls).

Lemma at_state_app id a b : at_state id (a ++ b) = at_state id a ++ at_state id b.
Proof. unfold at_state, under. by rewrite !map_app. Qed.

(** The text of a path below a state. *)
Definition tail_of (toks : list cfg_tok) (tail : cstr) : Prop :=
  sub_text toks = "."%char :: tail.

Lemma put_writes id tail toks v :
  length id < IFNAMSIZ -> tail_of toks tail -> length tail < 64 ->
  writes (put id tail v) (at_state id [(toks, v)]).
Proof.
  intros Hi Ht Hl. unfold put. eapply writes_lift.
  - unfold cfg_path, snprintf_trunc. rewrite (proj2 (Nat.leb_gt _ _)); [reflexivity|].
    rewrite length_app. cbn [length]. rewrite length_app. cbn [length].
    change (length (#"state.")) with 6. unfold IFNAMSIZ in Hi. lia.
  - intros f. rewrite cfg_line_str_out. unfold file_text, at_state, line_text.
    cbn [map concat under fst snd path_text tok_text].
    fold (sub_text toks). rewrite Ht, app_nil_r.
    change (#"state.") with (#"state" ++ ["."%char]). rewrite <- !app_assoc. cbn [app].
    done.
Qed.

Lemma esc_digit c : isdigit c = true -> esc c = [c].
Proof.
  intros H. unfold esc.
  assert (G : negb (Ascii.eqb c BSLASH) && (negb (Ascii.eqb c DQUOTE) &&
    (negb (Ascii.eqb c LF) && negb (Ascii.eqb c TAB))) = true).
  { revert c H. apply (ascii_impl isdigit (fun c => negb (Ascii.eqb c BSLASH) &&
      (negb (Ascii.eqb c DQUOTE) && (negb (Ascii.eqb c LF) && negb (Ascii.eqb c TAB))))).
    vm_compute. reflexivity. }
  rewrite !andb_true_iff, !negb_true_iff in G. by destruct G as (-> & -> & -> & ->).
Qed.

Lemma quoted_digits t : Forall (fun c => isdigit c = true) t ->
  quoted t = DQUOTE :: t ++ [DQUOTE].
Proof.
  intros H. unfold quoted. do 2 f_equal.
  induction H as [|c t Hc _ IH]; [done|]. cbn. by rewrite esc_digit, IH.
Qed.

Lemma put_u32_writes id tail toks v :
  length id < IFNAMSIZ -> tail_of toks tail -> length tail < 64 ->
  (0 <= v <= UINT32_MAX)%Z ->
  writes (put_u32 id tail v) (at_state id [(toks, fmt_u v)]).
Proof.
  intros Hi Ht Hl Hv f. rewrite <- (put_writes id tail toks (fmt_u v) Hi Ht Hl f).
  unfold put_u32, put, mbind, ST_bind, lift.
  destruct (cfg_path 256 id tail) as [p|e]; [|done].
  rewrite cfg_line_str_out. unfold cfg_line_u32. cbn [fput pop].
  destruct (fmt_u_spec v) as [(F & _) _]; [unfold UINT32_MAX, ULONG_MAX in *; lia|].
  rewrite quoted_digits by done. cbn [app]. by rewrite <- !app_assoc.
Qed.

Lemma put_all_writes id tail toks vals :
  length id < IFNAMSIZ -> tail_of toks tail -> length tail < 64 ->
  writes (put_all id tail vals) (at_state id (map (fun v => (toks, v)) vals)).
Proof.
  intros Hi Ht Hl. induction vals as [|v vals IH]; [apply writes_ret|].
  cbn [put_all map]. change ((toks, v) :: map (fun v => (toks, v)) vals) with
    ([(toks, v)] ++ map (fun v => (toks, v)) vals).
  rewrite at_state_app. apply writes_bind; [by apply put_writes|done].
Qed.

(** *** The lines are the leaves of the tree *)

Lemma kid_leaves_app a b : kid_leaves (a ++ b) = kid_leaves a ++ kid_leaves b.
Proof.
  induction a as [|c a IH]; [done|]. cbn [app kid_leaves]. by rewrite IH, app_assoc.
Qed.

Lemma opt_kid_leaves k v :
  kid_leaves (opt_kid k v) = if nonempty v then [([TokKey k], v)] else [].
Proof. unfold opt_kid. by destruct (nonempty v). Qed.

Lemma arr_kid_leaves k vals :
  kid_leaves (arr_kid k vals) = map (fun v => ([TokKey k; TokAppend], v)) vals.
Proof.
  destruct vals as [|v vals]; [done|]. unfold arr_kid. cbn [kid_leaves].
  rewrite app_nil_r. cbn [leaves n_name default from_option]. unfold under.
  rewrite !map_map. done.
Qed.

Lemma obj_kid_leaves b k kids :
  kid_leaves (obj_kid b k kids) = if b then under k (kid_leaves kids) else [].
Proof.
  destruct b; [|done]. unfold obj_kid. cbn [kid_leaves]. rewrite app_nil_r.
  by rewrite leaves_obj.
Qed.

Lemma under_app k a b : under k (a ++ b) = under k a ++ under k b.
Proof. unfold under. apply map_app. Qed.

Lemma under_if k (b : bool) ls : under k (if b then ls else []) = if b then under k ls else [].
Proof. by destruct b. Qed.

Lemma at_state_if id (b : bool) ls :
  at_state id (if b then ls else []) = if b then at_state id ls else [].
Proof. by destruct b. Qed.

Lemma under_map k (f : cstr -> list cfg_tok) vals :
  under k (map (fun v => (f v, v)) vals) = map (fun v => (TokKey k :: f v, v)) vals.
Proof. unfold under. rewrite map_map. done. Qed.

Section Lines.
Context (id : cstr) (id_len : length id < IFNAMSIZ).

(** Solve [writes] for one call. *)
Ltac put_one :=
  match goal with
  | |- writes (put _ _ _) _ => apply put_writes; [exact id_len|reflexivity|compute_decide]
  | |- writes (put_u32 _ _ _) _ =>
    apply put_u32_writes; [exact id_len|reflexivity|compute_decide|assumption]
  | |- writes (put_all _ _ _) _ =>
    apply put_all_writes; [exact id_len|reflexivity|compute_decide]
  end.

Ltac put_seq :=
  repeat first
    [ put_one
    | apply writes_ret
    | rewrite at_state_if; apply writes_when
    | apply writes_bind ].

Lemma put_bridge_writes ds :
  writes (put_bridge id ds) (at_state id (under (#"bridge") (kid_leaves (bridge_kids ds)))).
Proof.
  unfold put_bridge, bridge_kids.
  rewrite !kid_leaves_app, !under_app, !at_state_app, arr_kid_leaves.
  change (kid_leaves [str_kid (#"name") (br_name ds);
    str_kid (#"addr_mode") (mode_text (br_addr_mode ds))]) with
    ([([TokKey (#"name")], br_name ds)] ++
     [([TokKey (#"addr_mode")], mode_text (br_addr_mode ds))]).
  rewrite under_app, at_state_app, <- app_assoc.
  apply writes_bind; [put_one|]. rewrite app_assoc. apply writes_bind.
  - destruct (br_addr_mode ds).
    + rewrite app_nil_r. put_one.
    + rewrite !kid_leaves_app, !under_app, !at_state_app, opt_kid_leaves, arr_kid_leaves.
      rewrite under_if. apply writes_bind; [put_one|]. apply writes_bind; [put_one|].
      apply writes_bind; [rewrite at_state_if; apply writes_when; put_one|].
      rewrite under_map. put_one.
    + apply writes_bind; put_one.
  - rewrite under_map. put_one.
Qed.

Ltac put_next := apply writes_bind; [put_one|].
Ltac put_when := rewrite at_state_if; apply writes_when; put_one.

Lemma put_vlan_writes ds :
  (0 <= vlan_id ds <= UINT32_MAX)%Z ->
  writes (put_vlan id ds) (at_state id (under (#"vlan") (kid_leaves (vlan_kids ds)))).
Proof.
  intros Hv. unfold put_vlan.
  assert (kid_leaves (vlan_kids ds) =
    [([TokKey (#"ifname")], vlan_ifname ds)] ++ [([TokKey (#"id")], fmt_u (vlan_id ds))] ++
    (if nonempty (vlan_link ds) then [([TokKey (#"link")], vlan_link ds)] else []) ++
    (if nonempty (vlan_bridge ds) then [([TokKey (#"bridge")], vlan_bridge ds)] else []))
    as ->.
  { unfold vlan_kids. by rewrite !kid_leaves_app, !opt_kid_leaves. }
  rewrite !under_app, !under_if, !at_state_app. do 2 put_next.
  apply writes_bind; put_when.
Qed.

Lemma put_wg_writes ds :
  writes (put_wg id ds) (at_state id (under (#"wg") (kid_leaves (wg_kids ds)))).
Proof.
  unfold put_wg. change (kid_leaves (wg_kids ds)) with
    ([([TokKey (#"ifname")], wg_ifname ds)] ++ [([TokKey (#"peer_ip")], wg_peer_ip ds)] ++
     [([TokKey (#"route_dev")], wg_route_dev ds)]).
  rewrite !under_app, !at_state_app. do 2 put_next. put_one.
Qed.

Lemma put_vxlan_writes ds :
  (0 <= vx_vni ds <= UINT32_MAX)%Z ->
  writes (put_vxlan id ds) (at_state id (under (#"vxlan") (kid_leaves (vxlan_kids ds)))).
Proof.
  intros Hv. unfold put_vxlan.
  assert (kid_leaves (vxlan_kids ds) =
    [([TokKey (#"ifname")], vx_ifname ds)] ++ [([TokKey (#"vni")], fmt_u (vx_vni ds))] ++
    [([TokKey (#"remote")], vx_remote ds)] ++
    (if nonempty (vx_dev ds) then [([TokKey (#"dev")], vx_dev ds)] else []) ++
    [([TokKey (#"bridge")], vx_bridge ds)]) as ->.
  { unfold vxlan_kids. by rewrite !kid_leaves_app, !opt_kid_leaves. }
  rewrite !under_app, !under_if, !at_state_app. do 3 put_next.
  apply writes_bind; [put_when|put_one].
Qed.

Lemma put_route_key_writes i key v :
  (0 <= i <= ULONG_MAX)%Z -> length key < 8 ->
  writes (put_route_key id i key v)
    (at_state id [([TokKey (#"routes"); TokKey (route_name i); TokKey key], v)]).
Proof.
  intros Hi Hk. unfold put_route_key.
  assert (length (#"routes.r" ++ fmt_d i ++ "."%char :: key) < 64) as Hl.
  { rewrite !length_app. cbn [length]. change (length (#"routes.r")) with 8.
    unfold fmt_d. destruct (Z.ltb_spec i 0); [lia|].
    destruct (fmt_u_spec i Hi) as [_ L]. lia. }
  eapply writes_lift.
  - unfold route_path, snprintf_trunc. by rewrite (proj2 (Nat.leb_gt _ _)).
  - apply put_writes; [exact id_len| |done]. unfold tail_of, sub_text, route_name.
    cbn [map concat tok_text app]. rewrite app_nil_r.
    change (#"routes.r") with (#"routes" ++ ["."%char; "r"%char]).
    by rewrite <- !app_assoc.
Qed.

Lemma put_routes_writes i rts :
  (0 <= i)%Z -> (i + Z.of_nat (length rts) <= UINT32_MAX)%Z ->
  writes (put_routes id i rts)
    (at_state id (under (#"routes") (kid_leaves (routes_kids i rts)))).
Proof.
  revert i. induction rts as [|rt rts IH]; intros i H0 Hi; [apply writes_ret|].
  cbn [put_routes routes_kids length] in *.
  assert (Hr : (0 <= i <= ULONG_MAX)%Z) by (unfold UINT32_MAX, ULONG_MAX in *; lia).
  assert (kid_leaves (Node CFG_OBJ (Some (route_name i)) None (route_kids rt)
      :: routes_kids (i + 1) rts) =
    [([TokKey (route_name i); TokKey (#"dst")], rt_dst rt)] ++
    [([TokKey (route_name i); TokKey (#"dev")], rt_dev rt)] ++
    (if rt_has_via rt then [([TokKey (route_name i); TokKey (#"via")], rt_via rt)] else [])
    ++ kid_leaves (routes_kids (i + 1) rts)) as ->.
  { cbn [kid_leaves]. rewrite leaves_obj. unfold route_kids.
    destruct (rt_has_via rt); reflexivity. }
  rewrite !under_app, under_if, !at_state_app, at_state_if.
  apply writes_bind; [apply put_route_key_writes; [done|compute_decide]|].
  apply writes_bind; [apply put_route_key_writes; [done|compute_decide]|].
  apply writes_bind;
    [apply writes_when, put_route_key_writes; [done|compute_decide]|].
  apply IH; lia.
Qed.
End Lines.

Lemma cfg_state_writes ds idx id :
  ds_wf ds -> (0 <= idx <= ULONG_MAX)%Z -> cfg_state_id ds IFNAMSIZ idx = Ok id ->
  writes (cfg_state ds idx) (at_state id (kid_leaves (state_kids ds))).
Proof.
  intros W Hi Hid. destruct (cfg_state_id_key ds idx id Hi Hid) as [_ Hl].
  unfold cfg_state. eapply writes_lift; [exact Hid|]. cbn beta.
  unfold state_kids. rewrite !kid_leaves_app, !obj_kid_leaves, !at_state_app, !at_state_if.
  apply writes_bind.
  { apply (put_writes id (#"scenario") [TokKey (#"scenario")]);
      [done|reflexivity|compute_decide]. }
  apply writes_bind; [by apply writes_when, put_bridge_writes|].
  apply writes_bind.
  { apply writes_when.
    by apply (put_writes id (#"uplink.ifname") [TokKey (#"uplink"); TokKey (#"ifname")]);
      [|reflexivity|compute_decide]. }
  apply writes_bind; [apply writes_when, put_vlan_writes; [done|apply W]|].
  apply writes_bind; [by apply writes_when, put_wg_writes|].
  apply writes_bind; [apply writes_when, put_vxlan_writes; [done|apply W]|].
  rewrite <- (app_nil_r (if negb _ then _ else _)). apply writes_bind.
  2: { intros f. cbn. by rewrite !app_nil_r. }
  destruct W. destruct ds_routes as [Hr _].
  destruct (routes ds) as [|rt rts]; [apply writes_ret|].
  apply put_routes_writes; [done|lia|unfold NR_DES_ROUTE4_MAX, UINT32_MAX in *; lia].
Qed.

Lemma cfg_set_writes idx set ids :
  Forall ds_wf set -> (0 <= idx)%Z -> (idx + Z.of_nat (length set) <= ULONG_MAX)%Z ->
  state_ids idx set = Ok ids ->
  writes (cfg_set_from idx set)
    (under (#"state") (kid_leaves (map state_node (zip ids set)))).
Proof.
  intros W. revert idx ids. induction W as [|ds set Wd W IH]; intros idx ids H0 Hl H;
    cbn [state_ids] in H; inv_ok; [apply writes_ret|].
  cbn [length] in Hl. cbn [cfg_set_from zip_with map kid_leaves]. rewrite under_app.
  apply writes_bind.
  - unfold state_node. rewrite leaves_obj. by apply cfg_state_writes; [|lia|].
  - apply IH; [lia|lia|done].
Qed.

(** *** States that can be written and read back *)

(** Every string of a state. *)
Definition ds_strings (ds : desired_state) : list cstr :=
  [scenario ds; br_name ds; br_addr ds; br_gateway ds; br_dhcp_cmd ds; up_ifname ds;
   vlan_ifname ds; vlan_link ds; vlan_bridge ds; wg_ifname ds; wg_peer_ip ds;
   wg_route_dev ds; vx_ifname ds; vx_remote ds; vx_dev ds; vx_bridge ds] ++
  br_dns ds ++ br_ports ds ++
  concat (map (fun r => [rt_dst r; rt_dev r; rt_via r]) (routes ds)).

(** Parts a state without a bridge, VLAN or tunnel leaves empty. *)
Definition no_bridge (ds : desired_state) : Prop :=
  br_name ds = [] /\ br_addr_mode ds = ADDR_NONE /\ br_addr ds = [] /\
  br_gateway ds = [] /\ br_dns ds = [] /\ br_dhcp_cmd ds = [] /\ br_ports ds = [].

Definition no_vlan (ds : desired_state) : Prop :=
  vlan_ifname ds = [] /\ vlan_id ds = 0%Z /\ vlan_link ds = [] /\ vlan_bridge ds = [].

Definition no_vxlan (ds : desired_state) : Prop :=
  wg_ifname ds = [] /\ wg_peer_ip ds = [] /\ wg_route_dev ds = [] /\
  vx_ifname ds = [] /\ vx_vni ds = 0%Z /\ vx_remote ds = [] /\ vx_dev ds = [] /\
  vx_bridge ds = [].

(** The parts a scenario has are named, the others are empty. *)
Definition parts_ok (ds : desired_state) : Prop :=
  (scenario ds ∈ SCN_UPLINK /\ up_ifname ds <> [] /\
   no_bridge ds /\ no_vlan ds /\ no_vxlan ds) \/
  (scenario ds ∈ SCN_BRIDGE /\ br_name ds <> [] /\ up_ifname ds <> [] /\
   no_vlan ds /\ no_vxlan ds) \/
  (scenario ds ∈ SCN_VLAN /\ br_name ds <> [] /\ up_ifname ds <> [] /\
   vlan_ifname ds <> [] /\ no_vxlan ds) \/
  (scenario ds ∈ SCN_WG /\ br_name ds <> [] /\ wg_ifname ds <> [] /\
   vx_ifname ds <> [] /\ no_vlan ds).

Record exportable (ds : desired_state) : Prop := {
  ex_ok : ds_ok ds;
  ex_text : Forall cstring (ds_strings ds);
  ex_dhcp : br_addr_mode ds <> ADDR_DHCP -> br_dhcp_cmd ds = [];
  ex_parts : parts_ok ds
}.

(** *** The tree is canonical and small *)

(** Short names and values, bounded depth. *)
Inductive small : nat -> cfg_node -> Prop :=
| small_str d nm v : length v < 256 -> small d (Node CFG_STR nm (Some v) [])
| small_arr d nm kids :
    Forall (fun c => length (val_or_empty c) < 256) kids ->
    small (S d) (Node CFG_ARR nm None kids)
| small_obj d nm kids :
    Forall (fun c => length (default [] (n_name c)) < 30 /\ small d c) kids ->
    small (S d) (Node CFG_OBJ nm None kids).

Definition leaf_small (d : nat) (l : leaf) : Prop :=
  length (fst l) <= d /\ Forall (fun t => length (tok_text t) <= 30) (fst l) /\
  length (snd l) < 256.

Lemma kid_leaves_Forall (P : leaf -> Prop) kids :
  Forall (fun c => Forall P (under (default [] (n_name c)) (leaves c))) kids ->
  Forall P (kid_leaves kids).
Proof.
  induction 1 as [|c kids Hc _ IH]; [constructor|]. cbn [kid_leaves].
  by apply Forall_app.
Qed.

Lemma small_leaves d n : small d n -> Forall (leaf_small d) (leaves n).
Proof.
  revert d. induction n as [t x v kids IH] using cfg_node_ind'. intros d H.
  inversion H as [? ? w Hw|? ? ? Hk|? ? ? Hk]; subst.
  - constructor; [|done]. split_and!; [cbn; lia|constructor|done].
  - cbn [leaves]. apply Forall_map. eapply Forall_impl; [exact Hk|].
    intros c Hc. split_and!; [cbn; lia| |done]. repeat constructor.
  - rewrite leaves_obj. apply kid_leaves_Forall.
    apply Forall_forall. intros c Hc.
    rewrite Forall_forall in Hk, IH. destruct (Hk c Hc) as [Hn Hs].
    unfold under. apply Forall_map. eapply Forall_impl; [by apply IH|].
    intros [ts w] (H1 & H2 & H3). split_and!; cbn in *; [lia| |done].
    constructor; [cbn; lia|done].
Qed.

Lemma esc_length c : length (esc c) <= 2.
Proof. unfold esc. repeat case_match; cbn; lia. Qed.

Lemma quoted_length v : length (quoted v) <= 2 * length v + 2.
Proof.
  unfold quoted. cbn [length]. rewrite length_app. cbn [length].
  enough (length (concat (map esc v)) <= 2 * length v) by lia.
  induction v as [|c v IH]; [done|]. cbn [map concat length].
  rewrite length_app. pose proof (esc_length c). lia.
Qed.

Lemma path_text_length ts :
  Forall (fun t => length (tok_text t) <= 30) ts -> length (path_text ts) <= 30 * length ts.
Proof.
  intros H. assert (length (sub_text ts) <= 30 * length ts) as Hs.
  { unfold sub_text. induction H as [|t ts Ht _ IH]; [done|].
    cbn [map concat length]. rewrite length_app. lia. }
  destruct ts as [|[k|z|] ts]; cbn [path_text length]; try lia.
  unfold sub_text in Hs. cbn [map concat tok_text length] in Hs.
  rewrite length_app in *. cbn [length] in *. lia.
Qed.

Lemma small_fits d l : d <= 10 -> leaf_small d l -> leaf_fits l.
Proof.
  intros Hd (H1 & H2 & H3). split.
  - unfold CFG_PATH_DEPTH_MAX. lia.
  - unfold line_text. rewrite !length_app. change (length (#" = ")) with 3.
    pose proof (quoted_length (snd l)). pose proof (path_text_length (fst l) H2).
    assert (4095 < CFG_LINE_SZ) by compute_decide. lia.
Qed.

(** A child that may stand in an object of depth [d + 1]. *)
Definition kid_good (d : nat) (c : cfg_node) : Prop :=
  (exists k, n_name c = Some k /\ key_ok k /\ length k < 30) /\ canon c /\ small d c.

Lemma obj_good d nm kids :
  kids <> [] -> Forall (kid_good d) kids -> NoDup (map n_name kids) ->
  canon (Node CFG_OBJ nm None kids) /\ small (S d) (Node CFG_OBJ nm None kids).
Proof.
  intros Hne Hk Hnd. split; constructor; try done.
  - eapply Forall_impl; [exact Hk|]. intros c ((k & ? & ? & _) & _). eauto.
  - eapply Forall_impl; [exact Hk|]. by intros c (_ & ? & _).
  - eapply Forall_impl; [exact Hk|]. intros c ((k & Hn & _ & Hl) & _ & Hs).
    by rewrite Hn.
Qed.

Lemma obj_kid_good d b k kids :
  key_ok k -> length k < 30 ->
  (b = true -> kids <> [] /\ Forall (kid_good d) kids /\ NoDup (map n_name kids)) ->
  Forall (kid_good (S d)) (obj_kid b k kids).
Proof.
  intros Hk Hl H. destruct b; [|constructor]. destruct H as (H1 & H2 & H3); [done|].
  constructor; [|constructor]. split; [by exists k|]. by apply obj_good.
Qed.

Lemma str_good d k v :
  key_ok k -> length k < 30 -> cstring v -> length v < 256 -> kid_good d (str_kid k v).
Proof. intros Hk Hl Hc Hv. split; [by exists k|]. split; by constructor. Qed.

Lemma opt_good d k v :
  key_ok k -> length k < 30 -> cstring v -> length v < 256 ->
  Forall (kid_good d) (opt_kid k v).
Proof.
  intros. unfold opt_kid. destruct (nonempty v); [|constructor].
  constructor; [by apply str_good|constructor].
Qed.

Lemma arr_good d k vals :
  key_ok k -> length k < 30 -> Forall cstring vals ->
  Forall (fun v => length v < 256) vals -> Forall (kid_good (S d)) (arr_kid k vals).
Proof.
  intros Hk Hl Hc Hv. destruct vals as [|v vals]; [constructor|].
  constructor; [|constructor]. split; [by exists k|]. split; constructor.
  - done.
  - apply Forall_map, Forall_true. done.
  - apply Forall_map. eapply Forall_impl; [exact Hc|]. intros w Hw. by constructor.
  - by apply Forall_map.
Qed.

Lemma digits_text v : (0 <= v <= UINT32_MAX)%Z ->
  cstring (fmt_u v) /\ length (fmt_u v) < 256.
Proof.
  intros Hv. destruct (fmt_u_spec v) as [(F & _) L];
    [unfold UINT32_MAX, ULONG_MAX in *; lia|]. split; [|lia].
  eapply Forall_impl; [exact F|]. intros c Hc ->. by vm_compute in Hc.
Qed.

Lemma fmt_d_inj a b :
  (0 <= a <= ULONG_MAX)%Z -> (0 <= b <= ULONG_MAX)%Z -> fmt_d a = fmt_d b -> a = b.
Proof.
  intros Ha Hb H. unfold fmt_d in H.
  destruct (Z.ltb_spec a 0); [lia|]. destruct (Z.ltb_spec b 0); [lia|].
  destruct (fmt_u_spec a Ha) as [(_ & Ea & _) _].
  destruct (fmt_u_spec b Hb) as [(_ & Eb & _) _]. congruence.
Qed.

Lemma routes_kids_names i rts x :
  x ∈ map n_name (routes_kids i rts) ->
  exists j, (i <= j < i + Z.of_nat (length rts))%Z /\ x = Some (route_name j).
Proof.
  revert i. induction rts as [|rt rts IH]; intros i H; cbn [routes_kids map length] in *.
  { by apply not_elem_of_nil in H. }
  apply elem_of_cons in H as [->|H]; [exists i; split; [lia|done]|].
  apply IH in H as (j & Hj & ->). exists j. split; [lia|done].
Qed.

Lemma routes_kids_NoDup i rts :
  (0 <= i)%Z -> (i + Z.of_nat (length rts) <= ULONG_MAX)%Z ->
  NoDup (map n_name (routes_kids i rts)).
Proof.
  revert i. induction rts as [|rt rts IH]; intros i H0 H; cbn [routes_kids map length] in *.
  { constructor. }
  constructor; [|apply IH; lia]. intros Hin.
  apply routes_kids_names in Hin as (j & Hj & [= E]).
  apply fmt_d_inj in E; lia.
Qed.

Lemma route_name_ok i : (0 <= i <= UINT32_MAX)%Z ->
  key_ok (route_name i) /\ length (route_name i) < 30.
Proof.
  intros Hi. unfold route_name, fmt_d. destruct (Z.ltb_spec i 0); [lia|].
  destruct (fmt_u_spec i) as [(F & _) L]; [unfold UINT32_MAX, ULONG_MAX in *; lia|].
  split; [split_and!|cbn [length]; lia].
  - done.
  - constructor; [done|]. eapply Forall_impl; [exact F|]. apply isdigit_key.
  - cbn [length]. unfold CFG_PATH_SEG_MAX. lia.
Qed.

(** Lengths of array fields. *)
Ltac len256 := unfold fits, IFNAMSIZ, INET_ADDRSTRLEN in *; lia.

(** A literal name with a text that fits. *)
Ltac good_one :=
  match goal with
  | |- kid_good _ (str_kid _ _) =>
    apply str_good; [compute_decide|compute_decide|done|len256]
  | |- Forall (kid_good _) (opt_kid _ _) =>
    apply opt_good; [compute_decide|compute_decide|done|len256]
  | |- Forall (kid_good _) [] => constructor
  | |- Forall (kid_good _) [_] => constructor; [good_one|constructor]
  | |- Forall (kid_good _) (_ :: _) => constructor
  | |- Forall (kid_good _) (_ ++ _) => apply Forall_app; split
  end.
Ltac goods := repeat good_one.

Section Trees.
Context (ds : desired_state) (W : ds_wf ds) (T : Forall cstring (ds_strings ds)).

Lemma texts :
  Forall cstring [scenario ds; br_name ds; br_addr ds; br_gateway ds; br_dhcp_cmd ds;
    up_ifname ds; vlan_ifname ds; vlan_link ds; vlan_bridge ds; wg_ifname ds;
    wg_peer_ip ds; wg_route_dev ds; vx_ifname ds; vx_remote ds; vx_dev ds; vx_bridge ds] /\
  Forall cstring (br_dns ds) /\ Forall cstring (br_ports ds) /\
  Forall (fun r => cstring (rt_dst r) /\ cstring (rt_dev r) /\ cstring (rt_via r)) (routes ds).
Proof.
  unfold ds_strings in T. rewrite !Forall_app in T.
  destruct T as (T1 & T2 & T3 & T4). split; [done|]. split; [done|]. split; [done|].
  rewrite Forall_concat, Forall_map in T4. eapply Forall_impl; [exact T4|].
  intros r Hr. cbn in Hr. rewrite !Forall_cons in Hr. tauto.
Qed.

(** Every text and length fact of the state. *)
Ltac ds_facts :=
  destruct texts as (T1 & T2 & T3 & T4); rewrite !Forall_cons in T1;
  repeat match goal with H : _ /\ _ |- _ => destruct H end; destruct W;
  repeat match goal with H : _ /\ _ |- _ => destruct H end.

Lemma bridge_good :
  Forall (kid_good 1) (bridge_kids ds) /\ NoDup (map n_name (bridge_kids ds)).
Proof.
  ds_facts. split.
  - unfold bridge_kids.
    assert (kid_good 1 (str_kid (#"addr_mode") (mode_text (br_addr_mode ds)))).
    { apply str_good; [compute_decide|compute_decide| |]; destruct (br_addr_mode ds);
        compute_decide. }
    assert (Forall (kid_good 1) (arr_kid (#"dns") (br_dns ds))).
    { apply arr_good; [compute_decide|compute_decide|done|].
      eapply Forall_impl; [eassumption|]. intros v Hv. len256. }
    assert (Forall (kid_good 1) (arr_kid (#"ports") (br_ports ds))).
    { apply arr_good; [compute_decide|compute_decide|done|].
      eapply Forall_impl; [eassumption|]. intros v Hv. len256. }
    apply Forall_app. split; [constructor; [good_one|by constructor]|].
    apply Forall_app. split; [|done]. destruct (br_addr_mode ds); goods; done.
  - unfold bridge_kids, opt_kid, arr_kid.
    destruct (br_addr_mode ds), (nonempty (br_gateway ds)), (br_dns ds), (br_ports ds);
      compute_decide.
Qed.

Lemma vlan_good :
  Forall (kid_good 1) (vlan_kids ds) /\ NoDup (map n_name (vlan_kids ds)).
Proof.
  ds_facts. destruct (digits_text (vlan_id ds)) as [D1 D2]; [lia|]. split.
  - unfold vlan_kids. goods.
  - unfold vlan_kids, opt_kid. destruct (nonempty (vlan_link ds)), (nonempty (vlan_bridge ds));
      compute_decide.
Qed.

Lemma wg_good : Forall (kid_good 1) (wg_kids ds) /\ NoDup (map n_name (wg_kids ds)).
Proof. ds_facts. split; [unfold wg_kids; goods|compute_decide]. Qed.

Lemma vxlan_good :
  Forall (kid_good 1) (vxlan_kids ds) /\ NoDup (map n_name (vxlan_kids ds)).
Proof.
  ds_facts. destruct (digits_text (vx_vni ds)) as [D1 D2]; [lia|]. split.
  - unfold vxlan_kids. goods.
  - unfold vxlan_kids, opt_kid. destruct (nonempty (vx_dev ds)); compute_decide.
Qed.

Lemma routes_good i rts :
  (0 <= i)%Z -> (i + Z.of_nat (length rts) <= UINT32_MAX)%Z ->
  Forall route_wf rts ->
  Forall (fun r => cstring (rt_dst r) /\ cstring (rt_dev r) /\ cstring (rt_via r)) rts ->
  Forall (kid_good 1) (routes_kids i rts).
Proof.
  intros H0 Hi Hw Hc. revert i H0 Hi.
  induction Hw as [|rt rts Hr Hw IH]; intros i H0 Hi; [constructor|].
  apply Forall_cons in Hc as [(C1 & C2 & C3) Hc]. cbn [length] in Hi. destruct Hr.
  cbn [routes_kids]. constructor; [|apply IH; [done|lia|lia]].
  destruct (route_name_ok i) as [K1 K2]; [lia|].
  split; [by exists (route_name i)|]. apply obj_good; [done| |].
  - unfold route_kids. destruct (rt_has_via rt); goods.
  - unfold route_kids. destruct (rt_has_via rt); compute_decide.
Qed.

Lemma state_good :
  Forall (kid_good 2) (state_kids ds) /\ NoDup (map n_name (state_kids ds)).
Proof.
  split.
  - unfold state_kids. destruct bridge_good as [B1 B2], vlan_good as [V1 V2],
      wg_good as [G1 G2], vxlan_good as [X1 X2].
    assert (R : routes ds <> [] -> Forall (kid_good 1) (routes_kids 0 (routes ds)) /\
      NoDup (map n_name (routes_kids 0 (routes ds)))).
    { ds_facts. unfold NR_DES_ROUTE4_MAX, UINT32_MAX, ULONG_MAX in *. intros _.
      split; [apply routes_good|apply routes_kids_NoDup];
        done || (unfold UINT32_MAX, ULONG_MAX; lia). }
    apply Forall_app. split; [ds_facts; goods|].
    repeat (apply Forall_app; split); apply obj_kid_good; try compute_decide; intros Hb.
    + split; [done|]. done.
    + split; [done|]. split; [ds_facts; goods|compute_decide].
    + split; [done|]. done.
    + split; [done|]. done.
    + split; [done|]. done.
    + apply negb_true_iff, bool_decide_eq_false in Hb.
      split; [by destruct (routes ds)|]. by apply R.
  - unfold state_kids, obj_kid.
    destruct (nonempty (br_name ds)), (nonempty (up_ifname ds)), (nonempty (vlan_ifname ds)),
      (nonempty (wg_ifname ds)), (nonempty (vx_ifname ds)),
      (negb (bool_decide (routes ds = []))); compute_decide.
Qed.

End Trees.

(** *** Loading the tree *)

Lemma cfg_child_find nm v kids k :
  cfg_child (Node CFG_OBJ nm v kids) k = find (name_is k) kids.
Proof.
  unfold cfg_child, obj_find. cbn [has_type n_type n_kids]. symmetry. apply find_idx_find.
Qed.

Lemma nonempty_false s : nonempty s = false <-> s = [].
Proof. unfold nonempty. by rewrite negb_false_iff, bool_decide_eq_true. Qed.

Lemma nonempty_true s : nonempty s = true <-> s <> [].
Proof. unfold nonempty. by rewrite negb_true_iff, bool_decide_eq_false. Qed.

Lemma get_str_some nm kids k v sz req :
  find (name_is k) kids = Some (str_kid k v) -> fits sz v ->
  get_str (Node CFG_OBJ nm None kids) k sz req = Ok v.
Proof.
  intros H Hf. unfold get_str. rewrite cfg_child_find, H.
  cbn [has_type n_type str_kid bool_decide decide cpy n_val]. f_equal. by apply snprintf_fit.
Qed.

Lemma get_str_none nm kids k sz :
  find (name_is k) kids = None -> get_str (Node CFG_OBJ nm None kids) k sz false = Ok [].
Proof. intros H. unfold get_str. by rewrite cfg_child_find, H. Qed.

(** An optional child gives its text whether or not it is there. *)
Lemma get_str_opt nm kids k v sz :
  find (name_is k) kids = (if nonempty v then Some (str_kid k v) else None) -> fits sz v ->
  get_str (Node CFG_OBJ nm None kids) k sz false = Ok v.
Proof.
  intros H Hf. destruct (nonempty v) eqn:E; [by apply get_str_some|].
  apply nonempty_false in E. subst. by apply get_str_none.
Qed.

Lemma arr_loop_items sz max vals dst :
  Forall (fits sz) vals -> length dst + length vals <= max ->
  arr_loop sz max (map (fun v => Node CFG_STR None (Some v) []) vals) dst = Ok (dst ++ vals).
Proof.
  intros H. revert dst. induction H as [|v vals Hv _ IH]; intros dst Hl; cbn [map arr_loop length] in *.
  { by rewrite app_nil_r. }
  cbn [has_type n_type bool_decide decide negb]. rewrite (proj2 (Nat.leb_gt _ _)) by lia.
  cbn [n_val cpy]. rewrite snprintf_fit by done.
  change (negb (has_type CFG_STR (Node CFG_STR None (Some v) []))) with false. cbn iota.
  rewrite IH by (rewrite length_app; cbn; lia). by rewrite <- app_assoc.
Qed.

Lemma get_arr_kid nm kids k vals sz max :
  find (name_is k) kids = head (arr_kid k vals) ->
  Forall (fits sz) vals -> length vals <= max ->
  get_arr sz (Node CFG_OBJ nm None kids) k max = Ok vals.
Proof.
  intros H Hf Hl. unfold get_arr. rewrite cfg_child_find, H.
  destruct vals as [|v vals]; [done|]. cbn [arr_kid head]. 
  change (negb (has_type CFG_ARR _)) with false. cbn iota.
  unfold cfg_children. cbn [n_kids]. by rewrite arr_loop_items.
Qed.

(** The number text reads back as the number. *)
Lemma scan_base_dec c t : c <> "0"%char -> scan_base (c :: t) = (10%Z, c :: t).
Proof.
  intros Hc. apply Ascii.eqb_neq in Hc. unfold scan_base.
  destruct t as [|x [|d t]]; by rewrite Hc.
Qed.

Lemma strtoul0_fmt v :
  (0 <= v <= UINT32_MAX)%Z -> strtoul0 (fmt_u v) = Strto v [] true false.
Proof.
  intros Hv. destruct (Z.eq_dec v 0) as [->|Hn]; [done|].
  destruct (fmt_u_spec v) as [(F & E & Hz & Hne) _];
    [unfold UINT32_MAX, ULONG_MAX in *; lia|].
  assert (D : Forall (fun c => is_base_digit 10 c = true) (fmt_u v)).
  { eapply Forall_impl; [exact F|]. apply isdigit_base10. }
  destruct (fmt_u v) as [|c t] eqn:Et; [done|].
  assert (c <> "0"%char) as Hc by (intros ->; by apply Hn, Hz).
  pose proof F as [Fc _]%Forall_cons.
  destruct (isdigit_other c Fc) as (S1 & S2 & S3 & _ & _).
  unfold strtoul0. cbn [drop_while]. rewrite S1. cbn [scan_sign]. rewrite S2, S3.
  rewrite scan_base_dec by done. rewrite take_while_all, drop_while_all by done.
  rewrite E. rewrite Z.gtb_ltb, (proj2 (Z.ltb_ge _ _)); [done|].
  unfold UINT32_MAX, ULONG_MAX in *. lia.
Qed.

Lemma get_u32_some nm kids k v :
  find (name_is k) kids = Some (str_kid k (fmt_u v)) -> (0 <= v <= UINT32_MAX)%Z ->
  get_u32 (Node CFG_OBJ nm None kids) k = Ok v.
Proof.
  intros H Hv. unfold get_u32. rewrite cfg_child_find, H.
  change (negb (has_type CFG_STR (str_kid k (fmt_u v)))) with false. cbn iota.
  unfold str_kid. cbn [n_val]. unfold parse_u32_str.
  destruct (fmt_u_spec v) as [(_ & _ & _ & Hne) _];
    [unfold UINT32_MAX, ULONG_MAX in *; lia|].
  destruct (fmt_u v) as [|c t] eqn:Et; [done|]. rewrite <- Et, strtoul0_fmt by done.
  cbn [sto_range sto_rest sto_val]. rewrite bool_decide_eq_true_2 by done. cbn [orb negb].
  by rewrite Z.gtb_ltb, (proj2 (Z.ltb_ge _ _)) by lia.
Qed.

Section LoadState.
Context (nm : option cstr) (ds : desired_state) (X : exportable ds).
Let root : cfg_node := Node CFG_OBJ nm None (state_kids ds).

(** What the state node has under each key. *)
Ltac find_state :=
  unfold root; rewrite cfg_child_find; unfold state_kids, obj_kid;
  destruct (nonempty (br_name ds)), (nonempty (up_ifname ds)), (nonempty (vlan_ifname ds)),
    (nonempty (wg_ifname ds)), (nonempty (vx_ifname ds)),
    (negb (bool_decide (routes ds = []))); reflexivity.

Lemma child_bridge : cfg_child root (#"bridge") =
  if nonempty (br_name ds)
  then Some (Node CFG_OBJ (Some (#"bridge")) None (bridge_kids ds)) else None.
Proof. find_state. Qed.

Lemma child_uplink : cfg_child root (#"uplink") =
  if nonempty (up_ifname ds)
  then Some (Node CFG_OBJ (Some (#"uplink")) None [str_kid (#"ifname") (up_ifname ds)])
  else None.
Proof. find_state. Qed.

Lemma child_vlan : cfg_child root (#"vlan") =
  if nonempty (vlan_ifname ds)
  then Some (Node CFG_OBJ (Some (#"vlan")) None (vlan_kids ds)) else None.
Proof. find_state. Qed.

Lemma child_wg : cfg_child root (#"wg") =
  if nonempty (wg_ifname ds)
  then Some (Node CFG_OBJ (Some (#"wg")) None (wg_kids ds)) else None.
Proof. find_state. Qed.

Lemma child_vxlan : cfg_child root (#"vxlan") =
  if nonempty (vx_ifname ds)
  then Some (Node CFG_OBJ (Some (#"vxlan")) None (vxlan_kids ds)) else None.
Proof. find_state. Qed.

Lemma child_routes : cfg_child root (#"routes") =
  if negb (bool_decide (routes ds = []))
  then Some (Node CFG_OBJ (Some (#"routes")) None (routes_kids 0 (routes ds))) else None.
Proof. find_state. Qed.

Lemma obj_child_some k n kids :
  cfg_child root k = Some (Node CFG_OBJ n None kids) ->
  obj_child root k = Ok (Node CFG_OBJ n None kids).
Proof. intros H. unfold obj_child. by rewrite H. Qed.

(** What the bridge node has under each key. *)
Lemma bridge_find :
  find (name_is (#"addr")) (bridge_kids ds) =
    (if bool_decide (br_addr_mode ds = ADDR_STATIC)
     then Some (str_kid (#"addr") (br_addr ds)) else None) /\
  find (name_is (#"gateway")) (bridge_kids ds) =
    (if bool_decide (br_addr_mode ds = ADDR_STATIC) then
       if nonempty (br_gateway ds) then Some (str_kid (#"gateway") (br_gateway ds)) else None
     else None) /\
  find (name_is (#"dns")) (bridge_kids ds) =
    (if bool_decide (br_addr_mode ds = ADDR_STATIC)
     then head (arr_kid (#"dns") (br_dns ds)) else None) /\
  find (name_is (#"dhcp_cmd")) (bridge_kids ds) =
    (if bool_decide (br_addr_mode ds = ADDR_DHCP)
     then Some (str_kid (#"dhcp_cmd") (br_dhcp_cmd ds)) else None) /\
  find (name_is (#"ports")) (bridge_kids ds) = head (arr_kid (#"ports") (br_ports ds)).
Proof.
  unfold bridge_kids, opt_kid, arr_kid.
  destruct (br_addr_mode ds), (nonempty (br_gateway ds)), (br_dns ds), (br_ports ds);
    split_and!; reflexivity.
Qed.

Lemma bridge_mode_tree :
  bridge_mode (mode_text (br_addr_mode ds)) (br_addr ds) (br_dhcp_cmd ds)
  = Ok (br_addr_mode ds).
Proof.
  destruct X as [[_ M _] _ _ _]. destruct M. unfold bridge_mode.
  destruct (br_addr_mode ds) eqn:E; cbn [mode_text].
  - rewrite (bool_decide_eq_true_2 (br_addr ds = [])); [reflexivity|].
    destruct (decide (br_addr ds = [])) as [|Hn]; [done|].
    by apply mode_static in Hn.
  - rewrite (bool_decide_eq_false_2 (br_addr ds = [])); [reflexivity|].
    by apply mode_static.
  - rewrite (bool_decide_eq_true_2 (br_addr ds = [])).
    + rewrite (bool_decide_eq_false_2 (br_dhcp_cmd ds = [])); [reflexivity|by apply mode_dhcp].
    + destruct (decide (br_addr ds = [])) as [|Hn]; [done|]. by apply mode_static in Hn.
Qed.

Lemma load_bridge_tree ds0 :
  br_name ds <> [] ->
  load_bridge root ds0 = Ok (ds0 <| br_name := br_name ds |> <| br_addr := br_addr ds |>
    <| br_gateway := br_gateway ds |> <| br_dns := br_dns ds |>
    <| br_dhcp_cmd := br_dhcp_cmd ds |> <| br_addr_mode := br_addr_mode ds |>
    <| br_ports := br_ports ds |>).
Proof.
  intros Hb. apply nonempty_true in Hb. pose proof child_bridge as C. rewrite Hb in C.
  pose proof bridge_mode_tree as Bm. pose proof bridge_find as (F1 & F2 & F3 & F4 & F5).
  destruct X as [[W M R] _ Hd _]. destruct W, M.
  unfold load_bridge. rewrite (obj_child_some _ _ _ C). cbn [mbind result_bind].
  set (br := Node CFG_OBJ (Some (#"bridge")) None (bridge_kids ds)).
  assert (G1 : get_str br (#"name") IFNAMSIZ true = Ok (br_name ds)).
  { apply get_str_some; [reflexivity|done]. }
  assert (G2 : get_str br (#"addr_mode") 16 false = Ok (mode_text (br_addr_mode ds))).
  { apply get_str_some; [reflexivity|]. destruct (br_addr_mode ds); compute_decide. }
  assert (G : br_addr_mode ds <> ADDR_STATIC ->
    br_addr ds = [] /\ br_gateway ds = [] /\ br_dns ds = []).
  { intros Hs. split_and!; [destruct (decide (br_addr ds = [])) as [|Hn]
    |destruct (decide (br_gateway ds = [])) as [|Hn]
    |destruct (decide (br_dns ds = [])) as [|Hn]]; try done;
    destruct Hs; [by apply mode_static|by apply mode_gateway|by apply mode_dns]. }
  assert (G3 : get_str br (#"addr") 32 false = Ok (br_addr ds) /\
    get_str br (#"gateway") INET_ADDRSTRLEN false = Ok (br_gateway ds) /\
    get_dns_arr br (#"dns") NR_DES_DNS4_MAX = Ok (br_dns ds)).
  { destruct (decide (br_addr_mode ds = ADDR_STATIC)) as [E|E].
    - rewrite (bool_decide_eq_true_2 _ E) in F1, F2, F3. split_and!.
      + by apply get_str_some.
      + by apply get_str_opt.
      + apply get_arr_kid; [done|apply ds_br_dns|apply ds_br_dns].
    - rewrite (bool_decide_eq_false_2 _ E) in F1, F2, F3.
      destruct (G E) as (-> & -> & ->).
      split_and!; [by apply get_str_none|by apply get_str_none|].
      by apply get_arr_kid; [|constructor|cbn; lia]. }
  destruct G3 as (G3 & G4 & G5).
  assert (G6 : get_str br (#"dhcp_cmd") 128 false = Ok (br_dhcp_cmd ds)).
  { destruct (decide (br_addr_mode ds = ADDR_DHCP)) as [E|E].
    - rewrite (bool_decide_eq_true_2 _ E) in F4. by apply get_str_some.
    - rewrite (bool_decide_eq_false_2 _ E) in F4. rewrite Hd by done.
      by apply get_str_none. }
  assert (G7 : get_str_arr br (#"ports") NR_BR_PORT_MAX = Ok (br_ports ds)).
  { apply get_arr_kid; [done|apply ds_br_ports|apply ds_br_ports]. }
  rewrite G1, G2, G3, G4, G5, G6. cbn [mbind result_bind]. rewrite Bm, G7.
  cbn [mbind result_bind].
  destruct (decide (br_addr_mode ds = ADDR_STATIC)) as [E|E].
  - rewrite (bool_decide_eq_true_2 _ E). by rewrite !andb_false_r.
  - destruct (G E) as (_ & -> & ->). done.
Qed.

Lemma load_uplink_tree ds0 :
  up_ifname ds <> [] ->
  load_uplink root ds0 = Ok (ds0 <| up_ifname := up_ifname ds |>).
Proof.
  intros Hb. apply nonempty_true in Hb. pose proof child_uplink as C. rewrite Hb in C.
  destruct X as [[W _ _] _ _ _]. destruct W.
  unfold load_uplink. rewrite (obj_child_some _ _ _ C). cbn [mbind result_bind].
  rewrite (get_str_some _ _ _ (up_ifname ds)); [done|reflexivity|done].
Qed.

Lemma load_vlan_tree ds0 :
  vlan_ifname ds <> [] -> up_ifname ds0 = up_ifname ds -> br_name ds0 = br_name ds ->
  vlan_link ds = up_ifname ds -> vlan_bridge ds = br_name ds ->
  load_vlan root ds0 = Ok (ds0 <| vlan_ifname := vlan_ifname ds |>
    <| vlan_id := vlan_id ds |> <| vlan_link := vlan_link ds |>
    <| vlan_bridge := vlan_bridge ds |>).
Proof.
  intros Hb Eu Eb El Eg. apply nonempty_true in Hb. pose proof child_vlan as C.
  rewrite Hb in C. destruct X as [[W _ _] _ _ _]. destruct W.
  unfold load_vlan. rewrite (obj_child_some _ _ _ C). cbn [mbind result_bind].
  rewrite (get_str_some _ _ (#"ifname") (vlan_ifname ds)); [|reflexivity|done].
  rewrite (get_u32_some _ _ (#"id") (vlan_id ds)); [|reflexivity|done].
  rewrite (get_str_opt _ _ (#"link") (vlan_link ds)); [| |done].
  2: { unfold vlan_kids, opt_kid.
       destruct (nonempty (vlan_link ds)), (nonempty (vlan_bridge ds)); reflexivity. }
  rewrite (get_str_opt _ _ (#"bridge") (vlan_bridge ds)); [| |done].
  2: { unfold vlan_kids, opt_kid.
       destruct (nonempty (vlan_link ds)), (nonempty (vlan_bridge ds)); reflexivity. }
  cbn [mbind result_bind]. rewrite Eu, Eb, <- El, <- Eg. cbn [cpy].
  rewrite !snprintf_fit by done.
  assert (forall s : cstr, (if bool_decide (s = []) then s else s) = s) as Es
    by (intros s; by destruct (bool_decide _)).
  rewrite !Es, !streq_refl. done.
Qed.

Lemma load_wg_tree ds0 :
  wg_ifname ds <> [] -> vx_ifname ds <> [] -> br_name ds0 = br_name ds ->
  vx_bridge ds = br_name ds -> (vx_dev ds = [] \/ vx_dev ds = wg_ifname ds) ->
  load_wg_vxlan root ds0 = Ok (ds0 <| wg_ifname := wg_ifname ds |>
    <| wg_peer_ip := wg_peer_ip ds |> <| wg_route_dev := wg_route_dev ds |>
    <| vx_ifname := vx_ifname ds |> <| vx_vni := vx_vni ds |>
    <| vx_remote := vx_remote ds |> <| vx_dev := vx_dev ds |>
    <| vx_bridge := vx_bridge ds |>).
Proof.
  intros Hw Hx Eb Ebr Ed. apply nonempty_true in Hw, Hx.
  pose proof child_wg as Cw. rewrite Hw in Cw.
  pose proof child_vxlan as Cx. rewrite Hx in Cx.
  destruct X as [[W _ _] _ _ _]. destruct W.
  unfold load_wg_vxlan. rewrite (obj_child_some _ _ _ Cw), (obj_child_some _ _ _ Cx).
  cbn [mbind result_bind].
  rewrite (get_str_some _ (wg_kids ds) (#"ifname") (wg_ifname ds)); [|reflexivity|done].
  rewrite (get_str_some _ (wg_kids ds) (#"peer_ip") (wg_peer_ip ds)); [|reflexivity|done].
  rewrite (get_str_some _ (wg_kids ds) (#"route_dev") (wg_route_dev ds)); [|reflexivity|done].
  rewrite (get_str_some _ (vxlan_kids ds) (#"ifname") (vx_ifname ds)); [|reflexivity|done].
  rewrite (get_u32_some _ _ (#"vni") (vx_vni ds)); [|reflexivity|done].
  rewrite (get_str_some _ (vxlan_kids ds) (#"remote") (vx_remote ds)); [|reflexivity|done].
  rewrite (get_str_opt _ (vxlan_kids ds) (#"dev") (vx_dev ds)); [| |done].
  2: { unfold vxlan_kids, opt_kid. destruct (nonempty (vx_dev ds)); reflexivity. }
  rewrite (get_str_some _ (vxlan_kids ds) (#"bridge") (vx_bridge ds)); [| |done].
  2: { unfold vxlan_kids, opt_kid. destruct (nonempty (vx_dev ds)); reflexivity. }
  cbn [mbind result_bind]. rewrite Eb, <- Ebr, streq_refl.
  assert (negb (bool_decide (vx_dev ds = [])) && negb (streq (vx_dev ds) (wg_ifname ds))
    = false) as ->; [|done].
  destruct Ed as [->| ->]; [done|]. by rewrite streq_refl, andb_false_r.
Qed.

Lemma load_route_tree n rt :
  route_wf rt -> (rt_has_via rt = true <-> rt_via rt <> []) ->
  load_route (Node CFG_OBJ n None (route_kids rt)) = Ok rt.
Proof.
  intros [W1 W2 W3] Hv. unfold load_route.
  rewrite (get_str_some _ _ (#"dst") (rt_dst rt)); [|reflexivity|done].
  rewrite (get_str_some _ _ (#"dev") (rt_dev rt)); [|reflexivity|done].
  cbn [mbind result_bind].
  assert (E : nonempty (rt_via rt) = rt_has_via rt).
  { destruct (rt_has_via rt) eqn:E; [apply nonempty_true; tauto|].
    apply not_true_iff_false. rewrite nonempty_true, <- Hv. done. }
  rewrite (get_str_opt _ _ (#"via") (rt_via rt)); [| |done].
  2: { unfold route_kids. rewrite E. by destruct (rt_has_via rt). }
  cbn [mbind result_bind]. fold (nonempty (rt_via rt)). rewrite E. by destruct rt.
Qed.

Lemma routes_loop_tree i rts acc :
  Forall route_wf rts -> Forall (fun r => rt_has_via r = true <-> rt_via r <> []) rts ->
  length acc + length rts <= NR_DES_ROUTE4_MAX ->
  routes_loop (routes_kids i rts) acc = Ok (acc ++ rts).
Proof.
  intros Hw. revert i acc. induction Hw as [|rt rts Hr Hw IH]; intros i acc Hv Hl;
    cbn [routes_kids routes_loop length] in *; [by rewrite app_nil_r|].
  apply Forall_cons in Hv as [Hv1 Hv].
  change (negb (has_type CFG_OBJ (Node CFG_OBJ _ _ _))) with false. cbn iota.
  rewrite (proj2 (Nat.leb_gt _ _)) by lia. rewrite load_route_tree by done.
  cbn [mbind result_bind].
  rewrite IH; [by rewrite <- app_assoc|done|rewrite length_app; cbn; lia].
Qed.

Lemma load_routes_tree ds0 :
  load_routes root ds0 = Ok (ds0 <| routes := routes ds |>).
Proof.
  pose proof child_routes as C. destruct X as [[W _ R] _ _ _].
  destruct W, R. destruct ds_routes as [Rl Rw]. unfold load_routes. rewrite C.
  case_bool_decide as E; cbn [negb]; [by rewrite E|].
  change (negb (has_type CFG_OBJ (Node CFG_OBJ _ _ _))) with false. cbn iota.
  unfold cfg_children. cbn [n_kids].
  rewrite routes_loop_tree; [done|done|done|cbn; lia].
Qed.

Lemma load_scenario_tree :
  load_scenario root (ds_zero <| scenario := scenario ds |>) = Ok (ds <| routes := [] |>).
Proof.
  pose proof (scn_disjoint (scenario ds)) as (D1 & D2 & D3).
  pose proof load_bridge_tree as LB. pose proof load_uplink_tree as LU.
  pose proof load_vlan_tree as LV. pose proof load_wg_tree as LW.
  pose proof child_uplink as CU.
  destruct X as [[_ _ R] _ _ P]. destruct R.
  unfold load_scenario, is_scn. cbn [scenario ds_zero set_field].
  rewrite !scn_bool. fold SCN_UPLINK SCN_BRIDGE SCN_VLAN.
  destruct P as [(S & Hu & NB & NV & NX)|[(S & Hb & Hu & NV & NX)|
    [(S & Hb & Hu & Hv & NX)|(S & Hb & Hw & Hx & NV)]]].
  - rewrite (bool_decide_eq_true_2 _ S), LU by done.
    unfold no_bridge, no_vlan, no_vxlan in *. destruct_and!.
    f_equal. apply ds_ext; cbn; congruence.
  - destruct (decide (scenario ds ∈ SCN_UPLINK)) as [S1|S1]; [tauto|].
    rewrite (bool_decide_eq_false_2 _ S1), (bool_decide_eq_true_2 _ S).
    rewrite LB by done. cbn [mbind result_bind]. rewrite LU by done.
    unfold no_vlan, no_vxlan in *. destruct_and!. f_equal. apply ds_ext; cbn; congruence.
  - destruct (decide (scenario ds ∈ SCN_UPLINK)) as [S1|S1]; [tauto|].
    destruct (decide (scenario ds ∈ SCN_BRIDGE)) as [S2|S2]; [tauto|].
    rewrite (bool_decide_eq_false_2 _ S1), (bool_decide_eq_false_2 _ S2),
      (bool_decide_eq_true_2 _ S).
    rewrite LB by done. cbn [mbind result_bind]. rewrite LU by done.
    cbn [mbind result_bind]. destruct (refs_vlan S) as [L1 L2].
    rewrite LV by done. unfold no_vxlan in *. destruct_and!.
    f_equal. apply ds_ext; cbn; congruence.
  - destruct (decide (scenario ds ∈ SCN_UPLINK)) as [S1|S1]; [tauto|].
    destruct (decide (scenario ds ∈ SCN_BRIDGE)) as [S2|S2]; [tauto|].
    destruct (decide (scenario ds ∈ SCN_VLAN)) as [S3|S3]; [tauto|].
    rewrite (bool_decide_eq_false_2 _ S1), (bool_decide_eq_false_2 _ S2),
      (bool_decide_eq_false_2 _ S3).
    destruct (refs_vxlan S) as [L1 L2].
    assert (streq (scenario ds) (#"wg_vxlan_bridge") = true) as ->.
    { apply streq_true. by apply list_elem_of_singleton in S. }
    rewrite LB by done. cbn [mbind result_bind]. rewrite CU.
    unfold no_vlan in *. destruct_and!.
    destruct (nonempty (up_ifname ds)) eqn:Eu.
    + apply nonempty_true in Eu. rewrite LU by done. cbn [mbind result_bind].
      rewrite LW by done. f_equal. apply ds_ext; cbn; congruence.
    + apply nonempty_false in Eu. cbn [mbind result_bind]. rewrite LW by done.
      f_equal. apply ds_ext; cbn; congruence.
Qed.

Lemma load_state_tree : load_state root = Ok ds.
Proof.
  pose proof load_scenario_tree as LS. pose proof load_routes_tree as LR.
  destruct X as [[W _ _] _ _ _]. destruct W. unfold load_state.
  assert (get_str root (#"scenario") 32 true = Ok (scenario ds)) as ->
    by (apply get_str_some; [reflexivity|done]).
  cbn [mbind result_bind]. rewrite LS. cbn [mbind result_bind]. rewrite LR.
  f_equal. apply ds_ext; reflexivity.
Qed.
End LoadState.

Lemma states_loop_tree ls acc :
  Forall exportable (map snd ls) -> length acc + length ls <= NR_DES_STATE_MAX ->
  states_loop (map state_node ls) acc = Ok (acc ++ map snd ls).
Proof.
  revert acc. induction ls as [|[id ds] ls IH]; intros acc H Hl;
    cbn [map states_loop length] in *; [by rewrite app_nil_r|].
  apply Forall_cons in H as [Hd H].
  change (negb (has_type CFG_OBJ (state_node (id, ds)))) with false. cbn iota.
  rewrite (proj2 (Nat.leb_gt _ _)) by lia.
  change (load_state (state_node (id, ds))) with
    (load_state (Node CFG_OBJ (Some id) None (state_kids ds))).
  rewrite load_state_tree by done. cbn [mbind result_bind].
  rewrite IH; [by rewrite <- app_assoc|done|rewrite length_app; cbn; lia].
Qed.

Lemma set_tree_canon ls :
  ls <> [] -> Forall exportable (map snd ls) ->
  Forall (fun id => key_ok id /\ length id < IFNAMSIZ) (map fst ls) ->
  NoDup (map fst ls) ->
  canon (set_tree ls) /\ small 5 (set_tree ls).
Proof.
  intros Hne He Hk Hnd.
  assert (G : Forall (kid_good 3) (map state_node ls) /\ NoDup (map n_name (map state_node ls))).
  { split.
    - apply Forall_map. rewrite Forall_map in He. rewrite Forall_map in Hk.
      eapply Forall_impl; [exact (proj2 (Forall_and _ _) (conj He Hk))|].
      intros [id ds] [Hd [K1 K2]]. cbn in Hd, K1, K2.
      split; [exists id; unfold IFNAMSIZ in K2; split_and!; [done|done|lia]|].
      destruct Hd as [[W _ _] T _ _]. destruct (state_good ds W T) as [S1 S2].
      by apply obj_good.
    - rewrite map_map. cbn. replace (map (fun x => Some (fst x)) ls) with
        (map Some (map fst ls)) by (by rewrite map_map).
      apply NoDup_fmap_2; [intros ? ? [= ->]; done|done]. }
  destruct G as [G1 G2].
  assert (map state_node ls <> []) as Hn by (by destruct ls).
  apply obj_good; [done| |compute_decide]. constructor; [|constructor].
  split; [exists (#"state"); split_and!; [done|compute_decide|compute_decide]|].
  by apply obj_good.
Qed.

Lemma state_ids_ok idx set ids :
  (0 <= idx)%Z -> (idx + Z.of_nat (length set) <= ULONG_MAX)%Z ->
  state_ids idx set = Ok ids ->
  length ids = length set /\ Forall (fun id => key_ok id /\ length id < IFNAMSIZ) ids.
Proof.
  revert idx ids. induction set as [|ds set IH]; intros idx ids H0 Hl H;
    cbn [state_ids length] in *; inv_ok; [done|].
  apply cfg_state_id_key in E; [|lia]. apply IH in E0 as [E1 E2]; [|lia|lia].
  split; [cbn; lia|]. by constructor.
Qed.

(** Writing a set and loading the text gives the set. *)
Lemma export_load set ids :
  1 <= length set <= NR_DES_STATE_MAX -> Forall exportable set ->
  state_ids 0 set = Ok ids -> NoDup ids ->
  exists text, cfg_set set ([], []) = (Ok tt, ([], text)) /\
    yaml_load_desired_set [] (Ok text) = Ok set.
Proof.
  intros [H1 H2] He Hi Hnd. unfold NR_DES_STATE_MAX in H2.
  destruct (state_ids_ok 0 set ids) as [Hl Hk];
    [lia|unfold ULONG_MAX; lia|done|].
  set (ls := zip ids set).
  assert (map fst ls = ids /\ map snd ls = set) as [Ef Es].
  { unfold ls. split; [apply fst_zip|apply snd_zip]; lia. }
  assert (ls <> []) as Hne by (intros E; rewrite E in Es; rewrite <- Es in H1; cbn in H1; lia).
  destruct (set_tree_canon ls) as [C S]; [done|by rewrite Es|by rewrite Ef|by rewrite Ef|].
  assert (T : leaves (set_tree ls) = under (#"state") (kid_leaves (map state_node ls))).
  { unfold set_tree. rewrite leaves_obj. cbn [kid_leaves]. rewrite leaves_obj.
    by rewrite app_nil_r. }
  exists (file_text (leaves (set_tree ls))). split.
  - unfold cfg_set. rewrite (cfg_set_writes 0 set ids); [by rewrite T|..].
    + eapply Forall_impl; [exact He|]. by intros ds [[? _ _] _ _ _].
    + lia.
    + unfold ULONG_MAX. lia.
    + done.
  - unfold yaml_load_desired_set. rewrite load_tree_text.
    + cbn [fst mbind result_bind]. unfold load_set, set_tree. rewrite !cfg_child_find.
      change (find (name_is (#"scenario")) _) with (@None cfg_node). cbn iota.
      change (find (name_is (#"state")) _) with
        (Some (Node CFG_OBJ (Some (#"state")) None (map state_node ls))). cbn iota.
      change (negb (has_type CFG_OBJ (Node CFG_OBJ _ _ _))) with false. cbn iota.
      unfold cfg_children. cbn [n_kids]. rewrite states_loop_tree.
      * rewrite Es. cbn [app mbind result_bind]. by destruct set; [cbn in H1; lia|].
      * by rewrite Es.
      * unfold ls. rewrite length_zip. unfold NR_DES_STATE_MAX. cbn. lia.
    + right. done.
    + eapply Forall_impl; [exact (small_leaves _ _ S)|]. intros l.
      apply small_fits. lia.
Qed.

(** *** States with one id *)

(** An assignment below key [k] changes or adds one child, named [k]. *)
Lemma set_walk_kids (Q : cfg_node -> Prop) k ts v (o : oracle) n :
  (forall t, Q (node_init t (Some k))) ->
  (forall w c, n_name c = Some k -> Q c -> Q (set_val w c)) ->
  (forall (o : oracle) c, n_name c = Some k -> Q c -> Q (snd (snd (set_walk ts v (o, c))))) ->
  Forall Q (n_kids n) -> Forall Q (n_kids (snd (snd (set_walk (TokKey k :: ts) v (o, n))))).
Proof.
  intros Hnew Hval Hwalk Hn.
  assert (Hz : forall t n1 i c (o1 : oracle) m, key_step n k t n1 i c ->
    (forall o c, n_name c = Some k -> Q c -> Q (snd (snd (m (o, c))))) ->
    Forall Q (n_kids (snd (snd (zoom i m (o1, n1)))))).
  { intros t n1 i c o1 m Hk Hm. pose proof (key_step_lookup _ _ _ _ _ _ Hk) as [Hi Hc].
    assert (H1 : Forall Q (n_kids n1)).
    { destruct Hk as (_ & _ & _ & [->|(_ & -> & ->)]); [done|]. unfold child_add.
      autorewrite with tree. apply Forall_app. split; [done|]. by constructor; [|constructor]. }
    rewrite (zoom_some _ _ _ _ _ Hi). specialize (Hm o1 c Hc (Forall_lookup_1 _ _ _ _ H1 Hi)).
    destruct (m (o1, c)) as [r [o2 c']]. cbn [snd] in *. autorewrite with tree.
    by apply Forall_insert. }
  destruct ts as [|u ts].
  - cbn [set_walk]. destruct (set_plain_key k v o n) as [[e E]|[(o1 & E & _)|
      (o1 & n1 & i & c & Hk & _ & E)]]; rewrite E; [done..|].
    eapply Hz; [exact Hk|]. intros o' c' Hc HQ. cbn. destruct (pop o') as [[] ?]; cbn; auto.
  - destruct (set_walk_key k u ts v o n) as [[e E]|[(o1 & E & _)|
      (o1 & n1 & i & c & Hk & _ & E)]]; rewrite E; [done..|].
    by eapply Hz.
Qed.

(** A child named by one of the ids. *)
Definition named_in (ids : list cstr) (c : cfg_node) : Prop :=
  exists id, n_name c = Some id /\ id ∈ ids.

(** A root with nothing but [state], and there nothing but those ids. *)
Definition only_ids (ids : list cstr) (n : cfg_node) : Prop :=
  Forall (fun c => n_name c = Some (#"state") /\ Forall (named_in ids) (n_kids c)) (n_kids n).

(** A line that belongs to one of the states. *)
Definition state_leaf (ids : list cstr) (l : leaf) : Prop :=
  exists id ts v, l = (TokKey (#"state") :: TokKey id :: ts, v) /\ id ∈ ids /\
    Forall tok_ok (TokKey id :: ts).

Lemma only_ids_run ids ls (o : oracle) n :
  Forall (state_leaf ids) ls -> only_ids ids n ->
  only_ids ids (snd (snd (run_sets ls (o, n)))).
Proof.
  intros Hl. revert o n.
  induction Hl as [|l ls (id & ts & v & -> & Hid & Hts) _ IH]; intros o n Hn; [done|].
  assert (H1 : only_ids ids
    (snd (snd (set_walk (TokKey (#"state") :: TokKey id :: ts) v (o, n))))).
  { apply set_walk_kids; [by intros t; split; [|constructor]| | |done].
    - intros w c _ [Hs Hk]. split; [by autorewrite with tree|]. by destruct c.
    - intros o' c _ [Hs Hk].
      destruct (keeps_set_walk (TokKey id :: ts) v Hts o' c I) as (_ & -> & _).
      split; [done|]. apply set_walk_kids; [by intros t; exists id| | |done].
      + intros w c' Hc _. exists id. by autorewrite with tree.
      + intros o2 c' Hc _. exists id. split; [|done]. apply Forall_cons in Hts as [_ Hts].
        by destruct (keeps_set_walk ts v Hts o2 c' I) as (_ & -> & _). }
  cbn [run_sets fst snd]. unfold mbind, ST_bind.
  destruct (set_walk _ v (o, n)) as [[[]|e] [o' n']]; [by apply IH|done].
Qed.

(** Distinct names out of a list are at most its distinct elements. *)
Lemma named_in_length ids kids :
  NoDup (map n_name kids) -> Forall (named_in ids) kids ->
  length kids <= length (remove_dups ids).
Proof.
  intros Hnd Hk. rewrite <- (length_map n_name kids), <- (length_map Some (remove_dups ids)).
  apply submseteq_length, NoDup_submseteq; [done|]. intros x Hx.
  apply list_elem_of_fmap in Hx as (c & -> & Hc). rewrite Forall_forall in Hk.
  destruct (Hk c Hc) as (id & -> & Hid). apply list_elem_of_fmap.
  exists id. split; [done|]. by apply elem_of_remove_dups.
Qed.

Lemma states_loop_length its acc set :
  states_loop its acc = Ok set -> length set = length acc + length its.
Proof.
  revert acc. induction its as [|it its IH]; intros acc E; cbn [states_loop] in E; inv_ok.
  - cbn. lia.
  - apply IH in E. rewrite length_app in E. cbn in *. lia.
Qed.

(** The loader finds at most one state per id. *)
Lemma load_set_ids ids n set :
  wf_node n -> only_ids ids n -> load_set n = Ok set ->
  length set <= length (remove_dups ids).
Proof.
  intros Hw Ho E. unfold load_set in E.
  assert (Hin : forall k c, cfg_child n k = Some c ->
    k = (#"state") /\ wf_node c /\ Forall (named_in ids) (n_kids c)).
  { intros k c Hc. unfold cfg_child in Hc. destruct (obj_find n k) as [[i c0]|] eqn:Ef; [|done].
    injection Hc as ->. apply obj_find_inv in Ef as (_ & Hi & Hn).
    destruct (Forall_lookup_1 _ _ _ _ Ho Hi) as [Hs Hk]. split_and!; [congruence| |done].
    inversion Hw as [| |? ? ? ? Hws]; subst; cbn in Hi; [done| |]; by eapply Forall_lookup_1. }
  destruct (cfg_child n (#"scenario")) as [c|] eqn:E1.
  { destruct (Hin _ _ E1) as [? _]. done. }
  destruct (cfg_child n (#"state")) as [c|] eqn:E2; [|done].
  destruct (Hin _ _ E2) as (_ & Hwc & Hk). destruct (has_type CFG_OBJ c) eqn:Et; [|done].
  cbn [negb] in E. inv_ok. apply states_loop_length in E0. cbn [length] in E0. rewrite E0.
  apply named_in_length; [|done]. apply has_type_true in Et.
  inversion Hwc; subst; done.
Qed.

(** The lines of a state have its id. *)
Lemma state_leaves ids ls :
  Forall exportable (map snd ls) ->
  Forall (fun id => key_ok id /\ length id < IFNAMSIZ) (map fst ls) -> map fst ls ⊆ ids ->
  Forall (fun l => leaf_ok l /\ asks CFG_OBJ l /\ leaf_fits l /\ state_leaf ids l)
    (under (#"state") (kid_leaves (map state_node ls))).
Proof.
  induction ls as [|[id ds] ls IH]; intros He Hk Hs; [constructor|].
  cbn [map fst snd] in He, Hk, Hs.
  apply Forall_cons in He as [Hd He]. apply Forall_cons in Hk as [Hid Hk].
  cbn [map kid_leaves]. rewrite under_app. apply Forall_app. split.
  2: { apply IH; [done|done|]. intros x Hx. apply Hs. by right. }
  destruct (set_tree_canon [(id, ds)]) as [C S]; cbn [map fst snd];
    [done|by constructor|by constructor|apply NoDup_singleton|].
  assert (T : leaves (set_tree [(id, ds)]) =
    under (#"state") (under id (leaves (state_node (id, ds))))).
  { unfold set_tree. rewrite leaves_obj. cbn [map kid_leaves]. rewrite leaves_obj.
    cbn [kid_leaves]. by rewrite !app_nil_r. }
  change (under (default [] _) (leaves (state_node (id, ds)))) with
    (under id (leaves (state_node (id, ds)))).
  rewrite <- T. pose proof (leaves_ok _ C) as Hok.
  pose proof (small_leaves _ _ S) as Hsm. apply Forall_forall. intros l Hl.
  rewrite Forall_forall in Hok, Hsm. specialize (Hok l Hl). specialize (Hsm l Hl).
  rewrite T in Hl. apply list_elem_of_fmap in Hl as (l1 & -> & Hl).
  apply list_elem_of_fmap in Hl as ([ts v] & -> & Hl). cbn [fst snd] in *.
  split_and!; [done|by eexists _, _|apply (small_fits 5); [lia|done]|].
  exists id, ts, v. split_and!; [done|apply Hs; by left|].
  destruct Hok as ([_ Ht]%Forall_cons & _). done.
Qed.

(** Exported states that share ids are not all loaded back. *)
Lemma export_clash set ids :
  1 <= length set <= NR_DES_STATE_MAX -> Forall exportable set ->
  state_ids 0 set = Ok ids ->
  exists text, cfg_set set ([], []) = (Ok tt, ([], text)) /\
    forall set', yaml_load_desired_set [] (Ok text) = Ok set' ->
      length set' <= length (remove_dups ids).
Proof.
  intros [H1 H2] He Hi. unfold NR_DES_STATE_MAX in H2.
  destruct (state_ids_ok 0 set ids) as [Hl Hk]; [lia|unfold ULONG_MAX; lia|done|].
  set (ls := zip ids set).
  assert (map fst ls = ids /\ map snd ls = set) as [Ef Es].
  { unfold ls. split; [apply fst_zip|apply snd_zip]; lia. }
  set (L := under (#"state") (kid_leaves (map state_node ls))).
  exists (file_text L). split.
  - unfold cfg_set. rewrite (cfg_set_writes 0 set ids); [done| |lia|unfold ULONG_MAX; lia|done].
    eapply Forall_impl; [exact He|]. by intros ds [[? _ _] _ _ _].
  - intros set' E. unfold yaml_load_desired_set in E. inv_ok.
    pose proof (state_leaves ids ls) as HL. rewrite Ef, Es in HL.
    specialize (HL He Hk ltac:(done)). fold L in HL. rewrite !Forall_and in HL.
    destruct HL as (L1 & L2 & L3 & L4).
    destruct (cfg_load [] (Ok (file_text L))) as [r o'] eqn:El. cbn [fst] in E0. subst r.
    pose proof (cfg_load_tree _ _ _ _ El) as Hw.
    apply (load_set_ids ids) in E; [done|done|].
    unfold cfg_load in El. rewrite load_file_text in El by done.
    pose proof (only_ids_run ids L [] cfg_init L4 ltac:(constructor)) as Ho.
    destruct (run_sets L ([], cfg_init)) as [[[]|e] [o2 n2]]; [|done].
    by injection El as <- _.
Qed.

Lemma remove_dups_length {A} `{EqDecision A} (l : list A) :
  length (remove_dups l) <= length l /\ (~ NoDup l -> length (remove_dups l) < length l).
Proof.
  induction l as [|x l [IH1 IH2]]; [split; [done|intros H; destruct H; constructor]|].
  cbn [remove_dups length]. destruct (decide_rel elem_of x l) as [Hx|Hx].
  - split; intros; lia.
  - split; [cbn; lia|]. intros Hn. cbn. apply -> Nat.succ_lt_mono. apply IH2.
    intros Hl. apply Hn. by constructor.
Qed.

(** *** What the builder builds *)

(** Text without NUL, in every part of it. *)
Lemma cstring_strchr c s a b : cstring s -> strchr c s = Some (a, b) -> cstring a /\ cstring b.
Proof.
  intros H E. apply strchr_Some in E as [-> _]. apply Forall_app in H as [H1 H2].
  by apply Forall_cons in H2 as [_ H2].
Qed.

Lemma cstring_cpy sz s : cstring s -> cstring (uci_cpy sz (Some s)).
Proof. intros H. unfold uci_cpy. by apply Forall_take. Qed.

Lemma uci_cpy_nonempty sz s : 1 < sz -> s <> [] -> uci_cpy sz (Some s) <> [].
Proof.
  intros Hsz Hs. unfold uci_cpy. destruct s as [|c s]; [done|].
  destruct (sz <=? _); [|done]. destruct (sz - 1) eqn:E; [lia|done].
Qed.

Lemma next_word_some s sz w r :
  next_word s sz = Ok (Some (w, r)) ->
  w <> [] /\ length w < sz /\ (cstring s -> cstring w /\ cstring r).
Proof.
  unfold next_word. pose proof (drop_while_head is_ws s) as Hh.
  pose proof (cstring_while is_ws s) as Hc.
  destruct (drop_while is_ws s) as [|c t]; [done|]. intros H.
  pose proof (cstring_while (fun c => negb (is_ws c)) (c :: t)) as Hw.
  assert (take_while (fun c => negb (is_ws c)) (c :: t) <> []) as Hne.
  { cbn [take_while]. by rewrite (Hh c t eq_refl). }
  revert H Hw Hne. generalize (take_while (fun c => negb (is_ws c)) (c :: t)).
  generalize (drop_while (fun c => negb (is_ws c)) (c :: t)). intros r' w' H Hw Hne.
  destruct (Nat.ltb_spec sz (length w' + 1)) as [L|L]; [done|]. injection H as <- <-.
  split_and!; [done|lia|]. intros Hs. by apply Hw, Hc.
Qed.

(** Databases whose values and names have no NUL. *)
Definition db_text (db : uci_db) : Prop :=
  Forall (fun it => cstring (ui_val it) /\ cstring (ui_sect it)) db.

Lemma db_get_text db p s o v : db_text db -> db_get db p s o = Some v -> cstring v.
Proof.
  intros T H. unfold db_get in H. destruct (find _ (reverse db)) as [it|] eqn:E; [|done].
  injection H as <-. apply find_some in E as [E _].
  apply list_elem_of_In, elem_of_reverse in E. rewrite reverse_involutive in E.
  by apply (proj1 (Forall_forall _ _) T) in E as [? _].
Qed.

Lemma db_load_line_text db line db' :
  db_text db -> cstring line -> db_load_line db line = Ok db' -> db_text db'.
Proof.
  intros T Hl H. unfold db_load_line in H. cbn zeta in H.
  assert (cstring (uci_trim_eol line)) as Ht.
  { unfold uci_trim_eol. apply Forall_reverse, cstring_while, Forall_reverse, Hl. }
  case_bool_decide; [by inv_ok|].
  destruct (strchr "=" _) as [[before after]|] eqn:E1; [|done].
  destruct (strchr "." (uci_trim_eol line)) as [[pkg rest]|] eqn:E2; [|done]. inv_ok.
  destruct (cstring_strchr _ _ _ _ Ht E1) as [C1 C2].
  assert (cstring (strip_quotes (drop_while is_ws after))) as Cv.
  { apply (cstring_while is_ws) in C2 as [_ C2]. revert C2.
    generalize (drop_while is_ws after). intros v Hv. unfold strip_quotes.
    destruct v as [|q r]; [done|]. apply Forall_cons in Hv as [Hq Hr].
    destruct (_ && _); [by apply Forall_take|by constructor]. }
  assert (cstring (drop (length pkg + 1) before)) as Cb by (by apply Forall_drop).
  assert (A : forall sect opt t, cstring sect ->
    db_add db pkg sect opt (strip_quotes (drop_while is_ws after)) t = Ok db' -> db_text db').
  { intros sect opt t Cs Ha. unfold db_add in Ha. inv_ok. apply Forall_app. split; [done|].
    constructor; [|constructor]. cbn. split; by apply cstring_cpy. }
  destruct (strchr "." (drop _ _)) as [[sect opt]|] eqn:E4; inv_ok.
  - destruct (cstring_strchr _ _ _ _ Cb E4) as [Cs _]. by apply A in H.
  - by apply A in H.
Qed.

Lemma db_load_lines_text ls db db' :
  db_text db -> db_load_lines db ls = Ok db' -> db_text db'.
Proof.
  revert db. induction ls as [|[buf eof] ls IH]; intros db T H; cbn [db_load_lines] in H;
    inv_ok; [done|]. apply db_load_line_text in E0; eauto. apply c_string_cstring.
Qed.

Lemma db_buf_loop_text n db s db' :
  db_text db -> cstring s -> db_buf_loop n db s = Ok db' -> db_text db'.
Proof.
  revert db s. induction n as [|n IH]; intros db s T Hs H; cbn [db_buf_loop] in H.
  { destruct s; by inv_ok. }
  destruct s as [|c s]; [by inv_ok|]. inv_ok.
  apply db_load_line_text in E0; [|done|by apply cstring_while].
  apply IH in H; [done|done|]. unfold after_line.
  assert (forall k t, cstring t -> cstring (skip k t)) as Sk.
  { intros k [|x t] Ht; [done|]. cbn. apply Forall_cons in Ht as [? ?].
    destruct (Ascii.eqb x k); [done|by constructor]. }
  by apply Sk, Sk, cstring_while.
Qed.

Lemma load_pkg_text m bin path pkg db : load_pkg m bin path pkg = Ok db -> db_text db.
Proof.
  unfold load_pkg, db_load_file, db_load_live, db_load_buf. intros H.
  destruct path; inv_ok.
  - apply db_load_lines_text in H; [done|constructor].
  - apply db_buf_loop_text in H; [done|constructor|].
    unfold run_capture in E. inv_ok. destruct (cap_wait _) as [e|st]; [done|]. inv_ok.
    destruct st; inv_ok. apply c_string_cstring.
Qed.

(** Adding ports changes nothing else. *)
Definition ports_ok (ds : desired_state) : Prop :=
  length (br_ports ds) <= NR_BR_PORT_MAX /\ Forall (fits IFNAMSIZ) (br_ports ds) /\
  Forall cstring (br_ports ds).

Definition ports_only (ds ds' : desired_state) : Prop :=
  ds' = ds <| br_ports := br_ports ds' |> /\ (ports_ok ds -> ports_ok ds').

Lemma ports_only_refl ds : ports_only ds ds.
Proof. split; [by destruct ds|done]. Qed.

Lemma ports_only_trans a b c : ports_only a b -> ports_only b c -> ports_only a c.
Proof.
  intros [E1 P1] [E2 P2]. split; [|auto]. rewrite E2. rewrite E1. done.
Qed.

Lemma add_bridge_port_only ds name ds' :
  cstring name -> add_bridge_port ds (Some name) = Ok ds' -> ports_only ds ds'.
Proof.
  intros Hc H. unfold add_bridge_port in H. destruct name as [|c name].
  { inv_ok. apply ports_only_refl. }
  repeat match type of H with (if ?b then Ok _ else _) = _ =>
    destruct b; [inv_ok; apply ports_only_refl|] end.
  destruct (Nat.leb_spec NR_BR_PORT_MAX (length (br_ports ds))) as [L|L]; [done|]. inv_ok.
  split; [done|]. intros (P1 & P2 & P3). unfold ports_ok. cbn [br_ports set_field].
  split_and!.
  - cbn. rewrite length_app. cbn. lia.
  - apply Forall_app. split; [done|]. constructor; [|constructor].
    apply uci_cpy_length. unfold IFNAMSIZ. lia.
  - apply Forall_app. split; [done|]. constructor; [by apply cstring_cpy|constructor].
Qed.

Lemma wireless_loop_only db net its ds ds' :
  db_text db -> wireless_loop db net its ds = Ok ds' -> ports_only ds ds'.
Proof.
  intros T. revert ds. induction its as [|it its IH]; intros ds H; cbn [wireless_loop] in H.
  { inv_ok. apply ports_only_refl. }
  destruct (wireless_port db net it) as [name|] eqn:E; [|by apply IH].
  inv_ok. apply IH in H. eapply ports_only_trans; [|exact H].
  apply add_bridge_port_only in E0; [done|].
  unfold wireless_port in E. repeat (case_match; try done); simplify_eq;
    by eapply db_get_text.
Qed.

Lemma device_loop_only n p sf f ds ds' :
  cstring p -> device_ports_loop n p sf f ds = Ok ds' -> ports_only ds ds'.
Proof.
  revert p f ds. induction n as [|n IH]; intros p f ds Hp H; cbn [device_ports_loop] in H.
  { inv_ok. apply ports_only_refl. }
  destruct (next_word p IFNAMSIZ) as [[[w r]|]|e] eqn:E; [| |done].
  2: { inv_ok. apply ports_only_refl. }
  apply next_word_some in E as (_ & _ & Hc). destruct (Hc Hp) as [Cw Cr].
  destruct (sf && f); [by apply IH in H|]. inv_ok.
  apply IH in H; [|done]. eapply ports_only_trans; [|exact H].
  by apply add_bridge_port_only in E.
Qed.

Lemma add_device_ports_only p ds sf ds' :
  (forall s, p = Some s -> cstring s) -> add_device_ports p ds sf = Ok ds' -> ports_only ds ds'.
Proof.
  intros Hp H. unfold add_device_ports in H.
  destruct p as [[|c p]|]; [inv_ok; apply ports_only_refl| |inv_ok; apply ports_only_refl].
  apply device_loop_only in H; [done|]. by apply Hp.
Qed.

Lemma first_device_port_ok p sz w :
  (forall s, p = Some s -> cstring s) -> first_device_port p sz = Ok w ->
  w <> [] /\ length w < sz /\ cstring w.
Proof.
  intros Hp H. unfold first_device_port in H. destruct p as [[|c p]|]; [done| |done].
  destruct (next_word (c :: p) sz) as [[[w' r]|]|e] eqn:E; [|done|done]. inv_ok.
  apply next_word_some in E as (H1 & H2 & H3). split_and!; [done|done|].
  apply H3. by apply Hp.
Qed.

Lemma ip_list_ok n max p dst l :
  cstring p -> length dst <= max -> Forall (fits INET_ADDRSTRLEN) dst ->
  Forall cstring dst -> ip_list_loop n max p dst = Ok l ->
  length l <= max /\ Forall (fits INET_ADDRSTRLEN) l /\ Forall cstring l.
Proof.
  revert p dst. induction n as [|n IH]; intros p dst Hp H1 H2 H3 H; cbn [ip_list_loop] in H.
  { by inv_ok. }
  destruct (next_word p 32) as [[[w r]|]|e] eqn:E; [|by inv_ok|done].
  apply next_word_some in E as (_ & _ & Hc). destruct (Hc Hp) as [Cw Cr].
  destruct (Nat.leb_spec max (length dst)) as [L|L]; [done|].
  apply IH in H; [done|done| | |].
  - rewrite length_app. cbn. lia.
  - apply Forall_app. split; [done|]. constructor; [|constructor].
    apply uci_cpy_length. unfold INET_ADDRSTRLEN. lia.
  - apply Forall_app. split; [done|]. constructor; [by apply cstring_cpy|constructor].
Qed.

Lemma split_ip_list_ok p max l :
  (forall s, p = Some s -> cstring s) -> split_ip_list p max = Ok l ->
  length l <= max /\ Forall (fits INET_ADDRSTRLEN) l /\ Forall cstring l.
Proof.
  intros Hp H. unfold split_ip_list in H.
  destruct p as [[|c p]|]; [inv_ok| |inv_ok]; try (split_and!; [cbn; lia|constructor|constructor]).
  apply ip_list_ok in H; [done|by apply Hp|cbn; lia|constructor|constructor].
Qed.

(** The address part that [fill_bridge_proto] fills in. *)
Record addr_part (ds : desired_state) : Prop := {
  ap_mode : mode_ok ds;
  ap_addr : fits 32 (br_addr ds) /\ cstring (br_addr ds);
  ap_gateway : fits INET_ADDRSTRLEN (br_gateway ds) /\ cstring (br_gateway ds);
  ap_dns : length (br_dns ds) <= NR_DES_DNS4_MAX /\
    Forall (fits INET_ADDRSTRLEN) (br_dns ds) /\ Forall cstring (br_dns ds);
  ap_cmd : fits 128 (br_dhcp_cmd ds) /\ cstring (br_dhcp_cmd ds);
  ap_dhcp : br_addr_mode ds <> ADDR_DHCP -> br_dhcp_cmd ds = []
}.

(** [ds'] differs from [ds] in the address part only. *)
Definition addr_only (ds ds' : desired_state) : Prop :=
  ds' = ds <| br_addr_mode := br_addr_mode ds' |> <| br_addr := br_addr ds' |>
           <| br_gateway := br_gateway ds' |> <| br_dns := br_dns ds' |>
           <| br_dhcp_cmd := br_dhcp_cmd ds' |>.

Lemma fmt_d_text v : (0 <= v <= UINT32_MAX)%Z -> cstring (fmt_d v).
Proof.
  intros H. unfold fmt_d. destruct (Z.ltb_spec v 0); [lia|]. by apply digits_text.
Qed.

Lemma snprintf_nonempty sz s : 1 < sz -> s <> [] -> snprintf sz s <> [].
Proof. intros H Hs. unfold snprintf. destruct s; [done|]. by destruct (sz - 1) eqn:E; [lia|]. Qed.

Lemma mask_prefix_range mask p : mask_to_prefix mask = Ok p -> (0 <= p <= 32)%Z.
Proof. intros H. by apply mask_to_prefix_spec in H as [? _]. Qed.

Lemma fill_bridge_proto_ok db sect ds ds' :
  db_text db -> addr_part ds -> br_addr_mode ds = ADDR_NONE ->
  fill_bridge_proto db sect ds = Ok ds' -> addr_part ds' /\ addr_only ds ds'.
Proof.
  intros T A Hm H. unfold fill_bridge_proto in H. cbn zeta in H.
  destruct A as [M Aa Ag An Ac Ad].
  assert (N : br_addr ds = [] /\ br_gateway ds = [] /\ br_dns ds = [] /\ br_dhcp_cmd ds = []).
  { destruct M as [M1 M2 M3 _]. rewrite Hm in *. split_and!.
    - destruct (decide (br_addr ds = [])) as [|Hn]; [done|by apply M1 in Hn].
    - destruct (decide (br_gateway ds = [])) as [|Hn]; [done|by apply M2 in Hn].
    - destruct (decide (br_dns ds = [])) as [|Hn]; [done|by apply M3 in Hn].
    - by apply Ad. }
  destruct N as (N1 & N2 & N3 & N4).
  destruct (db_get db _ sect (#"proto")) as [[|c proto]|]; [done| |done].
  destruct (streq _ (#"static")).
  - destruct (db_get db _ sect (#"ipaddr")) as [ip|] eqn:Ei; [|done].
    destruct (db_get db _ sect (#"netmask")) as [mask|]; [|done].
    destruct (mask_to_prefix mask) as [pre|] eqn:Ep; [|done]. cbn [mbind result_bind] in H.
    apply mask_prefix_range in Ep.
    destruct (split_ip_list _ _) as [dns|] eqn:Ed; [|done]. cbn [mbind result_bind] in H.
    apply split_ip_list_ok in Ed; [|intros s Hs; by eapply db_get_text].
    set (addr := snprintf 32 (ip ++ "/"%char :: fmt_d pre)) in *.
    assert (addr <> [] /\ fits 32 addr /\ cstring addr) as (A1 & A2 & A3).
    { unfold addr. split_and!.
      - apply snprintf_nonempty; [lia|]. by destruct ip.
      - apply snprintf_length. lia.
      - unfold snprintf. apply Forall_take, Forall_app. split; [by eapply db_get_text|].
        constructor; [done|]. apply fmt_d_text. unfold UINT32_MAX. lia. }
    destruct (db_get db _ sect (#"gateway")) as [gw|] eqn:Eg; injection H as <-.
    + split; [|by destruct ds; cbn in *; subst]. constructor; cbn; try done.
      split; [apply uci_cpy_length; unfold INET_ADDRSTRLEN; lia|].
      apply cstring_cpy. by eapply db_get_text.
    + split; [|by destruct ds; cbn in *; subst]. constructor; cbn; done.
  - destruct (streq _ (#"dhcp")); [|destruct (streq _ (#"none")); [|done]]; injection H as <-.
    + split; [|by destruct ds; cbn in *; subst]. constructor; cbn; try done.
      split; [apply uci_cpy_length; lia|]. apply cstring_cpy. compute_decide.
    + split; [|by destruct ds; cbn in *; subst]. constructor; cbn; done.
Qed.

(** The state before its ports are added: all but the bridge and the tunnel
    is empty. *)
Lemma zero_addr_part scn name :
  addr_part (ds_zero <| scenario := scn |> <| br_name := name |>).
Proof.
  constructor; [by constructor|..]; cbn; split_and?; try (done || constructor);
    unfold fits, INET_ADDRSTRLEN, NR_DES_DNS4_MAX; cbn; lia.
Qed.

(** A state with a filled address part and nothing but an uplink besides. *)
Lemma uplink_exportable ds :
  addr_part ds -> ports_ok ds ->
  scenario ds = #"uplink_bridge" ->
  br_name ds <> [] -> fits IFNAMSIZ (br_name ds) -> cstring (br_name ds) ->
  up_ifname ds <> [] -> fits IFNAMSIZ (up_ifname ds) -> cstring (up_ifname ds) ->
  no_vlan ds -> no_vxlan ds -> routes ds = [] -> exportable ds.
Proof.
  intros [M [A1 A2] [G1 G2] [D1 [D2 D3]] [C1 C2] Ad] (P1 & P2 & P3) Sc B1 B2 B3 U1 U2 U3
    NV NX Rt.
  assert (Z16 : fits IFNAMSIZ []) by compute_decide.
  assert (ZI : fits INET_ADDRSTRLEN []) by compute_decide.
  assert (Z0 : (0 <= 0 <= UINT32_MAX)%Z) by (unfold UINT32_MAX; lia).
  pose proof NV as (V1 & V2 & V3 & V4).
  pose proof NX as (X1 & X2 & X3 & X4 & X5 & X6 & X7 & X8).
  constructor.
  - constructor; [|done|].
    + constructor; rewrite ?Sc, ?V1, ?V2, ?V3, ?V4, ?X1, ?X2, ?X3, ?X4, ?X5, ?X6, ?X7, ?X8,
        ?Rt; try done; [compute_decide|split; [cbn; lia|constructor]].
    + constructor; rewrite ?Sc, ?Rt.
      * compute_decide.
      * intros C. exfalso. revert C. compute_decide.
      * intros C. exfalso. revert C. compute_decide.
      * constructor.
  - unfold ds_strings. rewrite Sc, V1, V3, V4, X1, X2, X3, X4, X6, X7, X8, Rt.
    apply Forall_app. split; [repeat (constructor; [done || compute_decide|]); constructor|].
    apply Forall_app. split; [done|]. apply Forall_app. split; [done|constructor].
  - done.
  - right. left. split_and!; try done. rewrite Sc. compute_decide.
Qed.

Lemma build_uplink_ok net wifi dev ifs name set set' :
  db_text net -> db_text wifi -> name <> [] -> cstring name ->
  build_uplink_bridge net wifi dev ifs name set = Ok set' ->
  length set < NR_DES_STATE_MAX /\ exists ds, set' = set ++ [ds] /\ exportable ds.
Proof.
  intros Tn Tw Hne Hc H. unfold build_uplink_bridge, add_state in H.
  destruct (Nat.leb_spec NR_DES_STATE_MAX (length set)) as [L|L]; [done|].
  cbn [mbind result_bind] in H. split; [done|].
  set (d0 := ds_zero <| scenario := uci_cpy 32 (Some (#"uplink_bridge")) |>
    <| br_name := uci_cpy IFNAMSIZ (Some name) |>) in H.
  destruct (fill_bridge_proto net ifs d0) as [d1|] eqn:E1; [|done].
  cbn [mbind result_bind] in H.
  apply fill_bridge_proto_ok in E1 as [A1 O1]; [|done|apply zero_addr_part|done].
  destruct (first_device_port _ IFNAMSIZ) as [up|] eqn:E2; [|done].
  cbn [mbind result_bind] in H.
  apply first_device_port_ok in E2 as (U1 & U2 & U3);
    [|intros s Hs; exact (db_get_text _ _ _ _ _ Tn Hs)].
  destruct (add_device_ports _ _ _) as [d2|] eqn:E3; [|done]. cbn [mbind result_bind] in H.
  apply add_device_ports_only in E3; [|intros s Hs; exact (db_get_text _ _ _ _ _ Tn Hs)].
  destruct (add_wireless_ports _ _ _) as [d3|] eqn:E4; [|done]. cbn [mbind result_bind] in H.
  apply wireless_loop_only in E4; [|done]. injection H as <-.
  exists d3. split; [done|]. destruct (ports_only_trans _ _ _ E3 E4) as [Ed Pp].
  unfold addr_only, d0 in O1. clear E3 E4 L.
  apply uplink_exportable; rewrite Ed; try (rewrite O1; done).
  - destruct A1 as [[]]. constructor; [by constructor|done..].
  - unfold ports_ok. cbn. apply Pp. unfold ports_ok. rewrite O1.
    cbn -[NR_BR_PORT_MAX]. split_and!; [apply Nat.le_0_l|constructor..].
  - rewrite O1. apply uci_cpy_nonempty; [unfold IFNAMSIZ; lia|done].
  - rewrite O1. apply uci_cpy_length. unfold IFNAMSIZ. lia.
  - rewrite O1. by apply cstring_cpy.
Qed.

Lemma vxlan_exportable ds :
  ports_ok ds -> scenario ds = #"wg_vxlan_bridge" ->
  br_addr_mode ds = ADDR_NONE -> br_addr ds = [] -> br_gateway ds = [] -> br_dns ds = [] ->
  br_dhcp_cmd ds = [] -> up_ifname ds = [] -> no_vlan ds -> routes ds = [] ->
  vx_dev ds = [] -> vx_bridge ds = br_name ds -> (0 <= vx_vni ds <= UINT32_MAX)%Z ->
  Forall (fun s => fits IFNAMSIZ s /\ cstring s)
    [br_name ds; wg_ifname ds; wg_route_dev ds; vx_ifname ds] ->
  Forall (fun s => fits INET_ADDRSTRLEN s /\ cstring s) [wg_peer_ip ds; vx_remote ds] ->
  br_name ds <> [] -> wg_ifname ds <> [] -> vx_ifname ds <> [] -> exportable ds.
Proof.
  intros (P1 & P2 & P3) Sc Am Aa Ag An Ac Up NV Rt Vd Vb Vn F1 F2 N1 N2 N3.
  rewrite !Forall_cons in F1. rewrite !Forall_cons in F2. destruct_and!.
  assert (Z16 : fits IFNAMSIZ []) by compute_decide.
  assert (ZI : fits INET_ADDRSTRLEN []) by compute_decide.
  assert (Z0 : (0 <= 0 <= UINT32_MAX)%Z) by (unfold UINT32_MAX; lia).
  pose proof NV as (V1 & V2 & V3 & V4).
  constructor.
  - constructor.
    + constructor; rewrite ?Sc, ?Aa, ?Ag, ?An, ?Ac, ?Up, ?V1, ?V2, ?V3, ?V4, ?Vd, ?Vb, ?Rt;
        try done; try compute_decide; (split; [cbn; lia|constructor]).
    + constructor; rewrite ?Am, ?Aa, ?Ag, ?An; done.
    + constructor; rewrite ?Sc, ?Rt.
      * compute_decide.
      * intros C. exfalso. revert C. compute_decide.
      * intros _. split; [done|by left].
      * constructor.
  - unfold ds_strings. rewrite Sc, Aa, Ag, An, Ac, Up, V1, V3, V4, Vd, Vb, Rt.
    apply Forall_app. split; [repeat (constructor; [done || compute_decide|]); constructor|].
    apply Forall_app. split; [constructor|]. apply Forall_app. split; [done|constructor].
  - done.
  - right. right. right. split_and!; try done. rewrite Sc. compute_decide.
Qed.

Lemma find_wg_text db remote sz wg :
  db_text db -> find_wg_for_remote db remote sz = Ok wg -> cstring wg.
Proof.
  intros T H. unfold find_wg_for_remote in H.
  destruct (head (omap (wg_peer db remote) db)) as [n|] eqn:Eh.
  - injection H as <-. apply cstring_cpy. apply head_Some_elem_of in Eh.
    apply list_elem_of_omap in Eh as (it & Hin & Hn).
    apply (proj1 (Forall_forall _ _) T) in Hin as [Hv _].
    unfold wg_peer in Hn. repeat (case_match; try done); simplify_eq.
    match goal with E : strip_prefix _ _ = Some _ |- _ => apply strip_prefix_Some in E;
      rewrite E in Hv end.
    by apply Forall_app in Hv as [_ ?].
  - destruct (List.filter (is_wg_iface db) db) as [|it [|]] eqn:Ef; [done| |done].
    injection H as <-. apply cstring_cpy.
    assert (In it (List.filter (is_wg_iface db) db)) as Hin by (rewrite Ef; by left).
    apply filter_In in Hin as [Hin _]. apply list_elem_of_In in Hin.
    by apply (proj1 (Forall_forall _ _) T) in Hin as [_ ?].
Qed.

Lemma build_vxlan_ok net wifi dev ifs name set set' :
  db_text net -> db_text wifi -> name <> [] -> cstring name ->
  build_wg_vxlan_bridge net wifi dev ifs name set = Ok set' ->
  length set < NR_DES_STATE_MAX /\ exists ds, set' = set ++ [ds] /\
    scenario ds = #"wg_vxlan_bridge" /\ (wg_ifname ds <> [] -> exportable ds).
Proof.
  intros Tn Tw Hne Hc H. unfold build_wg_vxlan_bridge, add_state in H. cbn zeta in H.
  destruct (Nat.leb_spec NR_DES_STATE_MAX (length set)) as [L|L]; [done|].
  cbn [mbind result_bind] in H. split; [done|].
  destruct (first_device_port _ IFNAMSIZ) as [vx|] eqn:E2; [|done].
  cbn [mbind result_bind] in H.
  apply first_device_port_ok in E2 as (U1 & U2 & U3);
    [|intros s Hs; exact (db_get_text _ _ _ _ _ Tn Hs)].
  destruct (db_get net _ vx (#"proto")) as [proto|]; [|done].
  destruct (negb _); [done|].
  destruct (db_get net _ vx (#"vid")) as [vid|]; [|done].
  destruct (db_get net _ vx (#"peeraddr")) as [peer|] eqn:Ep; [|done].
  apply db_get_text in Ep; [|done].
  destruct (uci_parse_u32_str _) as [vni|] eqn:Ev; [|done]. cbn [mbind result_bind] in H.
  apply parse_u32_range in Ev.
  destruct (find_wg_for_remote _ _ _) as [wg|] eqn:Ew; [|done]. cbn [mbind result_bind] in H.
  apply find_wg_text in Ew; [|done].
  destruct (add_device_ports _ _ _) as [d2|] eqn:E3; [|done]. cbn [mbind result_bind] in H.
  apply add_device_ports_only in E3; [|intros s Hs; exact (db_get_text _ _ _ _ _ Tn Hs)].
  destruct (add_wireless_ports _ _ _) as [d3|] eqn:E4; [|done]. cbn [mbind result_bind] in H.
  apply wireless_loop_only in E4; [|done]. injection H as <-.
  exists d3. split; [done|].
  destruct (ports_only_trans _ _ _ E3 E4) as [Ed Pp]. clear E3 E4 L.
  split; [by rewrite Ed|]. intros Hw. rewrite Ed in Hw |- *.
  assert (S16 : forall s, cstring s -> fits IFNAMSIZ (uci_cpy IFNAMSIZ (Some s)) /\
    cstring (uci_cpy IFNAMSIZ (Some s))).
  { intros s Hs. split; [apply uci_cpy_length; unfold IFNAMSIZ; lia|by apply cstring_cpy]. }
  assert (SI : forall s, cstring s -> fits INET_ADDRSTRLEN (uci_cpy INET_ADDRSTRLEN (Some s)) /\
    cstring (uci_cpy INET_ADDRSTRLEN (Some s))).
  { intros s Hs. split; [apply uci_cpy_length; unfold INET_ADDRSTRLEN; lia|by apply cstring_cpy]. }
  apply vxlan_exportable; try done.
  - unfold ports_ok. cbn. apply Pp. unfold ports_ok. cbn -[NR_BR_PORT_MAX].
    split_and!; [apply Nat.le_0_l|constructor..].
  - cbn. repeat (constructor; [by apply S16 || done|]). constructor.
  - cbn. repeat (constructor; [by apply SI|]). constructor.
  - apply uci_cpy_nonempty; [unfold IFNAMSIZ; lia|done].
Qed.

(** A tunnel state has a tunnel interface; [find_wg_for_remote] gives an empty
    name for a peer section of type "wireguard_". *)
Definition wg_named (ds : desired_state) : Prop :=
  scenario ds = #"wg_vxlan_bridge" -> wg_ifname ds <> [].

Lemma build_item_ok net wifi it set set' :
  db_text net -> db_text wifi -> build_item net wifi it set = Ok set' ->
  set' = set \/ length set < NR_DES_STATE_MAX /\ exists ds, set' = set ++ [ds] /\
    (wg_named ds -> exportable ds).
Proof.
  intros Tn Tw H. unfold build_item in H.
  repeat match type of H with (if ?b then Ok _ else _) = _ =>
    destruct b; [injection H as <-; by left|] end.
  destruct (db_get net _ (ui_sect it) (#"type")); [|injection H as <-; by left].
  destruct (negb _); [injection H as <-; by left|]. right.
  destruct (db_get net _ (ui_sect it) (#"name")) as [[|c name]|] eqn:En; [done| |done].
  apply db_get_text in En; [|done].
  destruct (find_iface_by_device net _) as [ifs|]; [|done].
  destruct (db_get net _ ifs (#"proto")) as [[|c' proto]|]; [done| |done].
  destruct (_ || _).
  - apply build_uplink_ok in H as (L & ds & -> & X); [|done..]. eauto.
  - destruct (streq _ _); [|done].
    apply build_vxlan_ok in H as (L & ds & -> & Sc & X); [|done..].
    split; [done|]. exists ds. split; [done|]. intros Hw. by apply X, Hw.
Qed.

Lemma build_loop_ok net wifi its set set' :
  db_text net -> db_text wifi -> length set <= NR_DES_STATE_MAX ->
  Forall (fun ds => wg_named ds -> exportable ds) set ->
  build_loop net wifi its set = Ok set' ->
  length set' <= NR_DES_STATE_MAX /\ Forall (fun ds => wg_named ds -> exportable ds) set'.
Proof.
  intros Tn Tw. revert set. induction its as [|it its IH]; intros set Hl Hf H;
    cbn [build_loop] in H; inv_ok; [done|].
  apply build_item_ok in E as [->|(L & ds & -> & X)]; [by apply IH in H| |done|done].
  apply IH in H; [done|rewrite length_app; cbn [length]; lia|].
  apply Forall_app. split; [done|]. by constructor; [|constructor].
Qed.

Lemma uci_build_ok m bin np wp set :
  uci_build_desired_set m bin np wp = Ok set ->
  1 <= length set <= NR_DES_STATE_MAX /\
  Forall (fun ds => wg_named ds -> exportable ds) set.
Proof.
  intros H. unfold uci_build_desired_set in H. inv_ok.
  apply load_pkg_text in E, E0. apply build_loop_ok in E1 as [H1 H2];
    [|done|done|cbn; lia|constructor].
  breflect. split; [|done]. destruct set; [done|cbn [length] in *; lia].
Qed.

(** ** Properties *)

(** C10: exporting a desired set as configuration text and loading the text
    gives the set back, for every set of states whose parts are those of their
    scenario, as long as the ids the export gives the states are distinct. *)
Theorem cfg_set_load (set : desired_set) (ids : list cstr) :
  1 <= length set <= NR_DES_STATE_MAX -> Forall exportable set ->
  state_ids 0 set = Ok ids -> NoDup ids ->
  exists text, cfg_set set ([], []) = (Ok tt, ([], text)) /\
    yaml_load_desired_set [] (Ok text) = Ok set.
Proof. apply export_load. Qed.

(** C9: importing from UCI gives exactly the states that were built: the way
    through the temporary file loses and changes nothing, when no system call
    fails, the tunnels have names and the ids of the states are distinct. *)
Theorem uci_load_exact (m : machine) (bin np wp : option cstr) (io : errno)
    (set : desired_set) (ids : list cstr) :
  uci_build_desired_set m bin np wp = Ok set -> Forall wg_named set ->
  state_ids 0 set = Ok ids -> NoDup ids ->
  uci_load_desired_set m bin np wp (Ok tt) (Ok tt) (Ok tt) io [] [] = Ok set.
Proof.
  intros H Hw Hi Hn. pose proof (uci_build_ok _ _ _ _ _ H) as [Hl He].
  assert (Forall exportable set) as He'.
  { eapply Forall_impl; [exact (proj2 (Forall_and _ _) (conj He Hw))|]. tauto. }
  destruct (export_load set ids Hl He' Hi Hn) as (text & E1 & E2).
  unfold uci_load_desired_set. cbn [mbind result_bind]. rewrite H, E1. exact E2.
Qed.

(** A router with two bridges, and what importing it gives. *)
Definition sample_machine (br1 br2 : string) : machine := {|
  fopen_r := fun path =>
    if streq path (#"net") then
      Ok (#"network.d1=device
network.d1.type='bridge'
network.d1.name='" ++ lit br1 ++ #"'
network.d1.ports='lan1 lan2'
network.lan=interface
network.lan.device='" ++ lit br1 ++ #"'
network.lan.proto='static'
network.lan.ipaddr='192.168.1.1'
network.lan.netmask='255.255.255.0'
network.d2=device
network.d2.type='bridge'
network.d2.name='" ++ lit br2 ++ #"'
network.d2.ports='wan'
network.wan=interface
network.wan.device='" ++ lit br2 ++ #"'
network.wan.proto='dhcp'
")
    else Ok [];
  popen_r := fun _ => Capture (Ok tt) (Ok tt) [] [] [] (inr (Exited 0))
|}.

Definition sample_set : desired_set :=
  [ds_zero <| scenario := #"uplink_bridge" |> <| br_name := #"br-lan" |>
           <| br_addr_mode := ADDR_STATIC |> <| br_addr := #"192.168.1.1/24" |>
           <| br_ports := [ #"lan2"] |> <| up_ifname := #"lan1" |>;
   ds_zero <| scenario := #"uplink_bridge" |> <| br_name := #"br-wan" |>
           <| br_addr_mode := ADDR_DHCP |> <| br_dhcp_cmd := DHCP_CMD |>
           <| up_ifname := #"wan" |>].

Lemma uci_load_exact_witness :
  uci_load_desired_set (sample_machine "br-lan" "br-wan") None (Some (#"net"))
    (Some (#"wifi")) (Ok tt) (Ok tt) (Ok tt) EIO [] [] = Ok sample_set.
Proof.
  apply (uci_load_exact (sample_machine "br-lan" "br-wan") None (Some (#"net"))
           (Some (#"wifi")) EIO sample_set [ #"br_lan"; #"br_wan"]).
  - vm_compute. reflexivity.
  - constructor; [|constructor; [|constructor]];
      intros H; exfalso; revert H; compute_decide.
  - vm_compute. reflexivity.
  - compute_decide.
Defined.

Lemma sample_set_exportable : Forall exportable sample_set.
Proof.
  assert (uci_build_desired_set (sample_machine "br-lan" "br-wan") None
    (Some (#"net")) (Some (#"wifi")) = Ok sample_set) as H by (vm_compute; reflexivity).
  apply uci_build_ok in H as [_ H].
  assert (Forall wg_named sample_set) as Hw.
  { constructor; [|constructor; [|constructor]];
      intros C; exfalso; revert C; compute_decide. }
  eapply Forall_impl; [exact (proj2 (Forall_and _ _) (conj H Hw))|].
  intros ds [H1 H2]. by apply H1.
Qed.

Lemma cfg_set_load_witness :
  exists text, cfg_set sample_set ([], []) = (Ok tt, ([], text)) /\
    yaml_load_desired_set [] (Ok text) = Ok sample_set.
Proof.
  apply (cfg_set_load sample_set [ #"br_lan"; #"br_wan"]).
  - compute_decide.
  - exact sample_set_exportable.
  - vm_compute. reflexivity.
  - compute_decide.
Defined.

(** C37: when the ids the export gives the built states are not distinct, the
    import never gives the built states: it fails, or gives at most one state
    per id and so fewer than were built. *)
Theorem uci_load_id_clash (m : machine) (bin np wp : option cstr) (io : errno)
    (set : desired_set) (ids : list cstr) :
  uci_build_desired_set m bin np wp = Ok set -> Forall wg_named set ->
  state_ids 0 set = Ok ids -> ~ NoDup ids ->
  match uci_load_desired_set m bin np wp (Ok tt) (Ok tt) (Ok tt) io [] [] with
  | Err _ => True
  | Ok set' => length set' <= length (remove_dups ids) < length set
  end.
Proof.
  intros H Hw Hi Hn. pose proof (uci_build_ok _ _ _ _ _ H) as [Hl He].
  assert (Forall exportable set) as He'.
  { eapply Forall_impl; [exact (proj2 (Forall_and _ _) (conj He Hw))|]. tauto. }
  destruct (export_clash set ids Hl He' Hi) as (text & E1 & E2).
  destruct (state_ids_ok 0 set ids) as [Hlen _];
    [lia|unfold ULONG_MAX; unfold NR_DES_STATE_MAX in Hl; lia|done|].
  unfold uci_load_desired_set. cbn [mbind result_bind]. rewrite H, E1.
  cbn [close_out is_ok pop fst snd negb andb mbind result_bind].
  destruct (yaml_load_desired_set [] (Ok text)) as [set'|e] eqn:E; [|done].
  split; [by apply E2|]. rewrite <- Hlen. by apply remove_dups_length.
Qed.

(** br-a and br_a are built as two states, and both get the id br_a. *)
Definition clash_set : desired_set :=
  [ds_zero <| scenario := #"uplink_bridge" |> <| br_name := #"br-a" |>
           <| br_addr_mode := ADDR_STATIC |> <| br_addr := #"192.168.1.1/24" |>
           <| br_ports := [ #"lan2"] |> <| up_ifname := #"lan1" |>;
   ds_zero <| scenario := #"uplink_bridge" |> <| br_name := #"br_a" |>
           <| br_addr_mode := ADDR_DHCP |> <| br_dhcp_cmd := DHCP_CMD |>
           <| up_ifname := #"wan" |>].

Lemma uci_load_id_clash_witness :
  match uci_load_desired_set (sample_machine "br-a" "br_a") None (Some (#"net"))
          (Some (#"wifi")) (Ok tt) (Ok tt) (Ok tt) EIO [] [] with
  | Err _ => True
  | Ok set' => length set' <= length (remove_dups [ #"br_a"; #"br_a"]) < length clash_set
  end.
Proof.
  apply (uci_load_id_clash (sample_machine "br-a" "br_a") None (Some (#"net"))
    (Some (#"wifi")) EIO clash_set [ #"br_a"; #"br_a"]).
  - vm_compute. reflexivity.
  - constructor; [|constructor; [|constructor]];
      intros H; exfalso; revert H; compute_decide.
  - vm_compute. reflexivity.
  - compute_decide.
Defined.

(** Here the merged lines do not load. *)
Example uci_load_br_clash :
  uci_build_desired_set (sample_machine "br-a" "br_a") None (Some (#"net"))
    (Some (#"wifi")) = Ok clash_set /\
  uci_load_desired_set (sample_machine "br-a" "br_a") None (Some (#"net"))
    (Some (#"wifi")) (Ok tt) (Ok tt) (Ok tt) EIO [] [] = Err EINVAL.
Proof. split; vm_compute; reflexivity. Qed.
