(* ===== verification/Netlink.v ===== *)
(** The kernel snapshot of netlink.c: the requests, the parsing of the dumps
    and the tables they fill.  A pointer into the receive buffer is the list of
    the received bytes from there on; a read outside them is a fault. *)
From S2P Require Import Prelude CLib State.

(** ** Outcomes *)

(** What can go wrong in a read of the buffer: bytes that were not received, a
    string without its NUL in them, or a loop that does not end. *)
Inductive fault := Overread | Unterminated | OutOfFuel.

(** A computation returns, waits in [recv] for ever, or commits a fault. *)
Inductive outcome (A : Type) :=
| Done (a : A)
| Blocked
| Fault (f : fault).

Arguments Done {A} a.
Arguments Blocked {A}.
Arguments Fault {A} f.

#[export] Instance outcome_ret : MRet outcome := fun A a => Done a.
#[export] Instance outcome_bind : MBind outcome :=
  fun A B f m => match m with Done a => f a | Blocked => Blocked | Fault e => Fault e end.

(** ** Memory *)

Abbreviation ptr := (list ascii).

Definition rd8 (p : ptr) (off : nat) : outcome Z :=
  match p !! off with Some c => Done (byte_val c) | None => Fault Overread end.

Definition rd16 (p : ptr) (off : nat) : outcome Z :=
  b0 ← rd8 p off; b1 ← rd8 p (off + 1); mret (b0 + 256 * b1)%Z.

Definition rd32 (p : ptr) (off : nat) : outcome Z :=
  b0 ← rd8 p off; b1 ← rd8 p (off + 1); b2 ← rd8 p (off + 2); b3 ← rd8 p (off + 3);
  mret (le32 b0 b1 b2 b3).

(** The C string at [p]. *)
Definition rd_str (p : ptr) : outcome cstr :=
  if bool_decide (NUL ∈ p) then Done (c_string p) else Fault Unterminated.

(** A [uint32_t] stored in an [int]. *)
Definition to_int (v : Z) : Z := if (v <? 2 ^ 31)%Z then v else (v - 2 ^ 32)%Z.

Definition byte (v : Z) : ascii := ascii_of_N (Z.to_N (v mod 256)).

Definition wr16 (v : Z) : list ascii := [byte v; byte (v / 256)].

Definition wr32 (v : Z) : list ascii :=
  [byte v; byte (v / 256); byte (v / 65536); byte (v / 16777216)].

(** ** Kernel headers *)

Definition NLMSG_ERROR : Z := 2.
Definition NLMSG_DONE : Z := 3.
Definition RTM_NEWLINK : Z := 16.
Definition RTM_GETLINK : Z := 18.
Definition RTM_NEWADDR : Z := 20.
Definition RTM_GETADDR : Z := 22.
Definition RTM_NEWROUTE : Z := 24.
Definition RTM_GETROUTE : Z := 26.
Definition NLM_F_REQUEST : Z := 1.
Definition NLM_F_DUMP : Z := 768.
Definition NLA_TYPE_MASK : Z := 16383.
Definition AF_UNSPEC : Z := 0.
Definition AF_INET : Z := 2.
Definition IFLA_IFNAME : nat := 3.
Definition IFLA_LINK : nat := 5.
Definition IFLA_MASTER : nat := 10.
Definition IFLA_LINKINFO : nat := 18.
Definition IFLA_CARRIER : nat := 33.
Definition IFLA_INFO_KIND : nat := 1.
Definition IFLA_INFO_DATA : nat := 2.
Definition IFLA_VXLAN_ID : nat := 1.
Definition IFLA_VXLAN_GROUP : nat := 2.
Definition IFLA_VXLAN_LINK : nat := 3.
Definition IFLA_VLAN_ID : nat := 1.
Definition IFA_ADDRESS : nat := 1.
Definition IFA_LOCAL : nat := 2.
Definition RTA_DST : nat := 1.
Definition RTA_OIF : nat := 4.
Definition RTA_GATEWAY : nat := 5.
Definition RTA_TABLE : nat := 15.
Definition RT_TABLE_MAIN : Z := 254.
Definition RTN_UNICAST : Z := 1.
Definition RTN_LOCAL : Z := 2.

(** The largest attribute types grow with the version of the kernel headers;
    every version has the attributes the code looks up. *)
Class Uapi := {
  IFLA_MAX : nat;
  IFLA_INFO_MAX : nat;
  IFLA_VXLAN_MAX : nat;
  IFLA_VLAN_MAX : nat;
  IFA_MAX : nat;
  RTA_MAX : nat;
  ifla_has : IFLA_CARRIER <= IFLA_MAX;
  info_has : IFLA_INFO_DATA <= IFLA_INFO_MAX;
  vxlan_has : IFLA_VXLAN_LINK <= IFLA_VXLAN_MAX;
  vlan_has : IFLA_VLAN_ID <= IFLA_VLAN_MAX;
  ifa_has : IFA_LOCAL <= IFA_MAX;
  rta_has : RTA_TABLE <= RTA_MAX
}.

(** [NLMSG_ALIGN], [RTA_ALIGN] *)
Definition align4 (l : Z) : Z := Z.land (l + 3) (Z.lnot 3).

(** The header of a message is 16 bytes, that of an attribute 4. *)
Definition NLMSG_LENGTH (len : Z) : Z := (len + 16)%Z.
Definition NLMSG_SPACE (len : Z) : Z := align4 (NLMSG_LENGTH len).

Definition nlmsg_len (nh : ptr) : outcome Z := rd32 nh 0.
Definition nlmsg_type (nh : ptr) : outcome Z := rd16 nh 4.
Definition nlmsg_seq (nh : ptr) : outcome Z := rd32 nh 8.
Definition NLMSG_DATA (nh : ptr) : ptr := drop 16 nh.

Definition NLMSG_OK (nh : ptr) (rem : Z) : outcome bool :=
  if (rem <? 16)%Z then mret false
  else l ← nlmsg_len nh; mret ((16 <=? l) && (l <=? rem))%Z.

Definition rta_len (rta : ptr) : outcome Z := rd16 rta 0.
Definition rta_type (rta : ptr) : outcome Z := rd16 rta 2.
Definition RTA_DATA (rta : ptr) : ptr := drop 4 rta.
Definition RTA_PAYLOAD (rta : ptr) : outcome Z := l ← rta_len rta; mret (l - 4)%Z.

Definition RTA_OK (rta : ptr) (len : Z) : outcome bool :=
  if (len <? 4)%Z then mret false
  else l ← rta_len rta; mret ((4 <=? l) && (l <=? len))%Z.

(** ** State *)

(** The snapshot being filled and the static [nl_err_msg]. *)
Record nl := Nl { nl_rs : real_state; nl_err_msg : cstr }.

#[export] Instance nl_eta : Eta nl := fun s => Nl (nl_rs s) (nl_err_msg s).

(** A step: the returned code and the new state. *)
Abbreviation NL := (nl -> outcome (Z * nl)).

(** [rc = a; if (rc) return rc; b] *)
Definition and_then (a b : NL) : NL := fun s =>
  '(rc, s) ← a s; if (rc =? 0)%Z then b s else mret (rc, s).

Definition neg (e : errno) : Z := Z.neg (errno_num e).

Definition nl_limit (name : cstr) (max : Z) (s : nl) : Z * nl :=
  (neg ENOSPC,
   s <| nl_err_msg := snprintf 160 (#"too many " ++ name ++ #" in netlink dump, max=" ++ fmt_d max) |>).

(** [strerror] is the C library's. *)
Definition nl_errstr (strerror : Z -> cstr) (s : nl) (rc : Z) : cstr :=
  if (rc =? neg ENOSPC)%Z && negb (bool_decide (nl_err_msg s = [])) then nl_err_msg s
  else strerror (- rc)%Z.

(** [arr[n++] = x] with the limit of the array. *)
Definition push {A} (p : real_state -> list A) `{!Setter p} (name : cstr) (max : Z)
    (x : outcome A) : NL := fun s =>
  if (max <=? Z.of_nat (length (p (nl_rs s))))%Z then mret (nl_limit name max s)
  else x ← x; mret (0%Z, s <| nl_rs ::= set_field p (fun l => l ++ [x]) |>).

(** ** Attributes *)

(** [struct rtattr *tb[max + 1]] *)
Abbreviation table := (list (option ptr)).

Definition attr (tb : table) (i : nat) : option ptr := mjoin (tb !! i).

(** The loop of [parse_rtattr]; a round takes at least 4 from [len]. *)
Fixpoint parse_rtattr_loop (fuel : nat) (tb : table) (max : nat) (rta : ptr) (len : Z)
  : outcome table :=
  match fuel with
  | O => Fault OutOfFuel
  | S n =>
    ok ← RTA_OK rta len;
    if negb ok then mret tb
    else
      t ← rta_type rta;
      let type := Z.land t NLA_TYPE_MASK in
      let tb := if (type <=? Z.of_nat max)%Z then <[Z.to_nat type := Some rta]> tb else tb in
      l ← rta_len rta;
      parse_rtattr_loop n tb max (drop (Z.to_nat (align4 l)) rta) (len - align4 l)
  end.

Definition parse_rtattr (max : nat) (rta : ptr) (len : Z) : outcome table :=
  parse_rtattr_loop (S (Z.to_nat len)) (replicate (S max) None) max rta len.

(** [tb[i] && RTA_PAYLOAD(tb[i]) >= sz], and the number there. *)
Definition attr_num (rd : ptr -> nat -> outcome Z) (sz : Z) (tb : table) (i : nat)
  : outcome (option Z) :=
  match attr tb i with
  | None => mret None
  | Some a =>
    len ← RTA_PAYLOAD a;
    if (sz <=? len)%Z then v ← rd (RTA_DATA a) 0; mret (Some v) else mret None
  end.

Definition attr_u8 := attr_num rd8 1.
Definition attr_u16 := attr_num rd16 2.
Definition attr_u32 := attr_num rd32 4.

(** The table nested in an attribute. *)
Definition nested (max : nat) (a : ptr) : outcome table :=
  len ← RTA_PAYLOAD a; parse_rtattr max (RTA_DATA a) len.

Definition has (v : option Z) : bool := match v with Some _ => true | None => false end.

Section Messages.
Context `{Uapi}.

Definition link_kind (tb : table) (len : nat) : outcome cstr :=
  match attr tb IFLA_LINKINFO with
  | None => mret []
  | Some info =>
    li ← nested IFLA_INFO_MAX info;
    match attr li IFLA_INFO_KIND with
    | None => mret []
    | Some k => kind ← rd_str (RTA_DATA k); mret (snprintf len kind)
    end
  end.

(** ** Links *)

(** The fields of [struct ifinfomsg]. *)
Definition ifi_index (ifi : ptr) : outcome Z := v ← rd32 ifi 4; mret (to_int v).
Definition ifi_flags (ifi : ptr) : outcome Z := rd32 ifi 8.

Definition add_iface (ifi : ptr) (tb : table) : NL := fun s =>
  match attr tb IFLA_IFNAME with
  | None => mret (0%Z, s)
  | Some name =>
    push rs_ifaces (#"interfaces") NR_IFACE_MAX
      (index ← ifi_index ifi;
       flags ← ifi_flags ifi;
       name ← rd_str (RTA_DATA name);
       kind ← link_kind tb 16;
       carrier ← attr_u8 tb IFLA_CARRIER;
       master ← attr_u32 tb IFLA_MASTER;
       link ← attr_u32 tb IFLA_LINK;
       mret (Iface (snprintf IFNAMSIZ name) kind index flags (has carrier)
               (default 0%Z carrier) (to_int (default 0%Z master))
               (to_int (default 0%Z link)) (has link))) s
  end.

(** How [add_vxlan] and [add_vlan] start: links without a kind, of another
    kind than [want], or without IFLA_INFO_DATA are left alone. *)
Definition linkinfo (tb : table) (want : cstr) (f : ptr -> ptr -> NL) : NL := fun s =>
  match attr tb IFLA_LINKINFO, attr tb IFLA_IFNAME with
  | Some info, Some name =>
    li ← nested IFLA_INFO_MAX info;
    match attr li IFLA_INFO_KIND with
    | None => mret (0%Z, s)
    | Some k =>
      kind ← rd_str (RTA_DATA k);
      if negb (streq kind want) then mret (0%Z, s)
      else match attr li IFLA_INFO_DATA with
           | None => mret (0%Z, s)
           | Some data => f data name s
           end
    end
  | _, _ => mret (0%Z, s)
  end.

(** The new [struct vxlan]. *)
Definition read_vxlan (ifi data name : ptr) : outcome vxlan :=
  index ← ifi_index ifi;
  name ← rd_str (RTA_DATA name);
  vx ← nested IFLA_VXLAN_MAX data;
  vni ← attr_u32 vx IFLA_VXLAN_ID;
  remote ← attr_u32 vx IFLA_VXLAN_GROUP;
  link ← attr_u32 vx IFLA_VXLAN_LINK;
  mret (Vxlan (snprintf IFNAMSIZ name) index
          (default 0%Z vni) (has vni) (default 0%Z remote) (has remote)
          (to_int (default 0%Z link)) (has link)).

Definition add_vxlan (ifi : ptr) (tb : table) : NL :=
  linkinfo tb (#"vxlan") (fun data name =>
    push rs_vxlan (#"vxlan interfaces") NR_VXLAN_MAX (read_vxlan ifi data name)).

(** The new [struct vlan]. *)
Definition read_vlan (ifi : ptr) (tb : table) (data name : ptr) : outcome vlan :=
  index ← ifi_index ifi;
  name ← rd_str (RTA_DATA name);
  link ← attr_u32 tb IFLA_LINK;
  vl ← nested IFLA_VLAN_MAX data;
  id ← attr_u16 vl IFLA_VLAN_ID;
  mret (Vlan (snprintf IFNAMSIZ name) index (default 0%Z id) (has id)
          (to_int (default 0%Z link)) (has link)).

Definition add_vlan (ifi : ptr) (tb : table) : NL :=
  linkinfo tb (#"vlan") (fun data name =>
    push rs_vlan (#"vlan interfaces") NR_VLAN_MAX (read_vlan ifi tb data name)).

(** [NLMSG_PAYLOAD(nh, sz)] as an [int]. *)
Definition payload (len sz : Z) : Z := to_int ((len - NLMSG_SPACE sz) mod 2 ^ 32).

Definition parse_link_msg (nh : ptr) : NL := fun s =>
  len ← nlmsg_len nh;
  if (len <? NLMSG_LENGTH 16)%Z then mret (neg EIO, s)
  else
    let ifi := NLMSG_DATA nh in
    tb ← parse_rtattr IFLA_MAX (drop 16 ifi) (payload len 16);
    and_then (add_iface ifi tb) (and_then (add_vxlan ifi tb) (add_vlan ifi tb)) s.

(** ** Addresses and routes *)

Definition parse_addr_msg (nh : ptr) : NL := fun s =>
  len ← nlmsg_len nh;
  if (len <? NLMSG_LENGTH 8)%Z then mret (neg EIO, s)
  else
    let ifa := NLMSG_DATA nh in
    family ← rd8 ifa 0;
    if negb (family =? AF_INET)%Z then mret (0%Z, s)
    else
      tb ← parse_rtattr IFA_MAX (drop 8 ifa) (payload len 8);
      match (match attr tb IFA_LOCAL with Some a => Some a | None => attr tb IFA_ADDRESS end) with
      | None => mret (0%Z, s)
      | Some src =>
        plen ← RTA_PAYLOAD src;
        if (plen <? 4)%Z then mret (0%Z, s)
        else
          push rs_addr4 (#"IPv4 addresses") NR_ADDR4_MAX
            (index ← rd32 ifa 4;
             prefix ← rd8 ifa 1;
             addr ← rd32 (RTA_DATA src) 0;
             mret (Addr4 (to_int index) addr prefix)) s
      end.

Definition route_table (rtm : ptr) (tb : table) : outcome Z :=
  t ← attr_u32 tb RTA_TABLE;
  match t with
  | Some t => mret (to_int t)
  | None => rd8 rtm 4
  end.

Definition parse_route_msg (nh : ptr) : NL := fun s =>
  len ← nlmsg_len nh;
  if (len <? NLMSG_LENGTH 12)%Z then mret (neg EIO, s)
  else
    let rtm := NLMSG_DATA nh in
    family ← rd8 rtm 0;
    if negb (family =? AF_INET)%Z then mret (0%Z, s)
    else
      type ← rd8 rtm 7;
      if negb (type =? RTN_UNICAST)%Z && negb (type =? RTN_LOCAL)%Z then mret (0%Z, s)
      else
        tb ← parse_rtattr RTA_MAX (drop 12 rtm) (payload len 12);
        t ← route_table rtm tb;
        if negb (t =? RT_TABLE_MAIN)%Z then mret (0%Z, s)
        else
          push rs_route4 (#"IPv4 routes") NR_ROUTE4_MAX
            (prefix ← rd8 rtm 1;
             dst ← attr_u32 tb RTA_DST;
             gw ← attr_u32 tb RTA_GATEWAY;
             oif ← attr_u32 tb RTA_OIF;
             mret (Route4 (default 0%Z dst) prefix (default 0%Z gw) (has gw)
                     (to_int (default 0%Z oif)))) s.

(** ** Dumps *)

(** [sizeof(struct nlmsgerr)] is 20. *)
Definition nl_err (nh : ptr) : outcome Z :=
  len ← nlmsg_len nh;
  if (len <? NLMSG_LENGTH 20)%Z then mret (neg EIO)
  else e ← rd32 (NLMSG_DATA nh) 0; mret (to_int e).

(** The [switch] of [recv_dump]. *)
Definition parse_msg (type : Z) (nh : ptr) : NL :=
  if (type =? RTM_NEWLINK)%Z then parse_link_msg nh
  else if (type =? RTM_NEWADDR)%Z then parse_addr_msg nh
  else if (type =? RTM_NEWROUTE)%Z then parse_route_msg nh
  else fun s => mret (neg EINVAL, s).

(** How the loop over the messages of a datagram ends: the function returns,
    or the datagram is used up with [rem] left. *)
Inductive flow := Return (rc : Z) | Next (rem : Z).

(** The inner loop; a round takes at least 16 from [rem]. *)
Fixpoint msg_loop (fuel : nat) (seq type : Z) (nh : ptr) (rem : Z) (s : nl)
  : outcome (flow * nl) :=
  match fuel with
  | O => Fault OutOfFuel
  | S n =>
    ok ← NLMSG_OK nh rem;
    if negb ok then mret (Next rem, s)
    else
      l ← nlmsg_len nh;
      let next := msg_loop n seq type (drop (Z.to_nat (align4 l)) nh) (rem - align4 l) in
      sq ← nlmsg_seq nh;
      if negb (sq =? seq)%Z then next s
      else
        t ← nlmsg_type nh;
        if (t =? NLMSG_DONE)%Z then mret (Return 0, s)
        else if (t =? NLMSG_ERROR)%Z then rc ← nl_err nh; mret (Return rc, s)
        else if negb (t =? type)%Z then next s
        else
          '(rc, s) ← parse_msg type nh s;
          if negb (rc =? 0)%Z then mret (Return rc, s) else next s
  end.

(** One [recv]: a datagram, an interruption, or another error. *)
Inductive rcv := RcvData (bytes : list ascii) | RcvIntr | RcvErr (e : errno).

Definition RECV_SZ : nat := Z.to_nat 16384.

(** [inbox] is what the socket delivers; the code returned, the state and what
    is left to be received. *)
Fixpoint recv_dump (inbox : list rcv) (seq type : Z) (s : nl)
  : outcome (Z * nl * list rcv) :=
  match inbox with
  | [] => Blocked
  | RcvIntr :: inbox' => recv_dump inbox' seq type s
  | RcvErr e :: inbox' => mret (neg e, s, inbox')
  | RcvData bytes :: inbox' =>
    let buf := take RECV_SZ bytes in
    let len := Z.of_nat (length buf) in
    if (len =? 0)%Z then mret (neg EIO, s, inbox')
    else
      '(fl, s) ← msg_loop (S (length buf)) seq type buf len s;
      match fl with
      | Return rc => mret (rc, s, inbox')
      | Next rem =>
        if negb (rem =? 0)%Z then mret (neg EIO, s, inbox')
        else recv_dump inbox' seq type s
      end
  end.

(** ** Requests *)

(** The kernel's side of a socket: what [socket] and [bind] return, and for a
    request what [sendto] returns and what then arrives. *)
Record conv := Conv {
  c_socket : result unit;
  c_bind : result unit;
  c_request : list ascii -> result Z * list rcv
}.

(** 0, or the negative errno. *)
Definition nl_open (c : conv) : Z :=
  match c_socket c with
  | Err e => neg e
  | Ok _ => match c_bind c with Err e => neg e | Ok _ => 0%Z end
  end.

(** The bytes of a request. *)
Definition nl_request (type : Z) (body : list ascii) (seq : Z) : list ascii :=
  wr32 (NLMSG_LENGTH (Z.of_nat (length body))) ++ wr16 type ++
  wr16 (Z.lor NLM_F_REQUEST NLM_F_DUMP) ++ wr32 seq ++ wr32 0 ++ body.

(** The code and what arrives. *)
Definition nl_send (c : conv) (type : Z) (body : list ascii) (seq : Z) : Z * list rcv :=
  let body_len := Z.of_nat (length body) in
  if (NLMSG_SPACE body_len >? 256)%Z then (neg EINVAL, [])
  else
    let '(rc, inbox) := c_request c (nl_request type body seq) in
    match rc with
    | Err e => (neg e, inbox)
    | Ok n => if negb (n =? NLMSG_LENGTH body_len)%Z then (neg EIO, inbox) else (0%Z, inbox)
    end.

(** The body of [dump_links], [dump_addr4] and [dump_route4]: [*seq] is
    incremented, the request sent, and the answer received after what is still
    queued. *)
Definition dump (c : conv) (req type : Z) (body : list ascii) (seq : Z)
    (inbox : list rcv) (s : nl) : outcome (Z * nl * list rcv) :=
  let seq := ((seq + 1) mod 2 ^ 32)%Z in
  let '(rc, more) := nl_send c req body seq in
  if negb (rc =? 0)%Z then mret (rc, s, inbox ++ more)
  else recv_dump (inbox ++ more) seq type s.

Definition dump_links (c : conv) := dump c RTM_GETLINK RTM_NEWLINK [byte AF_UNSPEC].

(** [struct ifaddrmsg] is 8 bytes, [struct rtmsg] is 12. *)
Definition dump_addr4 (c : conv) :=
  dump c RTM_GETADDR RTM_NEWADDR (byte AF_INET :: replicate 7 NUL).

Definition dump_route4 (c : conv) :=
  dump c RTM_GETROUTE RTM_NEWROUTE
    (byte AF_INET :: replicate 3 NUL ++ byte RT_TABLE_MAIN :: replicate 7 NUL).

(** [msg] is what an earlier run left in [nl_err_msg]. *)
Definition nl_load_state (c : conv) (msg : cstr) : outcome (Z * nl) :=
  let s := Nl rs_zero msg in
  let fd := nl_open c in
  if (fd <? 0)%Z then mret (fd, s)
  else
    '(rc, s, inbox) ← dump_links c 0 [] s;
    if negb (rc =? 0)%Z then mret (rc, s)
    else
      '(rc, s, inbox) ← dump_addr4 c 1 inbox s;
      if negb (rc =? 0)%Z then mret (rc, s)
      else
        '(rc, s, inbox) ← dump_route4 c 2 inbox s;
        mret (rc, s).

End Messages.

(** ** Safety *)

(** The bounds of the arrays and numbers of a snapshot. *)
Definition is_int (v : Z) : Prop := (INT_MIN <= v <= INT_MAX)%Z.
Definition is_u8 (v : Z) : Prop := (0 <= v < 256)%Z.
Definition is_u16 (v : Z) : Prop := (0 <= v < 2 ^ 16)%Z.
Definition is_u32 (v : Z) : Prop := (0 <= v <= UINT32_MAX)%Z.

Record iface_wf (i : iface) : Prop := {
  iface_name : fits IFNAMSIZ (if_name i);
  iface_kind : fits 16 (if_kind i);
  iface_index : is_int (if_ifindex i);
  iface_flags : is_u32 (if_flags i);
  iface_master : is_int (if_master i);
  iface_link : is_int (if_link i)
}.

Record addr4_wf (a : addr4) : Prop := {
  addr4_index : is_int (a4_ifindex a);
  addr4_addr : is_u32 (a4_addr a);
  addr4_prefix : is_u8 (a4_prefix a)
}.

Record route4_wf (r : route4) : Prop := {
  route4_dst : is_u32 (r4_dst r);
  route4_prefix : is_u8 (r4_prefix r);
  route4_gw : is_u32 (r4_gw r);
  route4_oif : is_int (r4_oif r)
}.

Record vxlan_wf (v : vxlan) : Prop := {
  vxlan_name : fits IFNAMSIZ (vxl_ifname v);
  vxlan_index : is_int (vxl_ifindex v);
  vxlan_vni : is_u32 (vxl_vni v);
  vxlan_remote : is_u32 (vxl_remote v);
  vxlan_link : is_int (vxl_link v)
}.

Record vlan_wf (v : vlan) : Prop := {
  vlan_name : fits IFNAMSIZ (vl_ifname v);
  vlan_index : is_int (vl_ifindex v);
  vlan_tag : is_u16 (vl_id v);
  vlan_lower : is_int (vl_link v)
}.

Definition below {A} (max : Z) (P : A -> Prop) (l : list A) : Prop :=
  (Z.of_nat (length l) <= max)%Z /\ Forall P l.

Record rs_wf (rs : real_state) : Prop := {
  rs_ifaces_wf : below NR_IFACE_MAX iface_wf (rs_ifaces rs);
  rs_addr4_wf : below NR_ADDR4_MAX addr4_wf (rs_addr4 rs);
  rs_route4_wf : below NR_ROUTE4_MAX route4_wf (rs_route4 rs);
  rs_vxlan_wf : below NR_VXLAN_MAX vxlan_wf (rs_vxlan rs);
  rs_vlan_wf : below NR_VLAN_MAX vlan_wf (rs_vlan rs)
}.

Section Received.

(** The datagrams that were received. *)
Context (D : list ascii -> Prop).

(** [p] points into one of them. *)
Definition received (p : ptr) : Prop := exists d, D d /\ p `suffix_of` d.

(** The attribute at [p] lies within the received bytes. *)
Definition rta_in (p : ptr) : Prop :=
  received p /\ exists l, rta_len p = Done l /\ (4 <= l <= Z.of_nat (length p))%Z.

(** Some received datagram has an attribute after whose header no NUL comes. *)
Definition open_string : Prop := exists p, rta_in p /\ NUL ∉ RTA_DATA p.

(** [m] reads only received bytes, its loops end, and what it returns is [P];
    it may wait in [recv].  A string is read past the received bytes only when
    one of them is open. *)
Definition safe {A} (m : outcome A) (P : A -> Prop) : Prop :=
  match m with
  | Done a => P a
  | Blocked => True
  | Fault Unterminated => open_string
  | Fault _ => False
  end.

Lemma received_drop n p : received p -> received (drop n p).
Proof.
  intros (d & Hd & Hp). exists d. split; [done|]. etrans; [|exact Hp].
  exists (take n p). by rewrite take_drop.
Qed.

Hint Resolve received_drop : netrec.

Definition table_in (tb : table) : Prop :=
  forall i p, attr tb i = Some p -> rta_in p.

Lemma safe_bind {A B} (m : outcome A) (f : A -> outcome B) P Q :
  safe m P -> (forall a, P a -> safe (f a) Q) -> safe (m ≫= f) Q.
Proof. destruct m as [a| |[]]; cbn; auto. Qed.

Lemma safe_ret {A} (a : A) (P : A -> Prop) : P a -> safe (mret a) P.
Proof. done. Qed.

Lemma byte_val_range c : is_u8 (byte_val c).
Proof.
  unfold is_u8, byte_val. pose proof (N_ascii_bounded c). lia.
Qed.

Lemma safe_rd8 p off : off < length p -> safe (rd8 p off) is_u8.
Proof.
  intros Hp. unfold rd8. destruct (lookup_lt_is_Some_2 p off Hp) as [c ->].
  apply byte_val_range.
Qed.

Lemma safe_rd16 p off : off + 1 < length p -> safe (rd16 p off) is_u16.
Proof.
  intros Hp. unfold rd16.
  repeat (eapply safe_bind; [apply safe_rd8; lia|intros]).
  cbn. unfold is_u8, is_u16 in *. lia.
Qed.

Lemma safe_rd32 p off : off + 3 < length p -> safe (rd32 p off) is_u32.
Proof.
  intros Hp. unfold rd32.
  repeat (eapply safe_bind; [apply safe_rd8; lia|intros]).
  cbn. unfold is_u8, is_u32, UINT32_MAX, le32 in *. lia.
Qed.

Lemma safe_rd_str p : rta_in p -> safe (rd_str (RTA_DATA p)) (fun _ => True).
Proof.
  intros Hp. unfold rd_str. case_bool_decide as Hn; [done|]. by exists p.
Qed.

Lemma table_rta tb i p : table_in tb -> attr tb i = Some p -> rta_in p.
Proof. intros Ht. apply Ht. Qed.

Lemma safe_weaken {A} (m : outcome A) (P Q : A -> Prop) :
  safe m P -> (forall a, P a -> Q a) -> safe m Q.
Proof. destruct m as [a| |[]]; cbn; auto. Qed.

Lemma to_int_range v : is_u32 v -> is_int (to_int v).
Proof.
  unfold is_u32, is_int, to_int, UINT32_MAX, INT_MIN, INT_MAX.
  destruct (Z.ltb_spec v (2 ^ 31)); lia.
Qed.

Lemma align4_spec l : align4 l = (4 * ((l + 3) / 4))%Z.
Proof.
  unfold align4. rewrite <- Z.ldiff_land. change 3%Z with (Z.ones 2) at 2.
  rewrite Z.ldiff_ones_r, Z.shiftl_mul_pow2, Z.shiftr_div_pow2 by lia.
  change (2 ^ 2)%Z with 4%Z. lia.
Qed.

Lemma align4_le l : (l <= align4 l < l + 4)%Z.
Proof.
  rewrite align4_spec. pose proof (Z.div_mod (l + 3) 4).
  pose proof (Z.mod_pos_bound (l + 3) 4). lia.
Qed.

Lemma safe_rta_len p : 4 <= length p -> safe (rta_len p) is_u16.
Proof. intros Hp. apply safe_rd16. lia. Qed.

(** After [RTA_OK] the attribute is in the bytes [len] spans. *)
Lemma safe_RTA_OK rta len :
  (len <= Z.of_nat (length rta))%Z ->
  safe (RTA_OK rta len) (fun ok =>
    ok = true -> exists l, rta_len rta = Done l /\ (4 <= l <= len)%Z).
Proof.
  intros Hl. unfold RTA_OK. destruct (Z.ltb_spec len 4); [done|].
  pose proof (safe_rta_len rta) as S.
  destruct (rta_len rta) as [l| |[]]; cbn in *; try (apply S; lia).
  intros Hok. breflect. exists l. split; [done|lia].
Qed.

Lemma attr_insert tb i j p q :
  attr (<[i := Some p]> tb) j = Some q -> q = p \/ attr tb j = Some q.
Proof.
  unfold attr. destruct (decide (i = j)) as [->|Hn].
  - destruct (decide (j < length tb)) as [Hl|Hl].
    + rewrite list_lookup_insert_eq by done. cbn. intros [= ->]. by left.
    + rewrite list_insert_ge by lia. by right.
  - rewrite list_lookup_insert_ne by done. by right.
Qed.

Lemma safe_parse_rtattr_loop fuel tb max rta len :
  (Z.to_nat len < fuel) -> (len <= Z.of_nat (length rta))%Z -> received rta ->
  table_in tb -> safe (parse_rtattr_loop fuel tb max rta len) table_in.
Proof.
  revert tb rta len. induction fuel as [|n IH]; intros tb rta len Hf Hl Hr Ht; [lia|].
  cbn [parse_rtattr_loop].
  eapply safe_bind; [by apply safe_RTA_OK|]. intros [] Hok; cbn [negb]; [|done].
  destruct (Hok eq_refl) as (l & El & Hb).
  eapply safe_bind; [apply safe_rd16; lia|]. intros t _. rewrite El. cbn [mbind outcome_bind].
  pose proof (align4_le l). apply IH.
  - lia.
  - rewrite length_drop. lia.
  - by apply received_drop.
  - destruct (_ <=? _)%Z; [|done]. intros i p Hi.
    apply attr_insert in Hi as [->|Hi]; [|by apply (Ht i)].
    split; [done|]. exists l. split; [done|lia].
Qed.

Lemma safe_parse_rtattr max rta len :
  (len <= Z.of_nat (length rta))%Z -> received rta ->
  safe (parse_rtattr max rta len) table_in.
Proof.
  intros Hl Hr. apply safe_parse_rtattr_loop; [lia|done|done|].
  intros i p Hi. unfold attr in Hi.
  destruct (replicate (S max) None !! i) as [o|] eqn:E; [|done].
  apply lookup_replicate in E as [-> _]. done.
Qed.

Lemma safe_payload p :
  rta_in p -> safe (RTA_PAYLOAD p) (fun len =>
    (0 <= len)%Z /\ (len <= Z.of_nat (length (RTA_DATA p)))%Z).
Proof.
  intros (_ & l & El & Hb). unfold RTA_PAYLOAD, RTA_DATA. rewrite El. cbn.
  rewrite length_drop. lia.
Qed.

Lemma safe_nested max p : rta_in p -> safe (nested max p) table_in.
Proof.
  intros Hp. unfold nested. eapply safe_bind; [by apply safe_payload|].
  intros len [_ Hl]. apply safe_parse_rtattr; [done|]. apply received_drop, Hp.
Qed.

Definition opt_all (P : Z -> Prop) (v : option Z) : Prop :=
  match v with Some v => P v | None => True end.

Lemma safe_attr_num rd sz tb i P :
  table_in tb ->
  (forall p, (sz <= Z.of_nat (length p))%Z -> safe (rd p 0) P) ->
  safe (attr_num rd sz tb i) (opt_all P).
Proof.
  intros Ht Hrd. unfold attr_num. destruct (attr tb i) as [a|] eqn:E; [|done].
  eapply safe_bind; [apply safe_payload; by apply (Ht i)|]. intros len [_ Hl].
  destruct (Z.leb_spec sz len); [|done].
  eapply safe_bind; [apply Hrd; lia|]. intros v Hv. done.
Qed.

Lemma safe_attr_u8 tb i : table_in tb -> safe (attr_u8 tb i) (opt_all is_u8).
Proof. intros Ht. apply safe_attr_num; [done|]. intros p Hp. apply safe_rd8. lia. Qed.

Lemma safe_attr_u16 tb i : table_in tb -> safe (attr_u16 tb i) (opt_all is_u16).
Proof. intros Ht. apply safe_attr_num; [done|]. intros p Hp. apply safe_rd16. lia. Qed.

Lemma safe_attr_u32 tb i : table_in tb -> safe (attr_u32 tb i) (opt_all is_u32).
Proof. intros Ht. apply safe_attr_num; [done|]. intros p Hp. apply safe_rd32. lia. Qed.

Lemma opt_u16 v : opt_all is_u16 v -> is_u16 (default 0%Z v).
Proof. destruct v; cbn; [done|]. unfold is_u16. lia. Qed.

Lemma opt_u32 v : opt_all is_u32 v -> is_u32 (default 0%Z v).
Proof. destruct v; cbn; [done|]. unfold is_u32, UINT32_MAX. lia. Qed.

Lemma opt_int v : opt_all is_u32 v -> is_int (to_int (default 0%Z v)).
Proof. intros Hv. by apply to_int_range, opt_u32. Qed.

Hint Resolve safe_rd_str table_rta safe_nested safe_attr_u8 safe_attr_u16 safe_attr_u32
  opt_u16 opt_u32 opt_int to_int_range : netrec.

Context `{Uapi}.

(** A step that keeps the snapshot within its bounds. *)
Definition keeps (m : NL) : Prop :=
  forall s, rs_wf (nl_rs s) -> safe (m s) (fun r => rs_wf (nl_rs (snd r))).

Lemma keeps_ret rc : keeps (fun s => mret (rc, s)).
Proof. by intros s Hs. Qed.

Lemma keeps_and_then a b : keeps a -> keeps b -> keeps (and_then a b).
Proof.
  intros Ha Hb s Hs. unfold and_then. eapply safe_bind; [by apply Ha|].
  intros [rc s'] Hs'. destruct (rc =? 0)%Z; [by apply Hb|done].
Qed.

(** Read something first. *)
Lemma keeps_bind {A} (m : outcome A) P (f : A -> NL) :
  safe m P -> (forall a, P a -> keeps (f a)) -> keeps (fun s => a ← m; f a s).
Proof. intros Hm Hf s Hs. eapply safe_bind; [exact Hm|]. intros a Ha. by apply Hf. Qed.

Lemma below_snoc {A} max (P : A -> Prop) l x :
  below max P l -> (max <=? Z.of_nat (length l))%Z = false -> P x -> below max P (l ++ [x]).
Proof.
  intros [Hl Hp] Hm Hx. apply Z.leb_gt in Hm. split.
  - rewrite length_app. cbn. lia.
  - apply Forall_app. auto.
Qed.

Lemma keeps_push {A} (p : real_state -> list A) `{!Setter p} name max x (P : A -> Prop) :
  (forall rs, rs_wf rs -> below max P (p rs)) ->
  (forall rs l, rs_wf rs -> below max P l -> rs_wf (set_field p (fun _ => l) rs)) ->
  (forall rs f, set_field p f rs = set_field p (fun _ => f (p rs)) rs) ->
  safe x P -> keeps (push p name max x).
Proof.
  intros Hp Hset Hf Hx s Hs. unfold push.
  destruct (_ <=? _)%Z eqn:E; [done|].
  eapply safe_bind; [exact Hx|]. intros a Ha. apply safe_ret. cbn. rewrite Hf.
  apply Hset; [done|]. apply below_snoc; auto.
Qed.

Ltac keeps_push p :=
  eapply (keeps_push p);
    [by intros ? []|by intros ? ? [] ?; constructor|by intros [] ?|].

#[local] Arguments snprintf : simpl never.
#[local] Arguments to_int : simpl never.

(** Go through the reads of a record. *)
Ltac safe_reads :=
  repeat match goal with
  | |- safe (_ ≫= _) _ => eapply safe_bind; [solve [eauto with netrec]|intros]
  | |- safe (mret _) _ => apply safe_ret; constructor; cbn; eauto with netrec
  end.

Lemma safe_link_kind tb :
  table_in tb -> safe (link_kind tb 16) (fun k => fits 16 k).
Proof.
  intros Ht. unfold link_kind.
  destruct (attr tb IFLA_LINKINFO) as [info|] eqn:E; [|cbn; unfold fits; cbn; lia].
  eapply safe_bind; [apply safe_nested; by apply (Ht IFLA_LINKINFO)|]. intros li Hli.
  destruct (attr li IFLA_INFO_KIND) eqn:Ek; [|cbn; unfold fits; cbn; lia].
  eapply safe_bind; [eauto with netrec|]. intros k _.
  apply safe_ret. apply snprintf_length. lia.
Qed.

Lemma fits_ifname s : fits IFNAMSIZ (snprintf IFNAMSIZ s).
Proof. apply snprintf_length. unfold IFNAMSIZ. lia. Qed.

Lemma safe_ifi_index ifi : 16 <= length ifi -> safe (ifi_index ifi) is_int.
Proof.
  intros Hi. unfold ifi_index. eapply safe_bind; [apply safe_rd32; lia|].
  intros v Hv. by apply to_int_range.
Qed.

Lemma safe_ifi_flags ifi : 16 <= length ifi -> safe (ifi_flags ifi) is_u32.
Proof. intros Hi. apply safe_rd32. lia. Qed.

Hint Resolve safe_link_kind fits_ifname safe_ifi_index safe_ifi_flags : netrec.

Lemma keeps_add_iface ifi tb :
  16 <= length ifi -> table_in tb -> keeps (add_iface ifi tb).
Proof.
  intros Hi Ht. unfold add_iface.
  destruct (attr tb IFLA_IFNAME) as [name|] eqn:E; [|apply keeps_ret].
  keeps_push rs_ifaces. safe_reads.
Qed.

Lemma keeps_linkinfo tb want f :
  table_in tb -> (forall data name, rta_in data -> rta_in name -> keeps (f data name)) ->
  keeps (linkinfo tb want f).
Proof.
  intros Ht Hf s Hs. unfold linkinfo.
  destruct (attr tb IFLA_LINKINFO) as [info|] eqn:E1; [|done].
  destruct (attr tb IFLA_IFNAME) as [nm|] eqn:E3; [|done].
  eapply safe_bind; [apply safe_nested; by apply (Ht IFLA_LINKINFO)|]. intros li Hli.
  destruct (attr li IFLA_INFO_KIND) eqn:Ek; [|done].
  eapply safe_bind; [eauto with netrec|]. intros kind _.
  destruct (negb _); [done|].
  destruct (attr li IFLA_INFO_DATA) eqn:E2; [|done].
  apply Hf; [by apply (Hli IFLA_INFO_DATA)|by apply (Ht IFLA_IFNAME)|done].
Qed.

Lemma keeps_add_vxlan ifi tb :
  16 <= length ifi -> table_in tb -> keeps (add_vxlan ifi tb).
Proof.
  intros Hi Ht. apply keeps_linkinfo; [done|]. intros data name Hd Hn.
  keeps_push rs_vxlan. unfold read_vxlan. safe_reads.
Qed.

Lemma keeps_add_vlan ifi tb :
  16 <= length ifi -> table_in tb -> keeps (add_vlan ifi tb).
Proof.
  intros Hi Ht. apply keeps_linkinfo; [done|]. intros data name Hd Hn.
  keeps_push rs_vlan. unfold read_vlan. safe_reads.
Qed.

(** The message at [nh] lies within the received bytes. *)
Definition msg_in (nh : ptr) (l : Z) : Prop :=
  nlmsg_len nh = Done l /\ (16 <= l <= Z.of_nat (length nh))%Z /\ (l < 2 ^ 31)%Z /\
  received nh.

Lemma NLMSG_SPACE_4 k : (0 <= k)%Z -> NLMSG_SPACE (4 * k) = (4 * k + 16)%Z.
Proof.
  intros Hk. unfold NLMSG_SPACE, NLMSG_LENGTH. rewrite align4_spec.
  replace (4 * k + 16 + 3)%Z with ((k + 4) * 4 + 3)%Z by lia.
  rewrite Z.div_add_l by lia. change (3 / 4)%Z with 0%Z. lia.
Qed.

Lemma payload_spec l k :
  (0 <= k)%Z -> (NLMSG_LENGTH (4 * k) <= l < 2 ^ 31)%Z ->
  payload l (4 * k) = (l - 16 - 4 * k)%Z.
Proof.
  intros Hk Hl. unfold payload, NLMSG_LENGTH in *. rewrite NLMSG_SPACE_4 by lia.
  rewrite Z.mod_small by lia. unfold to_int.
  rewrite (proj2 (Z.ltb_lt _ _)); lia.
Qed.

(** The header of [sz] bytes and the attributes after it. *)
Lemma safe_attrs max nh l k :
  (0 <= k)%Z -> msg_in nh l -> (l <? NLMSG_LENGTH (4 * k))%Z = false ->
  Z.to_nat (4 * k) <= length (NLMSG_DATA nh) /\
  safe (parse_rtattr max (drop (Z.to_nat (4 * k)) (NLMSG_DATA nh)) (payload l (4 * k)))
    table_in.
Proof.
  intros Hk (_ & Hl & Hm & Hr) Hs. apply Z.ltb_ge in Hs.
  rewrite payload_spec by lia. unfold NLMSG_LENGTH, NLMSG_DATA in *.
  rewrite length_drop. split; [lia|].
  apply safe_parse_rtattr; [rewrite !length_drop; lia|]. by do 2 apply received_drop.
Qed.

Lemma keeps_parse_link_msg nh l : msg_in nh l -> keeps (parse_link_msg nh).
Proof.
  intros Hm s Hs. unfold parse_link_msg. rewrite (proj1 Hm). cbn [mbind outcome_bind].
  destruct (l <? NLMSG_LENGTH 16)%Z eqn:E; [done|].
  destruct (safe_attrs IFLA_MAX nh l 4 ltac:(lia) Hm E) as [Hi Ht].
  eapply safe_bind; [exact Ht|]. intros tb Htb. revert s Hs.
  change (Z.to_nat (4 * 4)) with 16 in Hi.
  apply keeps_and_then; [by apply keeps_add_iface|].
  apply keeps_and_then; [by apply keeps_add_vxlan|by apply keeps_add_vlan].
Qed.

Lemma keeps_parse_addr_msg nh l : msg_in nh l -> keeps (parse_addr_msg nh).
Proof.
  intros Hm s Hs. unfold parse_addr_msg. rewrite (proj1 Hm). cbn [mbind outcome_bind].
  destruct (l <? NLMSG_LENGTH 8)%Z eqn:E; [done|].
  destruct (safe_attrs IFA_MAX nh l 2 ltac:(lia) Hm E) as [Hi Ht].
  change (Z.to_nat (4 * 2)) with 8 in Hi.
  eapply safe_bind; [apply safe_rd8; lia|]. intros family _.
  destruct (negb _); [done|].
  eapply safe_bind; [exact Ht|]. intros tb Htb.
  destruct (match attr tb IFA_LOCAL with Some a => _ | None => _ end) as [src|] eqn:Es;
    [|done].
  assert (Hsrc : rta_in src).
  { destruct (attr tb IFA_LOCAL) eqn:El; [|by apply (Htb IFA_ADDRESS)].
    injection Es as <-. by apply (Htb IFA_LOCAL). }
  eapply safe_bind; [by apply safe_payload|]. intros plen [_ Hp].
  destruct (Z.ltb_spec plen 4); [done|].
  revert s Hs. keeps_push rs_addr4.
  eapply safe_bind; [apply safe_rd32; lia|]. intros index Hx.
  eapply safe_bind; [apply safe_rd8; lia|]. intros prefix Hpre.
  eapply safe_bind; [apply safe_rd32; lia|]. intros addr Ha.
  apply safe_ret. constructor; cbn; auto with netrec.
Qed.

Lemma keeps_parse_route_msg nh l : msg_in nh l -> keeps (parse_route_msg nh).
Proof.
  intros Hm s Hs. unfold parse_route_msg. rewrite (proj1 Hm). cbn [mbind outcome_bind].
  destruct (l <? NLMSG_LENGTH 12)%Z eqn:E; [done|].
  destruct (safe_attrs RTA_MAX nh l 3 ltac:(lia) Hm E) as [Hi Ht].
  change (Z.to_nat (4 * 3)) with 12 in Hi.
  eapply safe_bind; [apply safe_rd8; lia|]. intros family _.
  destruct (negb _); [done|].
  eapply safe_bind; [apply safe_rd8; lia|]. intros type _.
  destruct (negb _ && negb _); [done|].
  eapply safe_bind; [exact Ht|]. intros tb Htb.
  eapply (safe_bind (route_table _ _) _ (fun _ => True)).
  { unfold route_table. eapply safe_bind; [by apply safe_attr_u32|].
    intros [t|] _; [done|]. eapply safe_weaken; [apply safe_rd8; lia|done]. }
  intros t _. destruct (negb _); [done|].
  revert s Hs. keeps_push rs_route4.
  eapply safe_bind; [apply safe_rd8; lia|]. intros prefix Hpre. safe_reads.
Qed.

Lemma keeps_parse_msg type nh l : msg_in nh l -> keeps (parse_msg type nh).
Proof.
  intros Hm. unfold parse_msg.
  destruct (type =? RTM_NEWLINK)%Z; [by eapply keeps_parse_link_msg|].
  destruct (type =? RTM_NEWADDR)%Z; [by eapply keeps_parse_addr_msg|].
  destruct (type =? RTM_NEWROUTE)%Z; [by eapply keeps_parse_route_msg|].
  apply keeps_ret.
Qed.

Lemma safe_NLMSG_OK nh rem :
  (rem <= Z.of_nat (length nh))%Z -> (rem < 2 ^ 31)%Z -> received nh ->
  safe (NLMSG_OK nh rem) (fun ok => ok = true -> exists l, msg_in nh l /\ (l <= rem)%Z).
Proof.
  intros Hr Hb Hd. unfold NLMSG_OK. destruct (Z.ltb_spec rem 16); [done|].
  pose proof (safe_rd32 nh 0) as S. unfold msg_in, nlmsg_len.
  destruct (rd32 nh 0) as [l| |[]]; cbn in *; try (apply S; lia).
  intros Hok. breflect. exists l. split_and!; (done || lia).
Qed.

Lemma safe_nl_err nh l : msg_in nh l -> safe (nl_err nh) (fun _ => True).
Proof.
  intros (El & Hl & Hb & _). unfold nl_err. rewrite El. cbn [mbind outcome_bind].
  unfold NLMSG_LENGTH. destruct (Z.ltb_spec l (20 + 16)); [done|].
  eapply safe_bind; [apply safe_rd32; unfold NLMSG_DATA; rewrite length_drop; lia|done].
Qed.

Lemma safe_msg_loop fuel seq type nh rem s :
  Z.to_nat rem < fuel -> (rem <= Z.of_nat (length nh))%Z -> (rem < 2 ^ 31)%Z ->
  received nh -> rs_wf (nl_rs s) ->
  safe (msg_loop fuel seq type nh rem s) (fun r => rs_wf (nl_rs (snd r))).
Proof.
  revert nh rem s. induction fuel as [|n IH]; intros nh rem s Hf Hr Hb Hd Hs; [lia|].
  cbn [msg_loop]. eapply safe_bind; [by apply safe_NLMSG_OK|].
  intros [] Hok; cbn [negb]; [|done]. destruct (Hok eq_refl) as (l & Hm & Hl).
  pose proof Hm as (El & Hb' & _). rewrite El. cbn [mbind outcome_bind].
  pose proof (align4_le l).
  assert (Hnext : forall s, rs_wf (nl_rs s) ->
    safe (msg_loop n seq type (drop (Z.to_nat (align4 l)) nh) (rem - align4 l) s)
      (fun r => rs_wf (nl_rs (snd r)))).
  { intros s' Hs'. apply IH; [lia|rewrite length_drop; lia|lia|by apply received_drop|done]. }
  eapply safe_bind; [apply safe_rd32; lia|]. intros sq _.
  destruct (negb _); [by apply Hnext|].
  eapply safe_bind; [apply safe_rd16; lia|]. intros t _.
  destruct (t =? NLMSG_DONE)%Z; [done|].
  destruct (t =? NLMSG_ERROR)%Z.
  { eapply safe_bind; [by eapply safe_nl_err|]. done. }
  destruct (negb _); [by apply Hnext|].
  eapply safe_bind; [by eapply keeps_parse_msg|]. intros [rc s'] Hs'.
  destruct (negb _); [done|by apply Hnext].
Qed.

(** What the datagrams of [inbox] put in the receive buffer is in [D]. *)
Definition arrives (inbox : list rcv) : Prop :=
  forall bytes, RcvData bytes ∈ inbox -> D (take RECV_SZ bytes).

Lemma safe_recv_dump inbox seq type s :
  arrives inbox -> rs_wf (nl_rs s) ->
  safe (recv_dump inbox seq type s) (fun r =>
    rs_wf (nl_rs (snd (fst r))) /\ arrives (snd r)).
Proof.
  revert s. induction inbox as [|x inbox IH]; intros s Ha Hs; [done|].
  assert (Ha' : arrives inbox) by (intros b Hb; apply Ha; by right).
  destruct x as [bytes| |e]; cbn [recv_dump]; [|by apply IH|done].
  destruct (_ =? 0)%Z; [done|].
  assert (length (take RECV_SZ bytes) <= RECV_SZ) by (rewrite length_take; lia).
  eapply safe_bind.
  { apply safe_msg_loop; [lia|lia| | |done].
    - unfold RECV_SZ in *. lia.
    - exists (take RECV_SZ bytes). split; [apply Ha; by left|done]. }
  intros [[rc|rem] s'] Hs'; [done|]. destruct (negb _); [done|by apply IH].
Qed.

(** Every answer of the conversation. *)
Definition answers_arrive (c : conv) : Prop :=
  forall req, arrives (snd (c_request c req)).

Lemma arrives_app l1 l2 : arrives l1 -> arrives l2 -> arrives (l1 ++ l2).
Proof. intros H1 H2 b [Hb|Hb]%elem_of_app; [by apply H1|by apply H2]. Qed.

Lemma nl_send_arrives c req body seq : answers_arrive c -> arrives (snd (nl_send c req body seq)).
Proof.
  intros Hc. unfold nl_send. destruct (_ >? _)%Z; [by intros b []%elem_of_nil|].
  pose proof (Hc (nl_request req body seq)) as Hr.
  destruct (c_request c _) as [[n|e] inbox]; [|done]. by destruct (negb _).
Qed.

Lemma safe_dump c req type body seq inbox s :
  answers_arrive c -> arrives inbox -> rs_wf (nl_rs s) ->
  safe (dump c req type body seq inbox s) (fun r =>
    rs_wf (nl_rs (snd (fst r))) /\ arrives (snd r)).
Proof.
  intros Hc Hi Hs. unfold dump.
  pose proof (nl_send_arrives c req body ((seq + 1) mod 2 ^ 32) Hc) as Hm.
  destruct (nl_send _ _ _ _) as [rc more].
  destruct (negb _); [split; [done|by apply arrives_app]|].
  apply safe_recv_dump; [by apply arrives_app|done].
Qed.

Lemma rs_zero_wf : rs_wf rs_zero.
Proof. constructor; (split; [by vm_compute|constructor]). Qed.

Lemma safe_nl_load_state c msg :
  answers_arrive c -> safe (nl_load_state c msg) (fun r => rs_wf (nl_rs (snd r))).
Proof.
  intros Hc. unfold nl_load_state. destruct (_ <? 0)%Z; [apply rs_zero_wf|].
  eapply safe_bind.
  { apply safe_dump; [done|by intros b []%elem_of_nil|apply rs_zero_wf]. }
  intros [[rc1 s1] in1] [H1 Hi1]. destruct (negb _); [done|].
  eapply safe_bind; [by apply safe_dump|]. intros [[rc2 s2] in2] [H2 Hi2].
  destruct (negb _); [done|].
  eapply safe_bind; [by apply safe_dump|]. by intros [[rc3 s3] in3] [H3 _].
Qed.

End Received.

(** The datagrams of the conversation, as they come into the buffer. *)
Definition conv_datagram (c : conv) (d : list ascii) : Prop :=
  exists req bytes, RcvData bytes ∈ snd (c_request c req) /\ d = take RECV_SZ bytes.

(** C12: whatever the kernel sends, however it is cut into datagrams and
    interrupted, the snapshot code returns or waits in [recv], and the tables it
    fills stay within their arrays, with names that fit and numbers in range.
    The one fault it can commit is to read a name past the received bytes, and
    then some datagram it was sent has an attribute after whose header no NUL
    comes; no other read leaves the received bytes and every loop ends. *)
Theorem nl_load_state_safe `{Uapi} (c : conv) (msg : cstr) :
  match nl_load_state c msg with
  | Done (rc, s) => rs_wf (nl_rs s)
  | Blocked => True
  | Fault f =>
    f = Unterminated /\
    exists d p l, conv_datagram c d /\ p `suffix_of` d /\
      rta_len p = Done l /\ (4 <= l <= Z.of_nat (length p))%Z /\ NUL ∉ RTA_DATA p
  end.
Proof.
  assert (Hs : safe (conv_datagram c) (nl_load_state c msg) (fun r => rs_wf (nl_rs (snd r)))).
  { apply safe_nl_load_state. intros req bytes Hb. by exists req, bytes. }
  destruct (nl_load_state c msg) as [[rc s]| |[]]; cbn in Hs; try done.
  destruct Hs as (p & ((d & Hd & Hp) & l & Hl & Hlen) & Hn). eauto 10.
Qed.
