(* ===== verification/NetlinkSpec.v ===== *)
(** What the kernel sends: the encoding of rtnetlink messages and attributes,
    the kernel tables behind them, and the proof that netlink.c recovers the
    tables from any well-formed conversation. *)
From S2P Require Import Prelude CLib State Netlink.

(** ** Encoding *)

(** An attribute: its type, flag bits included, and its payload. *)
Record kattr := KAttr { ka_type : Z; ka_data : list ascii }.

(** The zero bytes up to the next multiple of 4. *)
Definition pad (n : nat) : list ascii :=
  replicate (Z.to_nat (align4 (Z.of_nat n)) - n) NUL.

Definition enc_attr (a : kattr) : list ascii :=
  wr16 (4 + Z.of_nat (length (ka_data a))) ++ wr16 (ka_type a) ++ ka_data a ++
  pad (length (ka_data a)).

Definition enc_attrs (l : list kattr) : list ascii := concat (map enc_attr l).

Definition attr_ok (a : kattr) : Prop :=
  is_u16 (ka_type a) /\ (4 + Z.of_nat (length (ka_data a)) < 2 ^ 16)%Z.

(** The type without its flag bits. *)
Definition ka_id (a : kattr) : Z := Z.land (ka_type a) NLA_TYPE_MASK.

(** The last attribute of a type, the one a reader keeps. *)
Definition last_of (i : nat) (l : list kattr) : option kattr :=
  find (fun a => (ka_id a =? Z.of_nat i)%Z) (reverse l).

Record kmsg := KMsg {
  km_type : Z;
  km_flags : Z;
  km_seq : Z;
  km_pid : Z;
  km_body : list ascii
}.

Definition enc_msg (m : kmsg) : list ascii :=
  wr32 (16 + Z.of_nat (length (km_body m))) ++ wr16 (km_type m) ++ wr16 (km_flags m) ++
  wr32 (km_seq m) ++ wr32 (km_pid m) ++ km_body m ++ pad (length (km_body m)).

Definition enc_msgs (l : list kmsg) : list ascii := concat (map enc_msg l).

Definition msg_ok (m : kmsg) : Prop :=
  is_u16 (km_type m) /\ is_u32 (km_seq m) /\ (Z.of_nat (length (km_body m)) < 2 ^ 30)%Z.

(** ** Reading what was written *)

Lemma byte_val_byte v : byte_val (byte v) = (v mod 256)%Z.
Proof.
  unfold byte_val, byte. pose proof (Z.mod_pos_bound v 256).
  rewrite N_ascii_embedding by lia. lia.
Qed.

Lemma rd8_app x y k : rd8 (x ++ y) (length x + k) = rd8 y k.
Proof. unfold rd8. by rewrite lookup_app_r, Nat.add_sub' by lia. Qed.

Lemma rd16_app x y k : rd16 (x ++ y) (length x + k) = rd16 y k.
Proof. unfold rd16. by rewrite <- !Nat.add_assoc, !rd8_app. Qed.

Lemma rd32_app x y k : rd32 (x ++ y) (length x + k) = rd32 y k.
Proof. unfold rd32. by rewrite <- !Nat.add_assoc, !rd8_app. Qed.

Lemma rd8_S c p k : rd8 (c :: p) (S k) = rd8 p k.
Proof. done. Qed.

Lemma rd8_byte v r : is_u8 v -> rd8 (byte v :: r) 0 = Done v.
Proof. intros Hv. cbn. by rewrite byte_val_byte, Z.mod_small. Qed.

Lemma rd16_wr v r : is_u16 v -> rd16 (wr16 v ++ r) 0 = Done v.
Proof.
  intros Hv. cbn. rewrite !byte_val_byte. f_equal. unfold is_u16 in Hv.
  rewrite (Z.mod_small (v / 256)) by
    (split; [apply Z.div_pos; lia|apply Z.div_lt_upper_bound; lia]).
  pose proof (Z.div_mod v 256). lia.
Qed.

Lemma le32_bytes v : is_u32 v ->
  le32 (v mod 256) ((v / 256) mod 256) ((v / 65536) mod 256) ((v / 16777216) mod 256) = v.
Proof.
  intros Hv. unfold is_u32, UINT32_MAX, le32 in *.
  rewrite (Z.mod_small (v / 16777216)) by
    (split; [apply Z.div_pos; lia|apply Z.div_lt_upper_bound; lia]).
  change 65536%Z with (256 * 256)%Z. change 16777216%Z with (256 * 256 * 256)%Z.
  rewrite <- !Z.div_div by lia.
  pose proof (Z.div_mod v 256). pose proof (Z.div_mod (v / 256) 256).
  pose proof (Z.div_mod (v / 256 / 256) 256). lia.
Qed.

Lemma rd32_wr v r : is_u32 v -> rd32 (wr32 v ++ r) 0 = Done v.
Proof. intros Hv. cbn. rewrite !byte_val_byte. by rewrite le32_bytes. Qed.

Lemma rd_str_app s r : cstring s -> rd_str (s ++ NUL :: r) = Done s.
Proof.
  intros Hs. unfold rd_str. rewrite bool_decide_true by set_solver. f_equal.
  unfold c_string. rewrite take_while_app.
  - cbn. apply app_nil_r.
  - eapply Forall_impl; [exact Hs|]. intros c Hc. by apply negb_true_iff, Ascii.eqb_neq.
Qed.

Lemma pad_length n : Z.of_nat (n + length (pad n)) = align4 (Z.of_nat n).
Proof. unfold pad. rewrite length_replicate. pose proof (align4_le (Z.of_nat n)). lia. Qed.

Lemma align4_add4 n : align4 (4 + n) = (4 + align4 n)%Z.
Proof.
  rewrite !align4_spec. replace (4 + n + 3)%Z with (n + 3 + 1 * 4)%Z by lia.
  rewrite Z.div_add by lia. lia.
Qed.

Lemma align4_add16 n : align4 (16 + n) = (16 + align4 n)%Z.
Proof.
  replace (16 + n)%Z with (4 + (4 + (4 + (4 + n))))%Z by lia. rewrite !align4_add4. lia.
Qed.

Lemma enc_attr_length a :
  Z.of_nat (length (enc_attr a)) = align4 (4 + Z.of_nat (length (ka_data a))).
Proof.
  unfold enc_attr. rewrite !length_app, align4_add4, <- pad_length. cbn [wr16 length]. lia.
Qed.

Lemma enc_msg_length m :
  Z.of_nat (length (enc_msg m)) = align4 (16 + Z.of_nat (length (km_body m))).
Proof.
  unfold enc_msg. rewrite !length_app, align4_add16, <- pad_length.
  cbn [wr16 wr32 length]. lia.
Qed.

(** ** Attributes *)

(** [p] points to the attribute [a]. *)
Definition at_attr (p : ptr) (a : kattr) : Prop :=
  attr_ok a /\ exists r, p = enc_attr a ++ r.

Lemma at_rta_len p a :
  at_attr p a -> rta_len p = Done (4 + Z.of_nat (length (ka_data a)))%Z.
Proof.
  intros [[_ Hl] [r ->]]. unfold rta_len, enc_attr. rewrite <- app_assoc.
  apply rd16_wr. unfold is_u16. lia.
Qed.

Lemma at_rta_type p a : at_attr p a -> rta_type p = Done (ka_type a).
Proof.
  intros [[Ht _] [r ->]]. unfold rta_type, enc_attr. rewrite <- !app_assoc.
  rewrite (rd16_app (wr16 _) _ 0). by apply rd16_wr.
Qed.

Lemma at_RTA_PAYLOAD p a :
  at_attr p a -> RTA_PAYLOAD p = Done (Z.of_nat (length (ka_data a))).
Proof. intros Hp. unfold RTA_PAYLOAD. rewrite (at_rta_len p a Hp). cbn. f_equal. lia. Qed.

Lemma at_RTA_DATA p a : at_attr p a -> exists r, RTA_DATA p = ka_data a ++ r.
Proof.
  intros [_ [r ->]]. eexists. unfold RTA_DATA, enc_attr. rewrite <- !app_assoc. cbn.
  reflexivity.
Qed.

(** The table holds exactly the last attribute of each type. *)
Definition table_of (max : nat) (l : list kattr) (tb : table) : Prop :=
  length tb = S max /\
  forall i, i <= max ->
    match last_of i l with
    | Some a => exists p, attr tb i = Some p /\ at_attr p a
    | None => attr tb i = None
    end.

Lemma last_of_snoc i l a :
  last_of i (l ++ [a]) = if (ka_id a =? Z.of_nat i)%Z then Some a else last_of i l.
Proof. unfold last_of. rewrite reverse_snoc. done. Qed.

Lemma ka_id_nonneg a : attr_ok a -> (0 <= ka_id a)%Z.
Proof. intros [Ht _]. apply Z.land_nonneg. right. by vm_compute. Qed.

Lemma table_of_snoc max l tb p a :
  table_of max l tb -> at_attr p a ->
  table_of max (l ++ [a])
    (if (ka_id a <=? Z.of_nat max)%Z then <[Z.to_nat (ka_id a) := Some p]> tb else tb).
Proof.
  intros [Hl Ht] Hp. pose proof (ka_id_nonneg a (proj1 Hp)).
  split; [destruct (_ <=? _)%Z; [by rewrite length_insert|done]|].
  intros i Hi. rewrite last_of_snoc. specialize (Ht i Hi).
  destruct (Z.eqb_spec (ka_id a) (Z.of_nat i)) as [E|E].
  - rewrite E, (proj2 (Z.leb_le _ _)), Nat2Z.id by lia. exists p.
    unfold attr. by rewrite list_lookup_insert_eq by lia.
  - destruct (_ <=? _)%Z; [|done]. unfold attr in *.
    by rewrite list_lookup_insert_ne by lia.
Qed.

Lemma parse_rtattr_loop_enc max l r fuel done tb :
  Forall attr_ok l -> length (enc_attrs l) < fuel -> table_of max done tb ->
  exists tb', parse_rtattr_loop fuel tb max (enc_attrs l ++ r)
      (Z.of_nat (length (enc_attrs l))) = Done tb' /\
    table_of max (done ++ l) tb'.
Proof.
  revert fuel done tb. induction l as [|a l IH]; intros fuel done tb Hl Hf Ht.
  { destruct fuel; [cbn in Hf; lia|]. exists tb. rewrite app_nil_r. done. }
  destruct fuel as [|n]; [lia|]. apply Forall_cons in Hl as [Ha Hl].
  unfold enc_attrs in *. cbn [map concat] in *. rewrite length_app in *.
  pose proof (enc_attr_length a) as El. pose proof (align4_le (4 + Z.of_nat (length (ka_data a)))).
  rewrite <- app_assoc. set (rest := concat (map enc_attr l) ++ r) in *.
  assert (Hp : at_attr (enc_attr a ++ rest) a) by (split; [done|by eexists]).
  cbn [parse_rtattr_loop]. unfold RTA_OK.
  rewrite (proj2 (Z.ltb_ge _ _)) by lia.
  rewrite (at_rta_len _ _ Hp), (at_rta_type _ _ Hp). cbn [mbind outcome_bind].
  unfold mret, outcome_ret. rewrite (proj2 (Z.leb_le 4 _)), (proj2 (Z.leb_le (4 + _) (Z.of_nat (_ + _)))) by lia.
  cbn [andb negb mbind outcome_bind].
  rewrite <- El, Nat2Z.id, drop_app_length, Nat2Z.inj_add.
  replace (_ + _ - _)%Z with (Z.of_nat (length (concat (map enc_attr l)))) by lia.
  destruct (IH n (done ++ [a]) (if (ka_id a <=? Z.of_nat max)%Z
    then <[Z.to_nat (ka_id a) := Some (enc_attr a ++ rest)]> tb else tb)) as (tb' & E & T).
  - done.
  - lia.
  - by apply table_of_snoc.
  - exists tb'. rewrite <- app_assoc in T. split; [exact E|done].
Qed.

Lemma table_of_nil max : table_of max [] (replicate (S max) None).
Proof.
  split; [by rewrite length_replicate|]. intros i Hi.
  change (last_of i []) with (@None kattr). unfold attr.
  by rewrite lookup_replicate_2 by lia.
Qed.

(** Parsing an attribute list finds the last attribute of each type. *)
Lemma parse_rtattr_enc max l r :
  Forall attr_ok l ->
  exists tb, parse_rtattr max (enc_attrs l ++ r) (Z.of_nat (length (enc_attrs l))) = Done tb /\
    table_of max l tb.
Proof.
  intros Hl. unfold parse_rtattr. rewrite Nat2Z.id.
  apply (parse_rtattr_loop_enc max l r _ []); [done|lia|apply table_of_nil].
Qed.

(** *** What an attribute list says *)

(** The last attribute [i] holds the number [v], or there is none. *)
Definition num_attr (wr : Z -> list ascii) (P : Z -> Prop) (l : list kattr) (i : nat)
    (v : option Z) : Prop :=
  match v with
  | Some v => P v /\ exists a, last_of i l = Some a /\ ka_data a = wr v
  | None => last_of i l = None
  end.

Definition u8_attr := num_attr (fun v => [byte v]) is_u8.
Definition u16_attr := num_attr wr16 is_u16.
Definition u32_attr := num_attr wr32 is_u32.

(** An interface index. *)
Definition is_index (v : Z) : Prop := (0 <= v <= INT_MAX)%Z.
Definition index_attr := num_attr wr32 is_index.

Definition str_attr (l : list kattr) (i : nat) (s : cstr) : Prop :=
  cstring s /\ exists a, last_of i l = Some a /\ ka_data a = s ++ [NUL].

Definition nest_attr (l : list kattr) (i : nat) (kids : list kattr) : Prop :=
  Forall attr_ok kids /\ exists a, last_of i l = Some a /\ ka_data a = enc_attrs kids.

Lemma is_index_u32 v : is_index v -> is_u32 v.
Proof. unfold is_index, is_u32, INT_MAX, UINT32_MAX. lia. Qed.

Lemma to_int_index v : is_index v -> to_int v = v.
Proof.
  unfold is_index, to_int, INT_MAX. intros Hv. by rewrite (proj2 (Z.ltb_lt _ _)) by lia.
Qed.

Lemma to_int_opt wr l i v : num_attr wr is_index l i v -> to_int (default 0%Z v) = default 0%Z v.
Proof. destruct v; cbn; [|done]. intros [Hv _]. by apply to_int_index. Qed.

Section AttrList.
Context (max : nat) (l : list kattr) (tb : table).
Hypothesis Htb : table_of max l tb.

Lemma attr_none i : i <= max -> last_of i l = None -> attr tb i = None.
Proof. intros Hi E. destruct Htb as [_ T]. specialize (T i Hi). by rewrite E in T. Qed.

Lemma attr_some i a : i <= max -> last_of i l = Some a ->
  exists p, attr tb i = Some p /\ at_attr p a.
Proof. intros Hi E. destruct Htb as [_ T]. specialize (T i Hi). by rewrite E in T. Qed.

Lemma attr_num_enc rd wr sz P i v :
  i <= max -> num_attr wr P l i v ->
  (forall v r, P v -> rd (wr v ++ r) 0 = Done v /\ Z.of_nat (length (wr v)) = sz) ->
  attr_num rd sz tb i = Done v.
Proof.
  intros Hi Hv Hrd. unfold attr_num. destruct v as [v|]; cbn in Hv.
  - destruct Hv as (HP & a & E & D).
    destruct (attr_some i a Hi E) as (p & -> & Hp).
    rewrite (at_RTA_PAYLOAD p a Hp). cbn [mbind outcome_bind].
    destruct (at_RTA_DATA p a Hp) as [r ->]. rewrite D.
    destruct (Hrd v r HP) as [R ->]. by rewrite Z.leb_refl, R.
  - by rewrite (attr_none i Hi Hv).
Qed.

Lemma attr_u8_enc i v : i <= max -> u8_attr l i v -> attr_u8 tb i = Done v.
Proof.
  intros Hi Hv. eapply attr_num_enc; [done|exact Hv|].
  intros. split; [by apply rd8_byte|done].
Qed.

Lemma attr_u16_enc i v : i <= max -> u16_attr l i v -> attr_u16 tb i = Done v.
Proof. intros Hi Hv. eapply attr_num_enc; [done|exact Hv|]. intros. by rewrite rd16_wr. Qed.

Lemma attr_u32_enc i v : i <= max -> u32_attr l i v -> attr_u32 tb i = Done v.
Proof. intros Hi Hv. eapply attr_num_enc; [done|exact Hv|]. intros. by rewrite rd32_wr. Qed.

Lemma attr_index_enc i v : i <= max -> index_attr l i v -> attr_u32 tb i = Done v.
Proof.
  intros Hi Hv. eapply attr_num_enc; [done|exact Hv|].
  intros w r Hw. by rewrite rd32_wr by by apply is_index_u32.
Qed.

Lemma attr_str_enc i s : i <= max -> str_attr l i s ->
  exists p, attr tb i = Some p /\ rd_str (RTA_DATA p) = Done s.
Proof.
  intros Hi (Hs & a & E & D). destruct (attr_some i a Hi E) as (p & Ep & Hp).
  exists p. split; [done|]. destruct (at_RTA_DATA p a Hp) as [r ->].
  rewrite D, <- app_assoc. by apply rd_str_app.
Qed.

Lemma nested_enc max' i kids : i <= max -> nest_attr l i kids ->
  exists p tb', attr tb i = Some p /\ nested max' p = Done tb' /\ table_of max' kids tb'.
Proof.
  intros Hi (Hk & a & E & D). destruct (attr_some i a Hi E) as (p & Ep & Hp).
  destruct (at_RTA_DATA p a Hp) as [r Er]. rewrite D in Er.
  destruct (parse_rtattr_enc max' kids r Hk) as (tb' & Et & T).
  exists p, tb'. split_and!; [done| |done]. unfold nested.
  rewrite (at_RTA_PAYLOAD p a Hp), Er, D. done.
Qed.

End AttrList.

(** ** Kernel tables *)

(** The kind of a link and the attributes of it the program reads. *)
Inductive kinfo :=
| KVxlan (vni remote link : option Z)
| KVlan (id : option Z)
| KKind (kind : cstr).

Record klink := KLink {
  kl_index : Z;
  kl_flags : Z;
  kl_name : cstr;
  kl_carrier : option Z;
  kl_master : option Z;
  kl_link : option Z;
  kl_info : option kinfo
}.

Inductive kaddr :=
| KAddr4 (index prefix addr : Z)
| KAddrOther.

Inductive kroute :=
| KRoute4 (type table prefix : Z) (dst gw oif : option Z)
| KRouteOther.

Record kernel := Kernel {
  k_links : list klink;
  k_addrs : list kaddr;
  k_routes : list kroute
}.

(** *** The snapshot of the tables *)

Definition kind_of (l : klink) : cstr :=
  match kl_info l with
  | Some (KVxlan _ _ _) => #"vxlan"
  | Some (KVlan _) => #"vlan"
  | Some (KKind kind) => kind
  | None => []
  end.

Definition iface_of (l : klink) : iface :=
  Iface (kl_name l) (kind_of l) (kl_index l) (kl_flags l) (has (kl_carrier l))
    (default 0%Z (kl_carrier l)) (default 0%Z (kl_master l)) (default 0%Z (kl_link l))
    (has (kl_link l)).

Definition vxlan_of (l : klink) : option vxlan :=
  match kl_info l with
  | Some (KVxlan vni remote link) =>
    Some (Vxlan (kl_name l) (kl_index l) (default 0%Z vni) (has vni)
            (default 0%Z remote) (has remote) (default 0%Z link) (has link))
  | _ => None
  end.

Definition vlan_of (l : klink) : option vlan :=
  match kl_info l with
  | Some (KVlan id) =>
    Some (Vlan (kl_name l) (kl_index l) (default 0%Z id) (has id)
            (default 0%Z (kl_link l)) (has (kl_link l)))
  | _ => None
  end.

Definition addr_of (a : kaddr) : option addr4 :=
  match a with
  | KAddr4 index prefix addr => Some (Addr4 index addr prefix)
  | KAddrOther => None
  end.

(** Unicast and local routes of the main table. *)
Definition route_of (r : kroute) : option route4 :=
  match r with
  | KRoute4 type table prefix dst gw oif =>
    if ((type =? RTN_UNICAST) || (type =? RTN_LOCAL))%Z && (table =? RT_TABLE_MAIN)%Z
    then Some (Route4 (default 0%Z dst) prefix (default 0%Z gw) (has gw) (default 0%Z oif))
    else None
  | KRouteOther => None
  end.

Definition snapshot (k : kernel) : real_state :=
  RealState (map iface_of (k_links k)) (omap addr_of (k_addrs k))
    (omap route_of (k_routes k)) [] (omap vxlan_of (k_links k)) (omap vlan_of (k_links k)).

(** The snapshot fits the arrays of the program. *)
Definition within (rs : real_state) : Prop :=
  (Z.of_nat (length (rs_ifaces rs)) <= NR_IFACE_MAX)%Z /\
  (Z.of_nat (length (rs_addr4 rs)) <= NR_ADDR4_MAX)%Z /\
  (Z.of_nat (length (rs_route4 rs)) <= NR_ROUTE4_MAX)%Z /\
  (Z.of_nat (length (rs_vxlan rs)) <= NR_VXLAN_MAX)%Z /\
  (Z.of_nat (length (rs_vlan rs)) <= NR_VLAN_MAX)%Z.

(** *** Message bodies *)

(** The attributes nested in IFLA_LINKINFO. *)
Definition info_attrs (kids : list kattr) (i : kinfo) : Prop :=
  match i with
  | KVxlan vni remote link =>
    str_attr kids IFLA_INFO_KIND (#"vxlan") /\
    exists data, nest_attr kids IFLA_INFO_DATA data /\
      u32_attr data IFLA_VXLAN_ID vni /\ u32_attr data IFLA_VXLAN_GROUP remote /\
      index_attr data IFLA_VXLAN_LINK link
  | KVlan id =>
    str_attr kids IFLA_INFO_KIND (#"vlan") /\
    exists data, nest_attr kids IFLA_INFO_DATA data /\ u16_attr data IFLA_VLAN_ID id
  | KKind kind =>
    str_attr kids IFLA_INFO_KIND kind /\ fits 16 kind /\
    kind <> #"vxlan" /\ kind <> #"vlan"
  end.

(** The attributes of a link, in any order and among any others. *)
Record link_attrs (l : list kattr) (k : klink) : Prop := {
  la_ok : Forall attr_ok l;
  la_name : str_attr l IFLA_IFNAME (kl_name k);
  la_fits : fits IFNAMSIZ (kl_name k);
  la_carrier : u8_attr l IFLA_CARRIER (kl_carrier k);
  la_master : index_attr l IFLA_MASTER (kl_master k);
  la_link : index_attr l IFLA_LINK (kl_link k);
  la_info : match kl_info k with
            | None => last_of IFLA_LINKINFO l = None
            | Some i => exists kids, nest_attr l IFLA_LINKINFO kids /\ info_attrs kids i
            end
}.

(** [struct ifinfomsg] and the attributes. *)
Definition link_body (body : list ascii) (k : klink) : Prop :=
  is_index (kl_index k) /\ is_u32 (kl_flags k) /\
  exists h change l, length h = 4 /\ length change = 4 /\ link_attrs l k /\
    body = h ++ wr32 (kl_index k) ++ wr32 (kl_flags k) ++ change ++ enc_attrs l.

(** [struct ifaddrmsg] and the attributes. *)
Definition addr_body (body : list ascii) (k : kaddr) : Prop :=
  match k with
  | KAddr4 index prefix addr =>
    is_index index /\ is_u8 prefix /\ is_u32 addr /\
    exists flags scope l, Forall attr_ok l /\
      (u32_attr l IFA_LOCAL (Some addr) \/
       last_of IFA_LOCAL l = None /\ u32_attr l IFA_ADDRESS (Some addr)) /\
      body = [byte AF_INET; byte prefix; flags; scope] ++ wr32 index ++ enc_attrs l
  | KAddrOther =>
    8 <= length body /\ exists family r, byte_val family <> AF_INET /\ body = family :: r
  end.

(** [struct rtmsg] and the attributes. *)
Definition route_body (body : list ascii) (k : kroute) : Prop :=
  match k with
  | KRoute4 type table prefix dst gw oif =>
    is_u8 type /\ is_u8 prefix /\ is_index table /\
    exists src_len tos t proto scope flags l,
      Forall attr_ok l /\ length flags = 4 /\ is_u8 t /\
      (index_attr l RTA_TABLE (Some table) \/ last_of RTA_TABLE l = None /\ t = table) /\
      u32_attr l RTA_DST dst /\ u32_attr l RTA_GATEWAY gw /\ index_attr l RTA_OIF oif /\
      body = [byte AF_INET; byte prefix; src_len; tos; byte t; proto; scope; byte type] ++
             flags ++ enc_attrs l
  | KRouteOther =>
    12 <= length body /\ exists family r, byte_val family <> AF_INET /\ body = family :: r
  end.

(** ** Messages *)

(** [nh] points to the message [m]. *)
Definition at_msg (nh : ptr) (m : kmsg) : Prop :=
  msg_ok m /\ exists r, nh = enc_msg m ++ r.

Section AtMsg.
Context (nh : ptr) (m : kmsg).
Hypothesis Hm : at_msg nh m.

Lemma at_nlmsg_len : nlmsg_len nh = Done (16 + Z.of_nat (length (km_body m)))%Z.
Proof.
  destruct Hm as [(_ & _ & Hl) [r ->]]. unfold nlmsg_len, enc_msg.
  rewrite <- !app_assoc. apply rd32_wr. unfold is_u32, UINT32_MAX. lia.
Qed.

Lemma at_nlmsg_type : nlmsg_type nh = Done (km_type m).
Proof.
  destruct Hm as [(Ht & _ & _) [r ->]]. unfold nlmsg_type, enc_msg.
  rewrite <- !app_assoc. rewrite (rd16_app (wr32 _) _ 0). by apply rd16_wr.
Qed.

Lemma at_nlmsg_seq : nlmsg_seq nh = Done (km_seq m).
Proof.
  destruct Hm as [(_ & Hs & _) [r ->]]. unfold nlmsg_seq, enc_msg.
  rewrite <- !app_assoc. rewrite (rd32_app (wr32 _) _ 4), (rd32_app (wr16 _) _ 2),
    (rd32_app (wr16 _) _ 0). by apply rd32_wr.
Qed.

Lemma at_NLMSG_DATA : exists r, NLMSG_DATA nh = km_body m ++ r.
Proof.
  destruct Hm as [_ [r ->]]. eexists. unfold NLMSG_DATA, enc_msg.
  rewrite <- !app_assoc. cbn. reflexivity.
Qed.

End AtMsg.

(** The attributes after a header [h] of [4 * k] bytes. *)
Lemma parse_body max h l r k :
  (0 <= k < 2 ^ 20)%Z -> Z.of_nat (length h) = (4 * k)%Z -> Forall attr_ok l ->
  (Z.of_nat (length (h ++ enc_attrs l)) < 2 ^ 30)%Z ->
  exists tb, parse_rtattr max (drop (Z.to_nat (4 * k)) ((h ++ enc_attrs l) ++ r))
      (payload (16 + Z.of_nat (length (h ++ enc_attrs l))) (4 * k)) = Done tb /\
    table_of max l tb.
Proof.
  intros Hk Hh Hl Hb. rewrite length_app in *.
  rewrite payload_spec by (unfold NLMSG_LENGTH; lia).
  replace (Z.to_nat (4 * k)) with (length h) by lia.
  rewrite <- app_assoc, drop_app_length.
  replace (_ - _ - _)%Z with (Z.of_nat (length (enc_attrs l))) by lia.
  by apply parse_rtattr_enc.
Qed.

(** ** The effect of a message *)

Definition add1 {A} (l : list A) (x : option A) : list A := l ++ option_list x.

Definition link_into (rs : real_state) (k : klink) : real_state :=
  RealState (rs_ifaces rs ++ [iface_of k]) (rs_addr4 rs) (rs_route4 rs) (rs_dns4 rs)
    (add1 (rs_vxlan rs) (vxlan_of k)) (add1 (rs_vlan rs) (vlan_of k)).

Definition addr_into (rs : real_state) (k : kaddr) : real_state :=
  rs <| rs_addr4 ::= (fun l => add1 l (addr_of k)) |>.

Definition route_into (rs : real_state) (k : kroute) : real_state :=
  rs <| rs_route4 ::= (fun l => add1 l (route_of k)) |>.

Lemma push_room {A} (p : real_state -> list A) `{!Setter p} name max x s :
  (Z.of_nat (length (p (nl_rs s) ++ [x])) <= max)%Z ->
  push p name max (Done x) s =
  Done (0%Z, s <| nl_rs ::= set_field p (fun l => l ++ [x]) |>).
Proof.
  intros Hl. rewrite length_app in Hl. cbn in Hl. unfold push.
  by rewrite (proj2 (Z.leb_gt _ _)) by lia.
Qed.

#[local] Arguments snprintf : simpl never.
#[local] Arguments to_int : simpl never.

Section Effects.
Context `{Uapi}.

Ltac uapi :=
  solve [pose proof ifla_has; pose proof info_has; pose proof vxlan_has;
         pose proof vlan_has; pose proof ifa_has; pose proof rta_has;
         unfold IFLA_CARRIER, IFLA_IFNAME, IFLA_LINK, IFLA_MASTER, IFLA_LINKINFO,
           IFLA_INFO_KIND, IFLA_INFO_DATA, IFLA_VXLAN_ID, IFLA_VXLAN_GROUP,
           IFLA_VXLAN_LINK, IFLA_VLAN_ID, IFA_ADDRESS, IFA_LOCAL, RTA_DST, RTA_OIF,
           RTA_GATEWAY, RTA_TABLE in *; lia].

Lemma ifi_fields (h change : list ascii) index flags r :
  length h = 4 -> is_index index -> is_u32 flags ->
  let ifi := (h ++ wr32 index ++ wr32 flags ++ change) ++ r in
  ifi_index ifi = Done index /\ ifi_flags ifi = Done flags.
Proof.
  intros Hh Hi Hf ifi. unfold ifi_index, ifi_flags, ifi. rewrite <- !app_assoc.
  replace 8 with (length h + 4) by lia.
  rewrite rd32_app, (rd32_app (wr32 _) _ 0), rd32_wr by done. split; [|done].
  replace 4 with (length h + 0) at 1 by lia.
  rewrite rd32_app, rd32_wr by by apply is_index_u32.
  cbn [mbind outcome_bind]. by rewrite to_int_index.
Qed.

(** The kind of the link, and which table its attributes are for. *)
Lemma link_kind_enc l k tb :
  link_attrs l k -> table_of IFLA_MAX l tb -> link_kind tb 16 = Done (kind_of k).
Proof.
  intros L T. unfold link_kind, kind_of. pose proof (la_info _ _ L) as Hi.
  destruct (kl_info k) as [i|].
  - destruct Hi as (kids & Hn & Hi).
    destruct (nested_enc _ _ _ T IFLA_INFO_MAX IFLA_LINKINFO kids ltac:(uapi) Hn)
      as (p & li & -> & -> & Tl). cbn [mbind outcome_bind].
    assert (exists kind, str_attr kids IFLA_INFO_KIND kind /\ fits 16 kind /\
      kind = match i with KVxlan _ _ _ => #"vxlan" | KVlan _ => #"vlan" | KKind k => k end)
      as (kind & Hk & Hf & ->).
    { destruct i; cbn in Hi; (eexists; split_and!; [apply Hi| |reflexivity]);
        [by compute_decide|by compute_decide|apply Hi]. }
    destruct (attr_str_enc _ _ _ Tl IFLA_INFO_KIND _ ltac:(uapi) Hk) as (q & -> & ->).
    cbn. by rewrite snprintf_fit.
  - rewrite (attr_none _ _ _ T IFLA_LINKINFO ltac:(uapi) Hi). done.
Qed.

Section Link.
Context (l : list kattr) (k : klink) (tb : table) (ifi : ptr).
Hypothesis Hl : link_attrs l k.
Hypothesis Ht : table_of IFLA_MAX l tb.
Hypothesis Hindex : ifi_index ifi = Done (kl_index k).
Hypothesis Hflags : ifi_flags ifi = Done (kl_flags k).

Lemma add_iface_enc s :
  (Z.of_nat (length (rs_ifaces (nl_rs s) ++ [iface_of k])) <= NR_IFACE_MAX)%Z ->
  add_iface ifi tb s =
  Done (0%Z, s <| nl_rs ::= set_field rs_ifaces (fun x => x ++ [iface_of k]) |>).
Proof.
  intros Hr. unfold add_iface. pose proof Hl as [_ Hname Hfit Hcar Hmas Hlnk _].
  destruct (attr_str_enc _ _ _ Ht IFLA_IFNAME (kl_name k) ltac:(uapi) Hname)
    as (p & -> & Ep).
  rewrite Hindex, Hflags, Ep, (link_kind_enc l k tb Hl Ht).
  rewrite (attr_u8_enc _ _ _ Ht IFLA_CARRIER (kl_carrier k) ltac:(uapi) Hcar).
  rewrite (attr_index_enc _ _ _ Ht IFLA_MASTER (kl_master k) ltac:(uapi) Hmas).
  rewrite (attr_index_enc _ _ _ Ht IFLA_LINK (kl_link k) ltac:(uapi) Hlnk).
  cbn [mbind outcome_bind mret outcome_ret].
  rewrite snprintf_fit, (to_int_opt _ _ _ _ Hmas), (to_int_opt _ _ _ _ Hlnk) by done.
  by apply push_room.
Qed.

Lemma info_kind kids i :
  kl_info k = Some i -> info_attrs kids i -> str_attr kids IFLA_INFO_KIND (kind_of k).
Proof. unfold kind_of. intros ->. by destruct i; intros []. Qed.

Lemma linkinfo_skip want f s :
  kind_of k <> want -> linkinfo tb want f s = Done (0%Z, s).
Proof.
  intros Hk. unfold linkinfo. pose proof Hl as [_ Hname _ _ _ _ Hinf].
  destruct (kl_info k) as [i|] eqn:Ei.
  - destruct Hinf as (kids & Hn & Hi).
    destruct (nested_enc _ _ _ Ht IFLA_INFO_MAX IFLA_LINKINFO kids ltac:(uapi) Hn)
      as (p & li & -> & -> & Tl).
    destruct (attr tb IFLA_IFNAME); [|done]. cbn [mbind outcome_bind].
    pose proof (info_kind kids i Ei Hi) as Hs.
    destruct (attr_str_enc _ _ _ Tl IFLA_INFO_KIND _ ltac:(uapi) Hs) as (q & -> & ->).
    cbn [mbind outcome_bind]. apply streq_false in Hk. by rewrite Hk.
  - by rewrite (attr_none _ _ _ Ht IFLA_LINKINFO ltac:(uapi) Hinf).
Qed.

Lemma linkinfo_go max f s kids data i :
  kl_info k = Some i -> nest_attr l IFLA_LINKINFO kids -> info_attrs kids i ->
  nest_attr kids IFLA_INFO_DATA data ->
  exists pd pn td, linkinfo tb (kind_of k) f s = f pd pn s /\
    rd_str (RTA_DATA pn) = Done (kl_name k) /\
    nested max pd = Done td /\ table_of max data td.
Proof.
  intros Ei Hn Hi Hd. unfold linkinfo. pose proof Hl as [_ Hname _ _ _ _ _].
  destruct (nested_enc _ _ _ Ht IFLA_INFO_MAX IFLA_LINKINFO kids ltac:(uapi) Hn)
    as (p & li & -> & -> & Tl).
  destruct (attr_str_enc _ _ _ Ht IFLA_IFNAME (kl_name k) ltac:(uapi) Hname)
    as (pn & -> & En).
  pose proof (info_kind kids i Ei Hi) as Hs. cbn [mbind outcome_bind].
  destruct (attr_str_enc _ _ _ Tl IFLA_INFO_KIND _ ltac:(uapi) Hs) as (q & -> & ->).
  destruct (nested_enc _ _ _ Tl max IFLA_INFO_DATA data ltac:(uapi) Hd)
    as (pd & td & -> & Ed & Td).
  exists pd, pn, td. cbn [mbind outcome_bind]. by rewrite streq_refl.
Qed.

(** A link of another kind changes nothing. *)
Ltac other_kind Ei Hinf :=
  rewrite linkinfo_skip;
    [match goal with s : nl |- _ => destruct s as [[]] end; unfold add1; cbn;
     by rewrite app_nil_r|];
  unfold kind_of; rewrite Ei;
  first [by compute_decide|by destruct Hinf as (? & _ & _ & _ & ? & ?)].

Lemma add_vxlan_enc s :
  (Z.of_nat (length (add1 (rs_vxlan (nl_rs s)) (vxlan_of k))) <= NR_VXLAN_MAX)%Z ->
  add_vxlan ifi tb s =
  Done (0%Z, s <| nl_rs ::= set_field rs_vxlan (fun x => add1 x (vxlan_of k)) |>).
Proof.
  intros Hr. unfold add_vxlan. pose proof Hl as [_ _ Hfit _ _ _ Hinf].
  unfold vxlan_of in *.
  destruct (kl_info k) as [[vni remote link|id|kind]|] eqn:Ei; [|other_kind Ei Hinf..].
  destruct Hinf as (kids & Hn & Hi). pose proof Hi as (_ & data & Hd & Hv & Hg & Hk).
  destruct (linkinfo_go IFLA_VXLAN_MAX (fun data name => push rs_vxlan (#"vxlan interfaces")
    NR_VXLAN_MAX (read_vxlan ifi data name)) s kids data _ Ei Hn Hi Hd)
    as (pd & pn & td & E & En & Ed & Td).
  unfold kind_of in E. rewrite Ei in E. rewrite E. unfold read_vxlan.
  rewrite Hindex, En, Ed. cbn [mbind outcome_bind].
  rewrite (attr_u32_enc _ _ _ Td IFLA_VXLAN_ID vni ltac:(uapi) Hv).
  rewrite (attr_u32_enc _ _ _ Td IFLA_VXLAN_GROUP remote ltac:(uapi) Hg).
  rewrite (attr_index_enc _ _ _ Td IFLA_VXLAN_LINK link ltac:(uapi) Hk).
  cbn [mbind outcome_bind mret outcome_ret].
  rewrite snprintf_fit, (to_int_opt _ _ _ _ Hk) by done.
  by apply push_room.
Qed.

Lemma add_vlan_enc s :
  (Z.of_nat (length (add1 (rs_vlan (nl_rs s)) (vlan_of k))) <= NR_VLAN_MAX)%Z ->
  add_vlan ifi tb s =
  Done (0%Z, s <| nl_rs ::= set_field rs_vlan (fun x => add1 x (vlan_of k)) |>).
Proof.
  intros Hr. unfold add_vlan. pose proof Hl as [_ _ Hfit _ _ Hlnk Hinf].
  unfold vlan_of in *.
  destruct (kl_info k) as [[vni remote link|id|kind]|] eqn:Ei;
    [other_kind Ei Hinf| |other_kind Ei Hinf..].
  destruct Hinf as (kids & Hn & Hi). pose proof Hi as (_ & data & Hd & Hv).
  destruct (linkinfo_go IFLA_VLAN_MAX (fun data name => push rs_vlan (#"vlan interfaces")
    NR_VLAN_MAX (read_vlan ifi tb data name)) s kids data _ Ei Hn Hi Hd)
    as (pd & pn & td & E & En & Ed & Td).
  unfold kind_of in E. rewrite Ei in E. rewrite E. unfold read_vlan.
  rewrite Hindex, En, Ed. cbn [mbind outcome_bind].
  rewrite (attr_index_enc _ _ _ Ht IFLA_LINK (kl_link k) ltac:(uapi) Hlnk).
  rewrite (attr_u16_enc _ _ _ Td IFLA_VLAN_ID id ltac:(uapi) Hv).
  cbn [mbind outcome_bind mret outcome_ret].
  rewrite snprintf_fit, (to_int_opt _ _ _ _ Hlnk) by done.
  by apply push_room.
Qed.

End Link.

Lemma within_link rs k : within (link_into rs k) ->
  within rs /\
  (Z.of_nat (length (rs_ifaces rs ++ [iface_of k])) <= NR_IFACE_MAX)%Z /\
  (Z.of_nat (length (add1 (rs_vxlan rs) (vxlan_of k))) <= NR_VXLAN_MAX)%Z /\
  (Z.of_nat (length (add1 (rs_vlan rs) (vlan_of k))) <= NR_VLAN_MAX)%Z.
Proof.
  unfold within, link_into, add1. cbn [rs_ifaces rs_addr4 rs_route4 rs_vxlan rs_vlan].
  rewrite !length_app. lia.
Qed.

Lemma parse_link_enc nh m k s :
  at_msg nh m -> link_body (km_body m) k -> within (link_into (nl_rs s) k) ->
  parse_link_msg nh s = Done (0%Z, s <| nl_rs := link_into (nl_rs s) k |>).
Proof.
  intros Hm (Hi & Hf & h & ch & l & Hh & Hc & Hl & Eb) Hw.
  apply within_link in Hw as (_ & W1 & W2 & W3).
  unfold parse_link_msg. rewrite (at_nlmsg_len nh m Hm). cbn [mbind outcome_bind].
  destruct (at_NLMSG_DATA nh m Hm) as [r Er]. rewrite Er, Eb.
  pose proof Hm as [(_ & _ & Hb) _]. rewrite Eb in Hb. rewrite !app_assoc in *.
  set (hd := ((h ++ wr32 (kl_index k)) ++ wr32 (kl_flags k)) ++ ch) in *.
  assert (Hhd : length hd = 16).
  { unfold hd. rewrite !length_app. cbn [wr32 length]. lia. }
  rewrite (proj2 (Z.ltb_ge _ _)) by (unfold NLMSG_LENGTH; rewrite length_app; lia).
  destruct (parse_body IFLA_MAX hd l r 4) as (tb & Et & T);
    [lia|lia|apply Hl|done|]. change (4 * 4)%Z with 16%Z in Et.
  change (Z.to_nat 16) with 16 in Et. rewrite Et. cbn [mbind outcome_bind].
  destruct (ifi_fields h ch (kl_index k) (kl_flags k) (enc_attrs l ++ r)) as [E1 E2];
    [done..|]. rewrite !app_assoc in E1, E2. fold hd in E1, E2.
  unfold and_then. rewrite (add_iface_enc l k tb) by done. cbn [mbind outcome_bind Z.eqb].
  rewrite (add_vxlan_enc l k tb) by done. cbn [mbind outcome_bind Z.eqb].
  rewrite (add_vlan_enc l k tb) by done. by destruct s as [[]].
Qed.

Lemma parse_addr_enc nh m k s :
  at_msg nh m -> addr_body (km_body m) k -> within (addr_into (nl_rs s) k) ->
  parse_addr_msg nh s = Done (0%Z, s <| nl_rs := addr_into (nl_rs s) k |>).
Proof.
  intros Hm Hk Hw. unfold parse_addr_msg. rewrite (at_nlmsg_len nh m Hm).
  cbn [mbind outcome_bind]. destruct (at_NLMSG_DATA nh m Hm) as [r Er]. rewrite Er.
  pose proof Hm as [(_ & _ & Hb) _]. unfold NLMSG_LENGTH.
  destruct k as [index prefix addr|].
  2: { destruct Hk as (Hl & family & b & Hf & Eb). rewrite Eb in *.
       rewrite (proj2 (Z.ltb_ge _ _)) by lia. cbn.
       rewrite (proj2 (Z.eqb_neq _ _)) by done. cbn.
       destruct s as [[]]. unfold addr_into, add1. cbn. by rewrite app_nil_r. }
  destruct Hk as (Hi & Hp & Ha & flags & scope & l & Hl & Hadr & Eb). rewrite Eb in *.
  rewrite app_assoc in *.
  set (hd := [byte AF_INET; byte prefix; flags; scope] ++ wr32 index) in *.
  rewrite (proj2 (Z.ltb_ge _ _)) by (rewrite length_app; cbn [hd wr32 app length]; lia).
  destruct (parse_body IFA_MAX hd l r 2) as (tb & Et & T); [lia|done|done|done|].
  change (Z.to_nat (4 * 2)) with 8 in Et. change (4 * 2)%Z with 8%Z in Et.
  rewrite Et. change (rd8 ((hd ++ enc_attrs l) ++ r) 0) with (Done AF_INET).
  cbn [mbind outcome_bind]. rewrite Z.eqb_refl. cbn [negb].
  assert (exists p a, match attr tb IFA_LOCAL with Some a => Some a
      | None => attr tb IFA_ADDRESS end = Some p /\ at_attr p a /\ ka_data a = wr32 addr)
    as (p & a & -> & Hpa & Da).
  { destruct Hadr as [(_ & a & E & D)|(En & _ & a & E & D)].
    - destruct (attr_some _ _ _ T IFA_LOCAL a ltac:(uapi) E) as (p & -> & ?). by exists p, a.
    - rewrite (attr_none _ _ _ T IFA_LOCAL ltac:(uapi) En).
      destruct (attr_some _ _ _ T IFA_ADDRESS a ltac:(uapi) E) as (p & -> & ?).
      by exists p, a. }
  rewrite (at_RTA_PAYLOAD p a Hpa), Da. cbn [mbind outcome_bind].
  change (Z.of_nat (length (wr32 addr)) <? 4)%Z with false. cbn iota.
  destruct (at_RTA_DATA p a Hpa) as [q ->]. rewrite Da, rd32_wr by done.
  unfold hd. rewrite <- !app_assoc.
  rewrite (rd32_app [_; _; _; _] _ 0), rd32_wr by by apply is_index_u32.
  cbn [app]. rewrite rd8_S, rd8_byte by done. cbn [mbind outcome_bind mret outcome_ret].
  rewrite to_int_index by done. rewrite push_room; [by destruct s as [[]]|].
  destruct Hw as (_ & Hw & _). exact Hw.
Qed.

Lemma parse_route_enc nh m k s :
  at_msg nh m -> route_body (km_body m) k -> within (route_into (nl_rs s) k) ->
  parse_route_msg nh s = Done (0%Z, s <| nl_rs := route_into (nl_rs s) k |>).
Proof.
  intros Hm Hk Hw. unfold parse_route_msg. rewrite (at_nlmsg_len nh m Hm).
  cbn [mbind outcome_bind]. destruct (at_NLMSG_DATA nh m Hm) as [r Er]. rewrite Er.
  pose proof Hm as [(_ & _ & Hb) _]. unfold NLMSG_LENGTH.
  destruct k as [type table prefix dst gw oif|].
  2: { destruct Hk as (Hl & family & b & Hf & Eb). rewrite Eb in *.
       rewrite (proj2 (Z.ltb_ge _ _)) by lia. cbn.
       rewrite (proj2 (Z.eqb_neq _ _)) by done. cbn.
       destruct s as [[]]. unfold route_into, add1. cbn. by rewrite app_nil_r. }
  destruct Hk as (Hty & Hp & Htab & sl & tos & t & proto & scope & flags & l & Hl &
    Hfl & Ht & Ht' & Hdst & Hgw & Hoif & Eb). rewrite Eb in *. rewrite app_assoc in *.
  set (hd := [byte AF_INET; byte prefix; sl; tos; byte t; proto; scope; byte type] ++ flags) in *.
  assert (Hhd : length hd = 12) by (unfold hd; rewrite length_app; cbn [length]; lia).
  rewrite (proj2 (Z.ltb_ge _ _)) by (rewrite length_app; lia).
  destruct (parse_body RTA_MAX hd l r 3) as (tb & Et & T); [lia|lia|done|done|].
  change (Z.to_nat (4 * 3)) with 12 in Et. change (4 * 3)%Z with 12%Z in Et. rewrite Et.
  assert (Eh : rd8 ((hd ++ enc_attrs l) ++ r) 0 = Done AF_INET /\
    rd8 ((hd ++ enc_attrs l) ++ r) 1 = Done prefix /\
    rd8 ((hd ++ enc_attrs l) ++ r) 4 = Done t /\
    rd8 ((hd ++ enc_attrs l) ++ r) 7 = Done type).
  { unfold hd. cbn [app]. rewrite !rd8_S, !rd8_byte by done. done. }
  destruct Eh as (-> & -> & E4 & ->). cbn [mbind outcome_bind].
  rewrite Z.eqb_refl. cbn [negb].
  assert (route_table ((hd ++ enc_attrs l) ++ r) tb = Done table) as ->.
  { unfold route_table. destruct Ht' as [Ht'|[Ht' ->]].
    - rewrite (attr_index_enc _ _ _ T RTA_TABLE _ ltac:(uapi) Ht').
      cbn. by rewrite to_int_index.
    - rewrite (attr_u32_enc _ _ _ T RTA_TABLE None ltac:(uapi) Ht'). exact E4. }
  rewrite (attr_u32_enc _ _ _ T RTA_DST dst ltac:(uapi) Hdst).
  rewrite (attr_u32_enc _ _ _ T RTA_GATEWAY gw ltac:(uapi) Hgw).
  rewrite (attr_index_enc _ _ _ T RTA_OIF oif ltac:(uapi) Hoif).
  cbn [mbind outcome_bind mret outcome_ret]. rewrite (to_int_opt _ _ _ _ Hoif).
  unfold route_into, route_of in *. rewrite <- negb_orb.
  destruct ((type =? RTN_UNICAST) || (type =? RTN_LOCAL))%Z; cbn [negb andb] in *;
    [destruct (table =? RT_TABLE_MAIN)%Z; cbn [negb] in *|].
  2-3: destruct s as [[]]; unfold add1; cbn; by rewrite app_nil_r.
  rewrite push_room; [by destruct s as [[]]|]. destruct Hw as (_ & _ & Hw & _). exact Hw.
Qed.

End Effects.

(** ** Dumps *)

Section Dump.
Context `{Uapi} {K : Type} (type : Z).
Context (body : list ascii -> K -> Prop) (into : real_state -> K -> real_state).

(** Messages that carry the entries [ks]; messages of other requests and of
    other types may come between them. *)
Inductive part (seq : Z) : list kmsg -> list K -> Prop :=
| part_nil : part seq [] []
| part_item m ms k ks :
    km_type m = type -> km_seq m = seq -> body (km_body m) k ->
    part seq ms ks -> part seq (m :: ms) (k :: ks)
| part_skip m ms ks :
    km_seq m <> seq \/ km_type m ∉ [NLMSG_DONE; NLMSG_ERROR; type] ->
    part seq ms ks -> part seq (m :: ms) ks.

(** What the socket delivers for a dump of [ks]: interruptions, datagrams of
    messages, and at last one that holds the end marker. *)
Inductive answer (seq : Z) : list K -> list rcv -> Prop :=
| answer_intr ks inbox : answer seq ks inbox -> answer seq ks (RcvIntr :: inbox)
| answer_more ms ks ks' inbox :
    part seq ms ks -> Forall msg_ok ms -> ms <> [] -> length (enc_msgs ms) <= RECV_SZ ->
    answer seq ks' inbox -> answer seq (ks ++ ks') (RcvData (enc_msgs ms) :: inbox)
| answer_last ms m tail ks :
    part seq ms ks -> Forall msg_ok ms -> msg_ok m ->
    km_type m = NLMSG_DONE -> km_seq m = seq ->
    length (enc_msgs ms ++ enc_msg m ++ tail) <= RECV_SZ ->
    answer seq ks [RcvData (enc_msgs ms ++ enc_msg m ++ tail)].

Hypothesis Hparse : forall nh m k s,
  at_msg nh m -> body (km_body m) k -> within (into (nl_rs s) k) ->
  parse_msg type nh s = Done (0%Z, s <| nl_rs := into (nl_rs s) k |>).
Hypothesis Hmono : forall rs k, within (into rs k) -> within rs.
Hypothesis Htype : type <> NLMSG_DONE /\ type <> NLMSG_ERROR.

Definition all_into (s : nl) (ks : list K) : nl :=
  s <| nl_rs := fold_left into ks (nl_rs s) |>.

Lemma within_fold ks rs : within (fold_left into ks rs) -> within rs.
Proof. revert rs. induction ks as [|k ks IH]; cbn; [done|]. eauto. Qed.

(** The start of a round of the loop over messages. *)
Lemma msg_loop_round n seq m r s :
  msg_ok m -> length (enc_msg m ++ r) <= RECV_SZ ->
  msg_loop (S n) seq type (enc_msg m ++ r) (Z.of_nat (length (enc_msg m ++ r))) s =
  let next := msg_loop n seq type r (Z.of_nat (length r)) in
  if negb (km_seq m =? seq)%Z then next s
  else if (km_type m =? NLMSG_DONE)%Z then mret (Return 0, s)
  else if (km_type m =? NLMSG_ERROR)%Z
  then rc ← nl_err (enc_msg m ++ r); mret (Return rc, s)
  else if negb (km_type m =? type)%Z then next s
  else
    '(rc, s) ← parse_msg type (enc_msg m ++ r) s;
    if negb (rc =? 0)%Z then mret (Return rc, s) else next s.
Proof.
  intros Hm Hl. assert (Ha : at_msg (enc_msg m ++ r) m) by (split; [done|by eexists]).
  pose proof (enc_msg_length m) as El.
  pose proof (align4_le (16 + Z.of_nat (length (km_body m)))).
  rewrite length_app in *. cbn [msg_loop]. unfold NLMSG_OK.
  rewrite (proj2 (Z.ltb_ge _ _)) by lia.
  rewrite (at_nlmsg_len _ _ Ha), (at_nlmsg_seq _ _ Ha), (at_nlmsg_type _ _ Ha).
  cbn [mbind outcome_bind]. unfold mret at 1, outcome_ret at 1.
  rewrite (proj2 (Z.leb_le 16 _)), (proj2 (Z.leb_le (16 + _) (Z.of_nat (_ + _)))) by lia.
  cbn [andb negb mbind outcome_bind].
  rewrite <- El, Nat2Z.id, drop_app_length, Nat2Z.inj_add.
  by replace (_ + _ - _)%Z with (Z.of_nat (length r)) by lia.
Qed.

Lemma msg_loop_part n seq ms ks r s :
  part seq ms ks -> Forall msg_ok ms -> length (enc_msgs ms ++ r) <= RECV_SZ ->
  length ms < n -> within (nl_rs (all_into s ks)) ->
  msg_loop n seq type (enc_msgs ms ++ r) (Z.of_nat (length (enc_msgs ms ++ r))) s =
  msg_loop (n - length ms) seq type r (Z.of_nat (length r)) (all_into s ks).
Proof.
  intros Hp. revert n s.
  induction Hp as [|m ms k ks Ht Hs Hb Hp IH|m ms ks Hsk Hp IH]; intros n s Ho Hl Hn Hw.
  { rewrite Nat.sub_0_r. by destruct s. }
  all: apply Forall_cons in Ho as [Hm Ho]; destruct n as [|n]; [cbn in Hn; lia|].
  all: unfold enc_msgs in *; cbn [map concat length] in *; rewrite <- app_assoc in *.
  all: assert (Hl' : length (concat (map enc_msg ms) ++ r) <= RECV_SZ)
         by (rewrite length_app in Hl; lia).
  all: rewrite msg_loop_round by done.
  - rewrite Hs, Ht, Z.eqb_refl. destruct Htype as [Hd He].
    rewrite !(proj2 (Z.eqb_neq _ _)), Z.eqb_refl by done. cbn [negb].
    assert (Hk : within (into (nl_rs s) k)) by (destruct s; by apply (within_fold ks)).
    rewrite (Hparse _ m k) by (done || (split; [done|by eexists])).
    cbn [mbind outcome_bind negb Z.eqb]. rewrite IH; [by destruct s|done|done|lia|].
    by destruct s.
  - cbn zeta. rewrite IH by (done || lia). destruct (Z.eqb_spec (km_seq m) seq); [|done].
    destruct Hsk as [?|Hsk]; [done|]. rewrite !not_elem_of_cons in Hsk.
    destruct Hsk as (H1 & H2 & H3 & _).
    by rewrite !(proj2 (Z.eqb_neq _ _)) by done.
Qed.

Lemma enc_msgs_length ms : length ms <= length (enc_msgs ms).
Proof.
  unfold enc_msgs. induction ms as [|m ms IH]; [done|]. cbn [map concat length].
  rewrite length_app. pose proof (enc_msg_length m).
  pose proof (align4_le (16 + Z.of_nat (length (km_body m)))). lia.
Qed.

Lemma recv_dump_answer seq ks inbox s :
  answer seq ks inbox -> within (nl_rs (all_into s ks)) ->
  recv_dump inbox seq type s = Done (0%Z, all_into s ks, []).
Proof.
  intros Ha. revert s.
  induction Ha as [ks inbox _ IH|ms ks ks' inbox Hp Ho Hne Hl Ha IH
                  |ms m tail ks Hp Ho Hm Ht Hs Hl]; intros s Hw.
  - by apply IH.
  - assert (Ef : all_into s (ks ++ ks') = all_into (all_into s ks) ks').
    { destruct s. unfold all_into. cbn. by rewrite fold_left_app. }
    rewrite Ef in *. pose proof (within_fold ks' _ Hw) as Hw'. cbn [recv_dump]. rewrite take_ge by done.
    pose proof (enc_msgs_length ms).
    rewrite (proj2 (Z.eqb_neq _ _)) by (destruct ms; [done|cbn [length] in *; lia]).
    rewrite <- (app_nil_r (enc_msgs ms)) at 2 3.
    rewrite (msg_loop_part _ seq ms ks) by
      (done || (rewrite ?app_nil_r; done) || lia).
    destruct (S (length (enc_msgs ms)) - length ms) as [|n] eqn:En; [lia|].
    cbn [msg_loop]. cbn. by apply IH.
  - cbn [recv_dump]. rewrite take_ge by done.
    pose proof (enc_msgs_length ms). pose proof (enc_msg_length m).
    pose proof (align4_le (16 + Z.of_nat (length (km_body m)))).
    rewrite (proj2 (Z.eqb_neq _ _)) by (rewrite !length_app; lia).
    rewrite (msg_loop_part _ seq ms ks) by (done || (rewrite ?length_app; lia)).
    destruct (S (length (enc_msgs ms ++ enc_msg m ++ tail)) - length ms) as [|n] eqn:En;
      [rewrite !length_app in En; lia|].
    rewrite msg_loop_round by (done || (rewrite !length_app in *; lia)).
    cbn zeta. by rewrite Hs, Ht, Z.eqb_refl.
Qed.

End Dump.

(** ** Conversations *)

(** The tables a dump leaves. *)
Lemma fold_link ls rs :
  fold_left link_into ls rs =
  RealState (rs_ifaces rs ++ map iface_of ls) (rs_addr4 rs) (rs_route4 rs) (rs_dns4 rs)
    (rs_vxlan rs ++ omap vxlan_of ls) (rs_vlan rs ++ omap vlan_of ls).
Proof.
  revert rs. induction ls as [|k ls IH]; intros rs; cbn [fold_left map omap].
  - destruct rs. cbn. by rewrite !app_nil_r.
  - rewrite IH. unfold link_into, add1. cbn. rewrite <- !app_assoc. f_equal.
    + by destruct (vxlan_of k).
    + by destruct (vlan_of k).
Qed.

Lemma fold_addr ls rs :
  fold_left addr_into ls rs = rs <| rs_addr4 ::= (fun l => l ++ omap addr_of ls) |>.
Proof.
  revert rs. induction ls as [|k ls IH]; intros rs; cbn [fold_left omap].
  - destruct rs. cbn. by rewrite !app_nil_r.
  - rewrite IH. unfold addr_into, add1. destruct rs. cbn. f_equal.
    rewrite <- !app_assoc. by destruct (addr_of k).
Qed.

Lemma fold_route ls rs :
  fold_left route_into ls rs = rs <| rs_route4 ::= (fun l => l ++ omap route_of ls) |>.
Proof.
  revert rs. induction ls as [|k ls IH]; intros rs; cbn [fold_left omap].
  - destruct rs. cbn. by rewrite !app_nil_r.
  - rewrite IH. unfold route_into, add1. destruct rs. cbn. f_equal.
    rewrite <- !app_assoc. by destruct (route_of k).
Qed.

Section Load.
Context `{Uapi}.

(** The kernel with tables [k] answers the three requests of a snapshot. *)
Record serves (c : conv) (k : kernel) : Prop := {
  sv_socket : c_socket c = Ok tt;
  sv_bind : c_bind c = Ok tt;
  sv_links : exists inbox,
    c_request c (nl_request RTM_GETLINK [byte AF_UNSPEC] 1) = (Ok 17%Z, inbox) /\
    answer RTM_NEWLINK link_body 1 (k_links k) inbox;
  sv_addrs : exists inbox,
    c_request c (nl_request RTM_GETADDR (byte AF_INET :: replicate 7 NUL) 2)
      = (Ok 24%Z, inbox) /\
    answer RTM_NEWADDR addr_body 2 (k_addrs k) inbox;
  sv_routes : exists inbox,
    c_request c (nl_request RTM_GETROUTE
      (byte AF_INET :: replicate 3 NUL ++ byte RT_TABLE_MAIN :: replicate 7 NUL) 3)
      = (Ok 28%Z, inbox) /\
    answer RTM_NEWROUTE route_body 3 (k_routes k) inbox
}.

Lemma dump_answer {K} c req type body seq inbox ks
    (kbody : list ascii -> K -> Prop) (into : real_state -> K -> real_state) s :
  (Z.of_nat (length body) <= 200)%Z -> (0 <= seq < 100)%Z ->
  c_request c (nl_request req body (seq + 1)) =
    (Ok (NLMSG_LENGTH (Z.of_nat (length body))), inbox) ->
  answer type kbody (seq + 1) ks inbox ->
  (forall nh m k s, at_msg nh m -> kbody (km_body m) k -> within (into (nl_rs s) k) ->
     parse_msg type nh s = Done (0%Z, s <| nl_rs := into (nl_rs s) k |>)) ->
  (forall rs k, within (into rs k) -> within rs) ->
  type <> NLMSG_DONE /\ type <> NLMSG_ERROR ->
  within (nl_rs (all_into into s ks)) ->
  dump c req type body seq [] s = Done (0%Z, all_into into s ks, []).
Proof.
  intros Hb Hs Hreq Ha Hparse Hmono Htype Hw. unfold dump, nl_send.
  rewrite Z.mod_small by lia. rewrite Hreq.
  pose proof (align4_le (NLMSG_LENGTH (Z.of_nat (length body)))) as Hal.
  unfold NLMSG_SPACE, NLMSG_LENGTH in *.
  destruct (Z.gtb_spec (align4 (Z.of_nat (length body) + 16)) 256); [lia|].
  rewrite Z.eqb_refl. cbn [negb app]. by eapply recv_dump_answer.
Qed.

Lemma load_exact c k msg :
  serves c k -> within (snapshot k) ->
  nl_load_state c msg = Done (0%Z, Nl (snapshot k) msg).
Proof.
  intros [Hso Hbi (in1 & R1 & A1) (in2 & R2 & A2) (in3 & R3 & A3)] Hw.
  unfold nl_load_state, nl_open. rewrite Hso, Hbi. cbn [Z.ltb Z.compare].
  set (s0 := Nl rs_zero msg). set (s1 := all_into link_into s0 (k_links k)).
  set (s2 := all_into addr_into s1 (k_addrs k)).
  assert (E3 : all_into route_into s2 (k_routes k) = Nl (snapshot k) msg).
  { unfold all_into, s2, s1, all_into. cbn -[fold_left snapshot].
    rewrite fold_route, fold_addr, fold_link. done. }
  assert (W2 : within (nl_rs s2)).
  { apply (within_fold route_into) with (ks := k_routes k).
    - intros rs kr. unfold within, route_into, add1. cbn. rewrite length_app. lia.
    - assert (fold_left route_into (k_routes k) (nl_rs s2) = snapshot k) as ->; [|done].
      change (nl_rs (all_into route_into s2 (k_routes k)) = snapshot k). by rewrite E3. }
  assert (W1 : within (nl_rs s1)).
  { apply (within_fold addr_into) with (ks := k_addrs k); [|exact W2].
    intros rs kr. unfold within, addr_into, add1. cbn. rewrite length_app. lia. }
  unfold dump_links, dump_addr4, dump_route4.
  rewrite (dump_answer c _ _ _ 0 in1 (k_links k) link_body link_into); try done.
  2: { apply parse_link_enc. }
  2: { intros rs kl Hl. by apply within_link in Hl as []. }
  cbn [mbind outcome_bind Z.eqb negb].
  rewrite (dump_answer c _ _ _ 1 in2 (k_addrs k) addr_body addr_into); try done.
  2: { apply parse_addr_enc. }
  2: { intros rs kr. unfold within, addr_into, add1. cbn. rewrite length_app. lia. }
  cbn [mbind outcome_bind Z.eqb negb].
  rewrite (dump_answer c _ _ _ 2 in3 (k_routes k) route_body route_into); try done.
  2: { apply parse_route_enc. }
  2: { intros rs kr. unfold within, route_into, add1. cbn. rewrite length_app. lia. }
  2: { fold s0 s1 s2. by rewrite E3. }
  cbn [mbind outcome_bind]. fold s0 s1 s2. by rewrite E3.
Qed.

(** C11: when the kernel answers the requests with its tables (attributes in
    any order and among others, messages of other requests in between, cut
    into datagrams and interrupted at will), the snapshot is exactly those
    tables: every interface, IPv4 address, main-table route, VXLAN and VLAN,
    in order. *)
Theorem nl_load_state_exact (c : conv) (k : kernel) (msg : cstr) :
  serves c k -> within (snapshot k) ->
  nl_load_state c msg = Done (0%Z, Nl (snapshot k) msg).
Proof. apply load_exact. Qed.

End Load.

(** ** A conversation *)

(** The maxima of a recent kernel. *)
Definition linux_uapi : Uapi.
Proof.
  refine {| IFLA_MAX := 67; IFLA_INFO_MAX := 5; IFLA_VXLAN_MAX := 33; IFLA_VLAN_MAX := 5;
            IFA_MAX := 11; RTA_MAX := 30 |}; compute_decide.
Defined.

Definition sample_kernel : kernel := {|
  k_links := [
    KLink 2 4099 (#"eth0") (Some 1%Z) (Some 4%Z) None None;
    KLink 3 1 (#"vx0") None None None (Some (KVxlan (Some 42%Z) (Some 16777226%Z) None));
    KLink 4 4099 (#"br0") None None None (Some (KKind (#"bridge")))];
  k_addrs := [KAddr4 4 24 33554442; KAddrOther];
  k_routes := [KRoute4 1 254 0 None (Some 16777226%Z) (Some 4%Z);
               KRoute4 1 255 32 (Some 33554442%Z) None (Some 4%Z)]
|}.

Definition eth0_attrs : list kattr :=
  [KAttr 3 (#"eth0" ++ [NUL]); KAttr 33 [byte 1]; KAttr 10 (wr32 4); KAttr 13 (wr32 1000)].

Definition vx0_data : list kattr := [KAttr 1 (wr32 42); KAttr 2 (wr32 16777226)].

Definition vx0_info : list kattr :=
  [KAttr 1 (#"vxlan" ++ [NUL]); KAttr 32770 (enc_attrs vx0_data)].

Definition vx0_attrs : list kattr :=
  [KAttr 3 (#"vx0" ++ [NUL]); KAttr 32786 (enc_attrs vx0_info)].

Definition br0_info : list kattr := [KAttr 1 (#"bridge" ++ [NUL])].

Definition br0_attrs : list kattr :=
  [KAttr 3 (#"br0" ++ [NUL]); KAttr 18 (enc_attrs br0_info)].

Definition link_msg (index flags : Z) (l : list kattr) : kmsg :=
  KMsg RTM_NEWLINK 2 1 7
    (replicate 4 NUL ++ wr32 index ++ wr32 flags ++ replicate 4 NUL ++ enc_attrs l).

Definition sample_link_msgs : list kmsg :=
  [link_msg 2 4099 eth0_attrs; link_msg 3 1 vx0_attrs; KMsg 99 0 77 0 [NUL];
   link_msg 4 4099 br0_attrs].

Definition sample_addr_msgs : list kmsg :=
  [KMsg RTM_NEWADDR 2 2 7 ([byte 2; byte 24; NUL; NUL] ++ wr32 4 ++
     enc_attrs [KAttr 1 (wr32 33554442); KAttr 2 (wr32 33554442)]);
   KMsg RTM_NEWADDR 2 2 7 (byte 10 :: replicate 7 NUL)].

Definition sample_route_msgs : list kmsg :=
  [KMsg RTM_NEWROUTE 2 3 7 ([byte 2; byte 0; NUL; NUL; byte 254; NUL; NUL; byte 1] ++
     replicate 4 NUL ++
     enc_attrs [KAttr 15 (wr32 254); KAttr 5 (wr32 16777226); KAttr 4 (wr32 4)]);
   KMsg RTM_NEWROUTE 2 3 7 ([byte 2; byte 32; NUL; NUL; byte 255; NUL; NUL; byte 1] ++
     replicate 4 NUL ++ enc_attrs [KAttr 1 (wr32 33554442); KAttr 4 (wr32 4)])].

Definition done_msg (seq : Z) : kmsg := KMsg NLMSG_DONE 2 seq 7 (wr32 0).

Definition sample_inbox (ms : list kmsg) (seq : Z) : list rcv :=
  [RcvIntr; RcvData (enc_msgs ms); RcvData (enc_msgs [] ++ enc_msg (done_msg seq) ++ [])].

Definition sample_conv : conv := {|
  c_socket := Ok tt;
  c_bind := Ok tt;
  c_request := fun req =>
    match rd16 req 4 with
    | Done 18%Z => (Ok 17%Z, sample_inbox sample_link_msgs 1)
    | Done 22%Z => (Ok 24%Z, sample_inbox sample_addr_msgs 2)
    | _ => (Ok 28%Z, sample_inbox sample_route_msgs 3)
    end
|}.

#[export] Instance kattr_eq : EqDecision kattr.
Proof. solve_decision. Defined.

#[export] Instance attr_ok_dec a : Decision (attr_ok a).
Proof. unfold attr_ok, is_u16. apply _. Defined.

#[export] Instance msg_ok_dec m : Decision (msg_ok m).
Proof. unfold msg_ok, is_u16, is_u32. apply _. Defined.

(** An entry of a concrete attribute list. *)
Ltac last_attr :=
  unfold u8_attr, u16_attr, u32_attr, index_attr;
  cbn [kl_carrier kl_master kl_link kl_name kl_info];
  lazymatch goal with
  | |- last_of _ _ = None => vm_compute; reflexivity
  | |- num_attr _ _ _ _ None => vm_compute; reflexivity
  | |- num_attr _ _ _ _ (Some _) =>
    split; [by vm_compute|eexists; split; [vm_compute; reflexivity|vm_compute; reflexivity]]
  | |- str_attr _ _ _ =>
    split; [compute_decide|eexists; split; [vm_compute; reflexivity|vm_compute; reflexivity]]
  | |- nest_attr _ _ _ =>
    split; [compute_decide|eexists; split; [vm_compute; reflexivity|vm_compute; reflexivity]]
  end.

Lemma sample_answer {K} type (body : list ascii -> K -> Prop) seq ms ks :
  (0 <= seq < 100)%Z -> part type body seq ms ks -> Forall msg_ok ms -> ms <> [] ->
  length (enc_msgs ms) <= 1000 ->
  answer type body seq ks (sample_inbox ms seq).
Proof.
  intros Hs Hp Ho Hne Hl. constructor. rewrite <- (app_nil_r ks).
  assert (1000 <= RECV_SZ) by (apply Nat2Z.inj_le; by vm_compute).
  assert (Hd : length (enc_msg (done_msg seq)) = 20) by done.
  apply answer_more; [done..|lia|]. apply answer_last; [constructor|constructor| |done..|].
  - split_and!; [by vm_compute| |by vm_compute]. unfold is_u32, UINT32_MAX. cbn. lia.
  - rewrite !length_app, Hd. cbn [length]. unfold enc_msgs. cbn. lia.
Qed.

Lemma eth0_link : link_attrs eth0_attrs (KLink 2 4099 (#"eth0") (Some 1%Z) (Some 4%Z) None None).
Proof. constructor; try last_attr; compute_decide. Qed.

Lemma vx0_link : link_attrs vx0_attrs
  (KLink 3 1 (#"vx0") None None None (Some (KVxlan (Some 42%Z) (Some 16777226%Z) None))).
Proof.
  constructor; try last_attr; try compute_decide. exists vx0_info. split; [last_attr|].
  split; [last_attr|]. exists vx0_data. split; [last_attr|]. split_and!; last_attr.
Qed.

Lemma br0_link : link_attrs br0_attrs
  (KLink 4 4099 (#"br0") None None None (Some (KKind (#"bridge")))).
Proof.
  constructor; try last_attr; try compute_decide. exists br0_info. split; [last_attr|].
  split; [last_attr|]. split_and!; compute_decide.
Qed.

Lemma link_msg_body index flags l k :
  kl_index k = index -> kl_flags k = flags -> is_index index -> is_u32 flags ->
  link_attrs l k -> link_body (km_body (link_msg index flags l)) k.
Proof.
  intros <- <- Hi Hf Hl. split_and!; [done..|].
  by exists (replicate 4 NUL), (replicate 4 NUL), l.
Qed.

Lemma sample_serves : serves sample_conv sample_kernel.
Proof.
  constructor; [done..| | |].
  - exists (sample_inbox sample_link_msgs 1). split; [vm_compute; reflexivity|].
    apply sample_answer; [done| |compute_decide|done|compute_decide].
    unfold sample_link_msgs, sample_kernel. cbn [k_links].
    apply part_item; [done..|apply link_msg_body; [done..|exact eth0_link]|].
    apply part_item; [done..|apply link_msg_body; [done..|exact vx0_link]|].
    apply part_skip; [by left|].
    apply part_item; [done..|apply link_msg_body; [done..|exact br0_link]|]. constructor.
  - exists (sample_inbox sample_addr_msgs 2). split; [vm_compute; reflexivity|].
    apply sample_answer; [done| |compute_decide|done|compute_decide].
    apply part_item; [done..| |].
    { split_and!; [done..|]. exists NUL, NUL, [KAttr 1 (wr32 33554442); KAttr 2 (wr32 33554442)].
      split; [compute_decide|]. split; [left; last_attr|done]. }
    apply part_item; [done..| |constructor].
    split; [compute_decide|]. by exists (byte 10), (replicate 7 NUL).
  - exists (sample_inbox sample_route_msgs 3). split; [vm_compute; reflexivity|].
    apply sample_answer; [done| |compute_decide|done|compute_decide].
    apply part_item; [done..| |apply part_item; [done..| |constructor]].
    + split_and!; [done..|]. exists NUL, NUL, 254%Z, NUL, NUL, (replicate 4 NUL),
        [KAttr 15 (wr32 254); KAttr 5 (wr32 16777226); KAttr 4 (wr32 4)].
      split_and!; [compute_decide|done|done|left; last_attr|last_attr|last_attr|last_attr|done].
    + split_and!; [done..|]. exists NUL, NUL, 255%Z, NUL, NUL, (replicate 4 NUL),
        [KAttr 1 (wr32 33554442); KAttr 4 (wr32 4)].
      split_and!; [compute_decide|done|done|right; split; [last_attr|done]
                  |last_attr|last_attr|last_attr|done].
Qed.

Lemma nl_load_state_exact_witness :
  @nl_load_state linux_uapi sample_conv [] = Done (0%Z, Nl (snapshot sample_kernel) []).
Proof.
  apply (@nl_load_state_exact linux_uapi sample_conv sample_kernel []).
  - exact sample_serves.
  - repeat split; compute_decide.
Defined.

(** The snapshot trusts the kernel to end an interface name with NUL: for a
    name without one the program reads past the bytes it received. *)
Example nl_name_unterminated :
  exists c, @nl_load_state linux_uapi c [] = Fault Unterminated.
Proof.
  exists (Conv (Ok tt) (Ok tt) (fun _ => (Ok 17%Z,
    [RcvData (enc_msg (link_msg 2 1 [KAttr 3 (#"eth0")]))]))).
  vm_compute. reflexivity.
Qed.
