(* ===== verification/Run.v ===== *)
(** One reconciliation, run.c: load the desired set, take the lock, snapshot
    the kernel, verify and apply, and verify again. *)
From S2P Require Import Prelude CLib CfgPath CfgTree CfgFile State Yaml Verify.
From S2P Require Import UciDb UciBuild UciExport Netlink NetlinkSpec.

(** ** The machine *)

(** How the calls on a temporary file go: [mkstemp], [fdopen], opening it
    again, the errno of a failed flush or close, and the writes. *)
Record tmp_env := TmpEnv {
  tmp_mkstemp : result unit;
  tmp_fdopen : result unit;
  tmp_reopen : result unit;
  tmp_io : errno;
  tmp_writes : oracle
}.

(** What the program observes of the system between the commands it runs. *)
Class Host `{Sys} := {
  h_fs : world -> machine;
  h_tmp : world -> tmp_env;
  h_mem : world -> oracle;
  h_resolv : world -> option (list ascii);
  h_netlink : world -> conv;
  h_lock : world -> result unit * bool
}.

Record netrec_run_cfg := RunCfg {
  run_cfg_path : option cstr;
  run_source : cstr;
  run_uci_bin : option cstr;
  run_uci_network : option cstr;
  run_uci_wireless : option cstr;
  run_apply : bool
}.

(** What a run does that others can see: it takes and releases the lock,
    announces the second verification, and prints the lines of verify.c. *)
Inductive revent :=
| RLock
| RUnlock
| RPost
| RLine (e : event).

Record rst `{Sys} := Rst {
  r_world : world;
  r_msg : cstr;
  r_out : list revent
}.

#[export] Instance rst_eta `{Sys} : Eta rst := fun s =>
  Rst _ (r_world s) (r_msg s) (r_out s).

Section Run.
Context `{Libc} `{Uapi} `{Host}.

Definition log (e : revent) (s : rst) : rst := s <| r_out ::= (fun l => l ++ [e]) |>.

(** ** Steps *)

(** 0 stands for the descriptor of the lock file. *)
Definition apply_lock (s : rst) : Z * rst :=
  match h_lock (r_world s) with
  | (Err e, _) => (neg e, s)
  | (Ok _, false) => (neg EAGAIN, s)
  | (Ok _, true) => (0%Z, log RLock s)
  end.

(** [if (lock_fd >= 0) close(lock_fd);] *)
Definition close_lock (lock_fd : Z) (s : rst) : rst :=
  if (0 <=? lock_fd)%Z then log RUnlock s else s.

Definition load_real (s : rst) : outcome (Z * real_state * rst) :=
  '(rc, n) ← nl_load_state (h_netlink (r_world s)) (r_msg s);
  let s := s <| r_msg := nl_err_msg n |> in
  if negb (rc =? 0)%Z then mret (rc, rs_zero, s)
  else
    match rs_load_resolv_conf (nl_rs n) (h_resolv (r_world s)) with
    | Err e => mret (neg e, rs_zero, s)
    | Ok rs => mret (0%Z, rs, s)
    end.

(** The loop of [run_verify_set]: the diff, [*act_fail] and the state. *)
Fixpoint verify_loop (set : desired_set) (rs : real_state) (apply act_fail : bool)
    (diff : Z) (s : rst) : Z * bool * rst :=
  match set with
  | [] => (diff, act_fail, s)
  | ds :: set' =>
    let '(rc, af, out, w) := verify_state ds rs apply (r_world s) in
    let s := s <| r_world := w |> <| r_out ::= (fun l => l ++ map RLine out) |> in
    let act_fail := default act_fail af in
    if (rc <? 0)%Z then (rc, act_fail, s)
    else verify_loop set' rs apply act_fail (diff + rc) s
  end.

Definition run_verify_set (set : desired_set) (apply act_fail : bool) (s : rst)
  : outcome (Z * bool * rst) :=
  '(rc, rs, s) ← load_real s;
  if negb (rc =? 0)%Z then mret (rc, act_fail, s)
  else mret (verify_loop set rs apply false 0 s).

Definition load_desired_set (cfg : netrec_run_cfg) (w : world) : result desired_set :=
  if streq (run_source cfg) (#"yaml") then
    match run_cfg_path cfg with
    | None => Err EINVAL
    | Some path => yaml_load_desired_set (h_mem w) (fopen_r (h_fs w) path)
    end
  else if streq (run_source cfg) (#"uci") then
    let t := h_tmp w in
    uci_load_desired_set (h_fs w) (run_uci_bin cfg) (run_uci_network cfg)
      (run_uci_wireless cfg) (tmp_mkstemp t) (tmp_fdopen t) (tmp_reopen t) (tmp_io t)
      (tmp_writes t) (h_mem w)
  else Err EINVAL.

(** ** One run *)

(** What follows once the set is loaded and, with [apply], the lock taken. *)
Definition run_locked (set : desired_set) (apply : bool) (lock_fd : Z) (s : rst)
  : outcome (Z * rst) :=
  '(diff, act_fail, s) ← run_verify_set set apply false s;
  if negb apply then mret (if (diff >? 0)%Z then 1%Z else diff, close_lock lock_fd s)
  else if (diff <? 0)%Z || act_fail then
    mret (if (diff <? 0)%Z then diff else 1%Z, close_lock lock_fd s)
  else if (diff =? 0)%Z then mret (0%Z, close_lock lock_fd s)
  else
    '(diff, act_fail, s) ← run_verify_set set false act_fail (log RPost s);
    let s := close_lock lock_fd s in
    if (diff <? 0)%Z then mret (diff, s)
    else if negb (diff =? 0)%Z || act_fail then mret (1%Z, s)
    else mret (0%Z, s).

Definition netrec_run_once (cfg : netrec_run_cfg) (s : rst) : outcome (Z * rst) :=
  match load_desired_set cfg (r_world s) with
  | Err e => mret (neg e, s)
  | Ok set =>
    if run_apply cfg then
      let '(lock_fd, s) := apply_lock s in
      if (lock_fd <? 0)%Z then mret (lock_fd, s)
      else run_locked set true lock_fd s
    else run_locked set false (-1) s
  end.

(** ** Specification *)

(** Every state of the set is as desired. *)
Definition all_satisfied (set : desired_set) (rs : real_state) : Prop :=
  Forall (fun ds => satisfied ds rs) set.

(** The snapshot the program takes of [w]. *)
Definition observes (w : world) (rs : real_state) : Prop :=
  exists msg out msg', load_real (Rst _ w msg out) = Done (0%Z, rs, Rst _ w msg' out).

(** Whether an event is the report of a command that was run. *)
Definition is_exec (e : revent) : bool :=
  match e with RLine (EvApplyFail _ _) | RLine (EvApplyOk _) => true | _ => false end.

(** Follow the lock through a trace: taken at most once at a time, released
    only when held, and commands run only while it is held. *)
Fixpoint lock_trace (held : bool) (tr : list revent) : option bool :=
  match tr with
  | [] => Some held
  | e :: tr' =>
    match e with
    | RLock => if held then None else lock_trace true tr'
    | RUnlock => if held then lock_trace false tr' else None
    | _ => if is_exec e && negb held then None else lock_trace held tr'
    end
  end.

(** ** Lemmas *)

Definition supported (ds : desired_state) : Prop :=
  scenario ds ∈ SCN_UPLINK ++ SCN_BRIDGE ++ SCN_VLAN ++ SCN_WG.

(** What is loaded, from either source, has passed the loader of yaml.c. *)
Lemma load_desired_set_ok cfg w set :
  load_desired_set cfg w = Ok set -> set <> [] /\ Forall ds_ok set.
Proof.
  intros Hl. assert (exists mem file, yaml_load_desired_set mem file = Ok set)
    as (mem & file & E).
  { unfold load_desired_set in Hl. destruct (streq _ (#"yaml")).
    - destruct (run_cfg_path cfg); [eauto|done].
    - destruct (streq _ (#"uci")); [|done]. unfold uci_load_desired_set in Hl.
      inv_ok. destruct (uci_build_desired_set _ _ _ _) as [set0|e0].
      + destruct (cfg_set set0 _) as [rc [o f]]. destruct (close_out _ _ _) as [rc' o'].
        inv_ok. eauto.
      + destruct (close_out _ _ _) as [rc' o']. inv_ok. eauto. }
  unfold yaml_load_desired_set in E. inv_ok. apply load_set_ok in E as [Hn Ho].
  split; [by destruct set; [cbn in Hn; lia|]|done].
Qed.

Lemma load_desired_set_supported cfg w set :
  load_desired_set cfg w = Ok set -> set <> [] /\ Forall supported set.
Proof.
  intros [Hne Ho]%load_desired_set_ok. split; [done|].
  eapply Forall_impl; [exact Ho|]. intros ds Hds. apply Hds.
Qed.

(** The plan of a state against a snapshot. *)
Definition plan_of (rs : real_state) (ds : desired_state) (p : list event) : Prop :=
  Forall (fun e => is_plan e = true) p /\ acts p <= 6 * misses p /\
  (misses p = 0 <-> satisfied ds rs) /\
  forall apply w, verify_state ds rs apply w =
    let s := run_plan p (Vst _ apply false [] w) in
    (Z.of_nat (misses p), Some (v_act_fail s), v_out s, v_world s).

Lemma set_plans set rs :
  Forall supported set -> exists ps, Forall2 (plan_of rs) set ps.
Proof.
  induction 1 as [|ds set Hd _ [ps IH]]; [by exists []|].
  destruct (verify_state_plan ds rs Hd) as (p & Hp). exists (p :: ps). by constructor.
Qed.

Lemma plans_satisfied set rs ps :
  Forall2 (plan_of rs) set ps -> misses (concat ps) = 0 <-> all_satisfied set rs.
Proof.
  unfold all_satisfied. induction 1 as [|ds p set ps Hp _ IH]; cbn [concat]; [done|].
  rewrite misses_app, Forall_cons, <- IH, <- (proj1 (proj2 (proj2 Hp))). lia.
Qed.

Lemma plans_acts set rs ps :
  Forall2 (plan_of rs) set ps -> acts (concat ps) <= 6 * misses (concat ps).
Proof.
  induction 1 as [|ds p set ps Hp _ IH]; cbn [concat]; [cbn; lia|].
  rewrite misses_app, acts_app. destruct Hp as (_ & Ha & _). lia.
Qed.

Lemma plans_plan set rs ps :
  Forall2 (plan_of rs) set ps -> Forall (fun e => is_plan e = true) (concat ps).
Proof.
  induction 1 as [|ds p set ps Hp _ IH]; cbn [concat]; [done|].
  apply Forall_app. split; [apply Hp|done].
Qed.

(** A dry run of the loop prints the plans. *)
Lemma verify_loop_dry set rs ps af d s :
  Forall2 (plan_of rs) set ps -> (0 <= d)%Z ->
  verify_loop set rs false af d s =
    ((d + Z.of_nat (misses (concat ps)))%Z, bool_decide (set = []) && af,
     s <| r_out ::= (fun l => l ++ map RLine (concat ps)) |>).
Proof.
  intros Hp. revert af d s. induction Hp as [|ds p set ps Hp Hs IH]; intros af d s Hd.
  { cbn. rewrite Z.add_0_r. destruct s. cbn. by rewrite app_nil_r. }
  destruct Hp as (P & _ & _ & E). cbn [verify_loop concat]. rewrite E, run_plan_dry by done.
  cbn [v_act_fail v_out v_world set_field]. rewrite (proj2 (Z.ltb_ge _ _)) by lia.
  cbn. rewrite IH by lia. rewrite misses_app, Nat2Z.inj_add, Z.add_assoc, andb_false_r.
  destruct s. cbn. by rewrite map_app, app_assoc.
Qed.

Lemma exec_plan_app p q w :
  exec_plan (p ++ q) w =
  let '(o1, f1, w) := exec_plan p w in
  let '(o2, f2, w) := exec_plan q w in (o1 ++ o2, f1 || f2, w).
Proof.
  revert w. induction p as [|e p IH]; intros w; cbn [app exec_plan].
  { by destruct (exec_plan q w) as [[? ?] ?]. }
  destruct e; rewrite ?IH; try (destruct (exec_plan p w) as [[? ?] w1];
    by destruct (exec_plan q w1) as [[? ?] ?]).
  destruct (starts_hash cmd).
  - destruct (exec_plan p w) as [[? ?] w1].
    by destruct (exec_plan q w1) as [[? ?] ?].
  - destruct (cmd_exec cmd w) as [rc w0]. rewrite IH.
    destruct (exec_plan p w0) as [[? ?] w1]. destruct (exec_plan q w1) as [[? ?] ?].
    by rewrite orb_assoc.
Qed.

(** A plan without commands does nothing. *)
Lemma exec_plan_idle p w : acts p = 0 -> exec_plan p w = (p, false, w).
Proof.
  revert w. induction p as [|e p IH]; intros w Ha; [done|].
  rewrite acts_cons in Ha. destruct e; cbn in Ha; try lia; cbn [exec_plan];
    by rewrite IH.
Qed.

(** With [--apply] the loop executes the plans, and goes on with the rest. *)
Lemma verify_loop_apply_app set rest rs ps af d s :
  Forall2 (plan_of rs) set ps -> (0 <= d)%Z ->
  let '(out, fail, w) := exec_plan (concat ps) (r_world s) in
  exists af', verify_loop (set ++ rest) rs true af d s =
    verify_loop rest rs true af' (d + Z.of_nat (misses (concat ps)))
      (s <| r_world := w |> <| r_out ::= (fun l => l ++ map RLine out) |>) /\
  (fail || af = false -> af' = false).
Proof.
  intros Hp. revert af d s. induction Hp as [|ds p set ps Hp Hs IH]; intros af d s Hd.
  { cbn. exists af. rewrite Z.add_0_r. destruct s. cbn. by rewrite app_nil_r. }
  destruct Hp as (P & _ & _ & E). cbn [verify_loop concat app]. rewrite exec_plan_app, E.
  pose proof (run_plan_apply p (Vst _ true false [] (r_world s)) eq_refl P) as R.
  cbn [v_world v_act_fail v_out orb app] in R.
  destruct (exec_plan p (r_world s)) as [[o1 f1] w1]. rewrite R.
  cbn [v_act_fail v_out v_world]. rewrite (proj2 (Z.ltb_ge _ _)) by lia.
  specialize (IH f1 (d + Z.of_nat (misses p))%Z
    (s <| r_world := w1 |> <| r_out ::= (fun l => l ++ map RLine o1) |>) ltac:(lia)).
  cbn [r_world set_field rst_eta] in IH. cbn in IH.
  destruct (exec_plan (concat ps) w1) as [[o2 f2] w2]. destruct IH as (af' & EI & HI).
  exists af'. cbn. rewrite EI. split.
  - rewrite misses_app, Nat2Z.inj_add, Z.add_assoc. destruct s. cbn.
    by rewrite map_app, app_assoc.
  - intros Hf. apply HI. destruct f1, f2; done.
Qed.

Lemma verify_loop_apply set rs ps af d s :
  Forall2 (plan_of rs) set ps -> (0 <= d)%Z ->
  let '(out, fail, w) := exec_plan (concat ps) (r_world s) in
  exists af', verify_loop set rs true af d s =
    ((d + Z.of_nat (misses (concat ps)))%Z, af',
     s <| r_world := w |> <| r_out ::= (fun l => l ++ map RLine out) |>) /\
  (fail || af = false -> af' = false).
Proof.
  intros Hp Hd. pose proof (verify_loop_apply_app set [] rs ps af d s Hp Hd) as V.
  by rewrite app_nil_r in V.
Qed.

(** The failure it reports is that of the last plan. *)
Lemma verify_loop_last set ds rs ps p d s :
  Forall2 (plan_of rs) set ps -> plan_of rs ds p -> (0 <= d)%Z ->
  let '(o1, _, w1) := exec_plan (concat ps) (r_world s) in
  let '(o2, fail, w2) := exec_plan p w1 in
  verify_loop (set ++ [ds]) rs true false d s =
    ((d + Z.of_nat (misses (concat ps) + misses p))%Z, fail,
     s <| r_world := w2 |> <| r_out ::= (fun l => l ++ map RLine (o1 ++ o2)) |>).
Proof.
  intros Hps (P & _ & _ & E) Hd.
  pose proof (verify_loop_apply_app set [ds] rs ps false d s Hps Hd) as V.
  destruct (exec_plan (concat ps) (r_world s)) as [[o1 f1] w1]. destruct V as (af & -> & _).
  cbn [verify_loop]. rewrite E.
  pose proof (run_plan_apply p (Vst _ true false [] w1) eq_refl P) as R.
  cbn [v_world v_act_fail v_out orb app] in R.
  change (r_world (_ <| r_out ::= _ |>)) with w1.
  destruct (exec_plan p w1) as [[o2 f2] w2]. rewrite R.
  cbn [v_act_fail v_out v_world]. rewrite (proj2 (Z.ltb_ge _ _)) by lia.
  destruct s. cbn. do 2 f_equal; [lia|]. by rewrite map_app, app_assoc.
Qed.

(** *** Snapshots *)

Lemma load_real_inv s rc rs s' :
  load_real s = Done (rc, rs, s') ->
  s' = s <| r_msg := r_msg s' |> /\ (rc = 0%Z -> observes (r_world s) rs).
Proof.
  intros E. assert (Hs : s' = s <| r_msg := r_msg s' |>).
  { unfold load_real in E. destruct (nl_load_state _ _) as [[rc0 n]| |]; [|done..].
    cbn [mbind outcome_bind] in E. destruct (negb _); [by injection E as <- <- <-|].
    destruct (rs_load_resolv_conf _ _); by injection E as <- <- <-. }
  split; [done|]. intros ->. exists (r_msg s), (r_out s), (r_msg s').
  destruct s as [w msg out]. cbn [r_world r_msg r_out]. rewrite E. by do 2 f_equal.
Qed.

(** *** Lock traces *)

Lemma lock_trace_app held tr1 tr2 :
  lock_trace held (tr1 ++ tr2) = lock_trace held tr1 ≫= fun h => lock_trace h tr2.
Proof.
  revert held. induction tr1 as [|e tr1 IH]; intros held; [done|]. cbn [app lock_trace].
  destruct e; try (destruct held; [done|apply IH]); try (destruct held; [apply IH|done]);
    by destruct (_ && _).
Qed.

(** Lines may be printed at any time, reports of commands under the lock. *)
Lemma lock_trace_lines held out :
  held = true \/ Forall (fun e => is_plan e = true) out ->
  lock_trace held (map RLine out) = Some held.
Proof.
  intros [->|Ho].
  - induction out as [|e out IH]; [done|]. cbn [map lock_trace]. by rewrite andb_false_r.
  - induction Ho as [|e out He Ho IH]; [done|]. cbn [map lock_trace].
    by destruct e.
Qed.

(** *** One verification of the set *)

(** It fails to take the snapshot, or it executes the plans of the set. *)
Lemma run_verify_set_inv set apply af s diff af' s' :
  set <> [] -> Forall supported set ->
  run_verify_set set apply af s = Done (diff, af', s') ->
  (diff <> 0%Z /\ af' = af /\ s' = s <| r_msg := r_msg s' |>) \/
  exists rs ps out w,
    observes (r_world s) rs /\ Forall2 (plan_of rs) set ps /\
    diff = Z.of_nat (misses (concat ps)) /\
    s' = Rst _ w (r_msg s') (r_out s ++ map RLine out) /\
    if apply then exec_plan (concat ps) (r_world s) =
                    (out, snd (fst (exec_plan (concat ps) (r_world s))), w)
    else out = concat ps /\ w = r_world s /\ af' = false.
Proof.
  intros Hne Hsup E. unfold run_verify_set in E.
  destruct (load_real s) as [[[rc rs] s1]| |] eqn:El; [|done..].
  cbn [mbind outcome_bind] in E. apply load_real_inv in El as [Hs Ho].
  destruct (Z.eqb_spec rc 0) as [->|Hrc]; cbn [negb] in E.
  2: { left. by injection E as <- <- <-. }
  right. destruct (set_plans set rs Hsup) as [ps Hp]. injection E as E.
  destruct apply.
  - pose proof (verify_loop_apply set rs ps false 0 s1 Hp ltac:(lia)) as V.
    assert (r_world s1 = r_world s) as Hw by (rewrite Hs; by destruct s).
    rewrite Hw in V. destruct (exec_plan (concat ps) (r_world s)) as [[out fail] w] eqn:Ex.
    destruct V as (a & V & _). rewrite V in E. injection E as <- <- <-.
    exists rs, ps, out, w. split_and!; [by apply Ho|done|done| |].
    + rewrite Hs. by destruct s.
    + by rewrite Ex.
  - rewrite (verify_loop_dry set rs ps) in E by (done || lia). injection E as <- <- <-.
    exists rs, ps, (concat ps), (r_world s). split_and!; [by apply Ho|done|done| |done|done|].
    + rewrite Hs. by destruct s.
    + by rewrite bool_decide_false.
Qed.

Lemma run_verify_set_zero set apply s af' s' :
  set <> [] -> Forall supported set ->
  run_verify_set set apply false s = Done (0%Z, af', s') ->
  exists rs, observes (r_world s') rs /\ all_satisfied set rs /\ r_world s' = r_world s.
Proof.
  intros Hne Hsup E.
  destruct (run_verify_set_inv _ _ _ _ _ _ _ Hne Hsup E)
    as [[? _]|(rs & ps & out & w & Ho & Hp & Hd & Hs & Hx)]; [done|].
  assert (Hm : misses (concat ps) = 0) by lia.
  assert (Hw : r_world s' = r_world s).
  { rewrite Hs. destruct apply; [|cbn; by destruct Hx as (_ & -> & _)].
    pose proof (plans_acts set rs ps Hp).
    rewrite exec_plan_idle in Hx by lia. cbn. by injection Hx. }
  exists rs. rewrite Hw. split_and!; [done| |done]. by apply (plans_satisfied set rs ps).
Qed.

Lemma observes_lock w rs (s : rst) fd :
  r_world s = w -> observes w rs -> observes (r_world (close_lock fd s)) rs.
Proof. intros <- Ho. unfold close_lock. by destruct (0 <=? fd)%Z. Qed.

Lemma run_locked_sound set apply fd s s' :
  set <> [] -> Forall supported set ->
  run_locked set apply fd s = Done (0%Z, s') ->
  exists rs, observes (r_world s') rs /\ all_satisfied set rs.
Proof.
  intros Hne Hsup E. unfold run_locked in E.
  destruct (run_verify_set set apply false s) as [[[diff af] s1]| |] eqn:E1; [|done..].
  cbn [mbind outcome_bind] in E.
  assert (Hzero : forall s0 a s2, run_verify_set set a false s0 = Done (0%Z, af, s2) ->
    s' = close_lock fd s2 -> exists rs, observes (r_world s') rs /\ all_satisfied set rs).
  { intros s0 a s2 E2 ->. apply run_verify_set_zero in E2 as (rs & Ho & Ha & _); [|done..].
    exists rs. split; [by eapply observes_lock|done]. }
  destruct apply; cbn [negb] in E.
  - destruct (_ || _) eqn:Ef.
    { destruct (Z.ltb_spec diff 0); injection E as E; [lia|done]. }
    destruct (Z.eqb_spec diff 0) as [->|Hd]; [injection E as <-; by eapply Hzero|].
    destruct (run_verify_set set false af _) as [[[diff2 af2] s2]| |] eqn:E2; [|done..].
    cbn [mbind outcome_bind] in E. apply orb_false_iff in Ef as [Ef ->].
    destruct (Z.ltb_spec diff2 0); [injection E as E; lia|].
    destruct (Z.eqb_spec diff2 0) as [->|]; [|done]. cbn [negb orb] in E.
    destruct af2; [done|]. injection E as <-. by eapply Hzero.
  - destruct (Z.gtb_spec diff 0); injection E as E; [done|]. subst. by eapply Hzero.
Qed.

Lemma run_once_sound cfg s s' set :
  netrec_run_once cfg s = Done (0%Z, s') ->
  load_desired_set cfg (r_world s) = Ok set ->
  exists rs, observes (r_world s') rs /\ all_satisfied set rs.
Proof.
  intros E El. unfold netrec_run_once in E. rewrite El in E.
  destruct (load_desired_set_supported _ _ _ El) as [Hne Hsup].
  destruct (run_apply cfg); [|by eapply run_locked_sound].
  destruct (apply_lock s) as [fd s1]. destruct (Z.ltb_spec fd 0) as [Hl|Hl].
  - injection E as E. lia.
  - by eapply run_locked_sound.
Qed.

(** Nothing but lines of a plan is printed. *)
Definition only_plan (tr : list revent) : Prop :=
  exists lines, tr = map RLine lines /\ Forall (fun e => is_plan e = true) lines.

(** What one verification adds to the trace. *)
Lemma run_verify_set_trace set apply af s diff af' s' held :
  set <> [] -> Forall supported set -> (apply = true -> held = true) ->
  run_verify_set set apply af s = Done (diff, af', s') ->
  exists tr, r_out s' = r_out s ++ tr /\ lock_trace held tr = Some held /\
    (apply = false -> only_plan tr /\ r_world s' = r_world s).
Proof.
  intros Hne Hsup Hh E.
  destruct (run_verify_set_inv _ _ _ _ _ _ _ Hne Hsup E)
    as [(_ & _ & Hs)|(rs & ps & out & w & _ & Hp & _ & Hs & Hx)].
  { exists []. rewrite Hs. destruct s. cbn. rewrite app_nil_r. split_and!; [done..|].
    intros _. split; [by exists []|done]. }
  pose proof (plans_plan _ _ _ Hp) as Hl.
  exists (map RLine out). split; [by rewrite Hs|]. split.
  - apply lock_trace_lines. destruct apply; [by left; apply Hh|right].
    by destruct Hx as (-> & _).
  - intros ->. destruct Hx as (-> & -> & _). rewrite Hs. split; [by exists (concat ps)|done].
Qed.

Lemma run_locked_trace set apply fd s rc s' :
  set <> [] -> Forall supported set -> (0 <=? fd)%Z = apply ->
  run_locked set apply fd s = Done (rc, s') ->
  exists tr, r_out s' = r_out s ++ tr /\ lock_trace apply tr = Some false /\
    (apply = false -> only_plan tr /\ r_world s' = r_world s).
Proof.
  intros Hne Hsup Hfd E. unfold run_locked, close_lock in E. rewrite Hfd in E.
  destruct (run_verify_set set apply false s) as [[[diff af] s1]| |] eqn:E1; [|done..].
  cbn [mbind outcome_bind] in E.
  destruct (run_verify_set_trace _ _ _ _ _ _ _ apply Hne Hsup (fun e => e) E1)
    as (tr1 & T1 & L1 & W1).
  destruct apply; cbn [negb] in E.
  2: { injection E as _ <-. exists tr1. by split_and!. }
  assert (Hend : forall s2, s' = log RUnlock s2 -> (exists tr, r_out s2 = r_out s ++ tr /\
      lock_trace true tr = Some true) ->
    exists tr, r_out s' = r_out s ++ tr /\ lock_trace true tr = Some false /\
      (true = false -> only_plan tr /\ r_world s' = r_world s)).
  { intros s2 -> (tr & T2 & L2). exists (tr ++ [RUnlock]). split_and!; [|by rewrite lock_trace_app, L2|done].
    unfold log. cbn. rewrite T2. by rewrite app_assoc. }
  destruct (_ || _).
  { apply (Hend s1); [by injection E|eauto]. }
  destruct (diff =? 0)%Z; [apply (Hend s1); [by injection E|eauto]|].
  destruct (run_verify_set set false af _) as [[[diff2 af2] s2]| |] eqn:E2; [|done..].
  cbn [mbind outcome_bind] in E.
  destruct (run_verify_set_trace _ _ _ _ _ _ _ true Hne Hsup (fun _ => eq_refl) E2)
    as (tr2 & T2 & L2 & _).
  apply (Hend s2).
  - destruct (diff2 <? 0)%Z; [by injection E|]. destruct (_ || _); by injection E.
  - exists (tr1 ++ RPost :: tr2). split.
    + rewrite T2. unfold log. cbn. rewrite T1. by rewrite <- !app_assoc.
    + rewrite lock_trace_app, L1. exact L2.
Qed.

(** ** Properties *)

(** C13: a run takes the lock at most once, releases it before it returns on
    every path, and runs commands only while it holds it; without [--apply] it
    takes no lock, prints nothing but OK, MISS and ACT lines and changes
    nothing. *)
Theorem run_lock_discipline (cfg : netrec_run_cfg) (s s' : rst) (rc : Z) :
  netrec_run_once cfg s = Done (rc, s') ->
  exists tr, r_out s' = r_out s ++ tr /\ lock_trace false tr = Some false /\
    (run_apply cfg = false -> only_plan tr /\ r_world s' = r_world s).
Proof.
  intros E. unfold netrec_run_once in E.
  destruct (load_desired_set cfg (r_world s)) as [set|e] eqn:El.
  2: { injection E as _ <-. exists []. rewrite app_nil_r. split_and!; [done..|].
       intros _. split; [by exists []|done]. }
  destruct (load_desired_set_supported _ _ _ El) as [Hne Hsup].
  destruct (run_apply cfg).
  - unfold apply_lock in E. destruct (h_lock (r_world s)) as [[u|e] []].
    + destruct (run_locked_trace set true 0 _ _ _ Hne Hsup eq_refl E) as (tr & Ho & L & _).
      exists (RLock :: tr). split_and!; [|done|done]. rewrite Ho. cbn. by rewrite <- app_assoc.
    + injection E as _ <-. exists []. by rewrite app_nil_r.
    + injection E as _ <-. exists []. by rewrite app_nil_r.
    + injection E as _ <-. exists []. by rewrite app_nil_r.
  - destruct (run_locked_trace set false (-1) _ _ _ Hne Hsup eq_refl E) as (tr & Ho & L & W).
    exists tr. split_and!; [done..|]. intros _. by apply W.
Qed.

(** C18: without [--apply], and when the configuration loads and the snapshot
    can be taken, a run returns 0 when the snapshot satisfies every desired state,
    in the sense of the code's checks ([satisfied]), and 1 when it does not, after
    printing the plan. *)
Theorem run_dry_exact (cfg : netrec_run_cfg) (s s1 : rst) (set : desired_set)
    (rs : real_state) :
  run_apply cfg = false -> load_desired_set cfg (r_world s) = Ok set ->
  load_real s = Done (0%Z, rs, s1) ->
  exists rc lines,
    netrec_run_once cfg s = Done (rc, s1 <| r_out := r_out s ++ map RLine lines |>) /\
    rc ∈ [0%Z; 1%Z] /\ (rc = 0%Z <-> all_satisfied set rs).
Proof.
  intros Ha El Er. unfold netrec_run_once. rewrite El, Ha.
  destruct (load_desired_set_supported _ _ _ El) as [Hne Hsup].
  destruct (set_plans set rs Hsup) as [ps Hp]. unfold run_locked, run_verify_set.
  rewrite Er. cbn [mbind outcome_bind]. rewrite Z.eqb_refl. cbn [negb].
  rewrite (verify_loop_dry set rs ps) by (done || lia). cbn [mbind outcome_bind mret outcome_ret].
  eexists _, (concat ps). split_and!.
  - do 2 f_equal. apply load_real_inv in Er as [-> _]. by destruct s.
  - destruct (Z.gtb_spec (0 + Z.of_nat (misses (concat ps))) 0); [set_solver|].
    assert (misses (concat ps) = 0) as -> by lia. set_solver.
  - rewrite <- (plans_satisfied set rs ps Hp).
    destruct (Z.gtb_spec (0 + Z.of_nat (misses (concat ps))) 0); lia.
Qed.

(** A run on a satisfied machine. *)
Lemma apply_idle (cfg : netrec_run_cfg) (s s1 : rst) (set : desired_set)
    (rs : real_state) :
  run_apply cfg = true -> load_desired_set cfg (r_world s) = Ok set ->
  h_lock (r_world s) = (Ok tt, true) ->
  load_real (log RLock s) = Done (0%Z, rs, s1) -> all_satisfied set rs ->
  exists lines,
    netrec_run_once cfg s = Done (0%Z, Rst _ (r_world s) (r_msg s1)
      (r_out s ++ RLock :: map (fun l => RLine (EvOk l)) lines ++ [RUnlock])).
Proof.
  intros Ha El Hk Er Hsat. unfold netrec_run_once, apply_lock. rewrite El, Ha, Hk.
  destruct (load_desired_set_supported _ _ _ El) as [Hne Hsup].
  destruct (set_plans set rs Hsup) as [ps Hp]. unfold run_locked, run_verify_set.
  cbn [Z.ltb Z.compare]. rewrite Er. cbn [mbind outcome_bind Z.eqb negb].
  pose proof (verify_loop_apply set rs ps false 0 s1 Hp ltac:(lia)) as V.
  pose proof (proj2 (plans_satisfied set rs ps Hp) Hsat) as Hm.
  pose proof (plans_acts set rs ps Hp) as Hacts.
  rewrite exec_plan_idle in V by lia. destruct V as (af & V & Haf). rewrite V, Hm.
  rewrite (Haf eq_refl). cbn [mbind outcome_bind mret outcome_ret Z.ltb Z.eqb orb].
  assert (exists lines, map RLine (concat ps) = map (fun l => RLine (EvOk l)) lines)
    as [lines ->].
  { pose proof (plans_plan _ _ _ Hp) as Hl. assert (Ha0 : acts (concat ps) = 0) by lia.
    revert Hl Hm Ha0. generalize (concat ps). induction l as [|e l IH]; intros Hl Hm Ha0.
    { by exists []. }
    apply Forall_cons in Hl as [He Hl]. rewrite misses_cons in Hm. rewrite acts_cons in Ha0.
    destruct IH as [lines IH]; [done|lia|lia|].
    destruct e as [l0| | | |]; cbn in Hm, Ha0; try lia; [|done..].
    exists (l0 :: lines). cbn. by rewrite IH. }
  exists lines. do 2 f_equal. apply load_real_inv in Er as [Hs _].
  destruct s, s1. cbn in Hs |- *. injection Hs as -> ->. unfold log. cbn.
  by rewrite <- !app_assoc.
Qed.

(** C19: a run with [--apply] that loads its configuration, gets the lock and
    takes its snapshot on a machine that satisfies every desired state, in the
    sense of the code's checks ([satisfied]), runs no command: it returns 0, prints only OK lines between taking and
    releasing the lock, and does not verify a second time. *)
Theorem run_apply_idle (cfg : netrec_run_cfg) (s s1 : rst) (set : desired_set)
    (rs : real_state) :
  run_apply cfg = true -> load_desired_set cfg (r_world s) = Ok set ->
  h_lock (r_world s) = (Ok tt, true) ->
  load_real (log RLock s) = Done (0%Z, rs, s1) -> all_satisfied set rs ->
  exists lines,
    netrec_run_once cfg s = Done (0%Z, Rst _ (r_world s) (r_msg s1)
      (r_out s ++ RLock :: map (fun l => RLine (EvOk l)) lines ++ [RUnlock])).
Proof. apply apply_idle. Qed.

(** A verification without [--apply] counts the differences. *)
Lemma run_verify_set_dry set rs af s s1 :
  set <> [] -> Forall supported set -> load_real s = Done (0%Z, rs, s1) ->
  exists n lines,
    run_verify_set set false af s =
      Done (Z.of_nat n, false, s1 <| r_out ::= (fun l => l ++ map RLine lines) |>) /\
    (n = 0 <-> all_satisfied set rs).
Proof.
  intros Hne Hsup Er. destruct (set_plans set rs Hsup) as [ps Hp].
  exists (misses (concat ps)), (concat ps). split; [|by apply plans_satisfied].
  unfold run_verify_set. rewrite Er. cbn [mbind outcome_bind Z.eqb negb].
  rewrite (verify_loop_dry set rs ps) by (done || lia). by rewrite andb_false_r.
Qed.

(** The lines a dry run prints for a state. *)
Definition dry_plan (rs : real_state) (w : world) (ds : desired_state) : list event :=
  snd (fst (verify_state ds rs false w)).

Lemma dry_plan_of rs w ds p : plan_of rs ds p -> dry_plan rs w ds = p.
Proof.
  intros (P & _ & _ & E). unfold dry_plan. rewrite E, run_plan_dry by done. done.
Qed.

Lemma dry_plans_of rs w set ps :
  Forall2 (plan_of rs) set ps -> map (dry_plan rs w) set = ps.
Proof.
  induction 1 as [|ds p set ps Hp _ IH]; [done|]. cbn. by rewrite IH, (dry_plan_of _ _ _ p).
Qed.

(** C22: the exact status of a run with [--apply] that finds differences: it is
    1 when a command of the LAST state fails; otherwise the machine is verified
    a second time and the status is 0 or 1 as that snapshot satisfies every
    state or not.  Commands of the other states may have failed or not
    ([fail1] does not matter), although their failures are printed. *)
Theorem run_apply_status (cfg : netrec_run_cfg) (s s1 : rst) (pre : desired_set)
    (ds : desired_state) (rs : real_state) :
  run_apply cfg = true -> load_desired_set cfg (r_world s) = Ok (pre ++ [ds]) ->
  h_lock (r_world s) = (Ok tt, true) ->
  load_real (log RLock s) = Done (0%Z, rs, s1) -> ~ all_satisfied (pre ++ [ds]) rs ->
  let plan := dry_plan rs (r_world s) in
  let '(out1, fail1, w1) := exec_plan (concat (map plan pre)) (r_world s) in
  let '(out2, fail2, w2) := exec_plan (plan ds) w1 in
  let s2 := Rst _ w2 (r_msg s1) (r_out s ++ RLock :: map RLine (out1 ++ out2)) in
  (fail2 = true -> netrec_run_once cfg s = Done (1%Z, log RUnlock s2)) /\
  (fail2 = false -> forall rs' s3, load_real (log RPost s2) = Done (0%Z, rs', s3) ->
   exists rc lines,
     netrec_run_once cfg s =
       Done (rc, log RUnlock (s3 <| r_out ::= (fun l => l ++ map RLine lines) |>)) /\
     rc ∈ [0%Z; 1%Z] /\ (rc = 0%Z <-> all_satisfied (pre ++ [ds]) rs')).
Proof.
  intros Ha El Hk Er Hsat plan.
  destruct (load_desired_set_supported _ _ _ El) as [Hne Hsup].
  pose proof (set_plans _ rs Hsup) as [ps0 Hp0].
  pose proof (plans_satisfied _ _ _ Hp0) as Hm.
  apply Forall2_app_inv_l in Hp0 as (ps & [|p [|]] & Hp & Hpl & ->);
    [by apply Forall2_length in Hpl| |by apply Forall2_length in Hpl].
  apply Forall2_cons in Hpl as [Hpl _].
  unfold plan. rewrite (dry_plans_of _ _ _ _ Hp), (dry_plan_of _ _ _ _ Hpl).
  pose proof (load_real_inv _ _ _ _ Er) as [Hs1 _].
  assert (Hw : r_world s1 = r_world s) by (rewrite Hs1; by destruct s).
  pose proof (verify_loop_last pre ds rs ps p 0 s1 Hp Hpl ltac:(lia)) as V. rewrite Hw in V.
  destruct (exec_plan (concat ps) (r_world s)) as [[o1 f1] w1].
  destruct (exec_plan p w1) as [[o2 f2] w2]. cbn zeta.
  assert (Hmiss : misses (concat ps) + misses p <> 0).
  { rewrite concat_app, misses_app in Hm. cbn [concat] in Hm.
    rewrite app_nil_r in Hm. intros E0. by apply Hsat, Hm. }
  set (s2 := Rst _ w2 _ _).
  assert (E1 : run_verify_set (pre ++ [ds]) true false (log RLock s) =
    Done (Z.of_nat (misses (concat ps) + misses p), f2, s2)).
  { unfold run_verify_set. rewrite Er. cbn [mbind outcome_bind Z.eqb negb]. rewrite V.
    unfold s2. rewrite Hs1. destruct s. cbn. by rewrite <- app_assoc. }
  clearbody s2. clear V Er Hs1 Hw.
  unfold netrec_run_once, apply_lock. rewrite El, Ha, Hk. cbn [Z.ltb Z.compare].
  unfold run_locked. rewrite E1. cbn [mbind outcome_bind negb].
  rewrite (proj2 (Z.ltb_ge _ _)), (proj2 (Z.eqb_neq _ 0)) by lia. cbn [orb].
  split; [by intros ->|]. intros -> rs' s3 E3.
  destruct (run_verify_set_dry _ rs' false (log RPost s2) s3 Hne Hsup E3)
    as (n & lines & -> & Hn). cbn [mbind outcome_bind].
  rewrite (proj2 (Z.ltb_ge _ _)) by lia. rewrite orb_false_r.
  destruct (Z.eqb_spec (Z.of_nat n) 0) as [Hz|Hz]; cbn [negb]; eexists _, lines;
    (split_and!; [reflexivity|set_solver|]); rewrite <- Hn; lia.
Qed.

(** The nameservers a snapshot takes from resolv.conf. *)
Definition resolv_dns (w : world) : list Z :=
  match h_resolv w with Some bytes => dns_read bytes | None => [] end.

(** The snapshot of a machine whose kernel has the tables [k]. *)
Lemma observes_kernel w rs k :
  observes w rs -> serves (h_netlink w) k -> within (snapshot k) ->
  rs = (snapshot k) <| rs_dns4 := resolv_dns w |>.
Proof.
  intros (msg & out & msg' & E) Hk Hw. unfold load_real in E. cbn [r_world r_msg] in E.
  rewrite (load_exact _ k) in E by done. cbn [mbind outcome_bind] in E.
  rewrite Z.eqb_refl in E. cbn [negb] in E. unfold resolv_dns.
  change (r_world (_ <| r_msg := _ |>)) with w in E.
  destruct (h_resolv w) as [bytes|]; [|by injection E as <-].
  rewrite rs_load_resolv_spec in E. destruct (_ <=? _); [by injection E as <-|done].
Qed.

(** C1: the end-to-end guarantee: when a run returns 0 and the kernel answers
    the snapshot requests with its tables, the kernel's own interfaces,
    addresses, routes, VXLANs and VLANs, with the nameservers of resolv.conf,
    satisfy every desired state of the configuration. *)
Theorem run_zero_kernel (cfg : netrec_run_cfg) (s s' : rst) (set : desired_set)
    (k : kernel) :
  load_desired_set cfg (r_world s) = Ok set ->
  netrec_run_once cfg s = Done (0%Z, s') ->
  serves (h_netlink (r_world s')) k -> within (snapshot k) ->
  all_satisfied set ((snapshot k) <| rs_dns4 := resolv_dns (r_world s') |>).
Proof.
  intros El E Hk Hw. destruct (run_once_sound cfg s s' set E El) as (rs & Ho & Hs).
  by rewrite (observes_kernel _ _ _ Ho Hk Hw) in Hs.
Qed.

End Run.

(** ** A machine *)

(** Two interfaces that are down until two commands have run; the command for
    eth0 reports a failure. *)
Definition two_links : Sys := {|
  world := nat;
  spawn := fun argv n =>
    (Waited 0 (inr (Exited (if bool_decide (argv !! 3 = Some (#"eth0")) then 1%Z else 0%Z))), S n)
|}.

Definition two_kernel (n : nat) : kernel :=
  let flags := if 2 <=? n then 1%Z else 0%Z in
  {| k_links := [KLink 2 flags (#"eth0") None None None None;
                 KLink 3 flags (#"eth1") None None None None];
     k_addrs := []; k_routes := [] |}.

Definition two_msgs (n : nat) : list kmsg :=
  map (fun k => link_msg (kl_index k) (kl_flags k) [KAttr 3 (kl_name k ++ [NUL])])
    (k_links (two_kernel n)).

Definition one_dgram (ms : list kmsg) (seq : Z) : list rcv :=
  [RcvData (enc_msgs ms ++ enc_msg (done_msg seq) ++ [])].

Definition two_conv (n : nat) : conv := {|
  c_socket := Ok tt;
  c_bind := Ok tt;
  c_request := fun req =>
    match rd16 req 4 with
    | Done 18%Z => (Ok 17%Z, one_dgram (two_msgs n) 1)
    | Done 22%Z => (Ok 24%Z, one_dgram [] 2)
    | _ => (Ok 28%Z, one_dgram [] 3)
    end
|}.

(** The configuration of the two uplinks, in either order. *)
Definition two_text (a b : string) : list ascii :=
  #"state.a.scenario = only_uplink
state.a.uplink.ifname = " ++ lit a ++ #"
state.b.scenario = only_uplink
state.b.uplink.ifname = " ++ lit b ++ [LF].

Definition two_fs : machine := {|
  fopen_r := fun path =>
    Ok (if streq path (#"a") then two_text "eth0" "eth1" else two_text "eth1" "eth0");
  popen_r := fun _ => Capture (Ok tt) (Ok tt) [] [] [] (inr (Exited 0))
|}.

Definition two_host : @Host two_links :=
  @Build_Host two_links (fun _ => two_fs)
    (fun _ => TmpEnv (Ok tt) (Ok tt) (Ok tt) EIO []) (fun _ => []) (fun _ => None)
    two_conv (fun _ => (Ok tt, true)).

Definition two_cfg (path : cstr) (apply : bool) : netrec_run_cfg :=
  RunCfg (Some path) (#"yaml") None None None apply.

Definition two_run (path : cstr) (apply : bool) (n : nat) :=
  @netrec_run_once glibc linux_uapi two_links two_host (two_cfg path apply)
    (@Rst two_links n [] []).

(** The same two states on the same machine give 0 in one order, although a
    failed command was printed, and 1 in the other. *)
Example run_act_fail_lost :
  (exists s, two_run (#"a") true 0 = Done (0%Z, s) /\
     RLine (EvApplyFail 1 (#"ip link set eth0 up")) ∈ r_out s) /\
  (exists s, two_run (#"b") true 0 = Done (1%Z, s) /\
     RLine (EvApplyFail 1 (#"ip link set eth0 up")) ∈ r_out s).
Proof.
  split; (eexists; split; [vm_compute; reflexivity|]); cbn [r_out]; set_solver.
Qed.

Definition two_set (a b : cstr) : desired_set :=
  [ds_zero <| scenario := #"only_uplink" |> <| up_ifname := a |>;
   ds_zero <| scenario := #"only_uplink" |> <| up_ifname := b |>].

Definition two_start (n : nat) : @rst two_links := @Rst two_links n [] [].

(** The state after the first of the two runs. *)
Definition two_end : @rst two_links :=
  @Rst two_links 2 []
    [RLock;
     RLine (EvOk (#"uplink eth0 exists"));
     RLine (EvMiss (#"iface eth0 up"));
     RLine (EvAct (#"ip link set eth0 up"));
     RLine (EvApplyFail 1 (#"ip link set eth0 up"));
     RLine (EvOk (#"uplink eth1 exists"));
     RLine (EvMiss (#"iface eth1 up"));
     RLine (EvAct (#"ip link set eth1 up"));
     RLine (EvApplyOk (#"ip link set eth1 up"));
     RPost;
     RLine (EvOk (#"uplink eth0 exists"));
     RLine (EvOk (#"iface eth0 up"));
     RLine (EvOk (#"uplink eth1 exists"));
     RLine (EvOk (#"iface eth1 up"));
     RUnlock].

Example two_run_a :
  @netrec_run_once glibc linux_uapi two_links two_host (two_cfg (#"a") true) (two_start 0) =
  Done (0%Z, two_end).
Proof. vm_compute. reflexivity. Qed.

Lemma run_lock_discipline_witness :
  exists tr, r_out two_end = tr /\ lock_trace false tr = Some false.
Proof.
  destruct (@run_lock_discipline glibc linux_uapi two_links two_host
    (two_cfg (#"a") true) (two_start 0) two_end 0) as (tr & E & L & _).
  - exact two_run_a.
  - exists tr. split; [exact E|exact L].
Defined.

Lemma run_dry_exact_witness :
  exists rc lines,
    @netrec_run_once glibc linux_uapi two_links two_host (two_cfg (#"a") false) (two_start 0) =
      Done (rc, (two_start 0) <| r_out := map RLine lines |>) /\ rc ∈ [0%Z; 1%Z].
Proof.
  destruct (@run_dry_exact glibc linux_uapi two_links two_host (two_cfg (#"a") false)
    (two_start 0) (two_start 0) (two_set (#"eth0") (#"eth1")) (snapshot (two_kernel 0)))
    as (rc & lines & E & R & _).
  - reflexivity.
  - vm_compute. reflexivity.
  - vm_compute. reflexivity.
  - exists rc, lines. split; [exact E|exact R].
Defined.

Lemma two_satisfied : @all_satisfied glibc (two_set (#"eth0") (#"eth1")) (snapshot (two_kernel 2)).
Proof.
  constructor; [|constructor; [|constructor]]; (split; [|constructor]); left;
    (split; [compute_decide|]); eexists; (split; [vm_compute; reflexivity|reflexivity]).
Qed.

Lemma two_unsatisfied : ~ @all_satisfied glibc (two_set (#"eth0") (#"eth1")) (snapshot (two_kernel 0)).
Proof.
  intros H. apply Forall_cons in H as [H _].
  apply (@verify_state_exact glibc two_links _ _ false 0) in H. by vm_compute in H.
Qed.

Lemma run_apply_idle_witness :
  exists lines,
    @netrec_run_once glibc linux_uapi two_links two_host (two_cfg (#"a") true) (two_start 2) =
    Done (0%Z, @Rst two_links 2 []
      (RLock :: map (fun l => RLine (EvOk l)) lines ++ [RUnlock])).
Proof.
  apply (@run_apply_idle glibc linux_uapi two_links two_host (two_cfg (#"a") true)
    (two_start 2) (@Rst two_links 2 [] [RLock]) (two_set (#"eth0") (#"eth1"))
    (snapshot (two_kernel 2))).
  - reflexivity.
  - vm_compute. reflexivity.
  - reflexivity.
  - vm_compute. reflexivity.
  - exact two_satisfied.
Defined.

(** The command of the first state fails, that of the last one does not, and
    the run returns 0. *)
Lemma run_apply_status_witness :
  exists rc s', two_run (#"a") true 0 = Done (rc, s') /\ rc ∈ [0%Z; 1%Z] /\
    (rc = 0%Z <-> @all_satisfied glibc (two_set (#"eth0") (#"eth1")) (snapshot (two_kernel 2))).
Proof.
  destruct (@run_apply_status glibc linux_uapi two_links two_host (two_cfg (#"a") true)
    (two_start 0) (@Rst two_links 0 [] [RLock])
    [ds_zero <| scenario := #"only_uplink" |> <| up_ifname := #"eth0" |>]
    (ds_zero <| scenario := #"only_uplink" |> <| up_ifname := #"eth1" |>)
    (snapshot (two_kernel 0))) as [_ Hok].
  - reflexivity.
  - vm_compute. reflexivity.
  - reflexivity.
  - vm_compute. reflexivity.
  - exact two_unsatisfied.
  - destruct (Hok eq_refl (snapshot (two_kernel 2))
      (@Rst two_links 2 [] (take 10 (r_out two_end)))) as (rc & lines & E & R & I).
    + vm_compute. reflexivity.
    + eexists _, _. split; [exact E|]. split; [exact R|exact I].
Defined.

Lemma two_answer {K} type (body : list ascii -> K -> Prop) seq ms ks :
  (0 <= seq < 100)%Z -> part type body seq ms ks -> Forall msg_ok ms ->
  length (enc_msgs ms) <= 1000 -> answer type body seq ks (one_dgram ms seq).
Proof.
  intros Hs Hp Ho Hl.
  assert (1020 <= RECV_SZ) by (apply Nat2Z.inj_le; by vm_compute).
  apply answer_last; [done|done| |done..|].
  - split_and!; [by vm_compute| |by vm_compute]. unfold is_u32, UINT32_MAX. cbn. lia.
  - rewrite !length_app. change (length (enc_msg (done_msg seq))) with 20. cbn [length]. lia.
Qed.

Lemma two_serves : serves (two_conv 2) (two_kernel 2).
Proof.
  constructor; [done..| | |].
  - exists (one_dgram (two_msgs 2) 1). split; [vm_compute; reflexivity|].
    apply two_answer; [done| |compute_decide|compute_decide].
    do 2 (apply part_item;
      [done..|apply link_msg_body; [done..|constructor; try last_attr; compute_decide]|]).
    constructor.
  - exists (one_dgram [] 2). split; [vm_compute; reflexivity|].
    apply two_answer; [done|constructor|done|compute_decide].
  - exists (one_dgram [] 3). split; [vm_compute; reflexivity|].
    apply two_answer; [done|constructor|done|compute_decide].
Qed.

Lemma run_zero_kernel_witness :
  @all_satisfied glibc (two_set (#"eth0") (#"eth1"))
    ((snapshot (two_kernel 2)) <| rs_dns4 := [] |>).
Proof.
  apply (@run_zero_kernel glibc linux_uapi two_links two_host
    (two_cfg (#"a") true) (two_start 0) two_end).
  - vm_compute. reflexivity.
  - exact two_run_a.
  - exact two_serves.
  - repeat split; compute_decide.
Defined.
