(* ===== verification/Watch.v ===== *)
(** The daemon of watch.c: opening and closing the watcher, its signal handlers
    and callbacks, and the loop that waits, debounces and runs, as a step
    relation between the loop and its environment. *)
From S2P Require Import Prelude CLib State Verify Netlink NetlinkSpec Run.

Definition NETREC_WATCH_DEBOUNCE_MS : Z := 500.

(** ** State *)

(** How a signal is handled: by [watch_signal], or as the process had it,
    [OtherAct 0] being SIG_DFL. *)
Inductive sigact := WatchSignal | OtherAct (n : Z).

#[export] Instance sigact_dec : EqDecision sigact.
Proof. solve_decision. Defined.

(** [struct netrec_watch]: [w_pipe] is the number of bytes in the wake pipe,
    [w_sub] whether [sub] is not NULL, [w_run_done] whether there is a callback,
    [w_old_int] and [w_old_term] are the saved handlers; of the process,
    [w_g_sig] is whether [g_sig_watch] points here, [w_sigint] and [w_sigterm]
    are the handlers of the signals, and [w_listed] is whether nlmon has the
    subscription. *)
Record netrec_watch := Watch {
  w_run : netrec_run_cfg;
  w_pipe : nat;
  w_debounce_ms : Z;
  w_manage_nlmon : bool;
  w_manage_signals : bool;
  w_sig_installed : bool;
  w_nlmon_started : bool;
  w_stop : bool;
  w_sub : bool;
  w_run_done : bool;
  w_g_sig : bool;
  w_sigint : sigact;
  w_sigterm : sigact;
  w_old_int : sigact;
  w_old_term : sigact;
  w_listed : bool
}.

#[export] Instance netrec_watch_eta : Eta netrec_watch := fun w =>
  Watch (w_run w) (w_pipe w) (w_debounce_ms w) (w_manage_nlmon w) (w_manage_signals w)
    (w_sig_installed w) (w_nlmon_started w) (w_stop w) (w_sub w) (w_run_done w)
    (w_g_sig w) (w_sigint w) (w_sigterm w) (w_old_int w) (w_old_term w) (w_listed w).

Record netrec_watch_opts := WatchOpts {
  o_debounce_ms : Z;
  o_manage_nlmon : bool;
  o_manage_signals : bool;
  o_run_done : bool
}.

(** The capacity of a pipe. *)
Class Pipe := { PIPE_SZ : nat; pipe_pos : 0 < PIPE_SZ }.

(** How the calls into the kernel and into nlmon go, and the signal handlers the
    process has when it opens the watcher.  Giving a signal back its saved
    handler cannot fail. *)
Record watch_env := WatchEnv {
  e_calloc : bool;
  e_pipe : bool;
  e_nonblock_r : result unit * result unit;
  e_nonblock_w : result unit * result unit;
  e_sigint : result unit;
  e_sigterm : result unit;
  e_nlmon_run : bool;
  e_subscribe : bool;
  e_unsubscribe : bool;
  e_act_int : sigact;
  e_act_term : sigact
}.

Section Operations.
Context `{Pipe}.

(** A write to the full pipe fails with EAGAIN, which is ignored. *)
Definition wake_watch (w : netrec_watch) : netrec_watch :=
  w <| w_pipe ::= (fun n => if n <? PIPE_SZ then S n else n) |>.

(** [fl] is how F_GETFL and F_SETFL go. *)
Definition fd_nonblock (fl : result unit * result unit) : Z :=
  match fl with
  | (Err e, _) => neg e
  | (Ok _, Err e) => neg e
  | (Ok _, Ok _) => 0%Z
  end.

(** The handler of SIGINT and SIGTERM; installed, it sees [g_sig_watch]. *)
Definition watch_signal (w : netrec_watch) : netrec_watch :=
  if w_g_sig w then wake_watch (w <| w_stop := true |>) else w.

Definition watch_nlmon_cb (w : netrec_watch) : netrec_watch := wake_watch w.

Definition netrec_watch_stop (w : netrec_watch) : netrec_watch :=
  wake_watch (w <| w_stop := true |>).

(** The loop of [watch_drain]: reads of 128 bytes until there is nothing; the
    pipe is not empty for more rounds than it has bytes. *)
Fixpoint drain_loop (fuel n : nat) : nat :=
  match fuel with
  | O => n
  | S f => if n =? 0 then n else drain_loop f (n - Nat.min 128 n)
  end.

Definition watch_drain (w : netrec_watch) : netrec_watch :=
  w <| w_pipe ::= (fun n => drain_loop (S n) n) |>.

(** The second failure restores the first handler. *)
Definition watch_install_signals (e : watch_env) (w : netrec_watch)
  : Z * netrec_watch :=
  let w := w <| w_old_int := OtherAct 0 |> <| w_old_term := OtherAct 0 |> in
  match e_sigint e with
  | Err n => (neg n, w)
  | Ok _ =>
    let w := w <| w_old_int := w_sigint w |> <| w_sigint := WatchSignal |> in
    match e_sigterm e with
    | Err n => (neg n, w <| w_sigint := w_old_int w |>)
    | Ok _ =>
      let w := w <| w_old_term := w_sigterm w |> <| w_sigterm := WatchSignal |> in
      (0%Z, w <| w_g_sig := true |> <| w_sig_installed := true |>)
    end
  end.

Definition watch_uninstall_signals (w : netrec_watch) : netrec_watch :=
  if negb (w_sig_installed w) then w
  else w <| w_g_sig := false |> <| w_sigterm := w_old_term w |>
         <| w_sigint := w_old_int w |> <| w_sig_installed := false |>.

(** What [nlmon_unsubscribe] returns is ignored: when it fails, nlmon keeps the
    subscription. *)
Definition watch_cleanup_runtime (e : watch_env) (w : netrec_watch) : netrec_watch :=
  let w := if w_sub w
           then w <| w_listed := w_listed w && negb (e_unsubscribe e) |> <| w_sub := false |>
           else w in
  let w := if w_nlmon_started w then w <| w_nlmon_started := false |> else w in
  watch_uninstall_signals w.

(** [None] is NULL. *)
Definition netrec_watch_open (e : watch_env) (cfg : option netrec_run_cfg)
    (opts : option netrec_watch_opts) : option netrec_watch :=
  match cfg with
  | None => None
  | Some cfg =>
    if negb (e_calloc e) then None
    else
      let w := Watch cfg 0 NETREC_WATCH_DEBOUNCE_MS true true false false false false false
                 false (e_act_int e) (e_act_term e) (OtherAct 0) (OtherAct 0) false in
      let w := match opts with
               | None => w
               | Some o =>
                 let w := if (0 <=? o_debounce_ms o)%Z
                          then w <| w_debounce_ms := o_debounce_ms o |> else w in
                 w <| w_manage_nlmon := o_manage_nlmon o |>
                   <| w_manage_signals := o_manage_signals o |>
                   <| w_run_done := o_run_done o |>
               end in
      if negb (e_pipe e) then None
      else
        let rc := fd_nonblock (e_nonblock_r e) in
        let rc := if (rc =? 0)%Z then fd_nonblock (e_nonblock_w e) else rc in
        if negb (rc =? 0)%Z then None else Some w
  end.

(** The descriptors are closed and the watcher freed; what is left of it. *)
Definition netrec_watch_close (e : watch_env) (w : netrec_watch) : netrec_watch :=
  watch_cleanup_runtime e w.

(** [netrec_watch_loop] up to its loop: the code it returns early, or the
    watcher the loop starts with. *)
Definition watch_start (e : watch_env) (w : netrec_watch) : option Z * netrec_watch :=
  let w := w <| w_stop := false |> in
  let '(rc, w) := if w_manage_signals w then watch_install_signals e w else (0%Z, w) in
  if negb (rc =? 0)%Z then (Some 1%Z, w)
  else if w_manage_nlmon w && negb (e_nlmon_run e) then
    (Some 1%Z, watch_cleanup_runtime e w)
  else
    let w := if w_manage_nlmon w then w <| w_nlmon_started := true |> else w in
    if negb (e_subscribe e) then (Some 1%Z, watch_cleanup_runtime e w)
    else (None, wake_watch (w <| w_sub := true |> <| w_listed := true |>)).

End Operations.

#[global] Arguments wake_watch : simpl never.
#[global] Arguments watch_drain : simpl never.

(** ** The loop *)

(** Where the loop is: at the test of [stop], in the unbounded [poll], before
    a drain, at the test after it, in the debounce [poll] since some time,
    before its drain, after its drain, at the test before a run, in a run
    since some time, or returned. *)
Inductive pc :=
| PTop
| PWait
| PDrain
| PTest
| PDebounce (since : Z)
| PDrain2
| PTest2
| PTest3
| PRun (start : Z)
| PEnd (rc : Z).

Section Loop.
Context `{Libc} `{Uapi} `{Host} `{Pipe}.

(** The watcher, the loop's place, the clock in ms, the machine, the calls of
    [run_done], and how many threads have set [stop] in [netrec_watch_stop] and
    not yet written to the pipe; [l_seen] and [l_last] record whether a
    notification has come since the last run started, and when the last one
    came. *)
Record lst := Lst {
  l_watch : netrec_watch;
  l_pc : pc;
  l_now : Z;
  l_machine : rst;
  l_done : list (Z * Z);
  l_seen : bool;
  l_last : Z;
  l_asking : nat
}.

#[export] Instance lst_eta : Eta lst := fun s =>
  Lst (l_watch s) (l_pc s) (l_now s) (l_machine s) (l_done s) (l_seen s) (l_last s)
    (l_asking s).

Definition stopped (s : lst) : bool := w_stop (l_watch s).
Definition pending (s : lst) : nat := w_pipe (l_watch s).
Definition goto (p : pc) (s : lst) : lst := s <| l_pc := p |>.
Definition drain (s : lst) : lst := s <| l_watch ::= watch_drain |>.

(** One step of [netrec_watch_loop].  A [poll] returns when the pipe has bytes,
    when it fails, and the debounce [poll] when its time is over with the pipe
    empty; interrupted it starts again with the full time. *)
Inductive loop_step : lst -> lst -> Prop :=
| step_top_stop s :
    l_pc s = PTop -> stopped s = true -> loop_step s (goto (PEnd 0) s)
| step_top s :
    l_pc s = PTop -> stopped s = false -> loop_step s (goto PWait s)
| step_wait_fail s :
    l_pc s = PWait -> loop_step s (goto (PEnd 1) s)
| step_wait s :
    l_pc s = PWait -> 0 < pending s -> loop_step s (goto PDrain s)
| step_drain s :
    l_pc s = PDrain -> loop_step s (goto PTest (drain s))
| step_test_stop s :
    l_pc s = PTest -> stopped s = true -> loop_step s (goto (PEnd 0) s)
| step_test s :
    l_pc s = PTest -> stopped s = false -> loop_step s (goto (PDebounce (l_now s)) s)
| step_debounce_fail s t :
    l_pc s = PDebounce t ->
    loop_step s (goto (PEnd 1) (s <| l_watch ::= (fun w => w <| w_stop := true |>) |>))
| step_debounce_quiet s t :
    l_pc s = PDebounce t -> pending s = 0 ->
    (t + w_debounce_ms (l_watch s) <= l_now s)%Z -> loop_step s (goto PTest3 s)
| step_debounce_wake s t :
    l_pc s = PDebounce t -> 0 < pending s -> loop_step s (goto PDrain2 s)
| step_drain2 s :
    l_pc s = PDrain2 -> loop_step s (goto PTest2 (drain s))
| step_test2_stop s :
    l_pc s = PTest2 -> stopped s = true -> loop_step s (goto PTest3 s)
| step_test2 s :
    l_pc s = PTest2 -> stopped s = false -> loop_step s (goto (PDebounce (l_now s)) s)
| step_test3_stop s :
    l_pc s = PTest3 -> stopped s = true -> loop_step s (goto (PEnd 0) s)
| step_test3 s :
    l_pc s = PTest3 -> stopped s = false ->
    loop_step s (goto (PRun (l_now s)) (s <| l_seen := false |>))
| step_run s t rc m :
    l_pc s = PRun t -> netrec_run_once (w_run (l_watch s)) (l_machine s) = Done (rc, m) ->
    loop_step s (goto PTop (s <| l_machine := m |>
                              <| l_done ::= (fun d =>
                                   if w_run_done (l_watch s)
                                   then d ++ [(rc, to_int ((l_now s - t) mod 2 ^ 32))] else d) |>)).

(** What happens around the loop at any moment: time passes, the machine
    changes, nlmon reports an event, a signal arrives, a thread asks to stop, in
    the two steps of [netrec_watch_stop] or [watch_signal] with anything in
    between, and an interrupted debounce [poll] starts again. *)
Inductive env_step : lst -> lst -> Prop :=
| env_time s d : (0 <= d)%Z -> env_step s (s <| l_now ::= Z.add d |>)
| env_machine s m : env_step s (s <| l_machine := m |>)
| env_notify s :
    env_step s (s <| l_watch ::= watch_nlmon_cb |> <| l_seen := true |> <| l_last := l_now s |>)
| env_signal s : env_step s (s <| l_watch ::= watch_signal |>)
| env_stop s : env_step s (s <| l_watch ::= netrec_watch_stop |>)
| env_stop_set s :
    env_step s (s <| l_watch ::= (fun w => w <| w_stop := true |>) |> <| l_asking ::= S |>)
| env_stop_wake s n :
    l_asking s = S n -> env_step s (s <| l_watch ::= wake_watch |> <| l_asking := n |>)
| env_restart s t :
    l_pc s = PDebounce t -> env_step s (s <| l_pc := PDebounce (l_now s) |>).

(** Executions, with the number of steps the loop takes. *)
Inductive steps : nat -> lst -> lst -> Prop :=
| steps_refl s : steps 0 s s
| steps_loop n s1 s2 s3 : steps n s1 s2 -> loop_step s2 s3 -> steps (S n) s1 s3
| steps_env n s1 s2 s3 : steps n s1 s2 -> env_step s2 s3 -> steps n s1 s3.

(** A watcher whose loop is not running: as [netrec_watch_open] makes it and
    [netrec_watch_loop] leaves it. *)
Definition idle (w : netrec_watch) : Prop :=
  w_sub w = false /\ w_nlmon_started w = false /\ w_sig_installed w = false /\
  w_g_sig w = false /\ w_sigint w <> WatchSignal /\ w_sigterm w <> WatchSignal /\
  (0 <= w_debounce_ms w)%Z.

(** The loop starts after [watch_start]; the initial wake counts as a
    notification, so that there is a first run. *)
Definition enter (w : netrec_watch) (now : Z) (m : rst) : lst :=
  Lst w PTop now m [] true now 0.

Definition starts (s : lst) : Prop :=
  exists e w0 w now m, watch_start e w0 = (None, w) /\ idle w0 /\ s = enter w now m.

Definition reachable (s : lst) : Prop := exists s0 n, starts s0 /\ steps n s0 s.

(** [netrec_watch_loop]: it returns [rc] and leaves the watcher [w']. *)
Inductive netrec_watch_loop (e : watch_env) (w : netrec_watch) (now : Z) (m : rst)
  : Z -> netrec_watch -> Prop :=
| loop_early rc w' :
    watch_start e w = (Some rc, w') -> netrec_watch_loop e w now m rc w'
| loop_runs w1 n s rc :
    watch_start e w = (None, w1) -> steps n (enter w1 now m) s -> l_pc s = PEnd rc ->
    netrec_watch_loop e w now m rc (watch_cleanup_runtime e (l_watch s)).

(** The code [netrec_watch] returns. *)
Inductive netrec_watch_main (e : watch_env) (cfg : netrec_run_cfg) (debounce_ms now : Z)
    (m : rst) : Z -> Prop :=
| watch_no_open :
    netrec_watch_open e (Some cfg) (Some (WatchOpts debounce_ms true true false)) = None ->
    netrec_watch_main e cfg debounce_ms now m 1
| watch_opened w rc w' :
    netrec_watch_open e (Some cfg) (Some (WatchOpts debounce_ms true true false)) = Some w ->
    netrec_watch_loop e w now m rc w' -> netrec_watch_main e cfg debounce_ms now m rc.

(** ** The invariant *)

(** What holds at each place of the loop: before the loop can block for ever,
    a notification or a request to stop has left a byte in the pipe, or the
    thread that asks is about to write one; when the
    debounce [poll] sees the pipe empty, no notification has come since it
    began. *)
Definition place_ok (s : lst) : Prop :=
  match l_pc s with
  | PTop | PRun _ => l_seen s = true -> 0 < pending s
  | PWait =>
    (l_seen s = true -> 0 < pending s) /\ (stopped s = true -> 0 < pending s + l_asking s)
  | PDebounce t =>
    (t <= l_now s)%Z /\ (pending s = 0 -> (l_last s <= t)%Z) /\
    (stopped s = true -> 0 < pending s + l_asking s)
  | PEnd rc => rc = 0%Z \/ rc = 1%Z
  | _ => True
  end.

(** The signal handlers are ours as long as they are noted as installed, and
    those that come back are not. *)
Definition sig_ok (w : netrec_watch) : Prop :=
  w_g_sig w = w_sig_installed w /\
  (w_sigint w = WatchSignal <-> w_sig_installed w = true) /\
  (w_sigterm w = WatchSignal <-> w_sig_installed w = true) /\
  (w_sig_installed w = true -> w_old_int w <> WatchSignal /\ w_old_term w <> WatchSignal).

(** The handlers the signals have when the loop is over. *)
Definition handlers (w : netrec_watch) : sigact * sigact :=
  if w_sig_installed w then (w_old_int w, w_old_term w) else (w_sigint w, w_sigterm w).

Record inv (s : lst) : Prop := {
  inv_place : place_ok s;
  inv_last : (l_last s <= l_now s)%Z;
  inv_debounce : (0 <= w_debounce_ms (l_watch s))%Z;
  inv_sig : sig_ok (l_watch s);
  inv_zero : l_pc s = PEnd 0 -> stopped s = true
}.

Lemma wake_pending w : 0 < w_pipe (wake_watch w).
Proof.
  change (0 < if w_pipe w <? PIPE_SZ then S (w_pipe w) else w_pipe w).
  pose proof pipe_pos. destruct (Nat.ltb_spec (w_pipe w) PIPE_SZ); lia.
Qed.

Lemma drain_loop_empty fuel n : n < fuel -> drain_loop fuel n = 0.
Proof.
  revert n. induction fuel as [|f IH]; intros n Hn; [lia|]. cbn [drain_loop].
  destruct (Nat.eqb_spec n 0); [done|]. apply IH. lia.
Qed.

Lemma drain_empty s : pending (drain s) = 0.
Proof. apply (drain_loop_empty (S (pending s)) (pending s)). lia. Qed.

Lemma loop_step_inv s s' : inv s -> loop_step s s' -> inv s'.
Proof.
  intros [Hp Hl Hd Hg Hz] St. unfold place_ok in Hp.
  destruct St as [s Ep Es|s Ep Es|s Ep|s Ep Hn|s Ep|s Ep Es|s Ep Es|s t Ep|s t Ep Hn Ht
                 |s t Ep Hn|s Ep|s Ep Es|s Ep Es|s Ep Es|s Ep Es|s t rc m Ep Er];
    rewrite Ep in *; destruct s as [w p now ma dn seen last ak]; cbn in *;
    constructor; cbn; try done; unfold place_ok; cbn; auto.
  all: unfold stopped in *; cbn in *; try solve [intuition congruence].
  all: split_and!; [lia|done|congruence].
Qed.
(** A wake-up keeps the invariant, whatever it records. *)
Lemma inv_wake w w' p now ma dn seen seen' last last' ak ak' :
  inv (Lst w p now ma dn seen last ak) ->
  0 < w_pipe w' -> w_debounce_ms w' = w_debounce_ms w ->
  sig_ok w' -> (w_stop w = true -> w_stop w' = true) ->
  (last' <= now)%Z -> inv (Lst w' p now ma dn seen' last' ak').
Proof.
  intros [Hp Hl Hd Hg Hz] Hw Ed Eg Es Hl'. unfold place_ok, stopped, pending in *. cbn in *.
  constructor; unfold place_ok, stopped, pending; cbn; [|done|lia|done|auto].
  destruct p; try done; destruct Hp; split_and!; lia.
Qed.

Lemma env_step_inv s s' : inv s -> env_step s s' -> inv s'.
Proof.
  intros Hi St.
  destruct St as [s d Hn|s m|s|s|s|s|s n Ea|s t Ep]; destruct s as [w p now ma dn seen last ak];
    pose proof Hi as [Hp Hl Hd Hg Hz]; unfold place_ok in Hp; cbn in *.
  - constructor; cbn; [|lia|done..]. unfold place_ok in *. cbn. destruct p; try done.
    destruct Hp as (? & ? & ?). split_and!; [lia|done|done].
  - by constructor.
  - eapply inv_wake; [exact Hi|apply wake_pending|done|done|done|lia].
  - unfold watch_signal. destruct (w_g_sig w) eqn:Eg; [|exact Hi].
    eapply inv_wake; [exact Hi|apply wake_pending|done| |done|done].
    exact Hg.
  - eapply inv_wake; [exact Hi|apply wake_pending|done|done|done|done].
  - constructor; cbn; [|done..]. unfold place_ok, pending in *. cbn.
    destruct p; try done; destruct Hp; split_and!; try done; try tauto; lia.
  - eapply inv_wake; [exact Hi|apply wake_pending|done|done|done|done].
  - subst p. constructor; cbn; [|lia|done..]. unfold place_ok in *. cbn in *.
    destruct Hp as (? & ? & ?). split_and!; [lia|done|done].
Qed.

Lemma watch_start_facts e w0 w :
  watch_start e w0 = (None, w) -> idle w0 ->
  0 < w_pipe w /\ (0 <= w_debounce_ms w)%Z /\ w_stop w = false /\
  sig_ok w /\ handlers w = handlers w0.
Proof.
  unfold watch_start, watch_install_signals. intros E (H4 & H5 & H6 & H7 & H8 & H9 & H10).
  destruct w0 as [r pi db mn ms si ns st sb rd gs h1 h2 o1 o2 li].
  cbn in E, H4, H5, H6, H7, H8, H9, H10. subst.
  destruct ms; [destruct (e_sigint e); [destruct (e_sigterm e)|]|]; cbn in E; try done;
    (destruct mn; [destruct (e_nlmon_run e); cbn in E; [|done]|]);
    (destruct (e_subscribe e); cbn in E; [|done]);
    injection E as <-; (split; [apply wake_pending|]);
    unfold sig_ok, handlers, wake_watch; cbn; by split_and!.
Qed.

Lemma starts_inv s : starts s -> inv s.
Proof.
  intros (e & w0 & w & now & m & Es & Hi & ->).
  destruct (watch_start_facts _ _ _ Es Hi) as (Hp & Hd & _ & Hg & _).
  constructor; cbn; [done|lia|done|done|done].
Qed.

Lemma steps_inv n s s' : inv s -> steps n s s' -> inv s'.
Proof.
  intros Hi. induction 1 as [s|n s1 s2 s3 _ IH St|n s1 s2 s3 _ IH St]; [done| |].
  - eapply loop_step_inv; [by apply IH|done].
  - eapply env_step_inv; [by apply IH|done].
Qed.

Lemma reachable_inv s : reachable s -> inv s.
Proof. intros (s0 & n & H4 & St). eapply steps_inv; [by apply starts_inv|done]. Qed.

(** ** Stopping *)

(** How many steps the loop has left once it is asked to stop. *)
Definition left (p : pc) : nat :=
  match p with
  | PEnd _ => 0
  | PTop | PTest | PTest3 => 1
  | PTest2 | PDrain | PRun _ => 2
  | PDrain2 | PWait => 3
  | PDebounce _ => 4
  end.

Lemma loop_step_stop s s' :
  loop_step s s' -> stopped s = true ->
  stopped s' = true /\ left (l_pc s') < left (l_pc s) /\ (forall t, l_pc s' <> PRun t).
Proof.
  intros St Hs. destruct St as [s Ep Es|s Ep Es|s Ep|s Ep Hn|s Ep|s Ep Es|s Ep Es|s t Ep
    |s t Ep Hn Ht|s t Ep Hn|s Ep|s Ep Es|s Ep Es|s Ep Es|s Ep Es|s t rc m Ep Er];
    rewrite Ep; cbn; try congruence; (split; [first [exact Hs|done]|split; [lia|done]]).
Qed.

Lemma env_step_stop s s' :
  env_step s s' -> stopped s = true ->
  stopped s' = true /\ left (l_pc s') = left (l_pc s) /\
  (forall t, l_pc s' = PRun t -> l_pc s = PRun t).
Proof.
  intros St Hs. destruct St as [s d Hn|s m|s|s|s|s|s n Ea|s t Ep]; try (by split).
  - split; [|by split]. unfold stopped, watch_signal in *. cbn.
    destruct (w_g_sig (l_watch s)); [done|exact Hs].
  - split; [exact Hs|]. cbn. by rewrite Ep.
Qed.

Lemma steps_stop n s s' :
  steps n s s' -> stopped s = true ->
  stopped s' = true /\ n + left (l_pc s') <= left (l_pc s) /\
  (forall t, l_pc s' = PRun t -> l_pc s = PRun t).
Proof.
  induction 1 as [s|n s1 s2 s3 _ IH St|n s1 s2 s3 _ IH St]; intros Hs.
  - split; [done|]. split; [lia|done].
  - destruct (IH Hs) as (H4 & H5 & H6). destruct (loop_step_stop _ _ St H4) as (H7 & H8 & H9).
    split_and!; [done|lia|]. intros t Et. by destruct (H9 t).
  - destruct (IH Hs) as (H4 & H5 & H6). destruct (env_step_stop _ _ St H4) as (H7 & H8 & H9).
    split_and!; [done|lia|]. intros t Et. by apply H6, H9.
Qed.

(** A run that is under way comes to an end. *)
Definition run_returns (s : lst) : Prop :=
  forall t, l_pc s = PRun t ->
  exists rc m, netrec_run_once (w_run (l_watch s)) (l_machine s) = Done (rc, m).

Lemma stop_progress s :
  inv s -> stopped s = true -> run_returns s -> (forall rc, l_pc s <> PEnd rc) ->
  (exists s', loop_step s s') \/ 0 < l_asking s.
Proof.
  intros [Hp _ _ _ _] Hs Hr Hn. unfold place_ok in Hp. destruct (l_pc s) as [| | | |t| | | |t|rc] eqn:Ep.
  - left. eexists. by apply step_top_stop.
  - destruct Hp as [_ Hp]. specialize (Hp Hs).
    destruct (decide (pending s = 0)); [right; lia|].
    left. eexists. apply step_wait; [done|lia].
  - left. eexists. by apply step_drain.
  - left. eexists. by apply step_test_stop.
  - destruct Hp as (_ & _ & Hp). specialize (Hp Hs).
    destruct (decide (pending s = 0)); [right; lia|].
    left. eexists. eapply step_debounce_wake; [done|lia].
  - left. eexists. by apply step_drain2.
  - left. eexists. by apply step_test2_stop.
  - left. eexists. by apply step_test3_stop.
  - destruct (Hr t Ep) as (rc & m & E). left. eexists. by eapply step_run.
  - by destruct (Hn rc).
Qed.
(** ** Cleaning up *)

Lemma steps_run n s s' : steps n s s' -> w_run (l_watch s') = w_run (l_watch s).
Proof.
  induction 1 as [s|n s1 s2 s3 _ IH St|n s1 s2 s3 _ IH St]; [done| |];
    destruct St; cbn; try exact IH.
  unfold watch_signal. destruct (w_g_sig _); exact IH.
Qed.

(** The loop and what happens around it leave the handlers alone. *)
Lemma steps_handlers n s s' :
  steps n s s' -> handlers (l_watch s') = handlers (l_watch s).
Proof.
  induction 1 as [s|n s1 s2 s3 _ IH St|n s1 s2 s3 _ IH St]; [done| |];
    destruct St; cbn; try exact IH.
  unfold watch_signal. destruct (w_g_sig _); exact IH.
Qed.

Lemma steps_listed n s s' :
  steps n s s' -> w_listed (l_watch s) = w_sub (l_watch s) ->
  w_listed (l_watch s') = w_sub (l_watch s').
Proof.
  induction 1 as [s|n s1 s2 s3 _ IH St|n s1 s2 s3 _ IH St]; [done| |]; intros Hl;
    specialize (IH Hl); destruct St; cbn; try exact IH.
  unfold watch_signal. destruct (w_g_sig _); exact IH.
Qed.

Lemma watch_start_listed e w0 w : watch_start e w0 = (None, w) -> w_listed w = w_sub w.
Proof.
  unfold watch_start. destruct (if w_manage_signals _ then _ else _) as [rc w1].
  destruct (negb _); [done|]. destruct (_ && _); [done|].
  destruct (negb _); [done|]. by intros [= <-].
Qed.

Lemma cleanup_idle e w :
  sig_ok w -> (0 <= w_debounce_ms w)%Z ->
  idle (watch_cleanup_runtime e w) /\
  (w_sigint (watch_cleanup_runtime e w), w_sigterm (watch_cleanup_runtime e w)) = handlers w /\
  (e_unsubscribe e = true -> w_listed w = w_sub w ->
   w_listed (watch_cleanup_runtime e w) = false).
Proof.
  destruct w as [r pi db mn ms si ns st sb rd gs h1 h2 o1 o2 li]. unfold sig_ok, handlers. cbn.
  intros (-> & Hi1 & Hi2 & Ho) Hd.
  unfold watch_cleanup_runtime, watch_uninstall_signals, idle. cbn.
  destruct sb, ns, si; cbn; split_and!;
    first [done|by apply Ho|by intros ?%Hi1|by intros ?%Hi2|by intros -> ->].
Qed.

Lemma watch_start_early e w rc w' :
  idle w -> watch_start e w = (Some rc, w') ->
  rc = 1%Z /\ idle w' /\ w_sigint w' = w_sigint w /\ w_sigterm w' = w_sigterm w /\
  w_listed w' = w_listed w.
Proof.
  intros Hi E. pose proof Hi as (H4 & H5 & H6 & H7 & H8 & H9 & H10).
  destruct w as [r pi db mn ms si ns st sb rd gs h1 h2 o1 o2 li].
  cbn in H4, H5, H6, H7, H8, H9, H10. subst.
  unfold watch_start, watch_install_signals in E. cbn in E.
  destruct ms; [destruct (e_sigint e); [destruct (e_sigterm e)|]|]; cbn in E;
    try (by injection E as <- <-);
    (destruct mn; [destruct (e_nlmon_run e)|]); cbn in E;
    try (by injection E as <- <-);
    (destruct (e_subscribe e); cbn in E; [done|]); by injection E as <- <-.
Qed.

(** ** Quiet times *)

(** Nothing happens around the loop but the passing of time, and [poll] does
    not fail. *)
Definition quiet_step (s s' : lst) : Prop :=
  exists d, (0 <= d)%Z /\ loop_step (s <| l_now ::= Z.add d |>) s' /\ l_pc s' <> PEnd 1.

(** Every quiet execution comes to a state in [P], and none gets stuck. *)
Inductive eventually (P : lst -> Prop) (s : lst) : Prop :=
| eventually_now : P s -> eventually P s
| eventually_step :
    (exists s', quiet_step s s') -> (forall s', quiet_step s s' -> eventually P s') ->
    eventually P s.

(** A run that started after every notification so far. *)
Definition fresh_run (s : lst) : Prop := (exists t, l_pc s = PRun t) /\ l_seen s = false.

(** Time passes, then a step of the loop. *)
Lemma quiet_now s s' : loop_step s s' -> l_pc s' <> PEnd 1 -> quiet_step s s'.
Proof.
  intros St Hn. exists 0%Z. split; [lia|]. split; [|done].
  assert (s <| l_now ::= Z.add 0 |> = s) as ->; [by destruct s|done].
Qed.

Ltac quiet_inv :=
  let St := fresh "St" in let d := fresh "d" in let Hd := fresh "Hd" in
  let Hn := fresh "Hn" in
  intros ? (d & Hd & St & Hn); inversion St; subst; cbn in *; simplify_eq;
  try done; unfold stopped, pending in *; cbn in *;
  repeat match goal with
  | E : w_stop (watch_drain ?w) = _ |- _ => change (w_stop w = true) in E
  end; try congruence; try lia.

Section Eventually.
Context (w : netrec_watch) (ma : rst) (dn : list (Z * Z)) (last : Z) (ak : nat).
Hypothesis Hstop : w_stop w = false.

Abbreviation at_ p w now seen := (Lst w p now ma dn seen last ak).

Lemma ev_test3 now seen : eventually fresh_run (at_ PTest3 w now seen).
Proof.
  apply eventually_step.
  - eexists. apply quiet_now; [by apply step_test3|done].
  - quiet_inv. apply eventually_now. by split; [eexists|].
Qed.

Lemma ev_debounce t now seen :
  w_pipe w = 0 -> eventually fresh_run (at_ (PDebounce t) w now seen).
Proof.
  intros Hp. apply eventually_step.
  - eexists (at_ PTest3 w _ seen). exists (Z.max 0 (t + w_debounce_ms w - now)).
    split; [lia|]. split; [|done].
    refine (step_debounce_quiet _ t _ _ _); [done|done|]. cbn. lia.
  - quiet_inv. apply ev_test3.
Qed.

End Eventually.

(** Take the only step there is. *)
Ltac quiet_one c :=
  apply eventually_step;
  [eexists; apply quiet_now; [by apply c|done]|quiet_inv].

Section Eventually2.
Context (ma : rst) (dn : list (Z * Z)) (last : Z) (ak : nat).

Abbreviation at_ p w now seen := (Lst w p now ma dn seen last ak).

Lemma drain_pipe w : w_pipe (watch_drain w) = 0.
Proof. apply (drain_empty (at_ PTop w 0%Z false)). Qed.

Lemma ev_drain2 w now seen :
  w_stop w = false -> eventually fresh_run (at_ PDrain2 w now seen).
Proof.
  intros Hs. quiet_one step_drain2. quiet_one step_test2. apply ev_debounce; [done|].
  apply drain_pipe.
Qed.

Lemma ev_debounce_any w t now seen :
  w_stop w = false -> eventually fresh_run (at_ (PDebounce t) w now seen).
Proof.
  intros Hs. destruct (decide (w_pipe w = 0)) as [Hp|Hp]; [by apply ev_debounce|].
  apply eventually_step.
  - eexists. apply quiet_now; [eapply step_debounce_wake; [done|]|done].
    unfold pending. cbn. lia.
  - quiet_inv. by apply ev_drain2.
Qed.

Lemma ev_wait w now seen :
  w_stop w = false -> 0 < w_pipe w -> eventually fresh_run (at_ PWait w now seen).
Proof.
  intros Hs Hp. quiet_one step_wait. quiet_one step_drain. quiet_one step_test.
  by apply ev_debounce_any.
Qed.

Lemma ev_top w now seen :
  w_stop w = false -> 0 < w_pipe w -> eventually fresh_run (at_ PTop w now seen).
Proof. intros Hs Hp. quiet_one step_top. by apply ev_wait. Qed.

End Eventually2.

Lemma ev_any s :
  inv s -> stopped s = false -> l_seen s = true -> run_returns s ->
  (forall rc, l_pc s <> PEnd rc) -> eventually fresh_run s.
Proof.
  intros [Hp _ _ _ _] Hs Hn Hr He. unfold place_ok, stopped, pending in *.
  destruct s as [w p now ma dn seen last ak]. cbn in *. subst seen.
  destruct p as [| | | |t| | | |t|rc].
  - apply ev_top; [done|by apply Hp].
  - apply ev_wait; [done|by apply (proj1 Hp)].
  - quiet_one step_drain. quiet_one step_test. by apply ev_debounce_any.
  - quiet_one step_test. by apply ev_debounce_any.
  - by apply ev_debounce_any.
  - by apply ev_drain2.
  - quiet_one step_test2. by apply ev_debounce_any.
  - by apply ev_test3.
  - destruct (Hr t eq_refl) as (rc & m & E). apply eventually_step.
    + eexists. apply quiet_now; [by eapply step_run|done].
    + quiet_inv. apply ev_top; [done|by apply Hp].
  - by destruct (He rc).
Qed.

(** ** Properties *)

(** C15: the watcher misses no notification: whenever its loop waits without a
    timeout on an empty pipe, a run has started after the last notification,
    and a thread that has asked it to stop is still about to wake it, however
    the notifications, signals and requests interleave with the loop. *)
Theorem watch_no_lost_wake (s : lst) :
  reachable s -> l_pc s = PWait -> pending s = 0 ->
  l_seen s = false /\ (stopped s = true -> 0 < l_asking s).
Proof.
  intros Hr Ep Hz. apply reachable_inv in Hr as [Hp _ _ _ _].
  unfold place_ok in Hp. rewrite Ep in Hp. destruct Hp as [H4 H5].
  destruct (l_seen s); [specialize (H4 eq_refl); lia|].
  split; [done|]. intros Hs. specialize (H5 Hs). lia.
Qed.

(** C16: once notifications cease, every outstanding one is followed by a run
    that starts after it: in every execution without further events and poll
    failures the loop reaches such a run and never gets stuck before. *)
Theorem watch_runs_eventually (s : lst) :
  reachable s -> stopped s = false -> l_seen s = true -> run_returns s ->
  (forall rc, l_pc s <> PEnd rc) -> eventually fresh_run s.
Proof. intros Hr. by apply ev_any, reachable_inv. Qed.

(** C17: a request to stop, by a signal or another thread, ends the loop: no
    further run is started, the loop takes at most four more steps whatever
    else happens, and until it has returned it has a step to take or the thread
    that asked is about to wake it. *)
Theorem watch_stop_terminates (s : lst) :
  reachable s -> stopped s = true ->
  (forall n s', steps n s s' -> n <= 4 /\ (forall t, l_pc s' = PRun t -> l_pc s = PRun t) /\
     (run_returns s' -> (exists rc, l_pc s' = PEnd rc) \/ (exists s2, loop_step s' s2) \/
        0 < l_asking s')).
Proof.
  intros Hr Hs n s' St. apply reachable_inv in Hr.
  destruct (steps_stop n s s' St Hs) as (H4 & H5 & H6). split_and!; [|done|].
  - assert (left (l_pc s) <= 4) by (destruct (l_pc s); cbn; lia). lia.
  - intros Hret. pose proof (steps_inv n s s' Hr St) as Hi.
    assert ((exists rc, l_pc s' = PEnd rc) \/ forall rc, l_pc s' <> PEnd rc) as [?|Hn].
    { destruct (l_pc s'); eauto. }
    + by left.
    + right. by apply stop_progress.
Qed.

(** C20: runs are debounced: unless it is stopping, the loop decides for a run,
    which is the step to the last test of the stop flag before it, only when no
    notification has come for the whole debounce time.  A notification that comes
    between that step and the run does not hold the run back; it stays in the
    pipe for the next one. *)
Theorem watch_debounced (s s' : lst) :
  reachable s -> loop_step s s' -> l_pc s' = PTest3 -> stopped s = false ->
  (l_last s + w_debounce_ms (l_watch s) <= l_now s)%Z.
Proof.
  intros Hr St Ep Hs. apply reachable_inv in Hr as [Hp _ _ _ _]. unfold place_ok in Hp.
  inversion St; subst; cbn in Ep; try done; [|congruence].
  rewrite H4 in Hp. destruct Hp as (_ & Hp & _). specialize (Hp H5). lia.
Qed.

(** C21: the loop returns 0 or 1, 0 only when it was asked to stop, and on every
    path, failures to start included, it leaves the watcher as it was before:
    no subscription, nlmon stopped, and SIGINT and SIGTERM handled by the very
    handlers they had.  A subscription that nlmon does not take back is
    forgotten all the same; one it takes back is gone there too. *)
Theorem watch_loop_cleanup (e : watch_env) (w w' : netrec_watch) (now : Z) (m : rst)
    (rc : Z) :
  idle w -> netrec_watch_loop e w now m rc w' ->
  idle w' /\ w_sigint w' = w_sigint w /\ w_sigterm w' = w_sigterm w /\
  (e_unsubscribe e = true -> w_listed w = false -> w_listed w' = false) /\
  (rc = 0%Z \/ rc = 1%Z) /\ (rc = 0%Z -> w_stop w' = true).
Proof.
  intros Hi L. destruct L as [rc w' E|w1 n s rc E St Ep].
  - apply watch_start_early in E as (-> & ? & ? & ? & ->); [|done].
    split_and!; [done..|by right|done].
  - assert (Hs : starts (enter w1 now m)) by (by exists e, w, w1, now, m).
    apply starts_inv in Hs. pose proof (steps_handlers _ _ _ St) as Hh.
    pose proof (steps_listed _ _ _ St) as Hl.
    apply (steps_inv _ _ _ Hs) in St as [Hp _ Hd Hg Hz].
    unfold place_ok in Hp. rewrite Ep in Hp.
    destruct (cleanup_idle e (l_watch s) Hg Hd) as (Hc & Hb & Hu).
    destruct (watch_start_facts _ _ _ E Hi) as (_ & _ & _ & _ & Hw).
    cbn [l_watch enter] in Hh, Hl. rewrite Hh, Hw in Hb.
    destruct Hi as (_ & _ & Hsi & _). unfold handlers in Hb. rewrite Hsi in Hb.
    injection Hb as Hb1 Hb2. split_and!; [done..| |done|].
    + intros He _. apply Hu; [done|]. apply Hl. by eapply watch_start_listed.
    + intros ->. specialize (Hz Ep). unfold stopped in Hz.
      unfold watch_cleanup_runtime, watch_uninstall_signals. by repeat case_match.
Qed.

End Loop.

(** ** A run of the daemon *)

Definition small_pipe : Pipe := {| PIPE_SZ := 4; pipe_pos := ltac:(lia) |}.

Definition good_env : watch_env :=
  WatchEnv true true (Ok tt, Ok tt) (Ok tt, Ok tt) (Ok tt) (Ok tt) true true true
    (OtherAct 0) (OtherAct 1).

(** A watcher with the default debounce time, as [netrec_watch_open] makes it. *)
Definition sample_watch : netrec_watch :=
  Watch (two_cfg (#"a") false) 0 500 true true false false false false true false
    (OtherAct 0) (OtherAct 1) (OtherAct 0) (OtherAct 0) false.

Example sample_watch_open :
  netrec_watch_open good_env (Some (two_cfg (#"a") false)) (Some (WatchOpts (-1) true true true)) =
  Some sample_watch.
Proof. reflexivity. Qed.

Lemma sample_idle : idle sample_watch.
Proof. by split_and!. Qed.

(** The watcher in its loop, with [n] bytes in the pipe. *)
Definition running (n : nat) (stop : bool) : netrec_watch :=
  Watch (two_cfg (#"a") false) n 500 true true true true stop true true true
    WatchSignal WatchSignal (OtherAct 0) (OtherAct 1) true.

(** The machine after the first run. *)
Definition sample_out : @rst two_links :=
  @Rst two_links 2 []
    [RLine (EvOk (#"uplink eth0 exists"));
     RLine (EvOk (#"iface eth0 up"));
     RLine (EvOk (#"uplink eth1 exists"));
     RLine (EvOk (#"iface eth1 up"))].

Definition at_place (n : nat) (stop : bool) (p : pc) (now : Z) (m : @rst two_links)
    (dn : list (Z * Z)) (seen : bool) : @lst two_links :=
  @Lst two_links (running n stop) p now m dn seen 0 0.

#[local] Existing Instances glibc linux_uapi two_links two_host small_pipe.

Abbreviation sample_steps := (@steps glibc linux_uapi two_links two_host small_pipe).

(** To the debounce, through it, and around the loop once. *)
Lemma sample_to_debounce :
  sample_steps 4 (@enter two_links (running 1 false) 0 (two_start 2))
    (at_place 0 false (PDebounce 0) 0 (two_start 2) [] true).
Proof.
  refine (steps_loop 3 _ _ _ _ (step_test (at_place 0 false PTest 0 (two_start 2) [] true) eq_refl eq_refl)).
  refine (steps_loop 2 _ _ _ _ (step_drain (at_place 1 false PDrain 0 (two_start 2) [] true) eq_refl)).
  refine (steps_loop 1 _ _ _ _ (step_wait (at_place 1 false PWait 0 (two_start 2) [] true) eq_refl
    ltac:(cbn; lia))).
  refine (steps_loop 0 _ _ _ _ (step_top (at_place 1 false PTop 0 (two_start 2) [] true) eq_refl eq_refl)).
  apply steps_refl.
Qed.

Lemma sample_to_quiet :
  sample_steps 4 (@enter two_links (running 1 false) 0 (two_start 2))
    (at_place 0 false (PDebounce 0) 500 (two_start 2) [] true).
Proof.
  refine (steps_env 4 _ _ _ sample_to_debounce (env_time _ 500 _)). lia.
Qed.

Example sample_run_once :
  @netrec_run_once glibc linux_uapi two_links two_host (two_cfg (#"a") false) (two_start 2) =
  Done (0%Z, sample_out).
Proof. vm_compute. reflexivity. Qed.

Lemma sample_to_wait :
  sample_steps 8 (@enter two_links (running 1 false) 0 (two_start 2))
    (at_place 0 false PWait 500 sample_out [(0, 0)%Z] false).
Proof.
  refine (steps_loop 7 _ _ _ _ (step_top (at_place 0 false PTop 500 sample_out [(0, 0)%Z] false)
    eq_refl eq_refl)).
  refine (steps_loop 6 _ _ _ _ (step_run (at_place 0 false (PRun 500) 500 (two_start 2) [] false)
    500 0 sample_out eq_refl sample_run_once)).
  refine (steps_loop 5 _ _ _ _ (step_test3 (at_place 0 false PTest3 500 (two_start 2) [] true)
    eq_refl eq_refl)).
  refine (steps_loop 4 _ _ _ sample_to_quiet (step_debounce_quiet
    (at_place 0 false (PDebounce 0) 500 (two_start 2) [] true) 0 eq_refl eq_refl _)).
  cbn. lia.
Qed.

Lemma sample_reachable n s :
  sample_steps n (@enter two_links (running 1 false) 0 (two_start 2)) s ->
  @reachable glibc linux_uapi two_links two_host small_pipe s.
Proof.
  intros St. exists (@enter two_links (running 1 false) 0 (two_start 2)), n. split; [|done].
  exists good_env, sample_watch, (running 1 false), 0%Z, (two_start 2).
  split_and!; [reflexivity|exact sample_idle|reflexivity].
Qed.

Lemma watch_no_lost_wake_witness :
  l_seen (at_place 0 false PWait 500 sample_out [(0, 0)%Z] false) = false.
Proof.
  apply (@watch_no_lost_wake glibc linux_uapi two_links two_host small_pipe
    (at_place 0 false PWait 500 sample_out [(0, 0)%Z] false)).
  - exact (sample_reachable _ _ sample_to_wait).
  - reflexivity.
  - reflexivity.
Defined.

Lemma watch_runs_eventually_witness :
  @eventually glibc linux_uapi two_links two_host (@fresh_run two_links)
    (at_place 0 false (PDebounce 0) 500 (two_start 2) [] true).
Proof.
  apply (@watch_runs_eventually glibc linux_uapi two_links two_host small_pipe).
  - exact (sample_reachable _ _ sample_to_quiet).
  - reflexivity.
  - reflexivity.
  - intros t E. discriminate E.
  - intros rc E. discriminate E.
Defined.

Lemma watch_debounced_witness : (0 + 500 <= 500)%Z.
Proof.
  apply (@watch_debounced glibc linux_uapi two_links two_host small_pipe
    (at_place 0 false (PDebounce 0) 500 (two_start 2) [] true)
    (at_place 0 false PTest3 500 (two_start 2) [] true)).
  - exact (sample_reachable _ _ sample_to_quiet).
  - refine (step_debounce_quiet (at_place 0 false (PDebounce 0) 500 (two_start 2) [] true)
      0 eq_refl eq_refl _). cbn. lia.
  - reflexivity.
  - reflexivity.
Defined.

(** A signal arrives while the loop waits. *)
Lemma sample_to_stop :
  sample_steps 8 (@enter two_links (running 1 false) 0 (two_start 2))
    (at_place 1 true PWait 500 sample_out [(0, 0)%Z] false).
Proof. exact (steps_env 8 _ _ _ sample_to_wait (env_signal _)). Qed.

(** After the signal the loop ends. *)
Lemma sample_stop_end :
  sample_steps 3 (at_place 1 true PWait 500 sample_out [(0, 0)%Z] false)
    (at_place 0 true (PEnd 0) 500 sample_out [(0, 0)%Z] false).
Proof.
  refine (steps_loop 2 _ _ _ _ (step_test_stop
    (at_place 0 true PTest 500 sample_out [(0, 0)%Z] false) eq_refl eq_refl)).
  refine (steps_loop 1 _ _ _ _ (step_drain
    (at_place 1 true PDrain 500 sample_out [(0, 0)%Z] false) eq_refl)).
  refine (steps_loop 0 _ _ _ (steps_refl _) (step_wait
    (at_place 1 true PWait 500 sample_out [(0, 0)%Z] false) eq_refl _)).
  cbn. lia.
Qed.

Lemma watch_stop_terminates_witness : 3 <= 4.
Proof.
  apply (@watch_stop_terminates glibc linux_uapi two_links two_host small_pipe
    (at_place 1 true PWait 500 sample_out [(0, 0)%Z] false)) with
    (s' := at_place 0 true (PEnd 0) 500 sample_out [(0, 0)%Z] false).
  - exact (sample_reachable _ _ sample_to_stop).
  - reflexivity.
  - exact sample_stop_end.
Defined.

Lemma steps_trans n m (s1 s2 s3 : lst) :
  sample_steps n s1 s2 -> sample_steps m s2 s3 -> sample_steps (m + n) s1 s3.
Proof.
  intros St. induction 1 as [s|k s1' s2' s3' _ IH Sl|k s1' s2' s3' _ IH Se]; [done| |].
  - by eapply steps_loop; [apply IH|].
  - by eapply steps_env; [apply IH|].
Qed.

Lemma watch_loop_cleanup_witness :
  idle (watch_cleanup_runtime good_env (running 0 true)).
Proof.
  apply (@watch_loop_cleanup glibc linux_uapi two_links two_host small_pipe good_env
    sample_watch (watch_cleanup_runtime good_env (running 0 true)) 0 (two_start 2) 0).
  - exact sample_idle.
  - exact (loop_runs good_env sample_watch 0 (two_start 2) (running 1 false) 11
      (at_place 0 true (PEnd 0) 500 sample_out [(0, 0)%Z] false) 0 eq_refl
      (steps_trans 8 3 _ _ _ sample_to_stop sample_stop_end) eq_refl).
Defined.
