(* ===== verification/Iproute.v ===== *)
(** The machine a run acts on, as far as the commands of verify.c need it: what
    can be true of the kernel's tables ([fact]), the commands the program
    builds ([ip_cmd]), what [ip] does with them according to its documentation
    ([ip_pre], [ip_post], [ip_keeps]), and the class of machines on which they
    work ([Iproute]). *)
From S2P Require Import Prelude CLib CfgPath CfgTree CfgFile State Yaml Verify.
From S2P Require Import UciDb UciBuild UciExport Netlink NetlinkSpec Run.

(** ** Addresses *)

(** The first octet of an address that another host can have. *)
Definition unicast (a : Z) : Prop :=
  (1 <= ntohl a / 2 ^ 24 <= 223)%Z /\ (ntohl a / 2 ^ 24 <> 127)%Z.

(** Two addresses in one network of [p] bits; a network without host bits. *)
Definition same_net (a b p : Z) : Prop :=
  (ntohl a / 2 ^ (32 - p) = ntohl b / 2 ^ (32 - p))%Z.
Definition host_zero (a p : Z) : Prop := (ntohl a mod 2 ^ (32 - p) = 0)%Z.

(** The network of an address and its broadcast address. *)
Definition net_of (a p : Z) : Z := ntohl (ntohl a / 2 ^ (32 - p) * 2 ^ (32 - p)).
Definition bcast_of (a p : Z) : Z :=
  ntohl (ntohl a / 2 ^ (32 - p) * 2 ^ (32 - p) + (2 ^ (32 - p) - 1)).

(** The addresses that no gateway can have once [a]/[p] is configured. *)
Definition taken (a p : Z) : list Z :=
  a :: if (p <=? 30)%Z then [net_of a p; bcast_of a p] else [].

(** ** Facts *)

Inductive fact :=
| FLink (n : cstr)
| FUp (n : cstr)
| FKind (n k : cstr)
| FMember (n b : cstr)
| FAddr (n : cstr) (a p : Z)
| FAnyAddr (n : cstr)
| FRoute (dst p : Z) (dev : cstr) (gw : option Z)
| FDns (a : Z)
| FVlan (n : cstr) (id : Z) (link : cstr)
| FVxlan (n : cstr) (vni remote : Z) (dev : cstr)
| FFloat (n : cstr)
| FAbsent (n : cstr)
| FNoAddr (n : cstr) (a p : Z)
| FNoNet (n : cstr) (d p : Z)
| FForeign (a : Z)
| FNoHop (a q : Z)
| FNoVlan (n link : cstr) (id : Z)
| FNoVxlan (n : cstr) (vni : Z)
| FDeletable (n : cstr).

#[export] Instance fact_eq : EqDecision fact.
Proof. solve_decision. Defined.

(** The kinds [ip link del] removes without removing another link with it. *)
Definition deletable_kinds : list cstr :=
  [ #"bridge"; #"dummy"; #"vlan"; #"vxlan"; #"wireguard"].

(** Nothing is built on the link with index [i], and it has no address. *)
Definition bare (rs : real_state) (i : Z) : Prop :=
  Forall (fun a => a4_ifindex a <> i) (rs_addr4 rs) /\
  Forall (fun v => vl_link v <> i) (rs_vlan rs) /\
  Forall (fun v => vxl_link v <> i) (rs_vxlan rs) /\
  Forall (fun x => if_has_link x = true -> if_link x <> i) (rs_ifaces rs).

(** [FFloat]: a VXLAN without a lower device.  [FForeign]: not an address of
    the machine, nor the network or broadcast address of one.  [FNoHop]: no
    route through a gateway, to a network of [q] bits or more, leads to [a]. *)
Definition holds (rs : real_state) (f : fact) : Prop :=
  match f with
  | FLink n => is_Some (rs_find_iface rs n)
  | FUp n => up_sat rs n
  | FKind n k => exists i, rs_find_iface rs n = Some i /\ if_kind i = k
  | FMember n b => member_sat rs n b
  | FAddr n a p => exists i, rs_find_iface rs n = Some i /\
      Addr4 (if_ifindex i) a p ∈ rs_addr4 rs
  | FAnyAddr n => exists i a, rs_find_iface rs n = Some i /\
      a ∈ rs_addr4 rs /\ a4_ifindex a = if_ifindex i
  | FRoute dst p dev gw => exists i, rs_find_iface rs dev = Some i /\
      has_route rs dst p i gw
  | FDns a => a ∈ rs_dns4 rs
  | FVlan n id link => exists v l, rs_find_vlan rs n = Some v /\
      vl_has_id v = true /\ vl_id v = id /\ rs_find_iface rs link = Some l /\
      vl_has_link v = true /\ vl_link v = if_ifindex l
  | FVxlan n vni remote dev => exists v, rs_find_vxlan rs n = Some v /\
      vxl_has_vni v = true /\ vxl_vni v = vni /\
      vxl_has_remote v = true /\ vxl_remote v = remote /\
      (dev <> [] -> exists l, rs_find_iface rs dev = Some l /\
        vxl_has_link v = true /\ vxl_link v = if_ifindex l)
  | FFloat n => exists v, rs_find_vxlan rs n = Some v /\ vxl_has_link v = false
  | FAbsent n => rs_find_iface rs n = None /\ rs_find_vlan rs n = None /\
      rs_find_vxlan rs n = None
  | FNoAddr n a p => forall i, rs_find_iface rs n = Some i ->
      Addr4 (if_ifindex i) a p ∉ rs_addr4 rs
  | FNoNet n d p => forall i, rs_find_iface rs n = Some i ->
      Forall (fun x => a4_ifindex x = if_ifindex i -> a4_prefix x = p -> net_of (a4_addr x) p <> d)
        (rs_addr4 rs)
  | FForeign a => Forall (fun x => a ∉ taken (a4_addr x) (a4_prefix x)) (rs_addr4 rs)
  | FNoHop a q => Forall (fun r => r4_has_gw r = true -> (q <= r4_prefix r)%Z ->
      ~ same_net (r4_dst r) a (r4_prefix r)) (rs_route4 rs)
  | FNoVlan n link id => exists l, rs_find_iface rs link = Some l /\
      Forall (fun v => vl_ifname v = n \/ ~ (vl_id v = id /\ vl_link v = if_ifindex l))
        (rs_vlan rs)
  | FNoVxlan n vni => Forall (fun v => vxl_ifname v = n \/ vxl_vni v <> vni) (rs_vxlan rs)
  | FDeletable n => exists i, rs_find_iface rs n = Some i /\
      if_kind i ∈ deletable_kinds /\ bare rs (if_ifindex i)
  end.

(** The interfaces a fact is about, without which it does not hold. *)
Definition names (f : fact) : list cstr :=
  match f with
  | FLink n | FUp n | FKind n _ | FAddr n _ _ | FAnyAddr n | FFloat n => [n]
  | FMember n b => [n; b]
  | FRoute _ _ dev _ => [dev]
  | FVlan n _ link => [n; link]
  | FVxlan n _ _ dev => [n; dev]
  | FNoVlan _ link _ => [link]
  | FDns _ | FAbsent _ | FNoAddr _ _ _ | FNoNet _ _ _ | FForeign _ | FNoHop _ _
  | FNoVxlan _ _ | FDeletable _ => []
  end.

(** ** Texts *)

(** A name the kernel accepts for an interface. *)
Record ifname (n : cstr) : Prop := {
  in_fits : fits IFNAMSIZ n;
  in_ne : n <> [];
  in_cstr : cstring n;
  in_sep : Forall (fun c => is_sep c = false) n
}.

Definition name_char (c : ascii) : bool :=
  isalnum c || Ascii.eqb c "-" || Ascii.eqb c ".".

(** A name that [ip] takes for a name wherever it stands: letters, digits,
    hyphens and dots, a letter first, and a digit or a hyphen in it, which the
    keywords of [ip link] and their abbreviations have not, those that begin with
    [link-] or [netns-] apart. *)
Record ip_name (n : cstr) : Prop := {
  ipn_fits : fits IFNAMSIZ n;
  ipn_start : isalpha (peek n) = true;
  ipn_chars : Forall (fun c => name_char c = true) n;
  ipn_mark : Exists (fun c => isdigit c || Ascii.eqb c "-" = true) n;
  ipn_link : strip_prefix (#"link-") n = None /\ strip_prefix (#"netns-") n = None
}.

(** An argument that survives [cmd_split]. *)
Definition word (s : cstr) : Prop := s <> [] /\ Forall (fun c => is_sep c = false) s.

(** [t] spells the network [a]/[p] without leading zeros or signs. *)
Definition prefix_text (t : cstr) (a p : Z) : Prop :=
  (0 <= p <= 32)%Z /\
  exists x, inet_pton x = Some a /\ t = x ++ "/"%char :: fmt_u p.

(** ** Commands *)

(** [conn] of [IpAddr]: the address is the first of its network on an interface
    that is up, so that the kernel adds the route to the network. *)
Inductive ip_cmd :=
| IpUp (n : cstr)
| IpAddBridge (n : cstr)
| IpMaster (n b : cstr)
| IpAddr (text : cstr) (a p : Z) (n : cstr) (conn : bool)
| IpRoute (text : cstr) (dst p : Z) (via : option (cstr * Z)) (dev : cstr)
| IpAddVlan (link n : cstr) (id : Z)
| IpAddVxlan (n : cstr) (vni : Z) (text : cstr) (remote : Z) (dev : cstr)
| IpDel (n : cstr).

Definition argv_of (c : ip_cmd) : list cstr :=
  match c with
  | IpUp n => [ #"ip"; #"link"; #"set"; n; #"up"]
  | IpAddBridge n => [ #"ip"; #"link"; #"add"; n; #"type"; #"bridge"]
  | IpMaster n b => [ #"ip"; #"link"; #"set"; n; #"master"; b]
  | IpAddr text _ _ n _ => [ #"ip"; #"addr"; #"add"; text; #"dev"; n]
  | IpRoute text _ _ via dev =>
    [ #"ip"; #"route"; #"replace"; text] ++
    match via with Some (t, _) => [ #"via"; t] | None => [] end ++ [ #"dev"; dev]
  | IpAddVlan link n id =>
    [ #"ip"; #"link"; #"add"; #"link"; link; #"name"; n; #"type"; #"vlan"; #"id"; fmt_u id]
  | IpAddVxlan n vni text _ dev =>
    [ #"ip"; #"link"; #"add"; n; #"type"; #"vxlan"; #"id"; fmt_u vni; #"remote"; text] ++
    if bool_decide (dev = []) then [] else [ #"dev"; dev]
  | IpDel n => [ #"ip"; #"link"; #"del"; n]
  end.

(** Links that carry Ethernet frames and are built on no other: devices without
    a kind (wired Ethernet ports, and lo, which every rule excludes) and two
    virtual ones.  A VXLAN can also be built on a wireguard tunnel. *)
Definition wired_kinds : list cstr := [ []; #"dummy"; #"veth"].
Definition lower_kinds : list cstr := #"wireguard" :: wired_kinds.

(** Links that come up whatever the others do; a VLAN needs its link up. *)
Definition solo_kinds : list cstr := #"bridge" :: #"vxlan" :: lower_kinds.

Section Preconditions.

(** What is known of the machine. *)
Context (h : fact -> Prop).

Definition of_kind (ks : list cstr) (n : cstr) : Prop :=
  n <> #"lo" /\ exists k, k ∈ ks /\ h (FKind n k).

Definition can_up (n : cstr) : Prop :=
  of_kind solo_kinds n \/ exists id link, h (FVlan n id link) /\ h (FUp link).

(** Not built, over other links, on a bridge. *)
Definition can_port (n : cstr) : Prop :=
  of_kind wired_kinds n \/
  (exists id link, h (FVlan n id link) /\ of_kind wired_kinds link) \/
  (exists vni r dev, h (FVxlan n vni r dev) /\ dev <> [] /\ of_kind lower_kinds dev) \/
  h (FFloat n).

(** The gateway [g] is in a network that is directly reachable over [dev], and
    no other gateway stands before it. *)
Definition can_gateway (dev : cstr) (g : Z) : Prop :=
  unicast g /\ h (FForeign g) /\
  exists d q, (0 <= q <= 32)%Z /\ same_net d g q /\ h (FRoute d q dev None) /\
    h (FNoHop g q).

End Preconditions.

(** When the command succeeds. *)
Definition ip_pre (c : ip_cmd) (rs : real_state) : Prop :=
  match c with
  | IpUp n => ip_name n /\ can_up (holds rs) n
  | IpAddBridge n => ip_name n /\ holds rs (FAbsent n)
  | IpMaster n b => ip_name n /\ can_port (holds rs) n /\ holds rs (FKind b (#"bridge"))
  | IpAddr text a p n conn =>
    prefix_text text a p /\ unicast a /\ holds rs (FLink n) /\ holds rs (FNoAddr n a p) /\
    (conn = true -> n <> #"lo" /\ (8 <= p <= 30)%Z /\ holds rs (FUp n) /\
       holds rs (FNoNet n (net_of a p) p))
  | IpRoute text dst p via dev =>
    prefix_text text dst p /\ (dst = 0%Z /\ p = 0%Z \/ unicast dst) /\ host_zero dst p /\
    dev <> #"lo" /\ holds rs (FUp dev) /\
    match via with
    | None => True
    | Some (t, g) => inet_pton t = Some g /\ can_gateway (holds rs) dev g
    end
  | IpAddVlan link n id =>
    ip_name n /\ (1 <= id <= 4094)%Z /\ of_kind (holds rs) wired_kinds link /\
    holds rs (FAbsent n) /\ holds rs (FNoVlan n link id)
  | IpAddVxlan n vni text remote dev =>
    ip_name n /\ (0 <= vni < 2 ^ 24)%Z /\ inet_pton text = Some remote /\ unicast remote /\
    (dev <> [] -> of_kind (holds rs) lower_kinds dev) /\
    holds rs (FAbsent n) /\ holds rs (FNoVxlan n vni)
  | IpDel n => ip_name n /\ holds rs (FDeletable n)
  end.

(** What is true afterwards. *)
Definition ip_post (c : ip_cmd) : list fact :=
  match c with
  | IpUp n => [FUp n]
  | IpAddBridge n => [FLink n; FKind n (#"bridge")]
  | IpMaster n b => [FMember n b]
  | IpAddr _ a p n conn => FAddr n a p :: if conn then [FRoute (net_of a p) p n None] else []
  | IpRoute _ dst p via dev => [FRoute dst p dev (snd <$> via)]
  | IpAddVlan link n id => [FLink n; FKind n (#"vlan"); FVlan n id link]
  | IpAddVxlan n vni _ remote dev =>
    [FLink n; FKind n (#"vxlan"); FVxlan n vni remote dev] ++
    if bool_decide (dev = []) then [FFloat n] else []
  | IpDel n => [FAbsent n]
  end.

(** The facts the command uses up.  Which name the VLAN or VXLAN has makes no
    difference there: a tag of a link and a VNI are taken by one. *)
Definition ip_spends (c : ip_cmd) : list fact :=
  match c with
  | IpAddBridge n => [FAbsent n]
  | IpAddr _ a p n _ =>
    [FNoAddr n a p; FNoNet n (net_of a p) p; FDeletable n] ++ map FForeign (taken a p)
  | IpAddVlan link n id => [FAbsent n; FNoVlan [] link id; FDeletable link]
  | IpAddVxlan n vni _ _ dev => [FAbsent n; FNoVxlan [] vni; FDeletable dev]
  | IpDel n => [FDeletable n]
  | _ => []
  end.

Definition cost (f : fact) : fact :=
  match f with
  | FNoVlan _ link id => FNoVlan [] link id
  | FNoVxlan _ vni => FNoVxlan [] vni
  | _ => f
  end.

(** What stays true: an interface has one master, a destination one route that
    a command sets, and a deleted interface takes with it what is about it. *)
Definition ip_keeps (c : ip_cmd) (f : fact) : Prop :=
  (cost f ∉ ip_spends c) /\
  match c, f with
  | IpMaster n b, FMember n' b' => n = n' -> b = b'
  | IpRoute _ dst p via dev, FRoute dst' p' dev' gw' =>
    dst = dst' -> p = p' -> dev = dev' /\ snd <$> via = gw'
  | IpRoute _ dst p (Some _) _, FNoHop a q => (p < q)%Z \/ ~ same_net dst a p
  | IpDel n, _ => n ∉ names f
  | _, _ => True
  end.

(** ** Machines *)

(** [roomy n w]: the snapshot of [w] succeeds, its tables have room for what
    [n] more commands add, and [w] is a machine of the ordinary kind, of which
    the tables show only a part.  The program runs with the privileges the
    commands need and nothing else changes the network; the kernel has the
    drivers for bridges, VLANs and VXLANs, and the UDP ports of its tunnels are
    free.  Links without a kind, lo apart, are wired Ethernet ports that work and
    that nothing but a bridge takes frames from; no link has an alternative name.
    Routes of the main table are plain: link scope without a gateway, no
    blackholes, none that was set by hand stands behind another of its
    destination; the routing rules are the default ones. *)
Class Iproute `{Uapi} `{Host} := {
  tables : world -> real_state;
  roomy : nat -> world -> Prop;
  roomy_less n w : roomy (S n) w -> roomy n w;
  ip_load n w msg out :
    roomy n w -> load_real (Rst _ w msg out) = Done (0%Z, tables w, Rst _ w msg out);
  ip_names n w name i :
    roomy n w -> rs_find_iface (tables w) name = Some i -> ifname name;
  ip_run n w c :
    roomy (S n) w -> ip_pre c (tables w) ->
    exists intr w', spawn (argv_of c) w = (Waited intr (inr (Exited 0)), w') /\
      roomy n w' /\ Forall (holds (tables w')) (ip_post c) /\
      forall f, ip_keeps c f -> holds (tables w) f -> holds (tables w') f
}.

(** ** Lemmas *)

(** *** Addresses *)

Definition dotted_char (c : ascii) : bool := isdigit c || Ascii.eqb c ".".

Lemma pton_octet_text s v r :
  pton_octet s = Some (v, r) ->
  exists d, s = d ++ r /\ 0 < length d <= 3 /\ Forall (fun c => dotted_char c = true) d.
Proof.
  unfold pton_octet. intros E.
  destruct (take_while isdigit (take 3 s)) as [|d ds] eqn:Et; [done|].
  destruct (_ && _); [done|]. destruct (_ >? _)%Z; [done|]. injection E as _ <-.
  assert (Hd : take 3 s = (d :: ds) ++ drop_while isdigit (take 3 s)).
  { rewrite <- Et. symmetry. apply take_drop_while. }
  assert (Hl : length (d :: ds) <= 3).
  { apply (f_equal length) in Hd. rewrite length_app, length_take in Hd. lia. }
  exists (d :: ds). split_and!; [|cbn; lia|done|].
  - rewrite <- (take_drop (length (d :: ds)) s) at 1. f_equal.
    transitivity (take (length (d :: ds)) (take 3 s)).
    + rewrite take_take. f_equal. lia.
    + rewrite Hd. apply take_app_length.
  - rewrite <- Et. eapply Forall_impl; [apply take_while_Forall|].
    intros c Hc. cbn in Hc. unfold dotted_char. by rewrite Hc.
Qed.

Lemma eat_text c s r : eat c s = Some r -> s = c :: r.
Proof.
  destruct s as [|x s]; [done|]. cbn. destruct (Ascii.eqb_spec x c); [|done]. by intros [= ->]; subst.
Qed.

(** A dotted quad is short and has no other characters. *)
Lemma inet_pton_text s a :
  inet_pton s = Some a ->
  s <> [] /\ length s <= 15 /\ Forall (fun c => dotted_char c = true) s.
Proof.
  unfold inet_pton. intros E.
  repeat match type of E with
  | context [pton_octet ?t] =>
    let d := fresh "d" in let Hl := fresh "Hl" in let Hd := fresh "Hd" in
    let Eo := fresh "Eo" in
    destruct (pton_octet t) as [[? ?]|] eqn:Eo; [|done]; cbn [mbind option_bind] in E;
    apply pton_octet_text in Eo as (d & -> & Hl & Hd)
  | context [eat ?c ?t] =>
    let Ea := fresh "Ea" in
    destruct (eat c t) eqn:Ea; [|done]; cbn [mbind option_bind] in E;
    apply eat_text in Ea as ->
  end.
  match type of E with match ?r with _ => _ end = _ => destruct r; [|done] end. split_and!.
  - destruct d; [cbn in Hl; lia|done].
  - rewrite !length_app. cbn [length]. rewrite !length_app. cbn [length].
    rewrite !length_app. cbn [length]. rewrite length_app. cbn [length]. lia.
  - rewrite !Forall_app, !Forall_cons, !Forall_app, !Forall_cons, !Forall_app, !Forall_cons,
      Forall_app. by split_and!.
Qed.

Lemma dotted_not c d : dotted_char c = true -> dotted_char d = false -> c <> d.
Proof. intros ? ? ->. congruence. Qed.

Lemma fmt_small_text n : (0 <= n <= UINT32_MAX)%Z ->
  fmt_u n <> [] /\ length (fmt_u n) <= 20 /\ Forall (fun c => dotted_char c = true) (fmt_u n).
Proof.
  intros Hn. destruct (fmt_u_spec n) as ((Hd & _ & _ & Hne) & Hl);
    [unfold UINT32_MAX, ULONG_MAX in *; lia|].
  split_and!; [done..|]. eapply Forall_impl; [exact Hd|]. intros c Hc. unfold dotted_char.
  by rewrite Hc.
Qed.

(** The 33 prefix lengths. *)
Lemma prefix_fmt p : (0 <= p <= 32)%Z ->
  strtol10 (fmt_u p) = Strto p [] true false /\ length (fmt_u p) <= 2.
Proof.
  intros Hp.
  assert (A : Forall (fun n => strtol10 (fmt_u (Z.of_nat n)) = Strto (Z.of_nat n) [] true false /\
                length (fmt_u (Z.of_nat n)) <= 2) (seq 0 33))
    by (repeat (constructor; [split; [reflexivity|compute_decide]|]); constructor).
  rewrite Forall_forall in A. rewrite <- (Z2Nat.id p) by lia. apply A, elem_of_seq. lia.
Qed.

Lemma prefix_text_text t a p :
  prefix_text t a p ->
  t <> [] /\ length t <= 20 /\ Forall (fun c => dotted_char c = true \/ c = "/"%char) t.
Proof.
  intros (Hp & x & Hx & ->). apply inet_pton_text in Hx as (Hne & Hl & Hx).
  destruct (fmt_small_text p) as (_ & _ & Hpt); [unfold UINT32_MAX; lia|].
  destruct (prefix_fmt p Hp) as [_ Hpl].
  split_and!.
  - by destruct x.
  - rewrite length_app. cbn [length]. lia.
  - apply Forall_app. split; [|constructor; [by right|]].
    + eapply Forall_impl; [exact Hx|]. by left.
    + eapply Forall_impl; [exact Hpt|]. by left.
Qed.

(** The program reads such a text as [ip] does. *)
Lemma parse_prefix_text `{Libc} t a p : prefix_text t a p -> parse_addr_prefix t = Ok (a, p).
Proof.
  intros Ht. pose proof (prefix_text_text t a p Ht) as (Hne & Hl & _).
  destruct Ht as (Hp & x & Hx & Et). unfold parse_addr_prefix.
  destruct t as [|c t]; [done|]. rewrite Et in *.
  unfold snprintf. rewrite take_ge by lia. rewrite strchr_app.
  - rewrite Hx, (proj1 (prefix_fmt p Hp)). unfold strto_errno. cbn.
    rewrite (proj2 (Z.ltb_ge _ _)) by lia. destruct (Z.gtb_spec p 32); [lia|]. done.
  - apply inet_pton_text in Hx as (_ & _ & Hx). intros Hin.
    rewrite Forall_forall in Hx. by apply Hx in Hin.
Qed.

(** *** Command lines *)

Fixpoint unwords (ws : list cstr) : cstr :=
  match ws with
  | [] => []
  | [w] => w
  | w :: ws' => w ++ " "%char :: unwords ws'
  end.

Lemma words_unwords ws : Forall word ws -> words (unwords ws) = ws.
Proof.
  unfold words. induction 1 as [|w ws [Hne Hw] Hws IH]; [done|].
  assert (Hn : Forall (fun c => negb (is_sep c) = true) w)
    by (eapply Forall_impl; [exact Hw|]; intros c Hc; cbn in Hc; by rewrite Hc).
  destruct ws as [|w' ws'].
  - cbn [unwords]. rewrite <- (app_nil_r w) at 1. rewrite words_from_run by done. by destruct w.
  - change (unwords (w :: w' :: ws')) with (w ++ " "%char :: unwords (w' :: ws')).
    rewrite words_from_run by done. cbn [app words_from is_sep].
    rewrite IH. by destruct w.
Qed.

Lemma dotted_sep c : dotted_char c = true \/ c = "/"%char -> is_sep c = false.
Proof.
  unfold dotted_char, is_sep. intros [Hc| ->]; [|done].
  destruct (Ascii.eqb_spec c " ") as [->|]; [done|].
  destruct (Ascii.eqb_spec c TAB) as [->|]; [done|]. done.
Qed.

Lemma word_dotted s : s <> [] -> Forall (fun c => dotted_char c = true \/ c = "/"%char) s -> word s.
Proof. intros Hne Hs. split; [done|]. eapply Forall_impl; [exact Hs|]. apply dotted_sep. Qed.

Lemma word_pton s a : inet_pton s = Some a -> word s /\ length s <= 15.
Proof.
  intros (Hne & Hl & Hs)%inet_pton_text. split; [|done]. apply word_dotted; [done|].
  eapply Forall_impl; [exact Hs|]. by left.
Qed.

Lemma word_fmt n : (0 <= n <= UINT32_MAX)%Z -> word (fmt_u n) /\ length (fmt_u n) <= 20.
Proof.
  intros (Hne & Hl & Hs)%fmt_small_text. split; [|done]. apply word_dotted; [done|].
  eapply Forall_impl; [exact Hs|]. by left.
Qed.

Lemma word_prefix t a p : prefix_text t a p -> word t /\ length t <= 20.
Proof. intros (Hne & Hl & Hs)%prefix_text_text. split; [by apply word_dotted|done]. Qed.

Lemma word_ifname n : ifname n -> word n /\ length n <= 15.
Proof. intros [Hf ? _ ?]. split; [done|]. unfold fits, IFNAMSIZ in Hf. lia. Qed.

Lemma name_char_facts : forall c, name_char c = true -> negb (is_sep c) && negb (Ascii.eqb c NUL) = true.
Proof. byte_impl. Qed.

Lemma ip_name_ifname n : ip_name n -> ifname n.
Proof.
  intros [Hf Hs Hc _ _]. constructor; [done|by destruct n| |].
  - eapply Forall_impl; [exact Hc|]. intros c [_ H]%name_char_facts%andb_true_iff.
    by apply negb_true_iff, Ascii.eqb_neq in H.
  - eapply Forall_impl; [exact Hc|]. intros c [H _]%name_char_facts%andb_true_iff.
    by apply negb_true_iff in H.
Qed.

Lemma ip_name_lo n : ip_name n -> n <> #"lo".
Proof. intros [_ _ _ Hm _] ->. revert Hm. compute_decide. Qed.

Lemma starts_hash_ip ws : starts_hash (unwords (#"ip" :: ws)) = false.
Proof. by destruct ws. Qed.

(** The shape of every command: [ip] first, few words, short ones. *)
Definition short_argv (argv : list cstr) : Prop :=
  exists ws, argv = #"ip" :: ws /\ length argv < 32 /\ Forall word argv /\
    length (unwords argv) < 256.

Section Exec.
Context `{Sys}.

(** What [cmd_exec] starts for such a command line. *)
Lemma cmd_exec_unwords argv w intr w' :
  short_argv argv -> spawn argv w = (Waited intr (inr (Exited 0)), w') ->
  cmd_exec (unwords argv) w = (0%Z, w').
Proof.
  intros (ws & -> & Hn & Hw & Hl) Hs. unfold cmd_exec. rewrite starts_hash_ip.
  unfold snprintf. rewrite take_ge by lia.
  rewrite cmd_split_spec by lia. rewrite words_unwords by done.
  rewrite (proj2 (Nat.ltb_lt _ _)) by lia. rewrite Hs.
  f_equal. clear. by induction intr.
Qed.

Lemma act_unwords argv s intr w' :
  short_argv argv -> v_apply s = true ->
  spawn argv (v_world s) = (Waited intr (inr (Exited 0)), w') ->
  let s' := snd (act (unwords argv) s) in
  v_apply s' = true /\ v_act_fail s' = v_act_fail s /\ v_world s' = w'.
Proof.
  intros Ha Hap Hs. unfold act. destruct Ha as (ws & -> & Hn & Hw & Hl).
  unfold snprintf. rewrite take_ge by lia. cbn zeta. rewrite starts_hash_ip, orb_false_r.
  change (v_apply (s <| v_out ::= _ |>)) with (v_apply s). rewrite Hap. cbn [negb].
  change (v_world (s <| v_out ::= _ |>)) with (v_world s).
  rewrite (cmd_exec_unwords _ _ intr w') by (done || by exists ws).
  done.
Qed.

End Exec.

Lemma length_unwords ws : length (unwords ws) <= sum_list_with (fun w => S (length w)) ws.
Proof.
  induction ws as [|w [|w' ws] IH]; [cbn; lia|cbn; lia|].
  change (unwords (w :: w' :: ws)) with (w ++ " "%char :: unwords (w' :: ws)).
  change (sum_list_with _ (w :: w' :: ws)) with
    (S (length w) + sum_list_with (fun w => S (length w)) (w' :: ws)).
  rewrite length_app. cbn [length] in *. lia.
Qed.

(** A few words of at most 20 characters each. *)
Lemma short_argv_intro ws :
  length ws < 12 -> Forall (fun w => word w /\ length w <= 20) ws ->
  short_argv (#"ip" :: ws).
Proof.
  intros Hn Hw. exists ws. split_and!; [done|cbn; lia| |].
  - constructor; [by split; [|compute_decide]|]. eapply Forall_impl; [exact Hw|]. by intros w [].
  - pose proof (length_unwords (#"ip" :: ws)) as L.
    change (sum_list_with _ (#"ip" :: ws)) with (3 + sum_list_with (fun w => S (length w)) ws) in L.
    assert (sum_list_with (fun w => S (length w)) ws <= 21 * length ws).
    { clear L Hn. induction Hw as [|w ws [_ Hl] _ IH]; cbn; lia. }
    lia.
Qed.

Section Machine.
Context `{Iproute}.

Lemma linked_word n w name :
  roomy n w -> holds (tables w) (FLink name) -> word name /\ length name <= 20.
Proof.
  intros Hr [i Hi]. destruct (word_ifname name); [by eapply ip_names|]. split; [done|lia].
Qed.

Lemma up_link rs name : holds rs (FUp name) -> holds rs (FLink name).
Proof. intros (i & Hi & _). by exists i. Qed.

Lemma kind_link rs name k : holds rs (FKind name k) -> holds rs (FLink name).
Proof. intros (i & Hi & _). by exists i. Qed.

Lemma of_kind_link rs ks name : of_kind (holds rs) ks name -> holds rs (FLink name).
Proof. intros (_ & k & _ & Hk). by apply (kind_link rs name k). Qed.

Lemma argv_short n w c : roomy n w -> ip_pre c (tables w) -> short_argv (argv_of c).
Proof.
  intros Hr Hp.
  assert (L : forall name, holds (tables w) (FLink name) -> word name /\ length name <= 20)
    by (intros; by eapply linked_word).
  assert (I : forall name, ip_name name -> word name /\ length name <= 20)
    by (intros name Hi; destruct (word_ifname name (ip_name_ifname name Hi)); split; [done|lia]).
  assert (P : forall t a, inet_pton t = Some a -> word t /\ length t <= 20)
    by (intros t a Ht; destruct (word_pton t a Ht); split; [done|lia]).
  destruct c as [m|m|m b|t a p m conn|t d p via m|l m id|m vni t r d|m]; cbn [argv_of].
  all: cbn [ip_pre] in Hp.
  all: try (destruct via as [[v g]|]); try (destruct (bool_decide_reflect (d = []))).
  all: cbn [app]; apply short_argv_intro; [cbn; lia|].
  all: destruct_and? Hp; repeat (apply Forall_cons; split); [..|by apply Forall_nil].
  all: try solve [split; [split; [done|compute_decide]|compute_decide]].
  all: eauto using up_link, kind_link, of_kind_link, word_prefix.
  all: apply word_fmt; unfold UINT32_MAX; lia.
Qed.

End Machine.
