(* ===== verification/Reach.v ===== *)
(** What the commands of verify.c achieve on a machine on which they work: the
    goals of a desired state as facts, what the machine must have for them to
    be reached ([state_ready]), and, for every check in the order in which the
    program makes them, what is true of the tables after its commands. *)
From S2P Require Import Prelude CLib CfgPath CfgTree CfgFile State Yaml Verify.
From S2P Require Import UciDb UciBuild UciExport Netlink NetlinkSpec Run Iproute.

(** ** What a state asks for *)

Section Goals.
Context `{Libc}.

Definition addr_goals (ds : desired_state) : list fact :=
  match br_addr_mode ds with
  | ADDR_NONE => []
  | ADDR_DHCP => [FAnyAddr (br_name ds)]
  | ADDR_STATIC =>
    match parse_addr_prefix (br_addr ds) with
    | Ok (a, p) => [FAddr (br_name ds) a p]
    | Err _ => []
    end
  end.

Definition gateway_goals (ds : desired_state) : list fact :=
  match inet_pton (br_gateway ds) with
  | Some gw => [FRoute 0 0 (br_name ds) (Some gw)]
  | None => []
  end.

Definition dns_goals (dns : cstr) : list fact :=
  match inet_pton dns with Some a => [FDns a] | None => [] end.

Definition port_goals (br n : cstr) : list fact := [FUp n; FMember n br].

Definition bridge_goals (ds : desired_state) : list fact :=
  [FKind (br_name ds) (#"bridge"); FUp (br_name ds)] ++ addr_goals ds ++ gateway_goals ds ++
  concat (map dns_goals (br_dns ds)) ++ concat (map (port_goals (br_name ds)) (br_ports ds)).

Definition peer_goals (ds : desired_state) : list fact :=
  match inet_pton (wg_peer_ip ds) with
  | Some ip => [FRoute ip 32 (wg_route_dev ds) None]
  | None => []
  end.

Definition vlan_goals (ds : desired_state) : list fact :=
  [FVlan (vlan_ifname ds) (vlan_id ds) (vlan_link ds); FUp (vlan_ifname ds);
   FMember (vlan_ifname ds) (vlan_bridge ds)].

Definition vxlan_goals (ds : desired_state) : list fact :=
  match inet_pton (vx_remote ds) with
  | Some r => [FVxlan (vx_ifname ds) (vx_vni ds) r (vx_dev ds)]
  | None => []
  end ++ [FUp (vx_ifname ds); FMember (vx_ifname ds) (vx_bridge ds)].

Definition uplink_goals (ds : desired_state) : list fact :=
  if bool_decide (up_ifname ds = []) then [] else [FUp (up_ifname ds)].

Definition route_goals (rt : desired_route4) : list fact :=
  match parse_addr_prefix (rt_dst rt) with
  | Ok (dst, p) =>
    [FRoute dst p (rt_dev rt) (if rt_has_via rt then inet_pton (rt_via rt) else None)]
  | Err _ => []
  end.

Definition scenario_goals (ds : desired_state) : list fact :=
  if bool_decide (scenario ds ∈ SCN_UPLINK) then [FUp (up_ifname ds)]
  else if bool_decide (scenario ds ∈ SCN_BRIDGE) then
    bridge_goals ds ++ port_goals (br_name ds) (up_ifname ds)
  else if bool_decide (scenario ds ∈ SCN_VLAN) then
    bridge_goals ds ++ FUp (up_ifname ds) :: vlan_goals ds
  else bridge_goals ds ++ uplink_goals ds ++ peer_goals ds ++ FUp (wg_ifname ds) :: vxlan_goals ds.

Definition goals (ds : desired_state) : list fact :=
  scenario_goals ds ++ concat (map route_goals (routes ds)).

(** What the commands of a state may use up. *)
Definition addr_spends (ds : desired_state) : list fact :=
  match br_addr_mode ds, parse_addr_prefix (br_addr ds) with
  | ADDR_STATIC, Ok (a, p) =>
    [FNoAddr (br_name ds) a p; FNoNet (br_name ds) (net_of a p) p; FDeletable (br_name ds)] ++
    map FForeign (taken a p)
  | _, _ => []
  end.

Definition bridge_spends (ds : desired_state) : list fact :=
  addr_spends ds ++ [FAbsent (br_name ds)].

Definition vlan_spends (ds : desired_state) : list fact :=
  [FAbsent (vlan_ifname ds); FNoVlan [] (vlan_link ds) (vlan_id ds);
   FDeletable (vlan_link ds); FDeletable (vlan_ifname ds)].

Definition vxlan_spends (ds : desired_state) : list fact :=
  [FAbsent (vx_ifname ds); FNoVxlan [] (vx_vni ds); FDeletable (vx_dev ds);
   FDeletable (vx_ifname ds)].

Definition spends (ds : desired_state) : list fact :=
  if bool_decide (scenario ds ∈ SCN_UPLINK) then []
  else if bool_decide (scenario ds ∈ SCN_BRIDGE) then bridge_spends ds
  else if bool_decide (scenario ds ∈ SCN_VLAN) then vlan_spends ds ++ bridge_spends ds
  else vxlan_spends ds ++ bridge_spends ds.

(** At most so many commands are run for a state. *)
Definition budget (ds : desired_state) : nat :=
  12 + 2 * length (br_ports ds) + length (routes ds).

End Goals.

(** ** Facts along a run *)

(** Facts that a command can use up: mostly that something is missing. *)
Definition transient (f : fact) : bool :=
  match f with
  | FAbsent _ | FNoAddr _ _ _ | FNoNet _ _ _ | FForeign _ | FNoVlan _ _ _
  | FNoVxlan _ _ | FDeletable _ => true
  | _ => false
  end.

(** Facts that can be displaced by another of their kind, or by a route. *)
Definition exclusive (f : fact) : bool :=
  match f with FMember _ _ | FRoute _ _ _ _ | FNoHop _ _ => true | _ => false end.

Definition compatible (f g : fact) : Prop :=
  match f, g with
  | FMember n b, FMember n' b' => n = n' -> b = b'
  | FRoute dst p dev gw, FRoute dst' p' dev' gw' =>
    dst = dst' -> p = p' -> dev = dev' /\ gw = gw'
  | FRoute dst p _ (Some _), FNoHop a q => (p < q)%Z \/ ~ same_net dst a p
  | _, _ => True
  end.

Section Steps.
Context `{Libc} `{Iproute}.

(** [rs] is the snapshot the verification works from, [extra] the routes to
    directly reachable networks that gateways rely on and that nothing stands
    before them, [wanted] those and the goals of all states of the set, and [doomed] are the interfaces that are
    deleted and created again. *)
Context (rs : real_state) (wanted extra : list fact) (doomed : list cstr).
Hypothesis extra_wanted : extra ⊆ wanted.
Hypothesis wanted_compatible : forall f g, f ∈ wanted -> g ∈ wanted -> compatible f g.

(** A fact no command of the run ends, apart from deletions. *)
Definition lasting (f : fact) : Prop :=
  transient f = false /\ (exclusive f = true -> f ∈ wanted).

(** A fact of the snapshot that is not about a doomed interface. *)
Definition intact (f : fact) : Prop := Forall (fun n => n ∉ doomed) (names f).
Definition sure (f : fact) : Prop := holds rs f /\ intact f.

Lemma sure_free f : names f = [] -> holds rs f -> sure f.
Proof. intros Hf. unfold sure, intact. by rewrite Hf. Qed.

(** [done] has been established and [spent] used up. *)
Definition inv (done spent : list fact) (w : world) : Prop :=
  (forall f, lasting f -> sure f \/ f ∈ done -> holds (tables w) f) /\
  (forall f, transient f = true -> sure f -> cost f ∉ spent -> holds (tables w) f).

Definition known (done : list fact) (f : fact) : Prop :=
  lasting f /\ (sure f \/ f ∈ done).

(** [n] is not in what has been established. *)
Definition untouched (n : cstr) (done : list fact) : Prop :=
  Forall (fun f => n ∉ names f) done.

(** [m] runs at most [k] commands, none of which fails, and takes [P] to
    [Q]. *)
Definition reaches {A} (k : nat) (P : world -> Prop) (Q : A -> world -> Prop) (m : V A)
  : Prop :=
  forall n s, v_apply s = true -> v_act_fail s = false -> roomy (k + n) (v_world s) ->
    P (v_world s) ->
    let '(a, s') := m s in
    v_apply s' = true /\ v_act_fail s' = false /\ roomy n (v_world s') /\ Q a (v_world s').

(** *** Rules *)

Lemma roomy_le n m w : n <= m -> roomy m w -> roomy n w.
Proof. induction 1; [done|]. intros Hr. by apply IHle, roomy_less. Qed.

Lemma reaches_le {A} k k' P Q (m : V A) : reaches k P Q m -> k <= k' -> reaches k' P Q m.
Proof.
  intros Hm Hk n s Ha Hf Hr. apply Hm; [done..|]. eapply roomy_le; [|exact Hr]. lia.
Qed.

Lemma reaches_conseq {A} k (P P' : world -> Prop) (Q Q' : A -> world -> Prop) (m : V A) :
  (forall w, P' w -> P w) -> (forall a w, Q a w -> Q' a w) ->
  reaches k P Q m -> reaches k P' Q' m.
Proof.
  intros HP HQ Hm n s Ha Hf Hr Hw. specialize (Hm n s Ha Hf Hr (HP _ Hw)).
  destruct (m s) as [a s']. destruct Hm as (? & ? & ? & ?). split_and!; auto.
Qed.

Lemma reaches_ret {A} (a : A) P (Q : A -> world -> Prop) :
  (forall w, P w -> Q a w) -> reaches 0 P Q (mret a).
Proof. intros HQ n s Ha Hf Hr Hw. cbn. by split_and!; [..|apply HQ]. Qed.

Lemma reaches_bind {A B} k1 k2 P Q (R : B -> world -> Prop) (m : V A) (f : A -> V B) :
  reaches k1 P Q m -> (forall a, reaches k2 (Q a) R (f a)) ->
  reaches (k1 + k2) P R (m ≫= f).
Proof.
  intros Hm Hf n s Ha Hx Hr Hw. rewrite <- Nat.add_assoc in Hr.
  specialize (Hm _ s Ha Hx Hr Hw). unfold mbind, V_bind. destruct (m s) as [a s1].
  destruct Hm as (A1 & A2 & A3 & A4). by apply Hf.
Qed.

Lemma reaches_ok msg P : reaches 0 P (fun _ => P) (ok msg).
Proof. intros n s Ha Hf Hr Hw. done. Qed.

Lemma reaches_miss msg P : reaches 0 P (fun _ => P) (miss msg).
Proof. intros n s Ha Hf Hr Hw. done. Qed.

Lemma reaches_ok_ret {A} msg (a : A) P :
  reaches 0 P (fun x w => x = a /\ P w) (_ ← ok msg; mret a).
Proof. intros n s Ha Hf Hr Hw. done. Qed.

Lemma reaches_miss_ret {A} msg (a : A) P :
  reaches 0 P (fun x w => x = a /\ P w) (_ ← miss msg; mret a).
Proof. intros n s Ha Hf Hr Hw. done. Qed.

Lemma reaches_ret_eq {A} (a : A) P : reaches 0 P (fun x w => x = a /\ P w) (mret a).
Proof. by apply reaches_ret. Qed.

Lemma reaches_pure {A} k (phi : Prop) P (Q : A -> world -> Prop) m :
  (phi -> reaches k P Q m) -> reaches k (fun w => phi /\ P w) Q m.
Proof. intros Hm n s Ha Hf Hr [Hp Hw]. by apply Hm. Qed.

(** *** Weakening *)

Lemma inv_known done spent w f : inv done spent w -> known done f -> holds (tables w) f.
Proof. intros [Hi _] [Hl Hk]. by apply Hi. Qed.

Lemma inv_weaken done spent done' spent' w :
  (forall f, f ∈ done' -> lasting f -> known done f) -> spent ⊆ spent' ->
  inv done spent w -> inv done' spent' w.
Proof.
  intros Hd Hs [Hp Hn]. split.
  - intros f Hl [Hr|Hf]; [by apply Hp; [|left]|]. apply Hp; [done|]. by apply Hd.
  - intros f Hf Hr Hin. apply Hn; [done..|]. intros Hc. by apply Hin, Hs.
Qed.

Lemma spends_transient c : Forall (fun f => transient f = true) (ip_spends c).
Proof.
  destruct c; repeat constructor. cbn. apply Forall_map, Forall_true. done.
Qed.

Lemma cost_transient f : transient (cost f) = transient f.
Proof. by destruct f. Qed.

Lemma spends_keeps c f : transient f = false -> cost f ∉ ip_spends c.
Proof.
  intros Hn Hf. pose proof (spends_transient c) as Hs. rewrite Forall_forall in Hs.
  apply Hs in Hf. rewrite cost_transient in Hf. congruence.
Qed.

Lemma lasting_keeps c f :
  Forall lasting (ip_post c) -> lasting f -> ip_keeps c f.
Proof.
  intros Hc [Hn He]. split; [by apply spends_keeps|].
  destruct c, f; try done; try (by destruct via); cbn [ip_post] in Hc;
    apply Forall_cons in Hc as [[Ht Hc] _]; try discriminate Ht.
  all: pose proof (wanted_compatible _ _ (Hc eq_refl) (He eq_refl)) as Hk; cbn in Hk;
    solve [done | by destruct via].
Qed.

Lemma transient_keeps c f :
  Forall lasting (ip_post c) -> transient f = true -> cost f ∉ ip_spends c -> ip_keeps c f.
Proof.
  intros Hc Hf Hs. split; [done|]. destruct c, f; try done; try (by destruct via);
    apply Forall_cons in Hc as [[Ht _] _]; discriminate Ht.
Qed.

(** What running a command of the plan amounts to. *)
Lemma reaches_exec c (P Q : world -> Prop) :
  (forall w, P w -> ip_pre c (tables w)) ->
  (forall w w', P w -> Forall (holds (tables w')) (ip_post c) ->
     (forall f, ip_keeps c f -> holds (tables w) f -> holds (tables w') f) -> Q w') ->
  reaches 1 P (fun _ => Q) (act (unwords (argv_of c))).
Proof.
  intros Hp Hq n s Ha Hf Hr Hw. pose proof (Hp _ Hw) as Hpre.
  destruct (ip_run n _ c Hr Hpre) as (intr & w' & Hs & Hr' & Hpost & Hk).
  pose proof (act_unwords (argv_of c) s intr w' (argv_short _ _ c Hr Hpre) Ha Hs) as Hact.
  destruct (act _ s) as [[] s']. cbn in Hact. destruct Hact as (-> & -> & ->).
  split_and!; [done..|]. by eapply Hq.
Qed.

(** A command of the plan is run and works. *)
Lemma reaches_act_from c text done spent (P : world -> Prop) :
  text = unwords (argv_of c) -> Forall lasting (ip_post c) ->
  (forall w, P w -> inv done spent w /\ ip_pre c (tables w)) ->
  reaches 1 P (fun _ => inv (ip_post c ++ done) (ip_spends c ++ spent)) (act text).
Proof.
  intros -> Hc Hp. apply reaches_exec; [intros w Hw; by apply Hp|].
  intros w w' Hw Hpost Hk. destruct (Hp w Hw) as [[Hi Hn] _]. split.
  - intros f Hl Hd. rewrite elem_of_app in Hd.
    destruct (decide (f ∈ ip_post c)) as [Hin|Hin].
    { rewrite Forall_forall in Hpost. by apply Hpost. }
    apply Hk; [by apply lasting_keeps|]. apply Hi; [done|]. tauto.
  - intros f Hng Hh Hin. rewrite elem_of_app in Hin. apply Hk; [apply transient_keeps; tauto|].
    apply Hn; tauto.
Qed.

Lemma reaches_act c text done spent :
  text = unwords (argv_of c) -> Forall lasting (ip_post c) ->
  (forall w, inv done spent w -> ip_pre c (tables w)) ->
  reaches 1 (inv done spent) (fun _ => inv (ip_post c ++ done) (ip_spends c ++ spent)) (act text).
Proof. intros E Hc Hp. apply reaches_act_from; [done..|]. auto. Qed.

(** The deletion of a doomed interface that has not been used. *)
Lemma reaches_del n text done spent :
  text = unwords (argv_of (IpDel n)) -> ip_name n -> n ∈ doomed -> untouched n done ->
  holds rs (FDeletable n) -> FDeletable n ∉ spent ->
  reaches 1 (inv done spent)
    (fun _ w => inv done (FDeletable n :: spent) w /\ holds (tables w) (FAbsent n)) (act text).
Proof.
  intros -> Hip Hn Hu Hd Hs. apply (reaches_exec (IpDel n)).
  - intros w [_ Ht]. split; [done|]. by apply Ht; [|apply sure_free|].
  - intros w w' [Hi Ht] Hpost Hk. split; [|exact (Forall_inv Hpost)].
    assert (Hsure : forall f, sure f -> n ∉ names f).
    { intros f [_ Hf] Hin. unfold intact in Hf. rewrite Forall_forall in Hf. by apply (Hf n). }
    split.
    + intros f Hl Hf. apply Hk; [|by apply Hi].
      split; [apply spends_keeps, Hl|]. destruct Hf as [Hf|Hf]; [by apply Hsure|].
      unfold untouched in Hu. rewrite Forall_forall in Hu. by apply Hu.
    + intros f Hf Hh Hin. rewrite elem_of_cons in Hin. apply Hk; [|apply Ht; tauto].
      split; [|by apply Hsure]. cbn. rewrite elem_of_cons, elem_of_nil. tauto.
Qed.

(** *** Tactics *)

(** Positive facts last; exclusive ones when they are wanted. *)
Ltac lasts := first [assumption | split; [reflexivity|first [discriminate|intros _; assumption]]].

(** Step through a check: printed lines and returned values first. *)
Ltac drop_value := let a := fresh "a" in intros a; cbn beta; clear a.
Ltac seq :=
  lazymatch goal with
  | |- reaches _ _ _ (mbind _ (ok _)) => eapply reaches_bind; [apply reaches_ok|drop_value]
  | |- reaches _ _ _ (mbind _ (miss _)) => eapply reaches_bind; [apply reaches_miss|drop_value]
  | |- reaches _ _ _ (mret _) => apply reaches_ret
  end.
Ltac bounded := eapply reaches_le.
Ltac run c :=
  eapply reaches_bind; [eapply (reaches_act c); [try reflexivity| |]|drop_value].
Ltac spell := cbn; rewrite <- ?app_assoc; reflexivity.

Lemma known_rs done f : lasting f -> sure f -> known done f.
Proof. intros. split; [done|by left]. Qed.

Lemma known_in done f : lasting f -> f ∈ done -> known done f.
Proof. intros. split; [done|by right]. Qed.

Lemma known_incl done done' f : done ⊆ done' -> known done f -> known done' f.
Proof. intros Hs [Hl [?|?]]; split; [done|by left|done|right; by apply Hs]. Qed.

(** Learn facts that are known already. *)
Lemma inv_grow fs done done' spent w :
  Forall (known done') fs -> done ⊆ done' -> inv done' spent w -> inv (fs ++ done) spent w.
Proof.
  intros Hf Hs. apply inv_weaken; [|done]. intros f Hin Hl.
  apply elem_of_app in Hin as [Hin|Hin]; [|by apply known_in, Hs].
  rewrite Forall_forall in Hf. by apply Hf.
Qed.

Lemma inv_spent fs done spent w : inv done spent w -> inv done (fs ++ spent) w.
Proof.
  apply inv_weaken; [intros f Hf Hl; by apply known_in|].
  intros f Hf. apply elem_of_app. by right.
Qed.

(** Membership in a list with some elements in front, and known facts. *)
Ltac pick := first [reflexivity | assumption | left; pick | right; pick].
Ltac unmem := repeat first [rewrite elem_of_app | rewrite elem_of_cons | rewrite elem_of_nil].
Ltac mem := cbn [ip_post ip_spends]; unmem; pick.
Ltac know := first [apply known_rs; [lasts|assumption] | apply known_in; [lasts|mem]].
Ltac intacts := unfold intact; cbn [names]; repeat (apply Forall_cons; split); [assumption..|apply Forall_nil; exact I].
Ltac knows := repeat (apply Forall_cons; split); [know..|apply Forall_nil; exact I].
Ltac grow := apply inv_grow; [knows|intros ? ?; mem].
Ltac lasts_all := repeat (apply Forall_cons; split); [lasts..|apply Forall_nil; exact I].

(** *** Checks *)

(** Preconditions from what is known. *)
Lemma of_kind_mono (h h' : fact -> Prop) ks n :
  (forall f, h f -> h' f) -> of_kind h ks n -> of_kind h' ks n.
Proof. intros Hh (Hlo & k & Hk & Hf). split; [done|]. exists k. auto. Qed.

Lemma can_up_mono (h h' : fact -> Prop) n :
  (forall f, h f -> h' f) -> can_up h n -> can_up h' n.
Proof.
  intros Hh [Hk|(id & l & Hv & Hu)]; [left; by eapply of_kind_mono|right].
  exists id, l. auto.
Qed.

Lemma can_port_mono (h h' : fact -> Prop) n :
  (forall f, transient f = false -> exclusive f = false -> h f -> h' f) ->
  can_port h n -> can_port h' n.
Proof.
  intros Hh. assert (Hk : forall ks m, of_kind h ks m -> of_kind h' ks m).
  { intros ks m (Hlo & k & Hk & Hf). split; [done|]. exists k. auto. }
  intros [Hn|[(id & l & Hv & Hl)|[(vni & r & d & Hx & Hd & Hl)|Hf]]].
  - left. auto.
  - right; left. exists id, l. auto.
  - right; right; left. exists vni, r, d. auto.
  - right; right; right. auto.
Qed.

Lemma can_gateway_mono (h h' : fact -> Prop) dev g :
  (h (FForeign g) -> h' (FForeign g)) ->
  (forall d q, h (FRoute d q dev None) -> h' (FRoute d q dev None)) ->
  (forall q, h (FNoHop g q) -> h' (FNoHop g q)) ->
  can_gateway h dev g -> can_gateway h' dev g.
Proof.
  intros Hf Hr Hh (Hu & Hg & d & q & Hq & Hn & Hd & Ho). split_and!; [done|auto|].
  exists d, q. auto.
Qed.

(** The interface is up or can be brought up. *)
Definition up_ready (done : list fact) (n : cstr) : Prop :=
  sure (FUp n) \/ ip_name n /\ sure (FLink n) /\ can_up (known done) n.

Lemma up_ready_incl done done' n : done ⊆ done' -> up_ready done n -> up_ready done' n.
Proof.
  intros Hd [Hu|(Hn & Hl & Hu)]; [by left|right]. split_and!; [done..|].
  eapply can_up_mono; [|exact Hu]. intros f. by apply known_incl.
Qed.

Lemma sure_up_link n : sure (FUp n) -> sure (FLink n).
Proof. intros [Hu Hi]. split; [by apply up_link|exact Hi]. Qed.

Lemma up_ready_link done n : up_ready done n -> sure (FLink n).
Proof. intros [Hu|(_ & Hl & _)]; [by apply sure_up_link|done]. Qed.

Lemma reach_up name done spent :
  up_ready done name ->
  reaches 1 (inv done spent) (fun _ => inv ([FUp name] ++ done) spent)
    (check_iface_up name (rs_find_iface rs name)).
Proof.
  intros Hr. pose proof (up_ready_link _ _ Hr) as Hl.
  pose proof Hl as [[i Hi] Hin]. unfold check_iface_up. rewrite Hi.
  destruct (is_up i) eqn:Eu; bounded.
  - assert (sure (FUp name)) by (split; [exists i; by rewrite <- is_up_true|done]).
    seq. seq. intros w. grow.
  - lia.
  - destruct Hr as [[(i' & Hi' & Hu) _]|(Hn & _ & Hc)].
    { rewrite Hi in Hi'. injection Hi' as <-. apply is_up_true in Hu. congruence. }
    seq. run (IpUp name); [lasts_all| |by seq].
    intros w Hw. split; [done|]. eapply can_up_mono; [|exact Hc]. intros f. by apply (inv_known _ _ _ _ Hw).
  - done.
Qed.

(** The interface is a port of the bridge, or can become one. *)
Definition master_ready (b n : cstr) : Prop :=
  sure (FMember n b) \/
  ip_name n /\ sure (FLink n) /\ intact (FMember n b) /\ can_port sure n.

Definition port_ready (done : list fact) (b n : cstr) : Prop :=
  up_ready done n /\ master_ready b n.

Lemma port_ready_incl done done' b n :
  done ⊆ done' -> port_ready done b n -> port_ready done' b n.
Proof. intros Hd [Hu Hm]. split; [by eapply up_ready_incl|done]. Qed.

Lemma intact_member n b : intact (FMember n b) -> (n ∉ doomed) /\ (b ∉ doomed).
Proof. unfold intact. cbn [names]. rewrite Forall_cons, Forall_singleton. done. Qed.

Lemma master_ready_link b n : master_ready b n -> sure (FLink n) /\ intact (FMember n b).
Proof.
  intros [[(i & br & Hi & _) Hin]|(_ & Hl & Hin & _)]; [|done]. split; [|done].
  apply intact_member in Hin as [? _]. split; [by exists i|intacts].
Qed.

Lemma sure_holds done spent w f :
  inv done spent w -> transient f = false -> exclusive f = false -> sure f -> holds (tables w) f.
Proof.
  intros Hi Ht He Hf. eapply inv_known; [exact Hi|]. apply known_rs; [|done].
  split; [done|]. by rewrite He.
Qed.

Lemma sure_of_kind done spent w ks n :
  inv done spent w -> of_kind sure ks n -> of_kind (holds (tables w)) ks n.
Proof.
  intros Hi (Hlo & k & Hk & Hf). split; [done|]. exists k. split; [done|].
  by eapply sure_holds.
Qed.

Lemma sure_can_port done spent w n : inv done spent w -> can_port sure n -> can_port (holds (tables w)) n.
Proof.
  intros Hi. apply can_port_mono. intros f Ht He Hf. by eapply sure_holds.
Qed.

Lemma reach_master name b done spent :
  master_ready b name -> known done (FKind b (#"bridge")) -> FMember name b ∈ wanted ->
  reaches 1 (inv done spent) (fun _ => inv ([FMember name b] ++ done) spent)
    (check_master name (rs_find_iface rs name) b rs).
Proof.
  intros Hp Hb Hw. destruct (master_ready_link _ _ Hp) as [[[i Hi] Hn] Hm].
  unfold check_master. rewrite Hi.
  destruct (match rs_find_iface rs b with Some br => _ | None => _ end) eqn:Em; bounded.
  - assert (sure (FMember name b)).
    { split; [|done]. destruct (rs_find_iface rs b) as [br|] eqn:Eb; [|done]. exists i, br.
      split_and!; [done..|lia]. }
    seq. seq. intros w. grow.
  - lia.
  - destruct Hp as [[(i' & br & Hi' & Hbr & E) _]|(Hname & _ & _ & Hp)].
    { rewrite Hbr in Em. rewrite Hi in Hi'. injection Hi' as <-. lia. }
    seq. run (IpMaster name b); [lasts_all| |by seq].
    intros w Hiw. split_and!; [done|by eapply sure_can_port|by eapply inv_known].
  - done.
Qed.

(** The bridge is there or can be created. *)
Definition bridge_ready (spent : list fact) (b : cstr) : Prop :=
  (b ∉ doomed) /\ ip_name b /\
  (holds rs (FKind b (#"bridge")) \/ holds rs (FAbsent b) /\ FAbsent b ∉ spent).

Lemma reach_bridge ds done spent :
  bridge_ready spent (br_name ds) ->
  reaches 2 (inv done spent)
    (fun _ => inv ([FUp (br_name ds); FLink (br_name ds); FKind (br_name ds) (#"bridge")] ++ done)
                  ([FAbsent (br_name ds)] ++ spent))
    (check_bridge ds rs).
Proof.
  set (b := br_name ds). intros Hb. unfold check_bridge. fold b.
  destruct Hb as (Hd & Hname & Hb).
  assert (Hup : forall done', FKind b (#"bridge") ∈ done' \/ sure (FKind b (#"bridge")) ->
    forall w spent', inv done' spent' w -> ip_pre (IpUp b) (tables w)).
  { intros done' Hk w spent' Hi. split; [done|]. left. split; [by apply ip_name_lo|].
    exists (#"bridge"). split; [compute_decide|]. eapply inv_known; [exact Hi|].
    split; [lasts|]. tauto. }
  destruct Hb as [(br & Hbr & Hk)|(Ha & Hs)].
  - rewrite Hbr, (proj2 (streq_true _ _) Hk).
    assert (sure (FLink b)) by (split; [by exists br|intacts]).
    assert (sure (FKind b (#"bridge"))) by (split; [by exists br|intacts]).
    destruct (is_up br) eqn:Eu; bounded.
    + assert (sure (FUp b)) by (split; [exists br; by rewrite <- is_up_true|intacts]).
      seq. seq. seq. intros w Hw. apply inv_spent. revert Hw. grow.
    + lia.
    + seq. seq. run (IpUp b); [lasts_all| |].
      * intros w. apply Hup. by right.
      * seq. intros w Hw. apply inv_spent. revert Hw. grow.
    + lia.
  - rewrite (proj1 Ha). bounded.
    + seq. run (IpAddBridge b); [lasts_all| |].
      * intros w Hw. split; [done|]. by apply Hw; [|apply sure_free|].
      * run (IpUp b); [lasts_all| |by seq]. intros w. apply Hup. left. mem.
    + lia.
Qed.

(** The route to the network of the bridge's address, if a gateway relies on
    it. *)
Definition links (ds : desired_state) : list fact :=
  match br_addr_mode ds, parse_addr_prefix (br_addr ds) with
  | ADDR_STATIC, Ok (a, p) =>
    let f := FRoute (net_of a p) p (br_name ds) None in
    if bool_decide (f ∈ extra) then [f] else []
  | _, _ => []
  end.

(** The address is there, or can be added, or needs no command; so for the
    route to its network. *)
Definition addr_ready (spent : list fact) (ds : desired_state) : Prop :=
  let b := br_name ds in
  match br_addr_mode ds with
  | ADDR_NONE => True
  | ADDR_DHCP => holds rs (FAnyAddr b)
  | ADDR_STATIC => exists a p, prefix_text (br_addr ds) a p /\
      let f := FRoute (net_of a p) p b None in
      (holds rs (FAddr b a p) /\ (f ∈ extra -> holds rs f) \/
       (~ holds rs (FAddr b a p)) /\ unicast a /\ (FNoAddr b a p ∉ spent) /\
       (f ∈ extra -> (8 <= p <= 30)%Z /\ holds rs (FNoNet b (net_of a p) p) /\
          FNoNet b (net_of a p) p ∉ spent))
  end.

Lemma reach_addr ds done spent :
  br_name ds ∉ doomed -> ip_name (br_name ds) -> addr_ready spent ds ->
  known done (FLink (br_name ds)) -> known done (FUp (br_name ds)) ->
  reaches 1 (inv done spent)
    (fun _ => inv (links ds ++ addr_goals ds ++ done) (addr_spends ds ++ spent))
    (check_bridge_addr ds rs).
Proof.
  set (b := br_name ds). unfold addr_ready, links, addr_goals, addr_spends, check_bridge_addr.
  fold b. intros Hdm Hname Hr Hl Hu. cbn zeta in *. destruct (br_addr_mode ds).
  - bounded; [by seq|lia].
  - destruct Hr as (a & p & Ht & Hr). rewrite (parse_prefix_text _ _ _ Ht).
    set (f := FRoute (net_of a p) p b None) in *.
    assert (Ea : forall br, rs_find_iface rs b = Some br ->
      addr_exists rs (if_ifindex br) a p = true <-> holds rs (FAddr b a p)).
    { intros br Hbr. rewrite addr_exists_true. split; [intros Hin; by exists br|].
      intros (i & Hi & Hin). congruence. }
    destruct Hr as [[Ha Hf]|(Hno & Hau & Hs & Hf)].
    + pose proof Ha as (br & Hbr & _). rewrite Hbr, (proj2 (Ea br Hbr) Ha). bounded; [|shelve].
      assert (sure (FAddr b a p)) by (split; [done|intacts]).
      seq. seq. intros w Hw. apply inv_spent. revert Hw.
      case_bool_decide as Hin.
      * assert (f ∈ wanted) by by apply extra_wanted.
        assert (sure f) by (split; [by apply Hf|intacts]).
        by apply (inv_grow [f; FAddr b a p] done done); [knows|].
      * by apply (inv_grow [FAddr b a p] done done); [knows|].
      Unshelve. lia.
    + assert (Hna : holds rs (FNoAddr b a p)).
      { intros i Hi Hin. apply Hno. by exists i. }
      replace (match rs_find_iface rs b with Some br => _ | None => _ end) with false.
      2:{ destruct (rs_find_iface rs b) as [br|] eqn:Eb; [|done].
          destruct (addr_exists rs (if_ifindex br) a p) eqn:E; [|done]. by apply (Ea br eq_refl) in E. }
      bounded; [|shelve]. seq.
      eapply reaches_bind; [eapply (reaches_act (IpAddr (br_addr ds) a p b (bool_decide (f ∈ extra))));
        [reflexivity| |]|drop_value; seq].
      * cbn [ip_post]. constructor; [lasts|]. case_bool_decide as Hin; [|done].
        assert (f ∈ wanted) by by apply extra_wanted. lasts_all.
      * intros w Hw. do 2 (split; [done|]). split; [by eapply inv_known|].
        split; [by apply Hw; [|apply sure_free|]|].
        intros Hin%bool_decide_eq_true. destruct (Hf Hin) as (Hp & Hnn & Hns).
        split_and!; [by apply ip_name_lo|apply Hp..|by eapply inv_known|].
        by apply Hw; [|apply sure_free|].
      * intros w. cbn [ip_post ip_spends]. fold f. apply inv_weaken; [|done].
        intros g Hg Hgl. apply known_in; [done|]. revert Hg. unmem. tauto.
      Unshelve. lia.
  - pose proof Hr as (i & a & Hi & Ha & Ei). rewrite Hi.
    assert (sure (FAnyAddr b)) by (split; [done|intacts]).
    rewrite (proj2 (addr_any_true _ _)) by eauto. bounded; [|shelve].
    seq. seq. intros w. by apply (inv_grow [FAnyAddr b] done done); [knows|]. Unshelve. lia.
Qed.

(** A gateway that can be reached by then. *)
Definition gw_ready (done spent : list fact) (dev : cstr) (g : Z) : Prop :=
  can_gateway (fun f => match f with
                        | FForeign _ => holds rs f /\ (f ∉ spent)
                        | _ => known done f end) dev g.

Lemma gw_ready_pre done spent w dev g :
  gw_ready done spent dev g -> inv done spent w -> can_gateway (holds (tables w)) dev g.
Proof.
  intros Hg Hi. revert Hg. apply can_gateway_mono.
  - intros [Hf Hs]. by apply Hi; [|apply sure_free|].
  - intros d q. by apply (inv_known _ _ _ _ Hi).
  - intros q. by apply (inv_known _ _ _ _ Hi).
Qed.

Lemma gw_ready_incl done done' spent dev g :
  done ⊆ done' -> gw_ready done spent dev g -> gw_ready done' spent dev g.
Proof.
  intros Hd. apply can_gateway_mono; [done|intros d q|intros q]; by apply known_incl.
Qed.

(** The default route is there, or its gateway can be reached. *)
Definition gateway_ready (spent : list fact) (ds : desired_state) : Prop :=
  br_gateway ds <> [] -> exists gw, inet_pton (br_gateway ds) = Some gw /\
    (holds rs (FRoute 0 0 (br_name ds) (Some gw)) \/
     gw_ready (links ds) (addr_spends ds ++ spent) (br_name ds) gw).

Lemma reach_gateway ds done spent :
  br_name ds ∉ doomed -> ip_name (br_name ds) -> gateway_ready spent ds ->
  known done (FUp (br_name ds)) -> links ds ⊆ done ->
  gateway_goals ds ⊆ wanted ->
  reaches 1 (inv done (addr_spends ds ++ spent))
    (fun _ => inv (gateway_goals ds ++ done) (addr_spends ds ++ spent))
    (check_bridge_gateway ds rs).
Proof.
  set (b := br_name ds). unfold gateway_ready, gateway_goals, check_bridge_gateway. fold b.
  intros Hdm Hname Hr Hu Ha Hw. case_bool_decide as Eg.
  { rewrite Eg. bounded; [by seq|lia]. }
  destruct (Hr Eg) as (gw & Hg & Hc). rewrite Hg in *. rewrite (proj2 (parse_ip4_Ok _ _) Hg).
  assert (FRoute 0 0 b (Some gw) ∈ wanted) by (apply Hw; mem).
  destruct (match rs_find_iface rs b with Some br => _ | None => _ end) eqn:Er; bounded.
  - assert (sure (FRoute 0 0 b (Some gw))).
    { split; [|intacts]. destruct (rs_find_iface rs b) as [br|] eqn:Eb; [|done]. exists br.
      split; [done|].
      by apply (route_exact_true _ _ _ _ gw true). }
    seq. seq. intros w. grow.
  - lia.
  - destruct Hc as [(i & Hi & Hrt)|Hc].
    { rewrite Hi in Er. apply (route_exact_true _ _ _ _ gw true) in Hrt. congruence. }
    seq. run (IpRoute (#"0.0.0.0/0") 0 0 (Some (br_gateway ds, gw)) b); [lasts_all| |by seq].
    intros w Hi. split_and!; [split; [done|by exists (#"0.0.0.0")]|by left|done|
      by apply ip_name_lo|by eapply inv_known|done|].
    eapply gw_ready_pre; [|exact Hi]. by eapply gw_ready_incl.
  - lia.
Qed.

(** A loop whose rounds each establish something. *)
Lemma reach_sum {A} (f : A -> V Z) (E : A -> list fact) k l done spent d :
  (forall x done', x ∈ l -> done ⊆ done' ->
     reaches k (inv done' spent) (fun _ => inv (E x ++ done') spent) (f x)) ->
  reaches (k * length l) (inv done spent) (fun _ => inv (concat (map E l) ++ done) spent)
    (sum_loop f l d).
Proof.
  revert done d. induction l as [|x l IH]; intros done d Hf.
  { bounded; [by apply reaches_ret|lia]. }
  bounded; [eapply reaches_bind|].
  - apply Hf; [mem|done].
  - intros a. cbn beta. eapply reaches_conseq; [done| |apply IH].
    + intros z w. apply inv_weaken; [|done]. intros g Hg Hl. apply known_in; [done|].
      revert Hg. cbn [map concat]. rewrite !elem_of_app. tauto.
    + intros y done' Hy Hd. apply Hf; [mem|]. intros g Hg. apply Hd, elem_of_app. by right.
  - cbn [length]. lia.
Qed.

Lemma reach_dns ds done spent :
  Forall (dns_sat rs) (br_dns ds) ->
  reaches 0 (inv done spent)
    (fun _ => inv (concat (map dns_goals (br_dns ds)) ++ done) spent) (check_bridge_dns ds rs).
Proof.
  intros Hd. eapply reaches_le; [apply (reach_sum _ dns_goals 0)|lia].
  intros x done' Hx _. rewrite Forall_forall in Hd. destruct (Hd x Hx) as (a & Ha & Hin).
  unfold check_dns, dns_goals. rewrite Ha, (proj2 (parse_ip4_Ok _ _) Ha).
  rewrite (proj2 (rs_dns4_exists_true _ _) Hin). bounded.
  - seq. seq. intros w. assert (sure (FDns a)) by by apply sure_free. grow.
  - lia.
Qed.

Lemma reach_uplink ds done spent :
  up_ready done (up_ifname ds) ->
  reaches 1 (inv done spent) (fun _ => inv ([FUp (up_ifname ds)] ++ done) spent)
    (verify_only_uplink ds rs).
Proof.
  intros Hr. unfold verify_only_uplink, check_iface_exists.
  pose proof (reach_up (up_ifname ds) done spent Hr) as Hu.
  destruct (up_ready_link _ _ Hr) as [[i Hi] _]. rewrite Hi in *. bounded.
  - eapply reaches_bind; [apply reaches_ok_ret|]. intros a. apply reaches_pure. intros _.
    eapply reaches_bind; [exact Hu|]. intros d. by seq.
  - lia.
Qed.

Lemma reach_port b name done spent :
  port_ready done b name -> known done (FKind b (#"bridge")) -> FMember name b ∈ wanted ->
  reaches 2 (inv done spent) (fun _ => inv (port_goals b name ++ done) spent)
    (check_port rs b name).
Proof.
  intros [Hr Hp] Hb Hw. unfold check_port, check_iface_exists.
  pose proof (reach_up name done spent Hr) as Hu.
  assert (Hb' : known ([FUp name] ++ done) (FKind b (#"bridge")))
    by (eapply known_incl; [|exact Hb]; intros ? ?; mem).
  pose proof (reach_master name b ([FUp name] ++ done) spent Hp Hb' Hw) as Hm.
  destruct (up_ready_link _ _ Hr) as [[i Hi] _]. rewrite Hi in *. bounded.
  - eapply reaches_bind; [apply reaches_ok_ret|]. intros a. apply reaches_pure. intros _.
    eapply reaches_bind; [exact Hu|]. intros d. cbn beta.
    eapply reaches_bind; [exact Hm|]. intros e. seq. intros w. apply inv_weaken; [|done].
    intros f Hf Hl. apply known_in; [done|]. revert Hf. unfold port_goals.
    rewrite !elem_of_app, !elem_of_cons. tauto.
  - lia.
Qed.

(** *** Tunnels *)

(** What checking the attributes of a VLAN or VXLAN leads to: either the
    commands that create it, its place in the bridge included, or an interface
    that is as desired and up. *)
Definition attrs_end (b n : cstr) (f : fact) (done spent : list fact) (a : Z * bool)
    (w : world) : Prop :=
  (a.2 = false -> master_ready b n) /\
  inv ((if a.2 then [f; FUp n; FMember n b] else [f; FUp n]) ++ done) spent w.

(** The remaining check of the bridge membership. *)
Lemma reach_attrs_master b n f done spent a :
  known done (FKind b (#"bridge")) -> FMember n b ∈ wanted -> lasting f ->
  reaches 1 (attrs_end b n f done spent a) (fun _ => inv ([f; FUp n; FMember n b] ++ done) spent)
    (if negb a.2 then check_master n (rs_find_iface rs n) b rs else mret 0%Z).
Proof.
  intros Hb Hw Hf. apply reaches_pure. intros Hp. destruct a as [z []]; cbn [negb snd] in *.
  - bounded; [by apply reaches_ret|lia].
  - eapply reaches_conseq; [done| |apply reach_master; [by apply Hp| |done]].
    + intros d w. cbn [app]. apply (inv_grow [f; FUp n; FMember n b]); [knows|intros ? ?; mem].
    + eapply known_incl; [|exact Hb]. intros ? ?; mem.
Qed.

(** A test that prints its result. *)
Lemma reaches_test (c : bool) m P :
  reaches 0 P (fun x w => x = (if c then (0%Z, false) else (1%Z, true)) /\ P w)
    (if c then _ ← ok m; mret (0%Z, false) else _ ← miss m; mret (1%Z, true)).
Proof. destruct c; [apply reaches_ok_ret|apply reaches_miss_ret]. Qed.

(** A printed line and the value it leads to. *)
Ltac value :=
  eapply reaches_bind; [first [apply reaches_ok_ret|apply reaches_ret_eq]|];
  intros [? ?]; apply reaches_pure; intros [= -> ->].

(** The interface is of another kind or has other attributes, and can be
    deleted: nothing is built on it, and nothing that is established so far is
    about it. *)
Definition replaceable (done spent : list fact) (n : cstr) : Prop :=
  n ∈ doomed /\ untouched n done /\ holds rs (FDeletable n) /\ (FDeletable n ∉ spent).

(** The VLAN is as desired, or can be created, after a deletion or without. *)
Definition vlan_ready (done spent : list fact) (ds : desired_state) : Prop :=
  let n := vlan_ifname ds in
  sure (FVlan n (vlan_id ds) (vlan_link ds)) /\ (sure (FUp n) \/ ip_name n) /\
    master_ready (vlan_bridge ds) n \/
  (ip_name n /\ (1 <= vlan_id ds <= 4094)%Z /\ of_kind sure wired_kinds (vlan_link ds) /\
   sure (FNoVlan n (vlan_link ds) (vlan_id ds)) /\
   (FNoVlan [] (vlan_link ds) (vlan_id ds) ∉ spent) /\
   (holds rs (FAbsent n) /\ (FAbsent n ∉ spent) \/
    (~ holds rs (FVlan n (vlan_id ds) (vlan_link ds))) /\ replaceable done spent n)).

(** A new VLAN comes up because its link is up. *)
Lemma reach_vlan_again ds done spent (P : world -> Prop) :
  let n := vlan_ifname ds in
  ip_name n -> (1 <= vlan_id ds <= 4094)%Z -> of_kind sure wired_kinds (vlan_link ds) ->
  known done (FUp (vlan_link ds)) ->
  known done (FKind (vlan_bridge ds) (#"bridge")) -> FMember n (vlan_bridge ds) ∈ wanted ->
  (forall w, P w -> inv done spent w /\ holds (tables w) (FAbsent n) /\
     holds (tables w) (FNoVlan n (vlan_link ds) (vlan_id ds))) ->
  reaches 3 P
    (fun _ => inv ([FVlan n (vlan_id ds) (vlan_link ds); FUp n; FMember n (vlan_bridge ds)] ++ done)
       ([FAbsent n; FNoVlan [] (vlan_link ds) (vlan_id ds); FDeletable (vlan_link ds)] ++ spent))
    (act_vlan_again ds).
Proof.
  unfold act_vlan_again, act_add_vlan. cbn zeta.
  set (n := vlan_ifname ds). set (b := vlan_bridge ds). set (l := vlan_link ds).
  set (id := vlan_id ds). intros Hn Hid Hl Hu Hb Hw HP. bounded; [|shelve].
  eapply reaches_bind; [eapply (reaches_act_from (IpAddVlan l n id)); [done|lasts_all|]|drop_value].
  { intros w (Hi & Ha & Hv)%HP. split; [exact Hi|]. do 2 (split; [done|]).
    split; [by eapply sure_of_kind|done]. }
  run (IpUp n); [lasts_all| |].
  { intros w Hi. split; [done|]. right. exists id, l.
    split; (eapply inv_known; [exact Hi|]); [know|]. eapply known_incl; [|exact Hu].
    intros ? ?; mem. }
  eapply reaches_conseq; [done| |eapply (reaches_act (IpMaster n b)); [done|lasts_all|]].
  - intros x w. cbn [snd]. grow.
  - intros w Hi. split_and!; [done| |eapply inv_known; [exact Hi|]].
    + right; left. exists id, l. split; [eapply inv_known; [exact Hi|know]|].
      by eapply sure_of_kind.
    + eapply known_incl; [|exact Hb]. intros ? ?; mem.
  Unshelve. lia.
Qed.

(** Creating an interface, after a deletion or without; [f] is what it
    presupposes besides the absence of its name. *)
Section Recreate.
Context (n b : cstr) (goal f : fact) (uses done spent : list fact) (again : V unit).
Hypothesis name_n : ip_name n.
Hypothesis transient_f : transient f = true.
Hypothesis sure_f : sure f.
Hypothesis unspent_f : cost f ∉ spent.
Hypothesis cost_f : cost f <> FDeletable n.
Hypothesis reach_again : forall P spent',
  (forall w, P w -> inv done spent' w /\ holds (tables w) (FAbsent n) /\ holds (tables w) f) ->
  reaches 3 P (fun _ => inv ([goal; FUp n; FMember n b] ++ done) (uses ++ spent')) again.

Lemma reach_create d P spent' :
  (forall w, P w -> inv done spent' w /\ holds (tables w) (FAbsent n) /\ holds (tables w) f) ->
  spent' ⊆ FDeletable n :: spent ->
  reaches 3 P (attrs_end b n goal done ((uses ++ [FDeletable n]) ++ spent))
    (_ ← again; mret (d, true)).
Proof.
  intros HP Hs. bounded; [eapply reaches_bind; [by apply (reach_again P spent')|]|].
  - intros u. seq. intros w Hi. split; [discriminate|]. revert Hi.
    apply inv_weaken; [intros; by apply known_in|].
    intros g. specialize (Hs g). revert Hs. unmem. tauto.
  - lia.
Qed.

Lemma reach_absent d :
  holds rs (FAbsent n) -> FAbsent n ∉ spent ->
  reaches 3 (inv done spent) (attrs_end b n goal done ((uses ++ [FDeletable n]) ++ spent))
    (_ ← again; mret (d, true)).
Proof.
  intros Ha Hs. apply (reach_create d _ spent).
  - intros w Hi. split_and!; [done|by apply Hi; [|apply sure_free|]|by apply Hi].
  - intros g. unmem. tauto.
Qed.

Lemma reach_deleted text :
  text = unwords (argv_of (IpDel n)) -> replaceable done spent n ->
  reaches 1 (inv done spent) (fun _ w => inv done (FDeletable n :: spent) w /\
    holds (tables w) (FAbsent n) /\ holds (tables w) f) (act text).
Proof.
  intros E (Hd & Hu & Hh & Hs). eapply reaches_conseq; [done| |by apply (reaches_del n)].
  intros u w [Hi Ha]. split_and!; [done..|]. apply Hi; [done..|]. rewrite elem_of_cons. tauto.
Qed.

Lemma reach_replace d text :
  text = unwords (argv_of (IpDel n)) -> replaceable done spent n ->
  reaches 4 (inv done spent) (attrs_end b n goal done ((uses ++ [FDeletable n]) ++ spent))
    (_ ← act text; _ ← again; mret (d, true)).
Proof.
  intros E Hr. apply (reaches_bind 1 3 _ _ _ _ _ (reach_deleted text E Hr)).
  intros u. by apply (reach_create d _ (FDeletable n :: spent)).
Qed.

(** The same where the kind of the interface is wrong. *)
Lemma reach_replace_kind d text m :
  text = unwords (argv_of (IpDel n)) -> replaceable done spent n ->
  reaches 4 (inv done spent) (attrs_end b n goal done ((uses ++ [FDeletable n]) ++ spent))
    (_ ← (_ ← miss m; act text); _ ← again; mret (d, true)).
Proof.
  intros E Hr. bounded; [eapply reaches_bind; [|intros u]|].
  - seq. by apply reach_deleted.
  - by apply (reach_create d _ (FDeletable n :: spent)).
  - lia.
Qed.

End Recreate.

Lemma reach_vlan ds done spent :
  vlan_ready done spent ds -> known done (FUp (vlan_link ds)) ->
  known done (FKind (vlan_bridge ds) (#"bridge")) ->
  FMember (vlan_ifname ds) (vlan_bridge ds) ∈ wanted ->
  reaches 4 (inv done spent)
    (attrs_end (vlan_bridge ds) (vlan_ifname ds)
       (FVlan (vlan_ifname ds) (vlan_id ds) (vlan_link ds)) done (vlan_spends ds ++ spent))
    (check_vlan_attrs ds rs (rs_find_iface rs (vlan_ifname ds))
       (rs_find_vlan rs (vlan_ifname ds))).
Proof.
  unfold vlan_ready, check_vlan_attrs. cbn zeta.
  set (n := vlan_ifname ds). set (b := vlan_bridge ds). set (l := vlan_link ds).
  set (id := vlan_id ds). intros Hr Hu Hb Hw.
  destruct Hr as [(Hv & Hn & Hp)|(Hn & Hid & Hl & Hno & Hns & Hc)].
  - pose proof Hv as [(v & lk & Ev & Hi & Ei & El & Hk & Ek) _]. rewrite Ev, El, Hi, Hk, Ek, Ei.
    rewrite !Z.eqb_refl. cbn [andb]. bounded.
    + seq. value. value. cbn [orb].
      eapply reaches_bind; [apply reach_up|]. 
      { destruct Hn as [Hn|Hn]; [by left|right]. destruct (master_ready_link _ _ Hp).
        split_and!; [done..|]. right. exists id, l. split; [know|done]. }
      intros d3. cbn beta.
      seq. intros w Hiw. split; [done|]. apply inv_spent. revert Hiw. cbn [snd]. grow.
    + lia.
  - change (vlan_spends ds) with
      ([FAbsent n; FNoVlan [] l id; FDeletable l] ++ [FDeletable n]).
    assert (Hagain : forall P spent', (forall w, P w -> inv done spent' w /\
        holds (tables w) (FAbsent n) /\ holds (tables w) (FNoVlan n l id)) ->
      reaches 3 P (fun _ => inv ([FVlan n id l; FUp n; FMember n b] ++ done)
        ([FAbsent n; FNoVlan [] l id; FDeletable l] ++ spent')) (act_vlan_again ds))
      by (intros; by apply reach_vlan_again).
    destruct Hc as [[Ha Has]|[Hwrong Hrp]].
    + destruct (Ha) as (Ha1 & Ha2 & Ha3). rewrite Ha2, Ha1. bounded; [|shelve].
      eapply reaches_bind; [apply reaches_miss_ret|]. intros u. apply reaches_pure. intros _.
      by apply (reach_absent n b _ (FNoVlan n l id)). Unshelve. lia.
    + destruct (proj1 (proj2 (proj2 Hrp))) as (i & Hi & _). rewrite Hi.
      destruct (rs_find_vlan rs n) as [v|] eqn:Ev;
        [|by apply (reach_replace_kind n b _ (FNoVlan n l id))].
      eapply (reaches_bind 0 4); [apply reaches_ok|drop_value].
      eapply (reaches_bind 0 4); [apply reaches_test|]. intros [d1 r1]. apply reaches_pure.
      intros E1. eapply (reaches_bind 0 4); [apply reaches_test|]. intros [d2 r2].
      apply reaches_pure. intros E2.
      assert (r1 || r2 = true) as ->; [|by apply (reach_replace n b _ (FNoVlan n l id))].
      apply not_false_iff_true. intros [-> ->]%orb_false_iff. apply Hwrong.
      destruct (_ && _) eqn:T1 in E1; [|done]. apply andb_true_iff in T1 as [? ?%Z.eqb_eq].
      destruct (rs_find_iface rs l) as [lk|] eqn:El; [|done].
      destruct (_ && _) eqn:T2 in E2; [|done]. apply andb_true_iff in T2 as [? ?%Z.eqb_eq].
      by exists v, lk.
Qed.

(** The VXLAN is as desired, or can be created, after a deletion or without. *)
Definition vxlan_ready (done spent : list fact) (ds : desired_state) : Prop :=
  let n := vx_ifname ds in
  exists r, inet_pton (vx_remote ds) = Some r /\
  (sure (FVxlan n (vx_vni ds) r (vx_dev ds)) /\ port_ready done (vx_bridge ds) n \/
   ip_name n /\ (0 <= vx_vni ds < 2 ^ 24)%Z /\ unicast r /\
   (vx_dev ds <> [] -> of_kind sure lower_kinds (vx_dev ds)) /\
   holds rs (FNoVxlan n (vx_vni ds)) /\ (FNoVxlan [] (vx_vni ds) ∉ spent) /\
   (holds rs (FAbsent n) /\ (FAbsent n ∉ spent) \/
    (~ holds rs (FVxlan n (vx_vni ds) r (vx_dev ds))) /\ replaceable done spent n)).

Lemma reach_vxlan_again ds r done spent (P : world -> Prop) :
  let n := vx_ifname ds in
  inet_pton (vx_remote ds) = Some r ->
  ip_name n -> (0 <= vx_vni ds < 2 ^ 24)%Z -> unicast r ->
  (vx_dev ds <> [] -> of_kind sure lower_kinds (vx_dev ds)) ->
  known done (FKind (vx_bridge ds) (#"bridge")) -> FMember n (vx_bridge ds) ∈ wanted ->
  (forall w, P w -> inv done spent w /\ holds (tables w) (FAbsent n) /\
     holds (tables w) (FNoVxlan n (vx_vni ds))) ->
  reaches 3 P
    (fun _ => inv ([FVxlan n (vx_vni ds) r (vx_dev ds); FUp n; FMember n (vx_bridge ds)] ++ done)
       ([FAbsent n; FNoVxlan [] (vx_vni ds); FDeletable (vx_dev ds)] ++ spent))
    (act_vxlan_again ds).
Proof.
  unfold act_vxlan_again, act_add_vxlan. cbn zeta.
  set (n := vx_ifname ds). set (b := vx_bridge ds). set (dev := vx_dev ds).
  set (vni := vx_vni ds). intros Hrem Hn Hid Hu Hl Hb Hw HP. bounded; [|shelve].
  set (c := IpAddVxlan n vni (vx_remote ds) r dev).
  assert (Hlast : Forall lasting (ip_post c))
    by (cbn; case_bool_decide; lasts_all).
  eapply (reaches_bind 1 _ _ (fun _ => inv (ip_post c ++ done) (ip_spends c ++ spent))).
  { assert (Hpre : forall w, P w -> inv done spent w /\ ip_pre c (tables w)).
    { intros w (Hi & Ha & Hv)%HP. split; [done|]. do 4 (split; [done|]).
      split; [intros Hd; by eapply sure_of_kind; [|apply Hl]|done]. }
    fold dev n vni. case_bool_decide as Ed; (eapply (reaches_act_from c); [|done|done]);
      unfold c; cbn [argv_of]; [rewrite bool_decide_true by done|rewrite bool_decide_false by done];
      spell. }
  drop_value. unfold c. cbn [ip_post ip_spends]. run (IpUp n); [lasts_all| |].
  { intros w Hi. split; [done|]. left. split; [by apply ip_name_lo|]. exists (#"vxlan").
    split; [compute_decide|]. eapply inv_known; [exact Hi|know]. }
  eapply reaches_conseq; [done| |eapply (reaches_act (IpMaster n b)); [done|lasts_all|]].
  - intros x w. cbn [snd]. grow.
  - intros w Hi. split_and!; [done| |eapply inv_known; [exact Hi|]].
    + right; right. destruct (decide (dev = [])) as [Ed|Ed]; [right|left].
      * eapply inv_known; [exact Hi|]. rewrite bool_decide_true by done. know.
      * exists vni, r, dev. split; [eapply inv_known; [exact Hi|know]|]. split; [done|].
        eapply sure_of_kind; [exact Hi|]. by apply Hl.
    + eapply known_incl; [|exact Hb]. intros ? ?; mem.
  Unshelve. lia.
Qed.

(** As desired: no command but [ip link set up]. *)
Lemma reach_vxlan_same ds r done spent :
  inet_pton (vx_remote ds) = Some r ->
  sure (FVxlan (vx_ifname ds) (vx_vni ds) r (vx_dev ds)) ->
  port_ready done (vx_bridge ds) (vx_ifname ds) ->
  reaches 1 (inv done spent)
    (attrs_end (vx_bridge ds) (vx_ifname ds)
       (FVxlan (vx_ifname ds) (vx_vni ds) r (vx_dev ds)) done (vxlan_spends ds ++ spent))
    (check_vxlan_attrs ds rs (rs_find_iface rs (vx_ifname ds))
       (rs_find_vxlan rs (vx_ifname ds))).
Proof.
  intros Hrem Hv Hp. unfold check_vxlan_attrs. cbn zeta.
  pose proof Hv as [(v & Ev & Hi & Ei & Hm & Em & Hd) _].
  rewrite (proj2 (parse_ip4_Ok _ _) Hrem), Ev, Hi, Ei, Hm, Em, !Z.eqb_refl. cbn [andb]. bounded.
  - seq. value. value.
    eapply (reaches_bind 0 _ _ (fun x w => x = (0%Z, false) /\ inv done spent w)).
    { case_bool_decide as Ed; [apply reaches_ret_eq|].
      destruct (Hd Ed) as (l & El & Hk & Ek). rewrite El, Hk, Ek, Z.eqb_refl.
      apply reaches_ok_ret. }
    intros [? ?]; apply reaches_pure; intros [= -> ->]. cbn [orb].
    eapply reaches_bind; [apply reach_up, Hp|]. intros d4. cbn beta.
    seq. intros w Hiw. split; [intros _; apply Hp|]. apply inv_spent. revert Hiw. cbn [snd]. grow.
  - lia.
Qed.

(** A VXLAN with other attributes: the tests lead to the deletion. *)
Lemma reach_vxlan_wrong {A} ds r v k P (Q : A -> world -> Prop) (m : Z -> Z -> Z -> bool -> V A) :
  let dev := vx_dev ds in
  rs_find_vxlan rs (vx_ifname ds) = Some v ->
  ~ holds rs (FVxlan (vx_ifname ds) (vx_vni ds) r dev) ->
  (forall d1 d2 d3, reaches k P Q (m d1 d2 d3 true)) ->
  forall m1 m2 m3, reaches k P Q
    ('(d1, r1) ← (if vxl_has_vni v && (vxl_vni v =? vx_vni ds)%Z
                  then _ ← ok m1; mret (0%Z, false) else _ ← miss m1; mret (1%Z, true));
     '(d2, r2) ← (if vxl_has_remote v && (vxl_remote v =? r)%Z
                  then _ ← ok m2; mret (0%Z, false) else _ ← miss m2; mret (1%Z, true));
     '(d3, r3) ← (if bool_decide (dev = []) then mret (0%Z, false)
                  else if match rs_find_iface rs dev with
                          | Some d => vxl_has_link v && (vxl_link v =? if_ifindex d)%Z
                          | None => false
                          end
                  then _ ← ok m3; mret (0%Z, false) else _ ← miss m3; mret (1%Z, true));
     m d1 d2 d3 (r1 || r2 || r3)).
Proof.
  intros dev Ev Hwrong Hm m1 m2 m3.
  eapply (reaches_bind 0 k); [apply reaches_test|]. intros [d1 r1]. apply reaches_pure. intros E1.
  eapply (reaches_bind 0 k); [apply reaches_test|]. intros [d2 r2]. apply reaches_pure. intros E2.
  eapply (reaches_bind 0 k _ (fun x w => (x.2 = false -> dev <> [] -> exists l,
    rs_find_iface rs dev = Some l /\ vxl_has_link v = true /\ vxl_link v = if_ifindex l) /\ P w)).
  { case_bool_decide as Ed; [by apply reaches_ret|].
    eapply reaches_conseq; [done| |apply reaches_test]. intros [d3 r3] w [E3 Hiw].
    split; [|done]. cbn [snd]. intros -> _.
    destruct (rs_find_iface rs dev) as [lk|] eqn:El; [|done].
    destruct (_ && _) eqn:T3 in E3; [|done]. apply andb_true_iff in T3 as [? ?%Z.eqb_eq].
    by exists lk. }
  intros [d3 r3]. apply reaches_pure. cbn [snd]. intros E3.
  assert (r1 || r2 || r3 = true) as ->; [|apply Hm].
  apply not_false_iff_true. intros [[-> ->]%orb_false_iff ->]%orb_false_iff. apply Hwrong.
  destruct (_ && _) eqn:T1 in E1; [|done]. apply andb_true_iff in T1 as [? ?%Z.eqb_eq].
  destruct (_ && _) eqn:T2 in E2; [|done]. apply andb_true_iff in T2 as [? ?%Z.eqb_eq].
  exists v. split_and!; [done..|]. by apply E3.
Qed.

Lemma reach_vxlan ds done spent :
  vxlan_ready done spent ds -> known done (FKind (vx_bridge ds) (#"bridge")) ->
  FMember (vx_ifname ds) (vx_bridge ds) ∈ wanted ->
  exists r, inet_pton (vx_remote ds) = Some r /\
  reaches 4 (inv done spent)
    (attrs_end (vx_bridge ds) (vx_ifname ds)
       (FVxlan (vx_ifname ds) (vx_vni ds) r (vx_dev ds)) done (vxlan_spends ds ++ spent))
    (check_vxlan_attrs ds rs (rs_find_iface rs (vx_ifname ds))
       (rs_find_vxlan rs (vx_ifname ds))).
Proof.
  intros (r & Hrem & Hr) Hb Hw. exists r. split; [done|].
  destruct Hr as [[Hv Hp]|(Hn & Hid & Hu & Hl & Hno & Hns & Hc)].
  { bounded; [by apply reach_vxlan_same|lia]. }
  unfold check_vxlan_attrs. cbn zeta. rewrite (proj2 (parse_ip4_Ok _ _) Hrem).
  set (n := vx_ifname ds) in *. set (b := vx_bridge ds) in *. set (dev := vx_dev ds) in *.
  set (vni := vx_vni ds) in *.
  change (vxlan_spends ds) with ([FAbsent n; FNoVxlan [] vni; FDeletable dev] ++ [FDeletable n]).
  assert (Hsf : sure (FNoVxlan n vni)) by by apply sure_free.
  assert (Hagain : forall P spent', (forall w, P w -> inv done spent' w /\
      holds (tables w) (FAbsent n) /\ holds (tables w) (FNoVxlan n vni)) ->
    reaches 3 P (fun _ => inv ([FVxlan n vni r dev; FUp n; FMember n b] ++ done)
      ([FAbsent n; FNoVxlan [] vni; FDeletable dev] ++ spent')) (act_vxlan_again ds))
    by (intros; by apply reach_vxlan_again).
  destruct Hc as [[Ha Has]|[Hwrong Hrp]].
  - destruct (Ha) as (Ha1 & Ha2 & Ha3). rewrite Ha3, Ha1. bounded; [|shelve].
    eapply reaches_bind; [apply reaches_miss_ret|]. intros u. apply reaches_pure. intros _.
    by apply (reach_absent n b _ (FNoVxlan n vni)). Unshelve. lia.
  - destruct (proj1 (proj2 (proj2 Hrp))) as (i & Hi & _). rewrite Hi.
    destruct (rs_find_vxlan rs n) as [v|] eqn:Ev;
      [|by apply (reach_replace_kind n b _ (FNoVxlan n vni))].
    eapply (reaches_bind 0 4); [apply reaches_ok|drop_value].
    apply (reach_vxlan_wrong ds r v 4 _ _ (fun d1 d2 d3 again => if again then
        _ ← act (#"ip link del " ++ n); _ ← act_vxlan_again ds; mret ((d1 + d2 + d3)%Z, true)
      else d4 ← check_iface_up n (Some i); mret ((d1 + d2 + d3 + d4)%Z, false)) Ev Hwrong).
    intros d1 d2 d3. by apply (reach_replace n b _ (FNoVxlan n vni)).
Qed.

(** *** Routes *)

Lemma reach_wg ds done spent :
  up_ready done (wg_ifname ds) ->
  reaches 1 (inv done spent) (fun _ => inv ([FUp (wg_ifname ds)] ++ done) spent) (check_wg ds rs).
Proof.
  intros Hr. unfold check_wg. pose proof (reach_up (wg_ifname ds) done spent Hr) as Hu.
  destruct (up_ready_link _ _ Hr) as [[i Hi] _]. rewrite Hi in *. bounded.
  - eapply reaches_bind; [apply reaches_ok_ret|]. intros a. apply reaches_pure. intros _.
    eapply reaches_bind; [exact Hu|]. intros d. by seq.
  - lia.
Qed.

(** The route to the peer is there, or its device is up by then. *)
Definition peer_ready (done : list fact) (ds : desired_state) : Prop :=
  (wg_route_dev ds ∉ doomed) /\
  exists ip, inet_pton (wg_peer_ip ds) = Some ip /\
    (holds rs (FRoute ip 32 (wg_route_dev ds) None) \/
     unicast ip /\ wg_route_dev ds <> #"lo" /\
     known (bridge_goals ds ++ uplink_goals ds ++ done) (FUp (wg_route_dev ds))).

Lemma reach_peer ds done done' spent :
  peer_ready done ds -> bridge_goals ds ++ uplink_goals ds ⊆ done' -> done ⊆ done' ->
  peer_goals ds ⊆ wanted ->
  reaches 1 (inv done' spent) (fun _ => inv (peer_goals ds ++ done') spent)
    (check_wg_peer_route ds rs).
Proof.
  unfold peer_goals, check_wg_peer_route. intros (Hdm & ip & Hip & Hr) Hd Hd' Hw.
  set (dev := wg_route_dev ds) in *. rewrite Hip in *. rewrite (proj2 (parse_ip4_Ok _ _) Hip).
  assert (FRoute ip 32 dev None ∈ wanted) by (apply Hw; mem).
  destruct (match rs_find_iface rs dev with Some br => _ | None => _ end) eqn:Er; bounded.
  - assert (sure (FRoute ip 32 dev None)).
    { split; [|intacts]. destruct (rs_find_iface rs dev) as [i|] eqn:Ei; [|done]. exists i.
      split; [done|].
      by apply (route_exact_true _ _ _ _ 0 false). }
    seq. seq. intros w. grow.
  - lia.
  - destruct Hr as [(i & Hi & Hrt)|(Hun & Hlo & Hu)].
    { rewrite Hi in Er. apply (route_exact_true _ _ _ _ 0 false) in Hrt. congruence. }
    seq. run (IpRoute (wg_peer_ip ds ++ #"/32") ip 32 None dev); [spell|lasts_all| |by seq].
    intros w Hi. split; [split; [done|by exists (wg_peer_ip ds)]|]. split; [by right|].
    split; [apply Z.mod_1_r|]. split; [done|]. split; [|done].
    eapply inv_known; [exact Hi|]. eapply known_incl; [|exact Hu].
    intros f. rewrite app_assoc, elem_of_app. intros [?|?]; auto.
  - lia.
Qed.

(** The route is there, or its device is up by then and its gateway can be
    reached over it. *)
Definition route_ready (done spent : list fact) (rt : desired_route4) : Prop :=
  exists dst p, prefix_text (rt_dst rt) dst p /\
    (rt_has_via rt = true -> is_Some (inet_pton (rt_via rt))) /\
    let f := FRoute dst p (rt_dev rt) (if rt_has_via rt then inet_pton (rt_via rt) else None) in
    (holds rs f -> rt_dev rt ∉ doomed) /\
    (holds rs f \/
     (dst = 0%Z /\ p = 0%Z \/ unicast dst) /\ host_zero dst p /\ rt_dev rt <> #"lo" /\
     known done (FUp (rt_dev rt)) /\
     (forall g, rt_has_via rt = true -> inet_pton (rt_via rt) = Some g ->
        gw_ready done spent (rt_dev rt) g)).

Lemma route_ready_incl done done' spent rt :
  done ⊆ done' -> route_ready done spent rt -> route_ready done' spent rt.
Proof.
  intros Hd (dst & p & Ht & Hv & Hdm & Hr). exists dst, p. cbn zeta. do 3 (split; [done|]).
  destruct Hr as [Hr|(Hu & Hz & Hlo & Hup & Hg)]; [by left|right].
  do 3 (split; [done|]). split; [by eapply known_incl|].
  intros g Ev Eg. eapply gw_ready_incl; [done|by apply Hg].
Qed.

Lemma reach_route rt done spent :
  route_ready done spent rt -> route_goals rt ⊆ wanted ->
  reaches 1 (inv done spent) (fun _ => inv (route_goals rt ++ done) spent) (check_one_route rs rt).
Proof.
  unfold route_goals, check_one_route. cbn zeta.
  intros (dst & p & Ht & Hv & Hdm & Hr) Hw. set (dev := rt_dev rt) in *. rewrite (parse_prefix_text _ _ _ Ht) in *.
  set (gw := if rt_has_via rt then inet_pton (rt_via rt) else None) in *.
  assert (FRoute dst p dev gw ∈ wanted) by (apply Hw; mem).
  assert (exists via, (if rt_has_via rt then parse_ip4 (rt_via rt) else Ok 0%Z) = Ok via /\
    gw = (if rt_has_via rt then Some via else None)) as (via & -> & Eg).
  { unfold gw. destruct (rt_has_via rt); [|by exists 0%Z].
    destruct Hv as [via Hvia]; [done|]. exists via. by rewrite parse_ip4_Ok. }
  destruct (match rs_find_iface rs dev with Some br => _ | None => _ end) eqn:Er.
  - assert (Hrt : holds rs (FRoute dst p dev gw)).
    { destruct (rs_find_iface rs dev) as [i|] eqn:Ei; [|done]. exists i. split; [done|].
      rewrite Eg. by apply route_exact_true. }
    pose proof (Hdm Hrt). assert (sure (FRoute dst p dev gw)) by (split; [done|intacts]). bounded.
    + eapply (reaches_bind 0 0 _ (fun _ => inv done spent)); [by destruct (rt_has_via rt)|].
      drop_value. seq. intros w. grow.
    + lia.
  - destruct Hr as [(i & Hi & Hrt)|(Hun & Hz & Hlo & Hu & Hg)].
    { rewrite Hi in Er. rewrite Eg in Hrt. apply route_exact_true in Hrt. congruence. }
    unfold gw in *. destruct (rt_has_via rt) eqn:Ev; bounded.
    + seq. run (IpRoute (rt_dst rt) dst p (Some (rt_via rt, via)) dev).
      * cbn [ip_post fmap option_fmap option_map snd]. rewrite Eg in *. lasts_all.
      * intros w Hi. do 4 (split; [done|]). split; [by eapply inv_known|]. split; [done|].
        eapply gw_ready_pre; [by apply Hg|exact Hi].
      * seq. rewrite Eg. intros w Hi. exact Hi.
    + lia.
    + seq. run (IpRoute (rt_dst rt) dst p None dev); [lasts_all| |by seq].
      intros w Hi. do 4 (split; [done|]). split; [by eapply inv_known|done].
    + lia.
Qed.

(** *** States *)

Record bridge_part_ready (done spent : list fact) (ds : desired_state) : Prop := {
  br_ready : bridge_ready spent (br_name ds);
  br_addr_ready : addr_ready spent ds;
  br_gateway_ready : gateway_ready spent ds;
  br_dns_ready : Forall (dns_sat rs) (br_dns ds);
  br_ports_ready : Forall (port_ready done (br_name ds)) (br_ports ds)
}.

(** What the first four checks of a bridge establish. *)
Definition head_goals (ds : desired_state) : list fact :=
  concat (map dns_goals (br_dns ds)) ++ gateway_goals ds ++ links ds ++ addr_goals ds ++
  [FUp (br_name ds); FLink (br_name ds); FKind (br_name ds) (#"bridge")].

Lemma spent_absent (f : fact) n spent :
  (forall m, f <> FAbsent m) -> f ∉ spent -> f ∉ [FAbsent n] ++ spent.
Proof. intros Hf Hs. unmem. intros [[?|[]]|?]; [by apply (Hf n)|done]. Qed.

Lemma addr_ready_bridge spent ds :
  addr_ready spent ds -> addr_ready ([FAbsent (br_name ds)] ++ spent) ds.
Proof.
  unfold addr_ready. destruct (br_addr_mode ds); [done| |done]. cbn zeta.
  intros (a & p & Ht & [Ha|(Hno & Hu & Hs & Hf)]); exists a, p; (split; [done|]); [by left|right].
  do 2 (split; [done|]). split; [by apply spent_absent|]. intros Hin.
  destruct (Hf Hin) as (? & ? & ?). split_and!; [lia..|done|by apply spent_absent].
Qed.

Lemma gateway_ready_bridge spent ds :
  gateway_ready spent ds -> gateway_ready ([FAbsent (br_name ds)] ++ spent) ds.
Proof.
  intros Hg Hne. destruct (Hg Hne) as (gw & E & Hr). exists gw. split; [done|].
  destruct Hr as [Hr|Hr]; [by left|right]. revert Hr. apply can_gateway_mono; [|done..].
  intros [Hf Hs]. split; [done|]. revert Hs. unmem. intros Hs [?|[[?|[]]|?]]; [tauto|done|tauto].
Qed.

Lemma reach_head {A} ds done spent k (Q : A -> world -> Prop) (f : Z -> Z -> Z -> Z -> V A) :
  bridge_part_ready done spent ds -> gateway_goals ds ⊆ wanted ->
  (forall d1 d2 d3 d4, reaches k (inv (head_goals ds ++ done) (bridge_spends ds ++ spent)) Q
     (f d1 d2 d3 d4)) ->
  reaches (4 + k) (inv done spent) Q
    (d1 ← check_bridge ds rs; d2 ← check_bridge_addr ds rs; d3 ← check_bridge_gateway ds rs;
     d4 ← check_bridge_dns ds rs; f d1 d2 d3 d4).
Proof.
  intros [Hb Ha Hg Hd _] Hw Hf. pose proof Hb as (Hdm & Hname & _). bounded.
  - eapply reaches_bind; [by apply reach_bridge|]. intros d1. cbn beta.
    eapply reaches_bind; [apply reach_addr; [done..|by apply addr_ready_bridge|know|know]|].
    intros d2. cbn beta.
    eapply reaches_bind;
      [apply reach_gateway; [done..|by apply gateway_ready_bridge|know| |done]|].
    { intros x Hx. mem. }
    intros d3. cbn beta. eapply reaches_bind; [by apply reach_dns|].
    intros d4. cbn beta. eapply reaches_conseq; [|done|apply Hf].
    unfold head_goals, bridge_spends. intros w. by rewrite <- !app_assoc.
  - lia.
Qed.

(** [done] is what the states before it have established. *)
Definition scenario_ready (done spent : list fact) (ds : desired_state) : Prop :=
  (scenario ds ∈ SCN_UPLINK -> up_ready done (up_ifname ds)) /\
  (scenario ds ∈ SCN_BRIDGE ->
     bridge_part_ready done spent ds /\ port_ready done (br_name ds) (up_ifname ds)) /\
  (scenario ds ∈ SCN_VLAN ->
     bridge_part_ready done spent ds /\ up_ready done (up_ifname ds) /\
     vlan_ready (bridge_goals ds ++ FUp (up_ifname ds) :: done) (bridge_spends ds ++ spent) ds) /\
  (scenario ds ∈ SCN_WG ->
     bridge_part_ready done spent ds /\
     (up_ifname ds <> [] -> up_ready done (up_ifname ds)) /\
     peer_ready done ds /\ up_ready done (wg_ifname ds) /\
     vxlan_ready (bridge_goals ds ++ uplink_goals ds ++ peer_goals ds ++ FUp (wg_ifname ds) :: done)
       (bridge_spends ds ++ spent) ds).

(** The routes that come with the goals of a state. *)
Definition scenario_links (ds : desired_state) : list fact :=
  if bool_decide (scenario ds ∈ SCN_UPLINK) then [] else links ds.

(** The machine can be brought to the state; [spent] is what the states before
    it may have used up. *)
Definition state_ready (done spent : list fact) (ds : desired_state) : Prop :=
  scenario_ready done spent ds /\
  Forall (route_ready (scenario_links ds ++ scenario_goals ds ++ done) (spends ds ++ spent))
    (routes ds).

Lemma reach_ports ds done done' spent :
  Forall (port_ready done (br_name ds)) (br_ports ds) ->
  known done' (FKind (br_name ds) (#"bridge")) -> done ⊆ done' ->
  concat (map (port_goals (br_name ds)) (br_ports ds)) ⊆ wanted ->
  reaches (2 * length (br_ports ds)) (inv done' spent)
    (fun _ => inv (concat (map (port_goals (br_name ds)) (br_ports ds)) ++ done') spent)
    (check_bridge_ports ds rs).
Proof.
  intros Hp Hb Hd Hw. apply reach_sum. intros x done2 Hx Hd2. rewrite Forall_forall in Hp.
  apply reach_port; [|by eapply known_incl|].
  { eapply port_ready_incl; [|by apply Hp]. intros f Hf. by apply Hd2, Hd. }
  apply Hw, list_elem_of_In, in_concat. exists (port_goals (br_name ds) x).
  split; [by apply in_map, list_elem_of_In|]. cbn. auto.
Qed.

Lemma bridge_goals_wanted ds : bridge_goals ds ⊆ wanted ->
  gateway_goals ds ⊆ wanted /\ concat (map (port_goals (br_name ds)) (br_ports ds)) ⊆ wanted.
Proof.
  unfold bridge_goals. intros Hw.
  split; intros f Hf; apply Hw; rewrite !elem_of_app; tauto.
Qed.

(** Reorder what is established. *)
Ltac reorder :=
  let f := fresh "f" in let Hf := fresh "Hf" in let Hl := fresh "Hl" in
  apply inv_weaken; [|done]; intros f Hf Hl; apply known_in; [done|]; revert Hf;
  unfold bridge_goals, head_goals, port_goals, vlan_goals, vxlan_goals;
  unmem; tauto.

(** What is not in the goals is not in what the checks establish. *)
Lemma untouched_incl n done done' :
  untouched n done ->
  (forall f, f ∈ done' -> f ∈ done \/ exists g, g ∈ done /\ names f = names g) -> untouched n done'.
Proof.
  unfold untouched. rewrite !Forall_forall. intros Hd Hi f Hf.
  destruct (Hi f Hf) as [Hf'|(g & Hg & ->)]; by apply Hd.
Qed.

Lemma replaceable_incl n done done' spent :
  replaceable done spent n ->
  (forall f, f ∈ done' -> f ∈ done \/ exists g, g ∈ done /\ names f = names g) ->
  replaceable done' spent n.
Proof.
  intros (? & ? & ? & ?) Hi. split_and!; try done. by eapply untouched_incl.
Qed.

Lemma vlan_ready_incl ds done done' spent :
  vlan_ready done spent ds ->
  (forall f, f ∈ done' -> f ∈ done \/ exists g, g ∈ done /\ names f = names g) ->
  vlan_ready done' spent ds.
Proof.
  unfold vlan_ready. cbn zeta.
  intros [?|(? & ? & ? & ? & ? & Hc)] Hi; [by left|right]. do 5 (split; [done|]).
  destruct Hc as [?|[? ?]]; [by left|right]. split; [done|by eapply replaceable_incl].
Qed.

Lemma vxlan_ready_incl ds done done' spent :
  vxlan_ready done spent ds -> done ⊆ done' ->
  (forall f, f ∈ done' -> f ∈ done \/ exists g, g ∈ done /\ names f = names g) ->
  vxlan_ready done' spent ds.
Proof.
  intros (r & Er & [[? ?]|(? & ? & ? & ? & ? & ? & Hc)]) Hd Hi; exists r; (split; [done|]).
  { left. split; [done|by eapply port_ready_incl]. }
  right. do 6 (split; [done|]).
  destruct Hc as [?|[? ?]]; [by left|right]. split; [done|by eapply replaceable_incl].
Qed.

Lemma links_names ds f : f ∈ links ds -> names f = [br_name ds].
Proof.
  unfold links. repeat case_match; rewrite ?elem_of_nil, ?list_elem_of_singleton; try done.
  by intros ->.
Qed.

(** The checks of a bridge also learn that it is a link, and routes over it. *)
Ltac covered ds :=
  let f := fresh "f" in let Hf := fresh "Hf" in let Hn := fresh "Hn" in
  intros f Hf; destruct (decide (f = FLink (br_name ds))) as [->|];
  [right; eexists (FKind (br_name ds) (#"bridge")); split; [unfold bridge_goals; mem|done]|];
  destruct (decide (f ∈ links ds)) as [Hn%links_names|];
  [right; eexists (FKind (br_name ds) (#"bridge")); split; [unfold bridge_goals; mem|done]|left];
  revert Hf; unfold bridge_goals, head_goals; unmem; tauto.

Lemma reach_uplink_bridge ds done spent :
  bridge_part_ready done spent ds -> port_ready done (br_name ds) (up_ifname ds) ->
  bridge_goals ds ++ port_goals (br_name ds) (up_ifname ds) ⊆ wanted ->
  reaches (12 + 2 * length (br_ports ds)) (inv done spent)
    (fun _ => inv (links ds ++ (bridge_goals ds ++ port_goals (br_name ds) (up_ifname ds)) ++ done)
                  (bridge_spends ds ++ spent))
    (verify_uplink_bridge ds rs).
Proof.
  intros Hb [Hu Hm] Hw. destruct (bridge_goals_wanted ds) as [Hwg Hwp].
  { intros f Hf. apply Hw. by apply elem_of_app; left. }
  unfold verify_uplink_bridge. bounded.
  - apply reach_head; [done..|]. intros d1 d2 d3 d4.
    eapply reaches_bind; [apply reach_uplink; eapply up_ready_incl; [|exact Hu]; intros ? ?; mem|].
    intros d5. cbn beta.
    eapply reaches_bind; [apply reach_master; [done| |]|].
    { unfold head_goals. know. }
    { apply Hw. mem. }
    intros d6. cbn beta.
    eapply reaches_bind; [eapply reach_ports; [apply Hb| |intros ? ?; mem|done]|].
    { unfold head_goals. know. }
    intros d7. seq. intros w. reorder.
  - lia.
Qed.

(** The uplink is brought up before the VLAN on it. *)
Lemma reach_vlan_bridge ds done spent :
  bridge_part_ready done spent ds -> up_ready done (up_ifname ds) ->
  vlan_ready (bridge_goals ds ++ FUp (up_ifname ds) :: done) (bridge_spends ds ++ spent) ds ->
  vlan_link ds = up_ifname ds -> vlan_bridge ds = br_name ds ->
  bridge_goals ds ++ FUp (up_ifname ds) :: vlan_goals ds ⊆ wanted ->
  reaches (12 + 2 * length (br_ports ds)) (inv done spent)
    (fun _ => inv (links ds ++ (bridge_goals ds ++ FUp (up_ifname ds) :: vlan_goals ds) ++ done)
                  (vlan_spends ds ++ bridge_spends ds ++ spent))
    (verify_vlan_bridge ds rs).
Proof.
  intros Hb Hu Hv El Eb Hw. destruct (bridge_goals_wanted ds) as [Hwg Hwp].
  { intros f Hf. apply Hw. by apply elem_of_app; left. }
  assert (Hm : FMember (vlan_ifname ds) (vlan_bridge ds) ∈ wanted)
    by (apply Hw; unfold vlan_goals; mem).
  unfold verify_vlan_bridge. bounded.
  - apply reach_head; [done..|]. intros d1 d2 d3 d4.
    eapply reaches_bind; [apply reach_uplink; eapply up_ready_incl; [|exact Hu]; intros ? ?; mem|].
    intros d5. cbn beta.
    eapply reaches_bind; [eapply reach_ports; [apply Hb| |intros ? ?; mem|done]|].
    { unfold head_goals. know. }
    intros d6. cbn beta zeta.
    match goal with |- reaches _ (inv ?d _) _ _ =>
      assert (Hk : known d (FKind (vlan_bridge ds) (#"bridge")));
      [|assert (Hl : known d (FUp (vlan_link ds)))] end.
    { rewrite Eb. unfold head_goals. know. }
    { rewrite El. know. }
    eapply reaches_bind; [apply reach_vlan; [|done..]|].
    { eapply vlan_ready_incl; [exact Hv|]. covered ds. }
    intros [d7 re]. eapply reaches_bind; [by apply (reach_attrs_master _ _ _ _ _ (d7, re)); [..|lasts]|].
    intros d8. seq. intros w. reorder.
  - lia.
Qed.

Lemma reach_wg_bridge ds done spent :
  bridge_part_ready done spent ds -> (up_ifname ds <> [] -> up_ready done (up_ifname ds)) ->
  peer_ready done ds -> up_ready done (wg_ifname ds) ->
  vxlan_ready (bridge_goals ds ++ uplink_goals ds ++ peer_goals ds ++ FUp (wg_ifname ds) :: done)
    (bridge_spends ds ++ spent) ds -> vx_bridge ds = br_name ds ->
  bridge_goals ds ++ uplink_goals ds ++ peer_goals ds ++ FUp (wg_ifname ds) :: vxlan_goals ds
    ⊆ wanted ->
  reaches (12 + 2 * length (br_ports ds)) (inv done spent)
    (fun _ => inv (links ds ++ (bridge_goals ds ++ uplink_goals ds ++ peer_goals ds ++
                    FUp (wg_ifname ds) :: vxlan_goals ds) ++ done)
                  (vxlan_spends ds ++ bridge_spends ds ++ spent))
    (verify_wg_vxlan_bridge ds rs).
Proof.
  intros Hb Hu Hp Hg Hv Eb Hw. destruct (bridge_goals_wanted ds) as [Hwg Hwp].
  { intros f Hf. apply Hw. by apply elem_of_app; left. }
  assert (Hm : FMember (vx_ifname ds) (vx_bridge ds) ∈ wanted)
    by (apply Hw; unfold vxlan_goals; mem).
  assert (Hwp' : peer_goals ds ⊆ wanted)
    by (intros f Hf; apply Hw; rewrite !elem_of_app; tauto).
  unfold verify_wg_vxlan_bridge. bounded.
  - apply reach_head; [done..|]. intros d1 d2 d3 d4.
    eapply (reaches_bind 1 _ _ (fun _ => inv (uplink_goals ds ++ head_goals ds ++ done) _)).
    { unfold uplink_goals. case_bool_decide; bounded; [by seq|lia| |done]. apply reach_uplink.
      eapply up_ready_incl; [|by apply Hu]. intros ? ?; mem. }
    intros d5. cbn beta.
    eapply reaches_bind; [eapply reach_ports; [apply Hb| |intros ? ?; mem|done]|].
    { unfold head_goals. know. }
    intros d6. cbn beta. eapply reaches_bind; [eapply reach_peer; [done| |intros ? ?; mem|done]|].
    { intros f. unfold bridge_goals, head_goals. unmem; tauto. }
    intros d7. cbn beta.
    eapply reaches_bind; [apply reach_wg; eapply up_ready_incl; [|exact Hg]; intros ? ?; mem|].
    intros d8. cbn beta zeta.
    match goal with |- reaches _ (inv ?d _) _ _ =>
      assert (Hk : known d (FKind (vx_bridge ds) (#"bridge"))) end.
    { rewrite Eb. unfold head_goals. know. }
    edestruct reach_vxlan as (r & Er & Hx); [|exact Hk|done|].
    { eapply vxlan_ready_incl; [exact Hv| |covered ds].
      intros f. unfold bridge_goals, head_goals. unmem; tauto. }
    eapply reaches_bind; [exact Hx|]. intros [d9 re].
    eapply reaches_bind; [by apply (reach_attrs_master _ _ _ _ _ (d9, re)); [..|lasts]|].
    intros d10. seq. intros w. unfold vxlan_goals. rewrite Er. reorder.
  - lia.
Qed.

(** The commands of one state. *)
Lemma reach_scenario ds done spent :
  refs_ok ds -> scenario_ready done spent ds -> scenario_goals ds ⊆ wanted ->
  exists check, verify_scenario ds = Some check /\
    reaches (12 + 2 * length (br_ports ds)) (inv done spent)
      (fun _ => inv (scenario_links ds ++ scenario_goals ds ++ done) (spends ds ++ spent))
      (check rs).
Proof.
  intros Hok (R1 & R2 & R3 & R4). pose proof (refs_scn _ Hok) as Hs. revert Hs.
  unfold verify_scenario, scenario_links, scenario_goals, spends. rewrite !scn_bool, !elem_of_app.
  unfold SCN_UPLINK, SCN_BRIDGE, SCN_VLAN in *. intros Hs Hw. repeat case_bool_decide.
  - eexists. split; [done|]. bounded; [by apply reach_uplink, R1|lia].
  - eexists. split; [done|]. destruct R2; [done|]. by apply reach_uplink_bridge.
  - eexists. split; [done|]. destruct R3 as (? & ? & ?); [done|].
    eapply reaches_conseq; [done| |apply reach_vlan_bridge; try done; by apply (refs_vlan _ Hok)].
    intros a w. by rewrite <- (app_assoc (vlan_spends ds)).
  - destruct Hs as [?|[?|[?|Hs]]]; [done..|]. pose proof Hs as Es.
    apply list_elem_of_singleton in Es. rewrite (proj2 (streq_true _ _) Es).
    eexists. split; [done|]. destruct R4 as (? & ? & ? & ? & ?); [done|].
    eapply reaches_conseq; [done| |apply reach_wg_bridge; try done; by apply (refs_vxlan _ Hok)].
    intros a w. by rewrite <- (app_assoc (vxlan_spends ds)).
Qed.

Lemma reach_state ds done spent :
  refs_ok ds -> state_ready done spent ds -> goals ds ⊆ wanted ->
  exists check, verify_scenario ds = Some check /\
    reaches (budget ds) (inv done spent)
      (fun _ => inv (scenario_links ds ++ goals ds ++ done) (spends ds ++ spent))
      (d1 ← check rs; d2 ← check_routes ds rs; mret (d1 + d2)%Z).
Proof.
  intros Hok [Hs Hr] Hw. unfold goals in Hw.
  destruct (reach_scenario ds done spent Hok Hs) as (check & Ec & Hc).
  { intros f Hf. apply Hw, elem_of_app. by left. }
  exists check. split; [done|]. bounded.
  - eapply reaches_bind; [exact Hc|]. intros d1. cbn beta.
    eapply reaches_bind; [apply (reach_sum _ route_goals 1)|].
    { intros rt done' Hin Hd. apply reach_route.
      - rewrite Forall_forall in Hr. eapply route_ready_incl; [exact Hd|by apply Hr].
      - intros f Hf. apply Hw, elem_of_app. right. apply list_elem_of_In, in_concat.
        exists (route_goals rt). split; [by apply in_map, list_elem_of_In|by apply list_elem_of_In]. }
    intros d2. cbn beta. seq. intros w. unfold goals. reorder.
  - unfold budget. lia.
Qed.

(** *** Goals and satisfaction *)

Lemma Forall_concat_map {A} (P : fact -> Prop) (E : A -> list fact) l :
  Forall P (concat (map E l)) <-> Forall (fun x => Forall P (E x)) l.
Proof.
  induction l as [|x l IH]; cbn; [done|]. by rewrite Forall_app, Forall_cons, IH.
Qed.

Ltac flat H := rewrite ?Forall_app, ?Forall_cons, ?Forall_nil in H.

Lemma bridge_goals_sat done spent ds rs' :
  bridge_part_ready done spent ds -> Forall (holds rs') (bridge_goals ds) -> bridge_part_sat ds rs'.
Proof.
  intros [_ Ha Hg Hd _] Hf. unfold bridge_goals in Hf. rewrite !Forall_app in Hf.
  destruct Hf as (Hb & Hfa & Hfg & Hfd & Hfp). flat Hb. destruct Hb as (Hb0 & Hb1 & _). split_and!.
  - destruct Hb0 as (i & Hi & Hk). destruct Hb1 as (j & Hj & Hu). exists i.
    rewrite Hi in Hj. injection Hj as <-. done.
  - unfold addr_ready, addr_goals, bridge_addr_sat in *. destruct (br_addr_mode ds); [done| |].
    + destruct Ha as (a & p & Ht & _). rewrite (parse_prefix_text _ _ _ Ht) in *. flat Hfa.
      destruct Hfa as [(i & Hi & Hin) _]. by exists a, p, i.
    + flat Hfa. apply Hfa.
  - intros Hne. destruct (Hg Hne) as (gw & E & _). unfold gateway_goals in Hfg. rewrite E in Hfg.
    flat Hfg. destruct Hfg as [(i & Hi & Hr) _]. by exists gw, i.
  - rewrite Forall_concat_map in Hfd. rewrite Forall_forall in Hd, Hfd |- *. intros x Hx.
    destruct (Hd x Hx) as (a & Ea & _). specialize (Hfd x Hx). unfold dns_goals in Hfd.
    rewrite Ea in Hfd. flat Hfd. destruct Hfd. by exists a.
  - rewrite Forall_concat_map in Hfp. eapply Forall_impl; [exact Hfp|].
    intros x Hx. unfold port_goals in Hx. flat Hx. destruct Hx as (? & ? & _). by split.
Qed.

Lemma scenario_goals_sat done spent ds rs' :
  refs_ok ds -> scenario_ready done spent ds -> Forall (holds rs') (scenario_goals ds) ->
  scenario_sat ds rs'.
Proof.
  intros Hok (R1 & R2 & R3 & R4) Hf. pose proof (refs_scn _ Hok) as Hs.
  rewrite !elem_of_app in Hs. unfold scenario_goals in Hf. repeat case_bool_decide.
  - left. flat Hf. by destruct Hf.
  - right; left. destruct R2 as [Hb _]; [done|]. rewrite Forall_app in Hf. destruct Hf as [Hf Hp].
    unfold port_goals in Hp. flat Hp. destruct Hp as (? & ? & _). split_and!; [done|by eapply bridge_goals_sat|done..].
  - right; right; left. destruct R3 as [Hb _]; [done|]. rewrite Forall_app in Hf.
    destruct Hf as [Hf Hv]. unfold vlan_goals in Hv. flat Hv. destruct Hv as (? & ? & ? & ? & _).
    split_and!; [done|by eapply bridge_goals_sat|done|by split|done].
  - destruct Hs as [?|[?|[?|Hs]]]; [done..|]. right; right; right.
    destruct R4 as (Hb & Hu & (_ & ip & Ei & _) & _ & (r & Er & _)); [done|].
    rewrite !Forall_app, Forall_cons in Hf. destruct Hf as (Hf & Hup & Hp & Hwg & Hv).
    unfold uplink_goals, peer_goals, vxlan_goals in *. rewrite Ei, Er in *. flat Hp. flat Hv.
    destruct Hp as [Hp _]. destruct Hv as ([Hv _] & ? & ? & _).
    split_and!; [done|by eapply bridge_goals_sat| | |done| |done].
    + intros Hne. rewrite bool_decide_false in Hup by done. flat Hup. by destruct Hup.
    + destruct Hp as (i & Hi & Hr). by exists ip, i.
    + split; [|done]. destruct Hv as (v & E1 & E2 & E3 & E4 & E5 & E6). exists v, r. done.
Qed.

Lemma goals_sat done spent ds rs' :
  refs_ok ds -> state_ready done spent ds -> Forall (holds rs') (goals ds) -> satisfied ds rs'.
Proof.
  intros Hok [Hs Hr] Hf. apply Forall_app in Hf as [Hf Hg].
  split; [by eapply scenario_goals_sat|]. rewrite Forall_concat_map in Hg.
  rewrite Forall_forall in Hr, Hg |- *. intros rt Hin.
  destruct (Hr rt Hin) as (dst & p & Ht & Hv & _). specialize (Hg rt Hin).
  unfold route_goals in Hg. rewrite (parse_prefix_text _ _ _ Ht) in Hg. flat Hg.
  destruct Hg as [(i & Hi & Hrt) _]. exists dst, p, i.
  eexists. split_and!; [by apply parse_prefix_text|done| |exact Hrt].
  destruct (rt_has_via rt); [|done]. destruct Hv as [g Eg]; [done|]. by exists g.
Qed.

(** Goals last. *)
Lemma goals_lasting ds : goals ds ⊆ wanted -> Forall lasting (goals ds).
Proof.
  intros Hw. apply Forall_forall. intros f Hf. split; [|intros _; by apply Hw].
  assert (Hp : Forall (fun f => transient f = false) (goals ds)).
  { clear. unfold goals, scenario_goals, bridge_goals, vlan_goals, vxlan_goals, port_goals,
      uplink_goals, peer_goals, gateway_goals, addr_goals.
    repeat (rewrite ?Forall_app, ?Forall_cons, ?Forall_nil, ?Forall_concat_map; first
      [case_match|split|done|apply Forall_true; intros ?; unfold dns_goals, route_goals]). }
  rewrite Forall_forall in Hp. by apply Hp.
Qed.

(** *** The set *)

Fixpoint states_ready (done spent : list fact) (set : desired_set) : Prop :=
  match set with
  | [] => True
  | ds :: set' =>
    state_ready done spent ds /\
    states_ready (scenario_links ds ++ goals ds ++ done) (spends ds ++ spent) set'
  end.

(** One state, with the lines and the failure flag [verify_state] reports. *)
Lemma state_converges ds done spent n w :
  refs_ok ds -> state_ready done spent ds -> goals ds ⊆ wanted ->
  roomy (budget ds + n) w -> inv done spent w ->
  exists diff out w', verify_state ds rs true w = (diff, Some false, out, w') /\
    (0 <= diff)%Z /\ roomy n w' /\
    inv (scenario_links ds ++ goals ds ++ done) (spends ds ++ spent) w'.
Proof.
  intros Hok Hr Hw Hn Hi. destruct (reach_state ds done spent Hok Hr Hw) as (check & Ec & Hc).
  destruct (verify_state_plan ds rs (refs_scn _ Hok)) as (p & _ & _ & _ & Ep).
  specialize (Hc n (Vst _ true false [] w) eq_refl eq_refl Hn Hi).
  specialize (Ep true w). unfold verify_state in Ep |- *. rewrite Ec in *.
  destruct ((d1 ← check rs; d2 ← check_routes ds rs; mret (d1 + d2)%Z) _) as [diff s'].
  destruct Hc as (_ & Hf & Hn' & Hi'). exists diff, (v_out s'), (v_world s').
  rewrite Hf. split_and!; [done| |done|done]. injection Ep as -> _ _ _. lia.
Qed.

Lemma loop_converges set done spent n d s :
  Forall refs_ok set -> states_ready done spent set -> concat (map goals set) ⊆ wanted ->
  roomy (sum_list_with budget set + n) (r_world s) -> inv done spent (r_world s) -> (0 <= d)%Z ->
  exists diff s' spent', verify_loop set rs true false d s = (diff, false, s') /\
    (0 <= diff)%Z /\ roomy n (r_world s') /\
    inv (concat (map goals set) ++ done) spent' (r_world s').
Proof.
  intros Hok. revert done spent d s. induction Hok as [|ds set Hds _ IH];
    intros done spent d s Hr Hw Hn Hi Hd.
  { by exists d, s, spent. }
  cbn [map concat sum_list_with] in *. destruct Hr as [Hr Hrs].
  rewrite <- Nat.add_assoc in Hn.
  assert (Hwd : goals ds ⊆ wanted) by (intros f Hf; apply Hw, elem_of_app; by left).
  destruct (state_converges ds done spent _ _ Hds Hr Hwd Hn Hi)
    as (rc & out & w' & E & Hrc & Hn' & Hi').
  cbn [verify_loop]. rewrite E. cbn [default from_option]. rewrite (proj2 (Z.ltb_ge _ _)) by lia.
  destruct (IH (scenario_links ds ++ goals ds ++ done) (spends ds ++ spent) (d + rc)%Z
    (s <| r_world := w' |> <| r_out ::= (fun l => l ++ map RLine out) |>))
    as (diff & s' & spent' & E' & Hdiff & Hns & His); [done| |done..|lia|].
  { intros f Hf. apply Hw, elem_of_app. by right. }
  exists diff, s', spent'. split_and!; [done..|]. revert His.
  apply inv_weaken; [|done]. intros f Hf Hl. apply known_in; [done|]. revert Hf. unmem. tauto.
Qed.

Lemma set_goals_sat set done spent rs' :
  Forall refs_ok set -> states_ready done spent set ->
  Forall (holds rs') (concat (map goals set)) -> all_satisfied set rs'.
Proof.
  intros Hok. revert done spent. unfold all_satisfied.
  induction Hok as [|ds set Hds _ IH]; intros before spent Hr Hf; [done|].
  destruct Hr as [Hr Hrs]. cbn [map concat] in Hf. apply Forall_app in Hf as [Hf Hfs].
  constructor; [by eapply goals_sat|by eapply IH].
Qed.

End Steps.
