(* ===== verification/Converge.v ===== *)
(** Convergence: on a machine whose commands work, one run with [--apply]
    brings the kernel to a state that satisfies the configuration, and so does
    the daemon after a notification. *)
From S2P Require Import Prelude CLib CfgPath CfgTree CfgFile State Yaml Verify.
From S2P Require Import UciDb UciBuild UciExport Netlink NetlinkSpec Run Watch Iproute Reach.

(** ** One run *)

Section Converge.
Context `{Libc} `{Iproute}.

(** The configuration does not contradict itself, and the machine has what the
    commands presuppose; [doomed] are the VLANs and VXLANs with other attributes
    than desired, and interfaces of another kind under their names, which are
    deleted and created again; [extra] are the routes over which gateways are
    reached, which no route of the configuration displaces or covers. *)
Definition feasible (set : desired_set) (rs : real_state) : Prop :=
  exists doomed extra,
    let wanted := concat (map goals set) ++ extra in
    (forall f g, f ∈ wanted -> g ∈ wanted -> compatible f g) /\
    states_ready rs wanted extra doomed [] [] set.

Lemma set_goals_lasting set wanted :
  concat (map goals set) ⊆ wanted -> Forall (lasting wanted) (concat (map goals set)).
Proof.
  induction set as [|ds set IH]; intros Hw; [done|]. cbn [map concat] in *.
  apply Forall_app. split; [apply goals_lasting|apply IH]; intros f Hf; apply Hw;
    apply elem_of_app; tauto.
Qed.

(** The snapshot of a verification is the machine's tables. *)
Lemma run_verify_tables set apply af n s :
  roomy n (r_world s) ->
  run_verify_set set apply af s = Done (verify_loop set (tables (r_world s)) apply false 0 s).
Proof.
  intros Hn. destruct s as [w msg out]. unfold run_verify_set.
  rewrite (ip_load n w msg out Hn). done.
Qed.

(** A verification of a satisfied set finds nothing. *)
Lemma run_verify_satisfied set n s af :
  set <> [] -> Forall supported set -> roomy n (r_world s) ->
  all_satisfied set (tables (r_world s)) ->
  exists s', run_verify_set set false af s = Done (0%Z, false, s') /\ r_world s' = r_world s.
Proof.
  intros Hne Hsup Hn Hs. rewrite (run_verify_tables _ _ _ n) by done.
  destruct (set_plans set (tables (r_world s)) Hsup) as [ps Hp].
  rewrite (verify_loop_dry set _ ps) by (done || lia).
  rewrite (proj2 (plans_satisfied set _ ps Hp) Hs).
  rewrite bool_decide_false by done. eexists. by split.
Qed.

Lemma apply_converges (cfg : netrec_run_cfg) (s : rst) (set : desired_set) :
  run_apply cfg = true -> load_desired_set cfg (r_world s) = Ok set ->
  h_lock (r_world s) = (Ok tt, true) ->
  roomy (sum_list_with budget set) (r_world s) -> feasible set (tables (r_world s)) ->
  exists s', netrec_run_once cfg s = Done (0%Z, s') /\
    all_satisfied set (tables (r_world s')) /\ roomy 0 (r_world s').
Proof.
  intros Ha El Hk Hn (doomed & extra & Hc & Hr). set (rs := tables (r_world s)) in *.
  set (wanted := concat (map goals set) ++ extra) in *.
  assert (Hgw : concat (map goals set) ⊆ wanted) by (intros f Hf; apply elem_of_app; by left).
  assert (Hew : extra ⊆ wanted) by (intros f Hf; apply elem_of_app; by right).
  pose proof (load_desired_set_supported _ _ _ El) as [Hne Hsup].
  assert (Hok : Forall refs_ok set).
  { apply load_desired_set_ok in El as [_ Ho]. eapply Forall_impl; [exact Ho|]. by intros ds []. }
  unfold netrec_run_once, apply_lock. rewrite El, Ha, Hk. cbn [Z.ltb Z.compare].
  unfold run_locked. rewrite (run_verify_tables _ _ _ _ (log RLock s) Hn).
  cbn [mbind outcome_bind]. change (r_world (log RLock s)) with (r_world s). fold rs.
  rewrite <- (Nat.add_0_r (sum_list_with _ _)) in Hn.
  destruct (loop_converges rs wanted extra doomed Hew Hc set [] [] 0 0 (log RLock s))
    as (diff & s' & spent' & -> & Hd & Hn' & Hi); [done..| |done|].
  { split; [by intros f _ [[? _]|?%elem_of_nil]|by intros f _ [? _] _]. }
  rewrite app_nil_r in Hi. cbn [mret outcome_ret mbind outcome_bind negb].
  assert (Hs : all_satisfied set (tables (r_world s'))).
  { eapply set_goals_sat; [done|exact Hr|]. apply Forall_forall. intros f Hf.
    apply (proj1 Hi); [|by right]. pose proof (set_goals_lasting set wanted Hgw) as Hl.
    rewrite Forall_forall in Hl. by apply Hl. }
  rewrite (proj2 (Z.ltb_ge _ _)) by done. cbn [orb].
  destruct (Z.eqb_spec diff 0) as [->|Hdiff]; [eexists; split; [done|by destruct s']|].
  destruct (run_verify_satisfied set 0 (log RPost s') false) as (s2 & -> & Hw); [done..|].
  eexists. split; [done|]. cbn. unfold close_lock. cbn. rewrite Hw. by destruct s'.
Qed.

(** A run on a machine that satisfies the configuration changes nothing. *)
Lemma satisfied_idle (cfg : netrec_run_cfg) (s : rst) (set : desired_set) (n : nat) :
  run_apply cfg = true -> load_desired_set cfg (r_world s) = Ok set ->
  h_lock (r_world s) = (Ok tt, true) -> roomy n (r_world s) ->
  all_satisfied set (tables (r_world s)) ->
  exists s', netrec_run_once cfg s = Done (0%Z, s') /\ r_world s' = r_world s.
Proof.
  intros Ha El Hk Hn Hs. destruct s as [w msg out].
  destruct (apply_idle cfg (Rst _ w msg out) (log RLock (Rst _ w msg out)) set (tables w)) as [l E];
    [done..| |done|by eexists].
  by apply (ip_load n).
Qed.

(** *** The daemon *)

Section Daemon.
Context `{Pipe}.

(** The loop works with the machine [m] and has not begun a run for an old
    notification. *)
Definition before_run (cfg : netrec_run_cfg) (m : rst) (s : lst) : Prop :=
  w_run (l_watch s) = cfg /\ l_machine s = m /\
  ((exists t, l_pc s = PRun t) -> l_seen s = false).

Lemma before_run_step cfg m s s' :
  before_run cfg m s -> (forall t, l_pc s <> PRun t) -> quiet_step s s' -> before_run cfg m s'.
Proof.
  intros (Hc & Hm & _) Hn (d & _ & St & _).
  inversion St as [? E|? E|? E|? E|? E|? E|? E|? t E|? t E|? t E|? E|? E|? E|? E|? E|? t rc m' E];
    subst; try (split_and!; [done..|]; intros [t' E']; done).
  by destruct (Hn t).
Qed.

Lemma eventually_before_run cfg m s :
  eventually fresh_run s -> before_run cfg m s ->
  eventually (fun s' => fresh_run s' /\ before_run cfg m s') s.
Proof.
  induction 1 as [s Hf|s [s1 Hs1] Hall IH]; intros Hb; [by apply eventually_now|].
  destruct (l_pc s) eqn:Ep; try (apply eventually_step; [by exists s1|]; intros s' Hq;
    apply (IH s' Hq); apply (before_run_step cfg m s s'); [done|congruence|done]).
  apply eventually_now. split; [|done]. destruct Hb as (_ & _ & Hb). split; [by eexists|].
  apply Hb. by eexists.
Qed.

(** The last step: the run itself. *)
Lemma eventually_run cfg m rc m' (P : lst -> Prop) s :
  netrec_run_once cfg m = Done (rc, m') ->
  (forall s', l_pc s' = PTop -> l_seen s' = false -> l_machine s' = m' -> P s') ->
  eventually (fun s' => fresh_run s' /\ before_run cfg m s') s -> eventually P s.
Proof.
  intros E HP. induction 1 as [s [[[t Ht] Hs] (Hc & Hm & _)]|s Hex _ IH].
  - apply eventually_step.
    + eexists. apply quiet_now; [eapply step_run; [exact Ht|by rewrite Hc, Hm]|done].
    + intros s' (d & _ & St & _). apply eventually_now.
      inversion St as [? Ep|? Ep|? Ep|? Ep|? Ep|? Ep|? Ep|? t' Ep|? t' Ep|? t' Ep|? Ep|? Ep|? Ep
        |? Ep|? Ep|? t' rc' m2 Ep Er]; subst; cbn in Ep; try congruence.
      change (netrec_run_once (w_run (l_watch s)) (l_machine s) = Done (rc', m2)) in Er.
      rewrite E in Er. injection Er as <- <-. by apply HP.
  - apply eventually_step; [done|]. intros s' Hq. by apply IH.
Qed.

End Daemon.

(** ** Properties *)

(** C2: on a machine whose [ip] commands work as documented, with room for the
    commands and the lock free, one run with [--apply] of a configuration that
    loads and is feasible succeeds: it returns 0, and the tables of the kernel
    satisfy every desired state; VLANs and VXLANs that are not as desired are
    replaced on the way.  The order of the commands matters: a VLAN comes up only
    after its link, a gateway is accepted only after the address that reaches it.
    The result is stable: a further run that loads the same configuration and
    finds the lock free returns 0 and changes nothing. *)
Theorem run_converges (cfg : netrec_run_cfg) (s : rst) (set : desired_set) :
  run_apply cfg = true -> load_desired_set cfg (r_world s) = Ok set ->
  h_lock (r_world s) = (Ok tt, true) ->
  roomy (sum_list_with budget set) (r_world s) -> feasible set (tables (r_world s)) ->
  exists s', netrec_run_once cfg s = Done (0%Z, s') /\
    all_satisfied set (tables (r_world s')) /\
    (load_desired_set cfg (r_world s') = Ok set -> h_lock (r_world s') = (Ok tt, true) ->
     exists s2, netrec_run_once cfg s' = Done (0%Z, s2) /\ r_world s2 = r_world s').
Proof.
  intros Ha El Hk Hn Hf. destruct (apply_converges cfg s set) as (s' & E & Hs & Hr); [done..|].
  exists s'. split_and!; [done..|]. intros El' Hk'. by apply (satisfied_idle cfg s' set 0).
Qed.

(** C3: the daemon repairs the machine: when it works with [--apply], a
    notification is outstanding, the loop has not been stopped and is not in a
    run, the lock is free, and the configuration loads and is feasible on the
    machine as it is, then in every execution without further events the loop
    completes a run after which the kernel satisfies every desired state. *)
Theorem watch_converges `{Pipe} (s : lst) (set : desired_set) :
  reachable s -> stopped s = false -> l_seen s = true ->
  (forall rc, l_pc s <> PEnd rc) -> (forall t, l_pc s <> PRun t) ->
  run_apply (w_run (l_watch s)) = true ->
  load_desired_set (w_run (l_watch s)) (r_world (l_machine s)) = Ok set ->
  h_lock (r_world (l_machine s)) = (Ok tt, true) ->
  roomy (sum_list_with budget set) (r_world (l_machine s)) ->
  feasible set (tables (r_world (l_machine s))) ->
  eventually (fun s' => l_pc s' = PTop /\ l_seen s' = false /\
    all_satisfied set (tables (r_world (l_machine s')))) s.
Proof.
  intros Hr Hs Hn He Hp Ha El Hk Hro Hf.
  destruct (apply_converges _ _ _ Ha El Hk Hro Hf) as (m' & Em & Hsat & _).
  eapply eventually_run; [exact Em| |].
  - intros s' E1 E2 ->. done.
  - apply eventually_before_run.
    + apply ev_any; [by apply reachable_inv|done|done| |done]. intros t E. by destruct (Hp t).
    + split_and!; [done|done|]. intros [t E]. by destruct (Hp t).
Qed.

End Converge.
