(* ===== verification/NetlinkServe.v ===== *)
(** A kernel that answers the requests of netlink.c from its tables: for any
    tables a kernel can have, a conversation that serves them.  It shows that
    the hypotheses on conversations can be met for all tables, and it is the
    netlink side of the machine in SimKernel.v. *)
From S2P Require Import Prelude CLib State Netlink NetlinkSpec.

(** ** Tables a kernel can have *)

Definition opt_ok {A} (P : A -> Prop) (v : option A) : Prop :=
  match v with Some x => P x | None => True end.

Definition info_fits (i : kinfo) : Prop :=
  match i with
  | KVxlan vni remote link => opt_ok is_u32 vni /\ opt_ok is_u32 remote /\ opt_ok is_index link
  | KVlan id => opt_ok is_u16 id
  | KKind kind => cstring kind /\ fits 16 kind /\ kind <> #"vxlan" /\ kind <> #"vlan"
  end.

Record link_fits (k : klink) : Prop := {
  lf_index : is_index (kl_index k);
  lf_flags : is_u32 (kl_flags k);
  lf_cstr : cstring (kl_name k);
  lf_name : fits IFNAMSIZ (kl_name k);
  lf_carrier : opt_ok is_u8 (kl_carrier k);
  lf_master : opt_ok is_index (kl_master k);
  lf_link : opt_ok is_index (kl_link k);
  lf_info : opt_ok info_fits (kl_info k)
}.

Definition addr_fits (k : kaddr) : Prop :=
  match k with
  | KAddr4 index prefix addr => is_index index /\ is_u8 prefix /\ is_u32 addr
  | KAddrOther => True
  end.

Definition route_fits (k : kroute) : Prop :=
  match k with
  | KRoute4 type table prefix dst gw oif =>
    is_u8 type /\ is_index table /\ is_u8 prefix /\ opt_ok is_u32 dst /\ opt_ok is_u32 gw /\
    opt_ok is_index oif
  | KRouteOther => True
  end.

Record kernel_fits (k : kernel) : Prop := {
  kf_links : Forall link_fits (k_links k);
  kf_addrs : Forall addr_fits (k_addrs k);
  kf_routes : Forall route_fits (k_routes k)
}.

(** ** Messages *)

Definition opt_attr (i : nat) (d : option (list ascii)) : list kattr :=
  match d with Some d => [KAttr (Z.of_nat i) d] | None => [] end.

Definition info_kids (i : kinfo) : list kattr :=
  match i with
  | KVxlan vni remote link =>
    opt_attr IFLA_INFO_KIND (Some (#"vxlan" ++ [NUL])) ++
    opt_attr IFLA_INFO_DATA (Some (enc_attrs
      (opt_attr IFLA_VXLAN_ID (wr32 <$> vni) ++ opt_attr IFLA_VXLAN_GROUP (wr32 <$> remote) ++
       opt_attr IFLA_VXLAN_LINK (wr32 <$> link))))
  | KVlan id =>
    opt_attr IFLA_INFO_KIND (Some (#"vlan" ++ [NUL])) ++
    opt_attr IFLA_INFO_DATA (Some (enc_attrs (opt_attr IFLA_VLAN_ID (wr16 <$> id))))
  | KKind kind => opt_attr IFLA_INFO_KIND (Some (kind ++ [NUL]))
  end.

Definition attrs_of_link (k : klink) : list kattr :=
  opt_attr IFLA_IFNAME (Some (kl_name k ++ [NUL])) ++
  opt_attr IFLA_CARRIER ((fun v => [byte v]) <$> kl_carrier k) ++
  opt_attr IFLA_MASTER (wr32 <$> kl_master k) ++ opt_attr IFLA_LINK (wr32 <$> kl_link k) ++
  opt_attr IFLA_LINKINFO ((fun i => enc_attrs (info_kids i)) <$> kl_info k).

Definition msg_of_link (k : klink) : kmsg :=
  link_msg (kl_index k) (kl_flags k) (attrs_of_link k).

Definition msg_of_addr (k : kaddr) : kmsg :=
  KMsg RTM_NEWADDR 2 2 7
    match k with
    | KAddr4 index prefix addr =>
      [byte AF_INET; byte prefix; NUL; NUL] ++ wr32 index ++
      enc_attrs (opt_attr IFA_LOCAL (Some (wr32 addr)))
    | KAddrOther => byte 10 :: replicate 7 NUL
    end.

Definition msg_of_route (k : kroute) : kmsg :=
  KMsg RTM_NEWROUTE 2 3 7
    match k with
    | KRoute4 type table prefix dst gw oif =>
      [byte AF_INET; byte prefix; NUL; NUL; byte 0; NUL; NUL; byte type] ++ replicate 4 NUL ++
      enc_attrs (opt_attr RTA_TABLE (Some (wr32 table)) ++ opt_attr RTA_DST (wr32 <$> dst) ++
        opt_attr RTA_GATEWAY (wr32 <$> gw) ++ opt_attr RTA_OIF (wr32 <$> oif))
    | KRouteOther => byte 10 :: replicate 11 NUL
    end.

(** A datagram per message, and one for the end. *)
Definition inbox_of (ms : list kmsg) (seq : Z) : list rcv :=
  map (fun m => RcvData (enc_msgs [m])) ms ++
  [RcvData (enc_msgs [] ++ enc_msg (done_msg seq) ++ [])].

Definition conv_of (k : kernel) : conv := {|
  c_socket := Ok tt;
  c_bind := Ok tt;
  c_request := fun req =>
    match rd16 req 4 with
    | Done 18%Z => (Ok 17%Z, inbox_of (map msg_of_link (k_links k)) 1)
    | Done 22%Z => (Ok 24%Z, inbox_of (map msg_of_addr (k_addrs k)) 2)
    | _ => (Ok 28%Z, inbox_of (map msg_of_route (k_routes k)) 3)
    end
|}.

(** ** Lemmas *)

Lemma last_of_app i l1 l2 :
  last_of i (l1 ++ l2) = match last_of i l2 with Some a => Some a | None => last_of i l1 end.
Proof.
  unfold last_of. rewrite reverse_app. generalize (reverse l2) as r.
  induction r as [|a r IH]; [done|]. cbn. by destruct (_ =? _)%Z.
Qed.

Lemma last_of_opt i j d :
  Z.land (Z.of_nat j) NLA_TYPE_MASK = Z.of_nat j ->
  last_of i (opt_attr j d) = if i =? j then KAttr (Z.of_nat j) <$> d else None.
Proof.
  intros Hj. destruct d as [d|]; [|by destruct (i =? j)]. cbn -[Z.of_nat]. unfold last_of, ka_id. cbn -[Z.of_nat].
  rewrite Hj. destruct (Nat.eqb_spec i j) as [->|Hne]; [by rewrite Z.eqb_refl|].
  by rewrite (proj2 (Z.eqb_neq _ _)) by lia.
Qed.

(** Find an attribute in a list of optional ones. *)
Ltac find_attr := rewrite ?last_of_app, !last_of_opt by reflexivity; cbn [Nat.eqb fmap option_fmap option_map].

Lemma num_opt wr (P : Z -> Prop) l i v :
  last_of i l = KAttr (Z.of_nat i) <$> (wr <$> v) -> opt_ok P v -> num_attr wr P l i v.
Proof.
  destruct v as [v|]; cbn; [|done]. intros E HP. split; [done|]. eexists. by split.
Qed.

Definition small_attrs (l : list kattr) (n : nat) : Prop :=
  Forall (fun a => is_u16 (ka_type a)) l /\ length (enc_attrs l) <= n.

Lemma pad_small n : length (pad n) <= 3.
Proof.
  pose proof (pad_length n) as E. rewrite align4_spec in E.
  pose proof (Z.mul_div_le (Z.of_nat n + 3) 4). lia.
Qed.

Lemma enc_attr_small a : length (enc_attr a) <= 7 + length (ka_data a).
Proof.
  unfold enc_attr. rewrite !length_app. pose proof (pad_small (length (ka_data a))).
  cbn [wr16 length]. lia.
Qed.

Lemma enc_attrs_app l1 l2 : enc_attrs (l1 ++ l2) = enc_attrs l1 ++ enc_attrs l2.
Proof. unfold enc_attrs. by rewrite map_app, concat_app. Qed.

Lemma small_app l1 l2 n1 n2 :
  small_attrs l1 n1 -> small_attrs l2 n2 -> small_attrs (l1 ++ l2) (n1 + n2).
Proof.
  intros [H1 L1] [H2 L2]. split; [by apply Forall_app|]. rewrite enc_attrs_app, length_app. lia.
Qed.

Lemma small_opt j d n :
  is_u16 (Z.of_nat j) -> opt_ok (fun d => length d <= n) d -> small_attrs (opt_attr j d) (7 + n).
Proof.
  intros Hj Hd. destruct d as [d|]; cbn in Hd |- *; [|split; [done|cbn; lia]].
  split; [by constructor|]. unfold enc_attrs. cbn [map concat]. rewrite app_nil_r.
  pose proof (enc_attr_small (KAttr (Z.of_nat j) d)). cbn [ka_data] in *. lia.
Qed.

(** Attributes of a small list are well-formed. *)
Lemma small_ok l n : small_attrs l n -> n < 1000 -> Forall attr_ok l.
Proof.
  intros [Ht Hl] Hn. apply Forall_forall. intros a Ha. split.
  - rewrite Forall_forall in Ht. by apply Ht.
  - apply list_elem_of_split in Ha as (l1 & l2 & ->).
    rewrite enc_attrs_app, length_app in Hl. unfold enc_attrs in Hl. cbn [map concat] in Hl.
    rewrite length_app in Hl. unfold enc_attr in Hl at 2. rewrite !length_app in Hl.
    cbn [wr16 length] in Hl. lia.
Qed.

Ltac small :=
  repeat apply small_app;
  apply small_opt; [done|]; cbn; rewrite ?length_app; cbn; try done.

Lemma opt_len {A} (f : A -> list ascii) n v :
  (forall x, length (f x) <= n) -> opt_ok (fun d => length d <= n) (f <$> v).
Proof. intros Hf. destruct v; cbn; [apply Hf|done]. Qed.

(** The lists the answers consist of are small. *)
Lemma data_small vni remote link :
  small_attrs (opt_attr IFLA_VXLAN_ID (wr32 <$> vni) ++ opt_attr IFLA_VXLAN_GROUP (wr32 <$> remote) ++
    opt_attr IFLA_VXLAN_LINK (wr32 <$> link)) (11 + (11 + 11)).
Proof. repeat apply small_app; (apply (small_opt _ _ 4); [done|by apply opt_len]). Qed.

Lemma info_small i : info_fits i -> small_attrs (info_kids i) (23 + 40).
Proof.
  intros Hi. destruct i as [vni remote link|id|kind]; cbn [info_kids].
  - apply small_app; [apply (small_opt _ _ 16); [done|vm_compute; lia]|apply (small_opt _ _ 33); [done|]].
    apply data_small.
  - apply small_app; [apply (small_opt _ _ 16); [done|vm_compute; lia]|apply (small_opt _ _ 33); [done|]].
    assert (small_attrs (opt_attr IFLA_VLAN_ID (wr16 <$> id)) (7 + 2)) as [_ L]
      by (apply small_opt; [done|by apply opt_len]).
    cbn [opt_ok]. lia.
  - destruct Hi as (_ & Hf & _). destruct (small_opt IFLA_INFO_KIND (Some (kind ++ [NUL])) 16)
      as [Ht Hl]; [done| |split; [done|lia]].
    cbn. rewrite length_app. cbn. unfold fits in Hf. lia.
Qed.

Lemma link_small k : link_fits k -> small_attrs (attrs_of_link k) (23 + (8 + (11 + (11 + 70)))).
Proof.
  intros Hk. unfold attrs_of_link. repeat apply small_app.
  - apply (small_opt _ _ 16); [done|]. cbn. rewrite length_app. pose proof (lf_name _ Hk) as Hn.
    unfold fits, IFNAMSIZ in Hn. cbn. lia.
  - apply (small_opt _ _ 1); [done|by apply opt_len].
  - apply (small_opt _ _ 4); [done|by apply opt_len].
  - apply (small_opt _ _ 4); [done|by apply opt_len].
  - apply (small_opt _ _ 63); [done|]. pose proof (lf_info _ Hk) as Hi.
    destruct (kl_info k) as [i|]; [|done]. by apply info_small.
Qed.

Lemma info_attrs_of i : info_fits i -> info_attrs (info_kids i) i.
Proof.
  intros Hi. destruct i as [vni remote link|id|kind]; cbn [info_kids info_attrs].
  - destruct Hi as (H1 & H2 & H3). split.
    + split; [compute_decide|]. eexists. split; [by find_attr|done].
    + eexists. split; [split; [|eexists; split; [by find_attr|done]]|].
      * eapply small_ok; [apply data_small|lia].
      * split_and!; (apply num_opt; [find_attr|done]); by destruct vni, remote, link.
  - split.
    + split; [compute_decide|]. eexists. split; [by find_attr|done].
    + eexists. split; [split; [|eexists; split; [by find_attr|done]]|].
      * eapply (small_ok _ (7 + 2)); [apply small_opt; [done|by apply opt_len]|lia].
      * apply num_opt; [by find_attr|done].
  - destruct Hi as (Hc & Hf & H1 & H2). split_and!; [|done..].
    split; [done|]. eexists. split; [by find_attr|done].
Qed.

Lemma link_attrs_of k : link_fits k -> link_attrs (attrs_of_link k) k.
Proof.
  intros Hk. pose proof (link_small k Hk) as Hs. destruct Hk as [_ _ Hc Hn Hca Hm Hl Hi].
  unfold attrs_of_link in *.
  constructor.
  - eapply small_ok; [exact Hs|lia].
  - split; [done|]. exists (KAttr (Z.of_nat IFLA_IFNAME) (kl_name k ++ [NUL])). split; [|done]. find_attr.
    by destruct (kl_info k), (kl_link k), (kl_master k), (kl_carrier k).
  - done.
  - apply num_opt; [find_attr|done].
    by destruct (kl_info k), (kl_link k), (kl_master k), (kl_carrier k).
  - apply num_opt; [find_attr|done]. by destruct (kl_info k), (kl_link k), (kl_master k).
  - apply num_opt; [find_attr|done]. by destruct (kl_info k), (kl_link k).
  - destruct (kl_info k) as [i|]; [|find_attr; by destruct (kl_link k), (kl_master k), (kl_carrier k)].
    exists (info_kids i). split; [|by apply info_attrs_of]. split.
    + eapply small_ok; [by apply info_small|lia].
    + eexists. split; [by find_attr|done].
Qed.

(** *** Bodies *)

Lemma link_body_of k : link_fits k -> link_body (km_body (msg_of_link k)) k.
Proof.
  intros Hk. apply link_msg_body; [done|done|apply Hk|apply Hk|by apply link_attrs_of].
Qed.

Lemma addr_body_of k : addr_fits k -> addr_body (km_body (msg_of_addr k)) k.
Proof.
  destruct k as [index prefix addr|]; cbn [addr_fits addr_body msg_of_addr km_body].
  - intros (Hi & Hp & Ha). split_and!; [done..|].
    exists NUL, NUL, (opt_attr IFA_LOCAL (Some (wr32 addr))). split_and!; [|left|done].
    + eapply (small_ok _ (7 + 4)); [apply small_opt; [done|cbn; lia]|lia].
    + split; [done|]. eexists. split; [by find_attr|done].
  - intros _. split; [compute_decide|]. by exists (byte 10), (replicate 7 NUL).
Qed.

Definition route_attrs (table : Z) (dst gw oif : option Z) : list kattr :=
  opt_attr RTA_TABLE (Some (wr32 table)) ++ opt_attr RTA_DST (wr32 <$> dst) ++
  opt_attr RTA_GATEWAY (wr32 <$> gw) ++ opt_attr RTA_OIF (wr32 <$> oif).

Lemma route_small table dst gw oif :
  small_attrs (route_attrs table dst gw oif) (11 + (11 + (11 + 11))).
Proof.
  repeat apply small_app; (apply (small_opt _ _ 4); [done|]); [cbn; lia|by apply opt_len..].
Qed.

Lemma route_body_of k : route_fits k -> route_body (km_body (msg_of_route k)) k.
Proof.
  destruct k as [type table prefix dst gw oif|]; cbn [route_fits route_body msg_of_route km_body].
  - intros (Ht & Hb & Hp & Hd & Hg & Ho). split_and!; [done..|].
    exists NUL, NUL, 0%Z, NUL, NUL, (replicate 4 NUL), (route_attrs table dst gw oif).
    unfold route_attrs. split_and!; [|done|done|left| | | |done].
    + eapply small_ok; [apply route_small|lia].
    + split; [done|]. exists (KAttr (Z.of_nat RTA_TABLE) (wr32 table)). split; [|done]. find_attr.
      by destruct oif, gw, dst.
    + apply num_opt; [find_attr|done]. by destruct oif, gw, dst.
    + apply num_opt; [find_attr|done]. by destruct oif, gw.
    + apply num_opt; [find_attr|done]. by destruct oif.
  - intros _. split; [compute_decide|]. by exists (byte 10), (replicate 11 NUL).
Qed.

(** *** The conversation *)

(** Messages small enough for a datagram. *)
Lemma answer_inbox {K} type (body : list ascii -> K -> Prop) (msg : K -> kmsg) seq ks :
  (0 <= seq < 100)%Z -> is_u16 type ->
  Forall (fun k => km_type (msg k) = type /\ km_seq (msg k) = seq /\ body (km_body (msg k)) k /\
            length (km_body (msg k)) <= 1000) ks ->
  answer type body seq ks (inbox_of (map msg ks) seq).
Proof.
  intros Hs Ht Hk.
  assert (Hr : 1100 <= RECV_SZ) by (apply Nat2Z.inj_le; by vm_compute).
  assert (Hs32 : is_u32 seq) by (unfold is_u32, UINT32_MAX; lia).
  induction Hk as [|k ks (Et & Es & Hb & Hl) _ IH].
  - apply answer_last; [constructor|constructor| |done|done|].
    + split_and!; [by vm_compute|done|by vm_compute].
    + rewrite !length_app. change (length (enc_msg (done_msg seq))) with 20. cbn [enc_msgs length]. cbn. lia.
  - change (k :: ks) with ([k] ++ ks). apply answer_more; [| |done| |exact IH].
    + by apply part_item; [done..|constructor].
    + constructor; [|done]. split_and!; [by rewrite Et|by rewrite Es|].
      apply Z.le_lt_trans with 1000%Z; [lia|done].
    + unfold enc_msgs. cbn [map concat]. rewrite app_nil_r. unfold enc_msg.
      rewrite !length_app. pose proof (pad_small (length (km_body (msg k)))).
      cbn [wr16 wr32 length]. lia.
Qed.

(** Which request a message is. *)
Ltac request :=
  cbn [c_request conv_of];
  match goal with
  | |- match ?r with _ => _ end = _ =>
    let v := eval vm_compute in r in
    let E := fresh "E" in assert (E : r = v) by (vm_compute; reflexivity); rewrite E
  end; reflexivity.

Lemma serves_conv_of `{Uapi} k : kernel_fits k -> serves (conv_of k) k.
Proof.
  intros [Hl Ha Hr]. constructor; [done..| | |].
  - eexists. split; [request|]. apply answer_inbox; [done|done|].
    eapply Forall_impl; [exact Hl|]. intros x Hx. split_and!; [done|done|by apply link_body_of|].
    destruct (link_small x Hx) as [_ Hs]. cbn [msg_of_link link_msg km_body].
    rewrite !length_app. cbn [replicate wr32 length]. lia.
  - eexists. split; [request|]. apply answer_inbox; [done|done|].
    eapply Forall_impl; [exact Ha|]. intros x Hx. split_and!; [done|done|by apply addr_body_of|].
    destruct x as [index prefix addr|]; cbn [msg_of_addr km_body]; [|vm_compute; lia].
    rewrite !length_app. destruct (small_opt IFA_LOCAL (Some (wr32 addr)) 4) as [_ Hs]; [done|cbn; lia|].
    cbn [wr32 length] in *. lia.
  - eexists. split; [request|]. apply answer_inbox; [done|done|].
    eapply Forall_impl; [exact Hr|]. intros x Hx. split_and!; [done|done|by apply route_body_of|].
    destruct x as [type table prefix dst gw oif|]; cbn [msg_of_route km_body]; [|vm_compute; lia].
    rewrite !length_app. destruct (route_small table dst gw oif) as [_ Hs].
    unfold route_attrs in Hs. cbn [replicate length]. lia.
Qed.
