(* ===== verification/SimKernel.v ===== *)
(** A machine on which the commands work: a kernel with tables of links,
    addresses and routes, an [ip] that acts on them, and netlink answers from
    the tables.  It is an instance of [Iproute], so the convergence theorem
    applies to it, and runs of the whole program on it can be computed.  Routes to
    connected networks appear with an address on a link that is up; those that
    appear when a link with addresses comes up are left out. *)
From S2P Require Import Prelude CLib CfgPath CfgTree CfgFile State Yaml Verify.
From S2P Require Import UciDb UciBuild UciExport Netlink NetlinkSpec Run Watch Iproute Reach Converge.
From S2P Require Import NetlinkServe.

(** ** Links *)

Definition has_name (n : cstr) (l : klink) : bool := streq (kl_name l) n.
Definition find_link (k : kernel) (n : cstr) : option klink := find (has_name n) (k_links k).

Definition addr_index (a : kaddr) : Z := match a with KAddr4 i _ _ => i | KAddrOther => 0%Z end.

(** An index that no link and no address uses. *)
Definition new_index (k : kernel) : Z :=
  (1 + foldr Z.max 0 (map kl_index (k_links k) ++ map addr_index (k_addrs k)))%Z.

Definition upd_link (n : cstr) (f : klink -> klink) (k : kernel) : kernel :=
  Kernel (map (fun l => if has_name n l then f l else l) (k_links k)) (k_addrs k) (k_routes k).

Definition add_link (n : cstr) (link : option Z) (info : kinfo) (k : kernel) : kernel :=
  Kernel (k_links k ++ [KLink (new_index k) 0 n None None link (Some info)])
    (k_addrs k) (k_routes k).

Definition set_up (l : klink) : klink :=
  KLink (kl_index l) (if Z.odd (kl_flags l) then kl_flags l else kl_flags l + 1)%Z (kl_name l)
    (kl_carrier l) (kl_master l) (kl_link l) (kl_info l).

Definition set_master (m : Z) (l : klink) : klink :=
  KLink (kl_index l) (kl_flags l) (kl_name l) (kl_carrier l) (Some m) (kl_link l) (kl_info l).

Definition is_bridge (l : klink) : bool := streq (kind_of l) (#"bridge").

(** ** Commands *)

Definition link_add (n : cstr) (link : option Z) (info : kinfo) (k : kernel) : option kernel :=
  match find_link k n with
  | Some _ => None
  | None => if bool_decide (n <> [] /\ fits IFNAMSIZ n) then Some (add_link n link info k) else None
  end.

(** The link a VLAN or VXLAN is built on. *)
Definition base (l : klink) : option Z :=
  match kl_info l with
  | Some (KVlan _) => kl_link l
  | Some (KVxlan _ _ link) => link
  | _ => None
  end.

Definition has_index (i : Z) (l : klink) : bool := (kl_index l =? i)%Z.
Definition link_at (k : kernel) (i : Z) : option klink := find (has_index i) (k_links k).

(** A VLAN does not come up while its link is down. *)
Definition comes_up (k : kernel) (l : klink) : bool :=
  match kl_info l, kl_link l with
  | Some (KVlan _), Some i =>
    match link_at k i with Some x => Z.odd (kl_flags x) | None => false end
  | _, _ => true
  end.

Definition link_up (n : cstr) (k : kernel) : option kernel :=
  l ← find_link k n; if comes_up k l then Some (upd_link n set_up k) else None.

(** The links below a link. *)
Fixpoint below (fuel : nat) (k : kernel) (l : klink) : list Z :=
  match fuel, base l with
  | S m, Some i => i :: match link_at k i with Some x => below m k x | None => [] end
  | _, _ => []
  end.

Definition ethernet_kinds : list cstr := #"vlan" :: #"vxlan" :: wired_kinds.

(** A bridge takes Ethernet links that are not built on it. *)
Definition link_master (n b : cstr) (k : kernel) : option kernel :=
  l ← find_link k n; br ← find_link k b;
  if is_bridge br && bool_decide (kind_of l ∈ ethernet_kinds) && negb (streq n (#"lo"))
     && bool_decide (kl_index br ∉ below (length (k_links k)) k l)
  then Some (upd_link n (set_master (kl_index br)) k) else None.

Definition has_addr (i a p : Z) (x : kaddr) : bool :=
  match x with KAddr4 i' p' a' => (i =? i')%Z && (p =? p')%Z && (a =? a')%Z | KAddrOther => false end.

Definition host_addr (a : Z) : bool :=
  let o := (ntohl a / 2 ^ 24)%Z in (1 <=? o)%Z && (o <=? 223)%Z && negb (o =? 127)%Z.

(** Another address of the link in the same network. *)
Definition has_net (i a p : Z) (x : kaddr) : bool :=
  match x with
  | KAddr4 i' p' a' => (i =? i')%Z && (p =? p')%Z && (net_of a p =? net_of a' p)%Z
  | KAddrOther => false
  end.

(** The first address of a network on a link that is up brings the route to the
    network with it. *)
Definition net_route (l : klink) (a p : Z) (k : kernel) : list kroute :=
  if Z.odd (kl_flags l) && negb (streq (kl_name l) (#"lo")) && (p <? 32)%Z
     && negb (existsb (has_net (kl_index l) a p) (k_addrs k))
  then [KRoute4 RTN_UNICAST RT_TABLE_MAIN p (Some (net_of a p)) None (Some (kl_index l))]
  else [].

Definition addr_put (l : klink) (a p : Z) (k : kernel) : kernel :=
  Kernel (k_links k) (k_addrs k ++ [KAddr4 (kl_index l) p a]) (k_routes k ++ net_route l a p k).

Definition addr_add `{Libc} (text n : cstr) (k : kernel) : option kernel :=
  l ← find_link k n;
  match parse_addr_prefix text with
  | Err _ => None
  | Ok (a, p) =>
    if host_addr a && negb (existsb (has_addr (kl_index l) a p) (k_addrs k))
    then Some (addr_put l a p k) else None
  end.

(** A gateway has to be in a network that is directly reachable over the device,
    not behind another gateway, and must not be an address of the machine or of
    one of its networks. *)
Definition leads (g : Z) (r : route4) : bool :=
  (ntohl (r4_dst r) / 2 ^ (32 - r4_prefix r) =? ntohl g / 2 ^ (32 - r4_prefix r))%Z.

Definition behind (g q : Z) (r : route4) : bool :=
  r4_has_gw r && (q <=? r4_prefix r)%Z && leads g r.

Definition direct (rts : list route4) (i g : Z) (r : route4) : bool :=
  (r4_oif r =? i)%Z && negb (r4_has_gw r) && leads g r
  && negb (existsb (behind g (r4_prefix r)) rts).

Definition is_taken (g : Z) (x : kaddr) : bool :=
  match x with KAddr4 _ p a => bool_decide (g ∈ taken a p) | KAddrOther => false end.

Definition gateway_ok (i : Z) (gw : option Z) (k : kernel) : bool :=
  match gw with
  | None => true
  | Some g => let rts := omap route_of (k_routes k) in
    host_addr g && existsb (direct rts i g) rts && negb (existsb (is_taken g) (k_addrs k))
  end.

Definition same_dest (dst p : Z) (r : kroute) : bool :=
  match r with
  | KRoute4 _ table p' dst' _ _ =>
    (table =? RT_TABLE_MAIN)%Z && (p =? p')%Z && (dst =? default 0 dst')%Z
  | KRouteOther => false
  end.

Definition route_put (dst p : Z) (gw : option Z) (i : Z) (k : kernel) : kernel :=
  Kernel (k_links k) (k_addrs k)
    (List.filter (fun r => negb (same_dest dst p r)) (k_routes k) ++
     [KRoute4 RTN_UNICAST RT_TABLE_MAIN p (Some dst) gw (Some i)]).

Definition route_replace `{Libc} (text : cstr) (via : option cstr) (n : cstr) (k : kernel)
  : option kernel :=
  l ← find_link k n;
  match parse_addr_prefix text with
  | Err _ => None
  | Ok (dst, p) =>
    gw ← (match via with Some t => Some <$> inet_pton t | None => Some None end);
    if Z.odd (kl_flags l) && negb (streq n (#"lo"))
       && (host_addr dst || (dst =? 0)%Z && (p =? 0)%Z)
       && (ntohl dst mod 2 ^ (32 - p) =? 0)%Z && gateway_ok (kl_index l) gw k
    then Some (route_put dst p gw (kl_index l) k) else None
  end.

Definition number (s : cstr) : option Z :=
  let r := strtoul0 s in
  if sto_conv r && bool_decide (sto_rest r = []) && negb (sto_range r) then Some (sto_val r) else None.

Definition vlan_clash (i id : Z) (l : klink) : bool :=
  match vlan_of l with Some v => (vl_id v =? id)%Z && (vl_link v =? i)%Z | None => false end.

Definition vlan_add (link n id : cstr) (k : kernel) : option kernel :=
  l ← find_link k link; id ← number id;
  if (1 <=? id)%Z && (id <=? 4094)%Z && negb (existsb (vlan_clash (kl_index l) id) (k_links k))
     && negb (streq link (#"lo")) && bool_decide (kind_of l ∈ ethernet_kinds)
  then link_add n (Some (kl_index l)) (KVlan (Some id)) k else None.

Definition vxlan_clash (vni : Z) (l : klink) : bool :=
  match vxlan_of l with Some v => (vxl_vni v =? vni)%Z | None => false end.

Definition vxlan_add (n vni remote : cstr) (dev : option cstr) (k : kernel) : option kernel :=
  vni ← number vni; r ← inet_pton remote;
  link ← (match dev with Some d => (fun l => Some (kl_index l)) <$> find_link k d | None => Some None end);
  if (vni <? 2 ^ 24)%Z && host_addr r && negb (existsb (vxlan_clash vni) (k_links k))
  then link_add n link (KVxlan (Some vni) (Some r) link) k else None.

(** The links that go when some links go: those built on them. *)
Definition lowers (l : klink) : list Z := option_list (base l) ++ option_list (kl_link l).

Definition index_in (ix : list Z) (i : option Z) : bool :=
  match i with Some i => bool_decide (i ∈ ix) | None => false end.

Fixpoint with_stacked (fuel : nat) (k : kernel) (ix : list Z) : list Z :=
  match fuel with
  | O => ix
  | S m => with_stacked m k
             (ix ++ map kl_index
                (List.filter (fun l => existsb (fun i => index_in ix (Some i)) (lowers l)) (k_links k)))
  end.

Definition free_port (gone : list Z) (l : klink) : klink :=
  KLink (kl_index l) (kl_flags l) (kl_name l) (kl_carrier l)
    (if index_in gone (kl_master l) then None else kl_master l) (kl_link l) (kl_info l).

Definition route_oif (r : kroute) : option Z :=
  match r with KRoute4 _ _ _ _ _ oif => oif | KRouteOther => None end.

(** The links [gone] with their addresses and routes; their ports are free. *)
Definition drop_links (gone : list Z) (k : kernel) : kernel :=
  Kernel
    (map (free_port gone) (List.filter (fun l => negb (index_in gone (Some (kl_index l)))) (k_links k)))
    (List.filter (fun a => negb (index_in gone (Some (addr_index a)))) (k_addrs k))
    (List.filter (fun r => negb (index_in gone (route_oif r))) (k_routes k)).

Definition link_del (n : cstr) (k : kernel) : option kernel :=
  l ← find_link k n;
  if bool_decide (kind_of l ∈ deletable_kinds)
  then Some (drop_links (with_stacked (length (k_links k)) k [kl_index l]) k) else None.

(** [ip], for the commands of verify.c. *)
Definition ip_exec `{Libc} (argv : list cstr) (k : kernel) : option kernel :=
  let kw (ws : list cstr) (ks : list string) := bool_decide (ws = map lit ks) in
  match argv with
  | [w0; w1; w2; n] =>
    if kw [w0; w1; w2] ["ip"; "link"; "del"]%string then link_del n k else None
  | [w0; w1; w2; n; w4] =>
    if kw [w0; w1; w2; w4] ["ip"; "link"; "set"; "up"]%string then link_up n k else None
  | [w0; w1; w2; x; w4; y] =>
    if kw [w0; w1; w2; w4; y] ["ip"; "link"; "add"; "type"; "bridge"]%string
      || kw [w0; w1; w2; w4; y] ["ip"; "link"; "add"; "type"; "wireguard"]%string
    then link_add x None (KKind y) k
    else if kw [w0; w1; w2; w4] ["ip"; "link"; "set"; "master"]%string then link_master x y k
    else if kw [w0; w1; w2; w4] ["ip"; "addr"; "add"; "dev"]%string then addr_add x y k
    else if kw [w0; w1; w2; w4] ["ip"; "route"; "replace"; "dev"]%string
    then route_replace x None y k else None
  | [w0; w1; w2; x; w4; g; w6; y] =>
    if kw [w0; w1; w2; w4; w6] ["ip"; "route"; "replace"; "via"; "dev"]%string
    then route_replace x (Some g) y k else None
  | [w0; w1; w2; w3; l; w5; n; w7; w8; w9; id] =>
    if kw [w0; w1; w2; w3; w5; w7; w8; w9]
         ["ip"; "link"; "add"; "link"; "name"; "type"; "vlan"; "id"]%string
    then vlan_add l n id k else None
  | [w0; w1; w2; n; w4; w5; w6; vni; w8; r] =>
    if kw [w0; w1; w2; w4; w5; w6; w8]
         ["ip"; "link"; "add"; "type"; "vxlan"; "id"; "remote"]%string
    then vxlan_add n vni r None k else None
  | [w0; w1; w2; n; w4; w5; w6; vni; w8; r; w10; d] =>
    if kw [w0; w1; w2; w4; w5; w6; w8; w10]
         ["ip"; "link"; "add"; "type"; "vxlan"; "id"; "remote"; "dev"]%string
    then vxlan_add n vni r (Some d) k else None
  | _ => None
  end.

(** ** Changes of the tables *)

Lemma find_iface_map (h : iface -> iface) rs n :
  (forall i, if_name (h i) = if_name i) ->
  rs_find_iface (rs <| rs_ifaces := map h (rs_ifaces rs) |>) n = h <$> rs_find_iface rs n.
Proof.
  intros Hh. unfold rs_find_iface.
  change (rs_ifaces (rs <| rs_ifaces := _ |>)) with (map h (rs_ifaces rs)).
  induction (rs_ifaces rs) as [|x l IH]; [done|]. cbn. rewrite Hh. by destruct (streq _ _).
Qed.

(** Interfaces that change nothing but flags that go up and masters. *)
Lemma holds_map (h : iface -> iface) rs f :
  (forall i, if_name (h i) = if_name i) -> (forall i, if_ifindex (h i) = if_ifindex i) ->
  (forall i, if_kind (h i) = if_kind i) -> (forall i, if_up i -> if_up (h i)) ->
  (forall i, if_has_link (h i) = if_has_link i) -> (forall i, if_link (h i) = if_link i) ->
  (forall n b i, f = FMember n b -> rs_find_iface rs n = Some i -> if_master (h i) = if_master i) ->
  holds rs f -> holds (rs <| rs_ifaces := map h (rs_ifaces rs) |>) f.
Proof.
  intros Hn Hi Hk Hu Hhl Hlk Hm. set (rs' := rs <| rs_ifaces := _ |>).
  assert (Hf : forall n i, rs_find_iface rs n = Some i -> rs_find_iface rs' n = Some (h i)).
  { intros n i E. unfold rs'. by rewrite find_iface_map, E. }
  assert (Hr : forall d p i g, has_route rs d p i g -> has_route rs' d p (h i) g).
  { intros d p i g. unfold has_route. rewrite Hi. done. }
  destruct f as
    [n|n|n k|n b|n a p|n|d p dev gw|a|n id l|n vni r dev|n|n|n a p|n d p|a|a q|m l id|m vni|n];
    cbn [holds]; try done.
  - intros [i E]. exists (h i). auto.
  - intros (i & E & U). exists (h i). auto.
  - intros (i & E & K). exists (h i). rewrite Hk. auto.
  - intros (i & j & E & E' & M). exists (h i), (h j). rewrite Hi, (Hm _ _ _ eq_refl E). auto.
  - intros (i & E & A). exists (h i). rewrite Hi. auto.
  - intros (i & x & E & A & X). exists (h i), x. rewrite Hi. auto.
  - intros (i & E & R). exists (h i). auto.
  - intros (v & j & E1 & E2 & E3 & E4 & E5 & E6). exists v, (h j). rewrite Hi. by split_and!; auto.
  - intros (v & E1 & E2 & E3 & E4 & E5 & E6). exists v. split_and!; [done..|].
    intros Hd. destruct (E6 Hd) as (j & E7 & E8 & E9). exists (h j). rewrite Hi. auto.
  - intros (E & V & X). split_and!; [|done..]. unfold rs'. by rewrite find_iface_map, E.
  - intros A i E. unfold rs' in E. rewrite find_iface_map in E by done.
    destruct (rs_find_iface rs n) as [j|] eqn:Ej; [|done]. injection E as <-.
    rewrite Hi. by apply A.
  - intros A i E. unfold rs' in E. rewrite find_iface_map in E by done.
    destruct (rs_find_iface rs n) as [j|] eqn:Ej; [|done]. injection E as <-.
    rewrite Hi. by apply A.
  - intros (j & E & V). exists (h j). rewrite Hi. auto.
  - intros (j & E & K & B1 & B2 & B3 & B4). exists (h j). rewrite Hk, Hi.
    split_and!; [by auto|done|split_and!; [done..|]]. apply Forall_map.
    eapply Forall_impl; [exact B4|]. intros x. by rewrite Hhl, Hlk.
Qed.

(** A new interface, which may be a VLAN or a VXLAN. *)
Definition add_iface (i : iface) (v : option vlan) (x : option vxlan) (rs : real_state)
  : real_state :=
  RealState (rs_ifaces rs ++ [i]) (rs_addr4 rs) (rs_route4 rs) (rs_dns4 rs)
    (rs_vxlan rs ++ option_list x) (rs_vlan rs ++ option_list v).

Lemma find_snoc {A} (p : A -> bool) l x a : find p l = Some a -> find p (l ++ x) = Some a.
Proof. induction l as [|y l IH]; [done|]. cbn. by destruct (p y). Qed.

Lemma find_snoc_none {A} (p : A -> bool) l x :
  find p l = None -> Forall (fun a => p a = false) x -> find p (l ++ x) = None.
Proof.
  intros Hl Hx. induction l as [|y l IH]; cbn in *; [|by destruct (p y); [|apply IH]].
  induction Hx as [|a x Ha _ IH]; [done|]. cbn. by rewrite Ha.
Qed.

Definition opt_fact {A} (P : A -> Prop) (o : option A) : Prop := Forall P (option_list o).

Lemma holds_add rs i v x f :
  rs_find_iface rs (if_name i) = None ->
  opt_fact (fun v => vl_ifname v = if_name i) v -> opt_fact (fun x => vxl_ifname x = if_name i) x ->
  Forall (fun a => a4_ifindex a <> if_ifindex i) (rs_addr4 rs) ->
  f <> FAbsent (if_name i) ->
  (forall m l id j, f = FNoVlan m l id -> rs_find_iface rs l = Some j ->
     opt_fact (fun v => ~ (vl_id v = id /\ vl_link v = if_ifindex j)) v) ->
  (forall m vni, f = FNoVxlan m vni -> opt_fact (fun x => vxl_vni x <> vni) x) ->
  (forall n j, f = FDeletable n -> rs_find_iface rs n = Some j ->
     opt_fact (fun v => vl_link v <> if_ifindex j) v /\
     opt_fact (fun x => vxl_link x <> if_ifindex j) x /\
     (if_has_link i = true -> if_link i <> if_ifindex j)) ->
  holds rs f -> holds (add_iface i v x rs) f.
Proof.
  intros Hnew Hv Hx Ha Hab Hnv Hnx Hdel. set (rs' := add_iface i v x rs).
  assert (Hf : forall n j, rs_find_iface rs n = Some j -> rs_find_iface rs' n = Some j)
    by (intros n j; apply find_snoc).
  assert (Hfv : forall n j, rs_find_vlan rs n = Some j -> rs_find_vlan rs' n = Some j)
    by (intros n j; apply find_snoc).
  assert (Hfx : forall n j, rs_find_vxlan rs n = Some j -> rs_find_vxlan rs' n = Some j)
    by (intros n j; apply find_snoc).
  assert (Hfind : forall n j, rs_find_iface rs' n = Some j -> rs_find_iface rs n = Some j \/ j = i).
  { intros n j. unfold rs', rs_find_iface, add_iface. cbn [rs_ifaces].
    induction (rs_ifaces rs) as [|y l IH]; cbn in *.
    - destruct (streq _ _); [intros [= ->]; by right|done].
    - destruct (streq _ _); [by left|done]. }
  destruct f as
    [n|n|n k|n b|n a p|n|d p dev gw|a|n id l|n vni r dev|n|n|n a p|n d p|a|a q|m l id|m vni|n];
    cbn [holds]; try done.
  - intros [j E]. exists j. auto.
  - intros (j & E & U). exists j. auto.
  - intros (j & E & K). exists j. auto.
  - intros (j & k & E & E' & M). exists j, k. auto.
  - intros (j & E & A). exists j. auto.
  - intros (j & y & E & A & X). exists j, y. auto.
  - intros (j & E & R). exists j. auto.
  - intros (w & j & E1 & E2 & E3 & E4 & E5 & E6). exists w, j. by split_and!; auto.
  - intros (w & E1 & E2 & E3 & E4 & E5 & E6). exists w. split_and!; [by auto|done..|].
    intros Hd. destruct (E6 Hd) as (j & E7 & E8 & E9). exists j. auto.
  - intros (w & E & L). exists w. auto.
  - intros (E & V & X). assert (Hne : if_name i <> n) by (intros Hne; apply Hab; by rewrite Hne).
    split_and!; apply find_snoc_none; try done.
    + constructor; [by apply streq_false|done].
    + eapply Forall_impl; [exact Hv|]. intros w Hw. cbv beta in *. rewrite Hw. by apply streq_false.
    + eapply Forall_impl; [exact Hx|]. intros w Hw. cbv beta in *. rewrite Hw. by apply streq_false.
  - intros A j E. destruct (Hfind n j E) as [Ej| ->]; [by apply A|].
    intros Hin. rewrite Forall_forall in Ha. by apply (Ha _ Hin).
  - intros A j E. destruct (Hfind n j E) as [Ej| ->]; [by apply A|].
    eapply Forall_impl; [exact Ha|]. done.
  - intros (j & E & V). exists j. split; [auto|]. apply Forall_app. split; [done|].
    eapply Forall_impl; [by apply (Hnv m l id)|]. auto.
  - intros V. apply Forall_app. split; [done|].
    eapply Forall_impl; [by apply (Hnx m vni)|]. auto.
  - intros (j & E & K & B1 & B2 & B3 & B4). exists j. destruct (Hdel n j eq_refl E) as (D1 & D2 & D3).
    split_and!; [auto|done|split_and!]; [done|by apply Forall_app..|].
    apply Forall_app. split; [done|]. by constructor.
Qed.

(** A new address. *)
Lemma holds_addr rs i a p f :
  (forall n j, rs_find_iface rs n = Some j -> if_ifindex j = i ->
     f <> FNoAddr n a p /\ f <> FNoNet n (net_of a p) p) ->
  (forall g, g ∈ taken a p -> f <> FForeign g) ->
  (forall n j, f = FDeletable n -> rs_find_iface rs n = Some j -> if_ifindex j <> i) ->
  holds rs f -> holds (rs <| rs_addr4 ::= (fun l => l ++ [Addr4 i a p]) |>) f.
Proof.
  intros Hno Hfo Hdel. set (rs' := rs <| rs_addr4 ::= _ |>).
  assert (Hin : forall x, x ∈ rs_addr4 rs -> x ∈ rs_addr4 rs')
    by (intros x Hx; apply elem_of_app; by left).
  destruct f as [n|n|n k|n b|n a' p'|n|d p' dev gw|a'|n id l|n vni r dev|n|n|n a' p'|n d p'|a'|a' q
    |m l id|m vni|n]; cbn [holds]; try done.
  - intros (j & E & A). exists j. auto.
  - intros (j & y & E & A & X). exists j, y. auto.
  - intros A j E Hx. apply elem_of_app in Hx as [Hx|Hx]; [by apply (A j E)|].
    apply list_elem_of_singleton in Hx. injection Hx as E1 -> ->.
    by destruct (Hno n j E E1).
  - intros A j E. apply Forall_app. split; [by apply A|]. constructor; [|done]. cbn.
    intros E1 <- <-. by destruct (Hno n j E).
  - intros A. apply Forall_app. split; [done|]. constructor; [|done]. cbn. intros Hx.
    by apply (Hfo a').
  - intros (j & E & K & B1 & B2). exists j. split_and!; [done..|split; [|done]].
    apply Forall_app. split; [done|]. constructor; [|done]. cbn. by apply not_eq_sym, (Hdel n j).
Qed.

(** A changed routing table. *)
Lemma holds_routes rs rts f :
  (forall d p dev gw i, f = FRoute d p dev gw -> rs_find_iface rs dev = Some i ->
     has_route rs d p i gw -> has_route (rs <| rs_route4 := rts |>) d p i gw) ->
  (forall a q, f = FNoHop a q -> holds rs f -> holds (rs <| rs_route4 := rts |>) f) ->
  holds rs f -> holds (rs <| rs_route4 := rts |>) f.
Proof.
  intros Hr Hh. destruct f; cbn [holds]; try done; [|by apply (Hh a q)].
  intros (i & E & R). exists i. split; [done|]. by eapply Hr.
Qed.

(** ** The machine *)

Definition sim_sys : Sys := {|
  world := kernel;
  spawn := fun argv k =>
    match @ip_exec glibc argv k with
    | Some k' => (Waited 0 (inr (Exited 0)), k')
    | None => (Waited 0 (inr (Exited 2)), k)
    end
|}.

Section Machine.
Context (fs : machine) (resolv : list ascii).

Definition sim_host : @Host sim_sys :=
  @Build_Host sim_sys (fun _ => fs)
    (fun _ => TmpEnv (Ok tt) (Ok tt) (Ok tt) EIO []) (fun _ => []) (fun _ => Some resolv)
    conv_of (fun _ => (Ok tt, true)).

Definition sim_tables (k : kernel) : real_state :=
  (snapshot k) <| rs_dns4 := dns_read resolv |>.

(** The tables are consistent and have room for [n] more entries. *)
Record sim_roomy (n : nat) (k : kernel) : Prop := {
  sr_fits : kernel_fits k;
  sr_names : NoDup (map kl_name (k_links k));
  sr_index : NoDup (map kl_index (k_links k));
  sr_links : Forall (fun l => 0 < kl_index l)%Z (k_links k);
  sr_ifnames : Forall (fun l => ifname (kl_name l)) (k_links k);
  sr_n_links : (Z.of_nat (length (k_links k) + n) <= 1024)%Z;
  sr_n_addrs : (Z.of_nat (length (k_addrs k) + n) <= NR_ADDR4_MAX)%Z;
  sr_n_routes : (Z.of_nat (length (k_routes k) + n) <= NR_ROUTE4_MAX)%Z;
  sr_new : (new_index k + Z.of_nat n <= INT_MAX)%Z
}.

(** ** Facts about the tables *)

Lemma find_map_name (f : klink -> klink) n l :
  (forall x, kl_name (f x) = kl_name x) ->
  find (has_name n) (map f l) = f <$> find (has_name n) l.
Proof.
  intros Hf. induction l as [|x l IH]; [done|]. cbn. unfold has_name at 1 3. rewrite Hf.
  by destruct (streq _ _).
Qed.

Lemma find_app_name n l1 l2 :
  find (has_name n) (l1 ++ l2) =
  match find (has_name n) l1 with Some x => Some x | None => find (has_name n) l2 end.
Proof. induction l1 as [|x l1 IH]; [done|]. cbn. by destruct (has_name n x). Qed.

Lemma find_link_in k n l : find_link k n = Some l -> l ∈ k_links k /\ kl_name l = n.
Proof.
  intros E. apply find_some in E as [Hin Hn].
  split; [by apply list_elem_of_In|by apply streq_true].
Qed.

(** Interfaces by name. *)
Lemma tables_iface k n : rs_find_iface (sim_tables k) n = iface_of <$> find_link k n.
Proof.
  unfold rs_find_iface, find_link. cbn [sim_tables rs_ifaces snapshot set_field].
  change (rs_ifaces (sim_tables k)) with (map iface_of (k_links k)).
  induction (k_links k) as [|x l IH]; [done|]. cbn. unfold has_name at 1. by destruct (streq _ _).
Qed.

(** With unique names the VLANs and VXLANs are those of the links. *)
Lemma find_omap {A} (f : klink -> option A) (name : A -> cstr) n l :
  (forall x a, f x = Some a -> name a = kl_name x) -> NoDup (map kl_name l) ->
  find (fun a => streq (name a) n) (omap f l) = find (has_name n) l ≫= f.
Proof.
  intros Hf. induction l as [|x l IH]; intros Hd; [done|]. cbn [map] in Hd.
  apply NoDup_cons in Hd as [Hx Hd]. specialize (IH Hd).
  assert (Hn : has_name n x = true -> find (has_name n) l = None).
  { intros Ex%streq_true. destruct (find (has_name n) l) as [y|] eqn:Ey; [|done].
    apply find_some in Ey as [Hin Ey%streq_true]. exfalso. apply Hx.
    rewrite Ex, <- Ey. apply list_elem_of_In, in_map, Hin. }
  change (omap f (x :: l)) with (match f x with Some a => a :: omap f l | None => omap f l end).
  cbn [find]. destruct (f x) as [a|] eqn:Ea.
  - cbn [find]. rewrite (Hf x a Ea). unfold has_name at 1. destruct (streq _ _); [by cbn; rewrite Ea|done].
  - destruct (has_name n x) eqn:Ex; [|done]. rewrite IH, Hn by done. cbn. by rewrite Ea.
Qed.

Lemma vlan_of_name l v : vlan_of l = Some v -> vl_ifname v = kl_name l.
Proof. unfold vlan_of. destruct (kl_info l) as [[]|]; [done|by intros [= <-]|done..]. Qed.

Lemma vxlan_of_name l v : vxlan_of l = Some v -> vxl_ifname v = kl_name l.
Proof. unfold vxlan_of. destruct (kl_info l) as [[]|]; [by intros [= <-]|done..]. Qed.

Lemma tables_vlan k n : NoDup (map kl_name (k_links k)) ->
  rs_find_vlan (sim_tables k) n = find_link k n ≫= vlan_of.
Proof. apply (find_omap vlan_of vl_ifname n (k_links k)), vlan_of_name. Qed.

Lemma tables_vxlan k n : NoDup (map kl_name (k_links k)) ->
  rs_find_vxlan (sim_tables k) n = find_link k n ≫= vxlan_of.
Proof. apply (find_omap vxlan_of vxl_ifname n (k_links k)), vxlan_of_name. Qed.

Lemma tables_addr k i a p : Addr4 i a p ∈ rs_addr4 (sim_tables k) <-> KAddr4 i p a ∈ k_addrs k.
Proof.
  change (rs_addr4 (sim_tables k)) with (omap addr_of (k_addrs k)). rewrite list_elem_of_omap.
  split; [|by eexists]. intros ([i' p' a'|] & Hin & E); [|done]. by injection E as -> -> ->.
Qed.

(** Links with different names have different indices. *)
Lemma index_inj k n n' l l' : NoDup (map kl_index (k_links k)) ->
  find_link k n = Some l -> find_link k n' = Some l' -> kl_index l = kl_index l' -> n = n'.
Proof.
  intros Hd Hl Hl' E. apply find_link_in in Hl as [Hl <-]. apply find_link_in in Hl' as [Hl' <-].
  apply list_elem_of_lookup in Hl as [i Hi]. apply list_elem_of_lookup in Hl' as [j Hj].
  assert (i = j) as ->; [|by rewrite Hi in Hj; injection Hj as ->].
  eapply NoDup_lookup; [exact Hd| |].
  - rewrite list_lookup_fmap, Hi. done.
  - rewrite list_lookup_fmap, Hj. by cbn; rewrite E.
Qed.

Lemma max_upper l x : x ∈ l -> (x <= foldr Z.max 0 l)%Z.
Proof. induction 1; cbn; lia. Qed.

Lemma new_index_link k l : l ∈ k_links k -> (kl_index l < new_index k)%Z.
Proof.
  intros Hl. unfold new_index. enough (kl_index l <= foldr Z.max 0 (map kl_index (k_links k) ++
    map addr_index (k_addrs k)))%Z by lia.
  apply max_upper, elem_of_app. left. apply list_elem_of_In, in_map, list_elem_of_In, Hl.
Qed.

Lemma new_index_addr k i p a : KAddr4 i p a ∈ k_addrs k -> (i < new_index k)%Z.
Proof.
  intros Ha. unfold new_index. enough (i <= foldr Z.max 0 (map kl_index (k_links k) ++
    map addr_index (k_addrs k)))%Z by lia.
  apply max_upper, elem_of_app. right.
  apply list_elem_of_In, (in_map addr_index), list_elem_of_In in Ha. done.
Qed.

Lemma max_least l m : (0 <= m)%Z -> Forall (fun x => x <= m)%Z l -> (foldr Z.max 0 l <= m)%Z.
Proof. intros Hm. induction 1; cbn; lia. Qed.

Lemma new_index_bound k m : (0 <= m)%Z ->
  Forall (fun l => kl_index l <= m)%Z (k_links k) ->
  Forall (fun a => addr_index a <= m)%Z (k_addrs k) -> (new_index k <= m + 1)%Z.
Proof.
  intros Hm Hl Ha. unfold new_index.
  enough (foldr Z.max 0 (map kl_index (k_links k) ++ map addr_index (k_addrs k)) <= m)%Z by lia.
  apply max_least; [done|]. rewrite Forall_app, !Forall_map. done.
Qed.

Lemma new_index_pos k : (0 < new_index k)%Z.
Proof.
  unfold new_index. assert (forall l, (0 <= foldr Z.max 0 l)%Z) as Hl
    by (induction l; cbn; lia). specialize (Hl (map kl_index (k_links k) ++ map addr_index (k_addrs k))).
  lia.
Qed.

Lemma index_below k : Forall (fun l => kl_index l <= new_index k - 1)%Z (k_links k).
Proof. apply Forall_forall. intros l Hl. apply new_index_link in Hl. lia. Qed.

Lemma addr_below k : Forall (fun a => addr_index a <= new_index k - 1)%Z (k_addrs k).
Proof.
  apply Forall_forall. intros [i p a|] Ha; [apply new_index_addr in Ha; cbn; lia|].
  pose proof (new_index_pos k). cbn. lia.
Qed.

Lemma roomy_snapshot n k : sim_roomy n k -> within (snapshot k).
Proof.
  intros Hr. assert (L : forall {A B} (f : A -> option B) l, length (omap f l) <= length l).
  { intros A B f l. induction l as [|x l IH]; [done|]. cbn. destruct (f x); cbn; lia. }
  pose proof (sr_n_links _ _ Hr). pose proof (sr_n_addrs _ _ Hr). pose proof (sr_n_routes _ _ Hr).
  pose proof (L _ _ addr_of (k_addrs k)). pose proof (L _ _ route_of (k_routes k)).
  pose proof (L _ _ vxlan_of (k_links k)). pose proof (L _ _ vlan_of (k_links k)).
  unfold within, snapshot, NR_IFACE_MAX, NR_ADDR4_MAX, NR_ROUTE4_MAX, NR_VXLAN_MAX, NR_VLAN_MAX in *.
  cbn [rs_ifaces rs_addr4 rs_route4 rs_vxlan rs_vlan]. rewrite length_map. lia.
Qed.

Lemma roomy_link n k name l : sim_roomy n k -> find_link k name = Some l ->
  link_fits l /\ (0 < kl_index l)%Z /\ ifname name.
Proof.
  intros Hr Hl. apply find_link_in in Hl as [Hl <-].
  pose proof (kf_links _ (sr_fits _ _ Hr)) as H1. pose proof (sr_links _ _ Hr) as H2.
  pose proof (sr_ifnames _ _ Hr) as H3. rewrite Forall_forall in H1, H2, H3. auto.
Qed.

(** *** What the changes preserve *)

Lemma roomy_upd n m f k :
  (forall l, kl_name (f l) = kl_name l) -> (forall l, kl_index (f l) = kl_index l) ->
  (forall l, link_fits l -> link_fits (f l)) ->
  sim_roomy (S n) k -> sim_roomy n (upd_link m f k).
Proof.
  intros Hn Hi Hf [[F1 F2 F3] R1 R2 R3 R4 R5 R6 R7 R8].
  set (g := fun l => if has_name m l then f l else l).
  assert (G1 : forall l, kl_name (g l) = kl_name l) by (intros l; unfold g; by destruct (has_name m l)).
  assert (G2 : forall l, kl_index (g l) = kl_index l) by (intros l; unfold g; by destruct (has_name m l)).
  assert (E1 : map kl_name (map g (k_links k)) = map kl_name (k_links k))
    by (rewrite map_map; by apply map_ext).
  assert (E2 : map kl_index (map g (k_links k)) = map kl_index (k_links k))
    by (rewrite map_map; by apply map_ext).
  unfold new_index in R8. constructor; unfold new_index; cbn [upd_link k_links k_addrs k_routes]; fold g.
  - constructor; [|done..]. cbn. fold g. rewrite Forall_map. eapply Forall_impl; [exact F1|].
    intros l Hl. unfold g. cbn. destruct (has_name m l); auto.
  - by rewrite E1.
  - by rewrite E2.
  - rewrite Forall_map. eapply Forall_impl; [exact R3|]. intros l Hl. cbn. by rewrite G2.
  - rewrite Forall_map. eapply Forall_impl; [exact R4|]. intros l Hl. cbn. by rewrite G1.
  - rewrite length_map. lia.
  - lia.
  - lia.
  - rewrite E2. lia.
Qed.

Lemma roomy_add n name link info k :
  ifname name -> find_link k name = None -> opt_ok is_index link -> info_fits info ->
  sim_roomy (S n) k -> sim_roomy n (add_link name link info k).
Proof.
  intros Hn Hnew Hl Hi [[F1 F2 F3] R1 R2 R3 R4 R5 R6 R7 R8]. pose proof (new_index_pos k).
  set (x := KLink (new_index k) 0 name None None link (Some info)).
  constructor; cbn [add_link k_links k_addrs k_routes]; fold x.
  - constructor; [|done..]. cbn. apply Forall_app. split; [done|]. constructor; [|done].
    constructor; cbn; try done; [|apply Hn..]. unfold is_index. lia.
  - rewrite map_app. apply NoDup_app. split_and!; [done| |by apply NoDup_singleton].
    intros y Hy Hx. apply list_elem_of_singleton in Hx. subst y. cbn in Hy.
    apply list_elem_of_In, in_map_iff in Hy as (l & E & Hl').
    apply (find_none _ _ Hnew) in Hl'. by apply streq_false in Hl'.
  - rewrite map_app. apply NoDup_app. split_and!; [done| |by apply NoDup_singleton].
    intros y Hy Hx. apply list_elem_of_singleton in Hx. subst y. cbn in Hy.
    apply list_elem_of_In, in_map_iff in Hy as (l & E & Hl').
    apply list_elem_of_In, new_index_link in Hl'. lia.
  - apply Forall_app. split; [done|]. by constructor.
  - apply Forall_app. split; [done|]. by constructor.
  - rewrite length_app. cbn. lia.
  - lia.
  - lia.
  - enough (new_index (add_link name link info k) <= new_index k + 1)%Z by lia.
    apply new_index_bound; [lia| |].
    + cbn. apply Forall_app. split.
      * eapply Forall_impl; [apply index_below|]. intros l Hl'. cbn in Hl'. lia.
      * constructor; [cbn; lia|done].
    + cbn. eapply Forall_impl; [apply addr_below|]. intros a Ha. cbn in Ha. lia.
Qed.

Lemma roomy_addr n k l p a :
  l ∈ k_links k -> is_u8 p -> is_u32 a -> sim_roomy (S n) k -> sim_roomy n (addr_put l a p k).
Proof.
  intros Hl Hp Ha [[F1 F2 F3] R1 R2 R3 R4 R5 R6 R7 R8]. pose proof (new_index_pos k).
  pose proof (new_index_link k l Hl). rewrite Forall_forall in F1.
  assert (Hi : is_index (kl_index l)) by apply F1, Hl.
  constructor; cbn [addr_put k_links k_addrs k_routes]; try done.
  - constructor; [by apply Forall_forall| |]; cbn; apply Forall_app; (split; [done|]).
    + constructor; [|done]. by split_and!.
    + unfold net_route. case_match; [|done]. constructor; [|done]. split_and!; try done. cbn.
      pose proof (ntohl_range (ntohl a / 2 ^ (32 - p) * 2 ^ (32 - p))).
      unfold is_u32, net_of, UINT32_MAX. lia.
  - lia.
  - rewrite length_app. cbn. lia.
  - rewrite length_app. unfold net_route. case_match; cbn; lia.
  - enough (new_index (addr_put l a p k) <= new_index k - 1 + 1)%Z by lia.
    apply new_index_bound; [lia|exact (index_below k)|]. cbn. apply Forall_app.
    split; [exact (addr_below k)|]. constructor; [cbn; lia|done].
Qed.

Lemma roomy_route n k l dst p gw i :
  l ∈ k_links k -> kl_index l = i -> is_u8 p -> is_u32 dst -> opt_ok is_u32 gw ->
  sim_roomy (S n) k -> sim_roomy n (route_put dst p gw i k).
Proof.
  intros Hl Hi Hp Hd Hg [[F1 F2 F3] R1 R2 R3 R4 R5 R6 R7 R8]. rewrite Forall_forall in F1.
  constructor; cbn [route_put k_links k_addrs k_routes]; try done.
  - constructor; [by apply Forall_forall|done|]. cbn. apply Forall_app. split.
    + rewrite Forall_forall in F3 |- *. intros r Hr. apply list_elem_of_In, filter_In in Hr as [Hr _].
      by apply F3, list_elem_of_In.
    + constructor; [|done]. cbn. split_and!; try done. subst i. apply F1, Hl.
  - lia.
  - lia.
  - rewrite length_app. pose proof (filter_length_le (fun r => negb (same_dest dst p r)) (k_routes k)).
    cbn. lia.
  - change (new_index (route_put dst p gw i k)) with (new_index k). lia.
Qed.

(** *** The commands *)

(** [c] succeeds, leaves room for [n] commands, and does what it should. *)
Definition works (n : nat) (k : kernel) (c : ip_cmd) : Prop :=
  exists k', @ip_exec glibc (argv_of c) k = Some k' /\ sim_roomy n k' /\
    Forall (holds (sim_tables k')) (ip_post c) /\
    forall f, ip_keeps c f -> holds (sim_tables k) f -> holds (sim_tables k') f.

Lemma omap_map {A B C} (f : B -> option C) (g : A -> B) l :
  omap f (map g l) = omap (fun x => f (g x)) l.
Proof. induction l as [|x l IH]; [done|]. cbn. rewrite IH. done. Qed.

(** A change of the links named [n] that the program sees as a change of
    interfaces. *)
Lemma tables_upd n (f : klink -> klink) (h : iface -> iface) k :
  (forall l, kl_name l = n -> iface_of (f l) = h (iface_of l)) ->
  (forall i, if_name i <> n -> h i = i) ->
  (forall l, vlan_of (f l) = vlan_of l) -> (forall l, vxlan_of (f l) = vxlan_of l) ->
  sim_tables (upd_link n f k) =
  (sim_tables k) <| rs_ifaces := map h (rs_ifaces (sim_tables k)) |>.
Proof.
  intros Hh Hn Hv Hx. unfold sim_tables, snapshot, upd_link. cbn [k_links k_addrs k_routes].
  rewrite !omap_map, map_map. unfold set_field. cbn. f_equal.
  - rewrite map_map. apply map_ext. intros l. unfold has_name.
    destruct (streq _ _) eqn:E; [by apply Hh, streq_true|]. symmetry. apply Hn. by apply streq_false in E.
  - apply list_omap_ext. by apply Forall_Forall2_diag, Forall_true; intros l; destruct (has_name n l).
  - apply list_omap_ext. by apply Forall_Forall2_diag, Forall_true; intros l; destruct (has_name n l).
Qed.

(** The fields of an interface that a command changes. *)
Definition on_name (n : cstr) (h : iface -> iface) (i : iface) : iface :=
  if streq (if_name i) n then h i else i.

Definition up_iface (i : iface) : iface :=
  Iface (if_name i) (if_kind i) (if_ifindex i)
    (if Z.odd (if_flags i) then if_flags i else if_flags i + 1)%Z (if_has_carrier i)
    (if_carrier i) (if_master i) (if_link i) (if_has_link i).

Definition master_iface (m : Z) (i : iface) : iface :=
  Iface (if_name i) (if_kind i) (if_ifindex i) (if_flags i) (if_has_carrier i)
    (if_carrier i) m (if_link i) (if_has_link i).

Lemma on_name_same {A} (p : iface -> A) n h :
  (forall i, p (h i) = p i) -> forall i, p (on_name n h i) = p i.
Proof. intros Hp i. unfold on_name. by destruct (streq _ _). Qed.

Lemma tables_on_name n (f : klink -> klink) (h : iface -> iface) k :
  (forall l, iface_of (f l) = h (iface_of l)) ->
  (forall l, vlan_of (f l) = vlan_of l) -> (forall l, vxlan_of (f l) = vxlan_of l) ->
  sim_tables (upd_link n f k) =
  (sim_tables k) <| rs_ifaces := map (on_name n h) (rs_ifaces (sim_tables k)) |>.
Proof.
  intros Hh Hv Hx. apply tables_upd; [| |done|done].
  - intros l Hl. unfold on_name. rewrite (proj2 (streq_true _ _)) by done. apply Hh.
  - intros i Hi. unfold on_name. by rewrite (proj2 (streq_false _ _)).
Qed.

Lemma up_iface_up i : if_up (up_iface i).
Proof.
  unfold if_up, up_iface. cbn [if_flags]. rewrite Z.bit0_odd. destruct (Z.odd (if_flags i)) eqn:E; [done|].
  by rewrite Z.add_1_r, Z.odd_succ, <- Z.negb_odd, E.
Qed.

Lemma link_some k n : holds (sim_tables k) (FLink n) -> is_Some (find_link k n).
Proof. intros [i Hi]. rewrite tables_iface in Hi. destruct (find_link k n); [by eexists|done]. Qed.

Lemma iface_link k n i : rs_find_iface (sim_tables k) n = Some i ->
  exists l, find_link k n = Some l /\ i = iface_of l.
Proof.
  rewrite tables_iface. destruct (find_link k n) as [l|]; [|done]. intros [= <-]. by exists l.
Qed.

Lemma find_unique {A} (key : A -> Z) l x :
  NoDup (map key l) -> x ∈ l -> find (fun y => (key y =? key x)%Z) l = Some x.
Proof.
  intros Hd Hx. induction l as [|y l IH]; [by apply elem_of_nil in Hx|]. cbn in *.
  apply NoDup_cons in Hd as [Hy Hd]. apply elem_of_cons in Hx as [->|Hx]; [by rewrite Z.eqb_refl|].
  destruct (Z.eqb_spec (key y) (key x)) as [E|]; [|by apply IH]. exfalso. apply Hy. rewrite E.
  by apply list_elem_of_In, in_map, list_elem_of_In.
Qed.

Lemma link_at_found n k name l : sim_roomy n k -> find_link k name = Some l ->
  link_at k (kl_index l) = Some l.
Proof.
  intros Hr [Hl _]%find_link_in. apply (find_unique kl_index); [apply (sr_index _ _ Hr)|done].
Qed.

Lemma kind_found k n l kind : find_link k n = Some l ->
  holds (sim_tables k) (FKind n kind) -> kind_of l = kind.
Proof. intros Hl (i & Hi & Hk). rewrite tables_iface, Hl in Hi. by injection Hi as <-. Qed.

(** What a VLAN or a VXLAN is built on. *)
Lemma vlan_base n k m l id link : sim_roomy n k -> find_link k m = Some l ->
  holds (sim_tables k) (FVlan m id link) ->
  (exists tag, kl_info l = Some (KVlan tag)) /\
  exists x, find_link k link = Some x /\ kl_link l = Some (kl_index x).
Proof.
  intros Hr Hl (v & i & Ev & _ & _ & Ei & Hh & El). apply iface_link in Ei as (x & Hx & ->).
  rewrite tables_vlan, Hl in Ev by apply (sr_names _ _ Hr). cbn in Ev. unfold vlan_of in Ev.
  destruct (kl_info l) as [[| tag |]|]; try done. injection Ev as <-. cbn in Hh, El.
  split; [by exists tag|]. exists x. split; [done|]. destruct (kl_link l) as [z|]; [|done]. cbn in El.
  by subst z.
Qed.

(** The entries of the tables are those of links. *)
Lemma found_entry {A} (f : klink -> option A) (name : A -> cstr) k m a :
  (forall x v, f x = Some v -> name v = kl_name x) ->
  find (fun v => streq (name v) m) (omap f (k_links k)) = Some a -> is_Some (find_link k m).
Proof.
  intros Hf Ea. apply find_some in Ea as [Hv En%streq_true].
  apply list_elem_of_In, list_elem_of_omap in Hv as (l & Hl & Ev).
  destruct (find_link k m) as [x|] eqn:E; [by exists x|]. exfalso.
  apply list_elem_of_In, (find_none _ _ E) in Hl. apply streq_false in Hl. apply Hl.
  by rewrite <- (Hf _ _ Ev).
Qed.

Lemma can_up_link k m : can_up (holds (sim_tables k)) m -> is_Some (find_link k m).
Proof.
  intros [Hk|(id & link & (v & _ & Ev & _) & _)]; [by apply link_some, (of_kind_link _ solo_kinds)|].
  by eapply (found_entry vlan_of vl_ifname), Ev; intros; apply vlan_of_name.
Qed.

Lemma comes_up_pre n k m l : sim_roomy n k -> find_link k m = Some l ->
  can_up (holds (sim_tables k)) m -> comes_up k l = true.
Proof.
  intros Hr Hl Hc. unfold comes_up. destruct Hc as [(_ & kind & Hin & Hk)|(id & link & Hv & Hu)].
  - apply (kind_found _ _ _ _ Hl) in Hk. unfold kind_of in Hk.
    destruct (kl_info l) as [[]|]; [done| |done..]. subst kind. exfalso. revert Hin. compute_decide.
  - destruct (vlan_base _ _ _ _ _ _ Hr Hl Hv) as ([tag ->] & x & Hx & ->).
    rewrite (link_at_found _ _ _ _ Hr Hx). destruct Hu as (i & Hi & Hu).
    rewrite tables_iface, Hx in Hi. injection Hi as <-. unfold if_up in Hu. cbn [iface_of if_flags] in Hu.
    by rewrite Z.bit0_odd in Hu.
Qed.

Lemma works_up n k m : sim_roomy (S n) k -> ip_pre (IpUp m) (sim_tables k) -> works n k (IpUp m).
Proof.
  intros Hr [_ Hp]. destruct (can_up_link _ _ Hp) as [l Hl].
  pose proof (comes_up_pre _ _ _ _ Hr Hl Hp) as Hc.
  set (k' := upd_link m set_up k).
  assert (Et : sim_tables k' = (sim_tables k)
    <| rs_ifaces := map (on_name m up_iface) (rs_ifaces (sim_tables k)) |>)
    by by apply tables_on_name.
  exists k'. split_and!.
  - change (link_up m k = Some k'). unfold link_up. rewrite Hl. cbn. by rewrite Hc.
  - apply roomy_upd; [done..| |done]. intros x []. constructor; try done. cbn.
    unfold is_u32, UINT32_MAX in *. destruct (Z.odd (kl_flags x)) eqn:E; [lia|].
    destruct (Z.eq_dec (kl_flags x) 4294967295) as [E2|]; [by rewrite E2 in E|lia].
  - constructor; [|done]. exists (up_iface (iface_of l)). split; [|apply up_iface_up].
    rewrite Et, find_iface_map, tables_iface, Hl by by apply on_name_same. cbn.
    unfold on_name. apply find_link_in in Hl as [_ Hl].
    by rewrite (proj2 (streq_true (if_name (iface_of l)) m)).
  - intros f _ Hf. rewrite Et. apply holds_map; try by apply on_name_same.
    + intros i Hi. unfold on_name. destruct (streq _ _); [apply up_iface_up|done].
    + intros. by apply on_name_same.
    + done.
Qed.

(** The links that a bridge takes as ports are not built on a bridge. *)
Lemma vxlan_base n k m l : sim_roomy n k -> find_link k m = Some l ->
  (exists vni r dev, holds (sim_tables k) (FVxlan m vni r dev) /\ dev <> [] /\
     of_kind (holds (sim_tables k)) lower_kinds dev) \/ holds (sim_tables k) (FFloat m) ->
  kind_of l = #"vxlan" /\
  (base l = None \/ exists dev x, of_kind (holds (sim_tables k)) lower_kinds dev /\
     find_link k dev = Some x /\ base l = Some (kl_index x)).
Proof.
  intros Hr Hl Hv.
  assert (Hx : forall v, rs_find_vxlan (sim_tables k) m = Some v -> exists vni r link,
    kl_info l = Some (KVxlan vni r link) /\ vxl_has_link v = has link /\ vxl_link v = default 0%Z link).
  { intros v Ev. rewrite tables_vxlan, Hl in Ev by apply (sr_names _ _ Hr). cbn in Ev.
    unfold vxlan_of in Ev. destruct (kl_info l) as [[vni r link| |]|]; try done.
    injection Ev as <-. by exists vni, r, link. }
  destruct Hv as [(vni & r & dev & (v & Ev & _ & _ & _ & _ & Hd) & Hne & Hk)|(v & Ev & Hd)];
    destruct (Hx v Ev) as (vni' & r' & link & Ei & Eh & El); unfold kind_of, base; rewrite Ei;
    (split; [done|]).
  - right. destruct (Hd Hne) as (i & Hi & Hh & Ek). apply iface_link in Hi as (x & Hx' & ->).
    exists dev, x. split_and!; [done..|]. destruct link as [z|]; [|by rewrite Eh in Hh].
    f_equal. cbn in El. cbn in Ek. congruence.
  - left. destruct link; [|done]. by rewrite Eh in Hd.
Qed.

Lemma kinds_no_base l : kind_of l ∈ lower_kinds -> base l = None.
Proof.
  unfold kind_of, base. intros Hk.
  destruct (kl_info l) as [[]|]; [exfalso; revert Hk; compute_decide..|done|done].
Qed.

Lemma can_port_base n k m l : sim_roomy n k -> find_link k m = Some l ->
  can_port (holds (sim_tables k)) m ->
  kind_of l ∈ ethernet_kinds /\ (base l = None \/ exists dev x,
    of_kind (holds (sim_tables k)) lower_kinds dev /\ find_link k dev = Some x /\
    base l = Some (kl_index x)).
Proof.
  intros Hr Hl [(_ & kind & Hin & Hk)|[(id & link & Hv & Hlo & kind & Hin & Hk)|Hv]].
  - apply (kind_found _ _ _ _ Hl) in Hk. subst kind. split.
    + unfold ethernet_kinds. rewrite !elem_of_cons. by right; right.
    + left. apply kinds_no_base. apply elem_of_cons. by right.
  - destruct (vlan_base _ _ _ _ _ _ Hr Hl Hv) as ([tag Ei] & x & Hx & El).
    unfold kind_of, base. rewrite Ei. split; [compute_decide|]. right. exists link, x.
    split_and!; [|done..]. split; [done|]. exists kind. split; [|done]. apply elem_of_cons. by right.
  - destruct (vxlan_base _ _ _ _ Hr Hl Hv) as [-> Hb]. split; [compute_decide|done].
Qed.

Lemma not_below n k m l br b fuel : sim_roomy n k -> find_link k m = Some l ->
  find_link k b = Some br -> kind_of br = #"bridge" ->
  can_port (holds (sim_tables k)) m -> kl_index br ∉ below fuel k l.
Proof.
  intros Hr Hl Hbr Hkb Hp. destruct (can_port_base _ _ _ _ Hr Hl Hp) as [_ Hb].
  destruct fuel as [|fuel]; [by intros ?%elem_of_nil|]. cbn [below].
  destruct Hb as [->|(dev & x & (_ & kind & Hin & Hk) & Hx & ->)]; [by intros ?%elem_of_nil|].
  apply (kind_found _ _ _ _ Hx) in Hk. subst kind. rewrite (link_at_found _ _ _ _ Hr Hx).
  assert (Eb : below fuel k x = []) by (destruct fuel; [done|]; cbn; by rewrite kinds_no_base).
  rewrite Eb. intros E%list_elem_of_singleton.
  assert (b = dev) as -> by (eapply index_inj; [apply (sr_index _ _ Hr)|done..]).
  rewrite Hbr in Hx. injection Hx as <-. rewrite Hkb in Hin. revert Hin. compute_decide.
Qed.

Lemma can_port_link k m : can_port (holds (sim_tables k)) m -> is_Some (find_link k m).
Proof.
  intros [Hk|[(id & link & Hv & Hk)|Hv]]; [by apply link_some, (of_kind_link _ wired_kinds)|..].
  - destruct Hv as (v & _ & Ev & _). by eapply (found_entry vlan_of vl_ifname), Ev; intros; apply vlan_of_name.
  - assert (exists v, rs_find_vxlan (sim_tables k) m = Some v) as [v Ev]
      by (destruct Hv as [(? & ? & ? & (v & Ev & _) & _)|(v & Ev & _)]; by exists v).
    by eapply (found_entry vxlan_of vxl_ifname), Ev; intros; apply vxlan_of_name.
Qed.

Lemma works_master n k m b :
  sim_roomy (S n) k -> ip_pre (IpMaster m b) (sim_tables k) -> works n k (IpMaster m b).
Proof.
  intros Hr (Hname & Hp & Hb). destruct (can_port_link _ _ Hp) as [l Hl].
  destruct (link_some _ _ (kind_link _ _ _ Hb)) as [br Hbr].
  pose proof (kind_found _ _ _ _ Hbr Hb) as Hkb.
  pose proof (proj1 (can_port_base _ _ _ _ Hr Hl Hp)) as Hk.
  set (k' := upd_link m (set_master (kl_index br)) k).
  assert (Et : sim_tables k' = (sim_tables k)
    <| rs_ifaces := map (on_name m (master_iface (kl_index br))) (rs_ifaces (sim_tables k)) |>)
    by by apply tables_on_name.
  assert (Hf : forall x, rs_find_iface (sim_tables k') x =
    on_name m (master_iface (kl_index br)) <$> rs_find_iface (sim_tables k) x).
  { intros x. rewrite Et, find_iface_map by by apply on_name_same. done. }
  assert (Hmem : holds (sim_tables k') (FMember m b)).
  { exists (master_iface (kl_index br) (iface_of l)), (on_name m (master_iface (kl_index br)) (iface_of br)).
    rewrite !Hf, !tables_iface, Hl, Hbr. cbn. split_and!; [|done|].
    - unfold on_name. apply find_link_in in Hl as [_ Hl].
      by rewrite (proj2 (streq_true (if_name (iface_of l)) m)).
    - unfold on_name. by destruct (streq _ _). }
  exists k'. split_and!.
  - change (link_master m b k = Some k'). unfold link_master, is_bridge. rewrite Hl, Hbr.
    cbn [mbind option_bind]. rewrite Hkb, bool_decide_true by done.
    rewrite (proj2 (streq_false m _)) by by apply ip_name_lo.
    rewrite bool_decide_true by by eapply not_below. done.
  - apply roomy_upd; [done..| |done]. intros x []. constructor; try done.
    destruct (roomy_link _ _ _ _ Hr Hbr) as ([] & _). done.
  - by constructor.
  - intros f [_ Hkeep] Hh.
    assert (Hm : (exists b', f = FMember m b') \/ forall b', f <> FMember m b').
    { destruct f; try (by right). destruct (decide (n0 = m)) as [->|]; [left; by eexists|right].
      congruence. }
    destruct Hm as [[b' ->]|Hm].
    + by rewrite <- (Hkeep eq_refl).
    + rewrite Et. apply holds_map; try by apply on_name_same.
      * intros i Hi. unfold on_name. by destruct (streq _ _).
      * intros x b' i -> Hi. unfold on_name. destruct (streq _ _) eqn:E; [|done].
        exfalso. apply (Hm b'). f_equal. apply streq_true in E. rewrite tables_iface in Hi.
        destruct (find_link k x) as [lx|] eqn:Ex; [|done]. injection Hi as <-.
        apply find_link_in in Ex as [_ <-]. done.
      * done.
Qed.

(** *** New links *)

Definition new_link (n : cstr) (link : option Z) (info : kinfo) (k : kernel) : klink :=
  KLink (new_index k) 0 n None None link (Some info).

Lemma tables_add n link info k :
  let x := new_link n link info k in
  sim_tables (add_link n link info k) =
  add_iface (iface_of x) (vlan_of x) (vxlan_of x) (sim_tables k).
Proof.
  unfold sim_tables, snapshot, add_link, add_iface. cbn [k_links k_addrs k_routes].
  fold (new_link n link info k). cbn. rewrite map_app, !omap_app. cbn.
  f_equal; f_equal; by destruct info.
Qed.

Lemma find_link_add n link info k :
  find_link k n = None ->
  find_link (add_link n link info k) n = Some (new_link n link info k).
Proof.
  intros Hn. unfold find_link in *. cbn [add_link k_links]. rewrite find_app_name, Hn. cbn.
  unfold has_name. cbn. by rewrite (proj2 (streq_true _ _)).
Qed.

Lemma add_keeps n link info k f :
  let x := new_link n link info k in
  find_link k n = None -> f <> FAbsent n ->
  (forall m l id j, f = FNoVlan m l id -> find_link k l = Some j ->
     opt_fact (fun v => ~ (vl_id v = id /\ vl_link v = kl_index j)) (vlan_of x)) ->
  (forall m vni, f = FNoVxlan m vni -> opt_fact (fun v => vxl_vni v <> vni) (vxlan_of x)) ->
  (forall m j, f = FDeletable m -> find_link k m = Some j ->
     opt_fact (fun v => vl_link v <> kl_index j) (vlan_of x) /\
     opt_fact (fun v => vxl_link v <> kl_index j) (vxlan_of x) /\ link <> Some (kl_index j)) ->
  holds (sim_tables k) f -> holds (sim_tables (add_link n link info k)) f.
Proof.
  intros x Hn Ha Hv Hx Hd. rewrite tables_add. fold x. apply holds_add; try done.
  - rewrite tables_iface. change (if_name (iface_of x)) with n. by rewrite Hn.
  - unfold opt_fact. destruct (vlan_of x) as [v|] eqn:E; [|done]. constructor; [|done].
    by apply vlan_of_name in E.
  - unfold opt_fact. destruct (vxlan_of x) as [v|] eqn:E; [|done]. constructor; [|done].
    by apply vxlan_of_name in E.
  - apply Forall_forall. intros [i a p] Hi. apply tables_addr, new_index_addr in Hi. cbn. lia.
  - intros m l id j -> Hj. rewrite tables_iface in Hj. destruct (find_link k l) as [y|] eqn:E; [|done].
    injection Hj as <-. by apply (Hv m l id y).
  - intros m j -> Hj. rewrite tables_iface in Hj. destruct (find_link k m) as [y|] eqn:E; [|done].
    injection Hj as <-. destruct (Hd m y) as (D1 & D2 & D3); [done..|]. split_and!; [done..|].
    cbn. destruct link; [|done]. cbn. congruence.
Qed.

Lemma link_add_ok n link info k :
  find_link k n = None -> ifname n -> link_add n link info k = Some (add_link n link info k).
Proof.
  intros Hf []. unfold link_add. rewrite Hf, bool_decide_true by done. done.
Qed.

Lemma no_link k n l : find_link k n = None -> l ∈ k_links k -> kl_name l = n -> False.
Proof.
  intros Hn Hl E. apply list_elem_of_In in Hl. apply (find_none _ _ Hn) in Hl.
  by apply streq_false in Hl.
Qed.

Lemma absent_link k n : holds (sim_tables k) (FAbsent n) -> find_link k n = None.
Proof. intros [E _]. rewrite tables_iface in E. by destruct (find_link k n). Qed.

Lemma spent_ne (f g : fact) (l : list fact) : cost f ∉ l -> cost g ∈ l -> f <> g.
Proof. intros Hf Hg ->. done. Qed.

(** What every new link is. *)
Lemma new_link_holds n link info k :
  find_link k n = None ->
  holds (sim_tables (add_link n link info k)) (FLink n) /\
  rs_find_iface (sim_tables (add_link n link info k)) n = Some (iface_of (new_link n link info k)).
Proof.
  intros Hn. assert (E : rs_find_iface (sim_tables (add_link n link info k)) n =
    Some (iface_of (new_link n link info k))) by by rewrite tables_iface, find_link_add.
  split; [|done]. by eexists.
Qed.

Lemma works_add_bridge n k m :
  sim_roomy (S n) k -> ip_pre (IpAddBridge m) (sim_tables k) -> works n k (IpAddBridge m).
Proof.
  intros Hr [Hi%ip_name_ifname Ha]. apply absent_link in Ha. set (info := KKind (#"bridge")).
  destruct (new_link_holds m None info k Ha) as [Hl Hf].
  exists (add_link m None info k). split_and!.
  - change (link_add m None info k = Some (add_link m None info k)). by apply link_add_ok.
  - apply roomy_add; try done. cbn. split_and!; [compute_decide..|done|done].
  - constructor; [done|]. constructor; [|done]. eexists. split; [exact Hf|done].
  - intros f [Hs _]. apply add_keeps; [done| |by intros; constructor..|
      intros; split_and!; [by constructor..|done]].
    eapply spent_ne; [exact Hs|]. cbn. set_solver.
Qed.

Lemma existsb_forall {A} (p : A -> bool) l : Forall (fun x => p x = false) l -> existsb p l = false.
Proof. induction 1 as [|x l Hx _ IH]; [done|]. cbn. by rewrite Hx. Qed.

Lemma number_fmt v : (0 <= v <= UINT32_MAX)%Z -> number (fmt_u v) = Some v.
Proof. intros Hv. unfold number. by rewrite strtoul0_fmt. Qed.

Lemma works_add_vlan n k link m id :
  sim_roomy (S n) k -> ip_pre (IpAddVlan link m id) (sim_tables k) ->
  works n k (IpAddVlan link m id).
Proof.
  intros Hr (Hi%ip_name_ifname & Hid & Hlk & Ha & Hno). apply absent_link in Ha.
  destruct (link_some _ _ (of_kind_link _ _ _ Hlk)) as [l Hl]. set (info := KVlan (Some id)).
  assert (Hke : kind_of l ∈ ethernet_kinds).
  { apply (can_port_base _ _ _ _ Hr Hl). by left. }
  destruct (new_link_holds m (Some (kl_index l)) info k Ha) as [Hml Hf].
  set (k' := add_link m (Some (kl_index l)) info k) in *.
  assert (Hd : NoDup (map kl_name (k_links k'))).
  { apply (sr_names n). apply roomy_add; try done.
    - destruct (roomy_link _ _ _ _ Hr Hl) as ([] & _). done.
    - cbn. unfold is_u16. lia. }
  exists k'. split_and!.
  - change (vlan_add link m (fmt_u id) k = Some k'). unfold vlan_add. rewrite Hl.
    rewrite number_fmt by (unfold UINT32_MAX; lia). cbn [mbind option_bind].
    rewrite !(proj2 (Z.leb_le _ _)) by lia. rewrite (proj2 (streq_false _ _)) by apply Hlk.
    rewrite bool_decide_true by done. rewrite existsb_forall; [by apply link_add_ok|].
    destruct Hno as (j & Hj & Hv). rewrite tables_iface, Hl in Hj. injection Hj as <-.
    apply Forall_forall. intros x Hx. unfold vlan_clash. destruct (vlan_of x) as [v|] eqn:Ev; [|done].
    rewrite Forall_forall in Hv. apply andb_false_iff. rewrite !Z.eqb_neq.
    assert (v ∈ rs_vlan (sim_tables k)) as Hin by (apply list_elem_of_omap; by exists x).
    destruct (Hv v Hin) as [Hn|Hn]; [|cbn in Hn; lia]. exfalso. rewrite (vlan_of_name _ _ Ev) in Hn.
    by apply (no_link k m x).
  - apply roomy_add; try done.
    + destruct (roomy_link _ _ _ _ Hr Hl) as ([] & _). done.
    + cbn. unfold is_u16. lia.
  - constructor; [done|]. constructor; [|constructor; [|done]].
    + eexists. split; [exact Hf|done].
    + eexists _, (iface_of l). rewrite tables_vlan by done. unfold k' at 1.
      rewrite find_link_add by done. split_and!; [done..| |done|done].
      rewrite tables_iface. unfold find_link in *. unfold k'. cbn [add_link k_links].
      rewrite find_app_name, Hl. done.
  - intros f [Hs _]. apply add_keeps; [done| | |intros; constructor|].
    + eapply spent_ne; [exact Hs|]. cbn. set_solver.
    + intros m' l' id' j -> Hj. constructor; [|done]. cbn. intros [-> E].
      assert (l' = link) as -> by (eapply index_inj; [apply (sr_index _ _ Hr)|done..]).
      apply Hs. cbn. set_solver.
    + intros m' j -> Hj. assert (Hne : kl_index l <> kl_index j); [|split_and!; [|by constructor|congruence]].
      { intros E. assert (m' = link) as -> by (eapply index_inj; [apply (sr_index _ _ Hr)|done..]).
        apply Hs. cbn. set_solver. }
      constructor; [|done]. done.
Qed.

Lemma le32_range a b c d : (0 <= a <= 255)%Z -> (0 <= b <= 255)%Z -> (0 <= c <= 255)%Z ->
  (0 <= d <= 255)%Z -> is_u32 (le32 a b c d).
Proof. unfold is_u32, UINT32_MAX, le32. lia. Qed.

Lemma pton_octet_range s v r : pton_octet s = Some (v, r) -> (0 <= v <= 255)%Z.
Proof.
  unfold pton_octet. destruct (take_while _ _) as [|d ds]; [done|]. destruct (_ && _); [done|].
  destruct (Z.gtb_spec (digits_val 10 (d :: ds)) 255); [done|]. intros [= <- <-].
  split; [by apply digits_val_nonneg|lia].
Qed.

Lemma inet_pton_range s a : inet_pton s = Some a -> is_u32 a.
Proof.
  unfold inet_pton. intros E.
  repeat match type of E with
  | context [pton_octet ?t] =>
    let Eo := fresh "Eo" in
    destruct (pton_octet t) as [[? ?]|] eqn:Eo; [|done]; cbn [mbind option_bind] in E;
    apply pton_octet_range in Eo
  | context [eat ?c ?t] => destruct (eat c t); [|done]; cbn [mbind option_bind] in E
  end.
  match type of E with match ?r with _ => _ end = _ => destruct r; [|done] end.
  injection E as <-. by apply le32_range.
Qed.

Lemma host_addr_unicast a : unicast a -> host_addr a = true.
Proof. unfold unicast, host_addr. lia. Qed.

Lemma works_add_vxlan n k m vni t r dev :
  sim_roomy (S n) k -> ip_pre (IpAddVxlan m vni t r dev) (sim_tables k) ->
  works n k (IpAddVxlan m vni t r dev).
Proof.
  intros Hr (Hi%ip_name_ifname & Hid & Ht & Hu & Hdev & Ha & Hno). apply absent_link in Ha.
  assert (exists link, opt_ok is_index link /\
    (match (if bool_decide (dev = []) then None else Some dev) with
     | Some d => (fun l => Some (kl_index l)) <$> find_link k d | None => Some None end) = Some link /\
    (dev <> [] -> exists l, find_link k dev = Some l /\ link = Some (kl_index l)))
    as (link & Hlf & El & Hld).
  { case_bool_decide as Ed; [by exists None|]. 
    destruct (link_some _ _ (of_kind_link _ _ _ (Hdev Ed))) as [l Hl].
    exists (Some (kl_index l)). rewrite Hl. destruct (roomy_link _ _ _ _ Hr Hl) as ([] & _).
    split_and!; [done..|]. intros _. by exists l. }
  set (info := KVxlan (Some vni) (Some r) link).
  assert (Hvni : is_u32 vni) by (unfold is_u32, UINT32_MAX; lia).
  destruct (new_link_holds m link info k Ha) as [Hml Hf]. set (k' := add_link m link info k) in *.
  assert (Hr' : sim_roomy n k').
  { apply roomy_add; try done. cbn. split_and!; [done|by eapply inet_pton_range|done]. }
  exists k'. split_and!; [|done| |].
  - assert (E : @ip_exec glibc (argv_of (IpAddVxlan m vni t r dev)) k =
      vxlan_add m (fmt_u vni) t (if bool_decide (dev = []) then None else Some dev) k).
    { cbn [argv_of]. case_bool_decide; done. }
    rewrite E. unfold vxlan_add. rewrite number_fmt by done. rewrite Ht. cbn [mbind option_bind].
    rewrite El. cbn [mbind option_bind]. rewrite (proj2 (Z.ltb_lt _ _)) by lia.
    rewrite host_addr_unicast by done.
    rewrite existsb_forall; [by apply link_add_ok|].
    apply Forall_forall. intros x Hx. unfold vxlan_clash. destruct (vxlan_of x) as [v|] eqn:Ev; [|done].
    cbn in Hno. rewrite Forall_forall in Hno. apply Z.eqb_neq.
    destruct (Hno v) as [Hn|]; [apply list_elem_of_omap; by exists x| |done].
    exfalso. rewrite (vxlan_of_name _ _ Ev) in Hn. by apply (no_link k m x).
  - assert (Hv : rs_find_vxlan (sim_tables k') m =
      Some (Vxlan m (new_index k) vni true r true (default 0%Z link) (has link))).
    { rewrite tables_vxlan by apply (sr_names _ _ Hr'). unfold k'. by rewrite find_link_add. }
    constructor; [done|]. constructor; [|constructor].
    + eexists. split; [exact Hf|done].
    + eexists. split; [exact Hv|]. split_and!; [done..|]. intros Hd.
      destruct (Hld Hd) as (l & Hl & ->). exists (iface_of l). split_and!; [|done..].
      rewrite tables_iface. unfold find_link in *. unfold k'. cbn [add_link k_links].
      by rewrite find_app_name, Hl.
    + case_bool_decide as Ed; [|done]. constructor; [|done]. eexists. split; [exact Hv|].
      cbn. by injection El as <-.
  - intros f [Hs _]. apply add_keeps; [done| |intros; constructor| |].
    + eapply spent_ne; [exact Hs|]. cbn. set_solver.
    + intros m' vni' ->. constructor; [|done]. cbn. intros ->. apply Hs. cbn. set_solver.
    + intros m' j -> Hj. destruct (roomy_link _ _ _ _ Hr Hj) as (_ & Hpos & _).
      destruct (decide (dev = [])) as [->|Hd]; [|destruct (Hld Hd) as (l & Hl & ->)].
      * rewrite bool_decide_true in El by done. injection El as <-.
        split_and!; [by constructor| |done]. constructor; [|done]. cbn. lia.
      * assert (kl_index l <> kl_index j) as Hne.
        { intros E. assert (m' = dev) as -> by (eapply index_inj; [apply (sr_index _ _ Hr)|done..]).
          apply Hs. cbn. set_solver. }
        split_and!; [by constructor| |congruence]. by constructor.
Qed.

(** *** Addresses and routes *)

Lemma prefix_range t a p : prefix_text t a p -> is_u32 a /\ is_u8 p.
Proof.
  intros (Hp & x & Hx & _). split; [by eapply inet_pton_range|]. unfold is_u8. lia.
Qed.

(** A new address, and the route that comes with it. *)
Lemma tables_addr_put l a p k :
  sim_tables (addr_put l a p k) =
  ((sim_tables k) <| rs_addr4 ::= (fun x => x ++ [Addr4 (kl_index l) a p]) |>)
    <| rs_route4 := rs_route4 (sim_tables k) ++ omap route_of (net_route l a p k) |>.
Proof. unfold sim_tables, snapshot. cbn. by rewrite !omap_app. Qed.

Lemma addr_put_keeps n k m l t a p conn f :
  sim_roomy (S n) k -> find_link k m = Some l -> ip_keeps (IpAddr t a p m conn) f ->
  holds (sim_tables k) f -> holds (sim_tables (addr_put l a p k)) f.
Proof.
  intros Hr Hl [Hs _] Hf. rewrite tables_addr_put.
  assert (Hm : forall x j, rs_find_iface (sim_tables k) x = Some j -> if_ifindex j = kl_index l ->
    x = m).
  { intros x j Hj Ei. apply iface_link in Hj as (y & Hy & ->).
    eapply index_inj; [apply (sr_index _ _ Hr)|done..]. }
  set (rs1 := (sim_tables k) <| rs_addr4 ::= _ |>). apply holds_routes.
  - intros d q dev gw i -> _ (Hi & x & Hx & R). split; [done|]. exists x.
    split; [|done]. apply elem_of_app. by left.
  - intros g q -> Hh. apply Forall_app. split; [exact Hh|]. unfold net_route.
    case_match; [|done]. by constructor.
  - apply holds_addr; [| |intros x j -> Hj Ei|done].
    + intros x j Hj Ei. rewrite (Hm x j) by done. cbn [ip_spends] in Hs.
      split; (eapply spent_ne; [exact Hs|]; cbn; set_solver).
    + intros g Hg. eapply spent_ne; [exact Hs|]. cbn [ip_spends cost]. apply elem_of_app. right.
      by apply list_elem_of_In, in_map, list_elem_of_In.
    + rewrite (Hm x j) in Hs by done. apply Hs. cbn. set_solver.
Qed.

Lemma works_addr n k t a p m conn :
  sim_roomy (S n) k -> ip_pre (IpAddr t a p m conn) (sim_tables k) ->
  works n k (IpAddr t a p m conn).
Proof.
  intros Hr (Ht & Hun & Hlk & Hno & Hconn). destruct (link_some _ _ Hlk) as [l Hl].
  pose proof (prefix_range _ _ _ Ht) as [Ha Hp].
  assert (Hfi : rs_find_iface (sim_tables k) m = Some (iface_of l)) by by rewrite tables_iface, Hl.
  destruct (roomy_link _ _ _ _ Hr Hl) as (_ & Hpos & _).
  pose proof (find_link_in _ _ _ Hl) as [Hin Hname].
  exists (addr_put l a p k). split_and!.
  - change (@addr_add glibc t m k = Some (addr_put l a p k)). unfold addr_add. rewrite Hl.
    cbn [mbind option_bind]. rewrite (@parse_prefix_text glibc _ _ _ Ht).
    rewrite host_addr_unicast by done. rewrite existsb_forall; [done|].
    apply Forall_forall. intros [i' p' a'|] Hx; [|done]. cbn.
    destruct (Z.eqb_spec (kl_index l) i') as [<-|]; [|done].
    destruct (Z.eqb_spec p p') as [<-|]; [|done]. destruct (Z.eqb_spec a a') as [<-|]; [|done].
    exfalso. by apply (Hno _ Hfi), tables_addr.
  - by apply roomy_addr.
  - constructor.
    + exists (iface_of l). rewrite tables_addr_put. split; [done|].
      apply elem_of_app. right. by apply list_elem_of_singleton.
    + destruct conn; [|done]. destruct (Hconn eq_refl) as (Hlo & Hpr & (i & Hi & Hup) & Hnet).
      rewrite Hfi in Hi. injection Hi as <-. unfold if_up in Hup. cbn [iface_of if_flags] in Hup.
      rewrite Z.bit0_odd in Hup. constructor; [|done]. exists (iface_of l). rewrite tables_addr_put.
      split; [done|]. split; [done|].
      exists (Route4 (net_of a p) p 0 false (kl_index l)). split_and!; try done.
      apply elem_of_app. right. unfold net_route. rewrite Hup, Hname.
      rewrite (proj2 (streq_false _ _)) by done. rewrite (proj2 (Z.ltb_lt _ _)) by lia.
      rewrite existsb_forall; [by left|]. apply Forall_forall. intros [i' p' a'|] Hx; [|done]. cbn.
      destruct (Z.eqb_spec (kl_index l) i') as [<-|]; [|done].
      destruct (Z.eqb_spec p p') as [<-|]; [|done]. cbn. apply Z.eqb_neq. intros E.
      specialize (Hnet _ Hfi). rewrite Forall_forall in Hnet.
      by apply (Hnet (Addr4 (kl_index l) a' p)); [apply tables_addr|..].
  - intros f. by apply (addr_put_keeps n).
Qed.

Lemma leads_true g x : leads g x = true <-> same_net (r4_dst x) g (r4_prefix x).
Proof. apply Z.eqb_eq. Qed.

Lemma gateway_ok_pre k l via dev :
  find_link k dev = Some l ->
  match via with
  | None => True
  | Some (t, g) => inet_pton t = Some g /\ can_gateway (holds (sim_tables k)) dev g
  end -> gateway_ok (kl_index l) (snd <$> via) k = true.
Proof.
  intros Hl. destruct via as [[t g]|]; [|done].
  intros (_ & Hu & Hf & d & q & _ & Hn & (i & Hi & _ & x & Hx & Ho & <- & <- & Hg) & Hh).
  cbn. rewrite tables_iface, Hl in Hi. injection Hi as <-.
  rewrite host_addr_unicast by done. cbn [andb]. apply andb_true_iff. split.
  - apply existsb_elem. exists x. split; [exact Hx|]. unfold direct.
    rewrite Ho, Z.eqb_refl, (proj2 (leads_true _ _) Hn). unfold route_gw in Hg.
    destruct (r4_has_gw x) eqn:Eg; [done|]. cbn [negb andb]. apply negb_true_iff, existsb_forall.
    eapply Forall_impl; [exact Hh|]. intros y Hy. cbn in Hy. unfold behind.
    destruct (r4_has_gw y); [|done]. destruct (Z.leb_spec (r4_prefix x) (r4_prefix y)); [|done].
    cbn [andb]. apply not_true_iff_false. rewrite leads_true. by apply Hy.
  - apply negb_true_iff, existsb_forall, Forall_forall. intros [i' p' a'|] Hy; [|done]. cbn.
    apply bool_decide_eq_false. cbn in Hf. rewrite Forall_forall in Hf.
    by apply (Hf (Addr4 i' a' p')), tables_addr.
Qed.

(** A route to another destination stays. *)
Lemma route_put_keeps k dst p gw i d q dev j g :
  rs_find_iface (sim_tables k) dev = Some j -> (dst = d -> p = q -> False) ->
  has_route (sim_tables k) d q j g -> has_route (sim_tables (route_put dst p gw i k)) d q j g.
Proof.
  intros _ Hne (Hj & r & Hr & Ho & Hq & Hd & Hg). split; [done|]. exists r. split_and!; [|done..].
  change (r ∈ omap route_of (k_routes k)) in Hr. apply list_elem_of_omap in Hr as (y & Hy & Ey).
  change (r ∈ omap route_of (k_routes (route_put dst p gw i k))). apply list_elem_of_omap.
  exists y. split; [|done]. apply elem_of_app. left. apply list_elem_of_In, filter_In.
  split; [by apply list_elem_of_In|]. apply negb_true_iff.
  destruct y as [ty tb pr ds gg oi|]; [|done]. unfold route_of in Ey.
  destruct (_ && _); [|done]. injection Ey as <-. cbn in Hq, Hd. cbn.
  apply andb_false_iff. destruct (Z.eqb_spec p pr) as [->|]; [|left; by rewrite andb_false_r].
  right. apply Z.eqb_neq. intros ->. apply Hne; congruence.
Qed.

(** Nor does a gateway come before another that it does not lead to. *)
Lemma route_put_hop k dst p gw i a q :
  match gw with Some _ => (p < q)%Z \/ ~ same_net dst a p | None => True end ->
  holds (sim_tables k) (FNoHop a q) -> holds (sim_tables (route_put dst p gw i k)) (FNoHop a q).
Proof.
  intros Hg Hh. cbn in *.
  change (rs_route4 (sim_tables k)) with (omap route_of (k_routes k)) in Hh.
  change (rs_route4 (sim_tables (route_put dst p gw i k))) with
    (omap route_of (k_routes (route_put dst p gw i k))).
  rewrite Forall_forall in Hh |- *. intros x Hx. apply list_elem_of_omap in Hx as (y & Hy & Ey).
  cbn [route_put k_routes] in Hy. apply elem_of_app in Hy as [Hy|Hy].
  - apply Hh. apply list_elem_of_omap. exists y. split; [|done].
    by apply list_elem_of_In, filter_In in Hy as [Hy%list_elem_of_In _].
  - apply list_elem_of_singleton in Hy. subst y. cbn in Ey. injection Ey as <-. cbn.
    destruct gw; [|done]. intros _ Hq. destruct Hg; [lia|done].
Qed.

Lemma route_put_holds n k t dst p via dev l f :
  let gw := snd <$> via in
  holds (sim_tables (route_put dst p gw (kl_index l) k)) (FRoute dst p dev gw) ->
  sim_roomy (S n) k -> ip_keeps (IpRoute t dst p via dev) f -> holds (sim_tables k) f ->
  holds (sim_tables (route_put dst p gw (kl_index l) k)) f.
Proof.
  intros gw Hroute Hr [_ Hk] Hf. set (k' := route_put dst p gw (kl_index l) k) in *.
  assert (Et : sim_tables k' = (sim_tables k) <| rs_route4 := rs_route4 (sim_tables k') |>) by done.
  assert (Hc : f = FRoute dst p dev gw \/
    forall d q dv g, f = FRoute d q dv g -> dst = d -> p = q -> False).
  { destruct f as [| | | | | |d q dv g| | | | | | | | | | | |]; try (by right).
    destruct (decide (dst = d)) as [->|]; [|right; congruence].
    destruct (decide (p = q)) as [->|]; [|right; congruence].
    left. unfold gw in *. destruct via; destruct (Hk eq_refl eq_refl) as [-> <-]; done. }
  destruct Hc as [->|Hc]; [done|]. rewrite Et. apply holds_routes; [..|done].
  - intros d q dv g j -> Hj. rewrite <- Et. apply (route_put_keeps k dst p gw _ d q dv); [done|].
    by apply (Hc d q dv g).
  - intros a q -> Hh. rewrite <- Et. apply route_put_hop; [|done]. unfold gw. by destruct via.
Qed.

Lemma works_route n k t dst p via dev :
  sim_roomy (S n) k -> ip_pre (IpRoute t dst p via dev) (sim_tables k) ->
  works n k (IpRoute t dst p via dev).
Proof.
  intros Hr (Ht & Hun & Hz & Hlo & Hu & Hv). destruct (link_some _ _ (up_link _ _ Hu)) as [l Hl].
  pose proof (prefix_range _ _ _ Ht) as [Ha Hp].
  destruct (roomy_link _ _ _ _ Hr Hl) as (_ & Hpos & _).
  assert (Hfi : rs_find_iface (sim_tables k) dev = Some (iface_of l)) by by rewrite tables_iface, Hl.
  destruct Hu as (i & Hi & Hup). rewrite Hfi in Hi. injection Hi as <-.
  set (gw := snd <$> via). set (k' := route_put dst p gw (kl_index l) k).
  assert (Hroute : holds (sim_tables k') (FRoute dst p dev gw)).
  { exists (iface_of l). split; [done|]. split; [done|].
    exists (Route4 dst p (default 0%Z gw) (has gw) (kl_index l)). split_and!; [|done..|].
    - change (rs_route4 (sim_tables k')) with (omap route_of (k_routes k')). apply list_elem_of_omap.
      eexists. split; [apply elem_of_app; right; by apply list_elem_of_singleton|]. done.
    - by destruct gw. }
  exists k'. split_and!.
  - assert (E : @ip_exec glibc (argv_of (IpRoute t dst p via dev)) k =
      @route_replace glibc t (fst <$> via) dev k) by by destruct via as [[]|].
    rewrite E. unfold route_replace. rewrite Hl. cbn [mbind option_bind].
    rewrite (@parse_prefix_text glibc _ _ _ Ht).
    assert (Eg : match fst <$> via with Some t => Some <$> inet_pton t | None => Some None end = Some gw).
    { unfold gw. destruct via as [[x g]|]; [|done]. cbn. by rewrite (proj1 Hv). }
    rewrite Eg. cbn [mbind option_bind]. unfold if_up in Hup. cbn [iface_of if_flags] in Hup.
    rewrite Z.bit0_odd in Hup. rewrite Hup, (proj2 (Z.eqb_eq _ _) Hz).
    rewrite (proj2 (streq_false _ _)) by done.
    assert (host_addr dst || (dst =? 0)%Z && (p =? 0)%Z = true) as ->.
    { destruct Hun as [[-> ->]|Hun]; [apply orb_true_r|by rewrite host_addr_unicast]. }
    pose proof (gateway_ok_pre k l via dev Hl Hv) as Hg. fold gw in Hg. by rewrite Hg.
  - apply (roomy_route n k l); [by apply find_link_in in Hl as []|done..| |done].
    unfold gw. destruct via as [[x g]|]; [|done]. cbn. by eapply inet_pton_range, Hv.
  - by constructor.
  - intros f. by apply (route_put_holds n k t).
Qed.

(** *** Deleted links *)

Lemma find_filter {A} (p q : A -> bool) l x :
  find p l = Some x -> q x = true -> find p (List.filter q l) = Some x.
Proof.
  intros Hx Hq. induction l as [|y l IH]; [done|]. cbn in *. destruct (p y) eqn:Ep.
  - injection Hx as ->. rewrite Hq. cbn. by rewrite Ep.
  - destruct (q y); [cbn; rewrite Ep|]; by apply IH.
Qed.

Lemma elem_of_lfilter {A} (q : A -> bool) l x : x ∈ List.filter q l <-> x ∈ l /\ q x = true.
Proof. by rewrite !list_elem_of_In, filter_In. Qed.

Lemma NoDup_map_filter {A B} (f : A -> B) (q : A -> bool) l :
  NoDup (map f l) -> NoDup (map f (List.filter q l)).
Proof.
  induction l as [|x l IH]; intros Hd; [done|]. cbn in *. apply NoDup_cons in Hd as [Hx Hd].
  specialize (IH Hd). destruct (q x); [|done]. cbn. constructor; [|done]. intros Hin. apply Hx.
  apply list_elem_of_In, in_map_iff in Hin as (y & <- & [Hy _]%filter_In).
  by apply list_elem_of_In, in_map.
Qed.

Section Deleted.
Context (k : kernel) (n : cstr) (l : klink).
Hypothesis names_nodup : NoDup (map kl_name (k_links k)).
Hypothesis index_nodup : NoDup (map kl_index (k_links k)).
Hypothesis found : find_link k n = Some l.

Let i := kl_index l.
Let k' := drop_links [i] k.

(** The same for the program's records. *)
Definition free_iface (x : iface) : iface :=
  master_iface (if (if_master x =? i)%Z then 0%Z else if_master x) x.

Lemma free_port_iface x : iface_of (free_port [i] x) = free_iface (iface_of x).
Proof.
  unfold iface_of, free_port, free_iface, master_iface. cbn. f_equal.
  destruct (kl_master x) as [m|]; cbn.
  - destruct (Z.eqb_spec m i) as [->|Hm]; [by rewrite bool_decide_true by set_solver|].
    by rewrite bool_decide_false by set_solver.
  - by destruct i.
Qed.

Lemma in_gone x : index_in [i] (Some x) = (x =? i)%Z.
Proof.
  cbn. destruct (Z.eqb_spec x i) as [->|Hx]; [by rewrite bool_decide_true by set_solver|].
  by rewrite bool_decide_false by set_solver.
Qed.

(** Names and indices are unique. *)
Lemma other_index m x : m <> n -> find_link k m = Some x -> kl_index x <> i.
Proof. intros Hm Hx E. apply Hm. by eapply index_inj. Qed.

Lemma find_deleted m : m <> n -> find_link k' m = free_port [i] <$> find_link k m.
Proof.
  intros Hm. unfold find_link. cbn [k' drop_links k_links]. rewrite find_map_name by done.
  f_equal. destruct (find (has_name m) (k_links k)) as [x|] eqn:Ex.
  - apply find_filter; [done|]. rewrite in_gone. apply negb_true_iff, Z.eqb_neq.
    by apply (other_index m).
  - destruct (find _ (List.filter _ _)) as [y|] eqn:Ey; [|done].
    apply find_some in Ey as [[Hy _]%filter_In Ey]. by rewrite (find_none _ _ Ex y Hy) in Ey.
Qed.

Lemma find_gone : find_link k' n = None.
Proof.
  unfold find_link. cbn [k' drop_links k_links]. rewrite find_map_name by done.
  destruct (find _ (List.filter _ _)) as [y|] eqn:Ey; [|done]. exfalso.
  apply find_some in Ey as [[Hy Hq]%filter_In Ey%streq_true].
  rewrite in_gone in Hq. apply negb_true_iff, Z.eqb_neq in Hq. apply Hq.
  apply find_link_in in found as [Hl El]. apply list_elem_of_In in Hy.
  apply list_elem_of_lookup in Hl as [a Ha]. apply list_elem_of_lookup in Hy as [b Hb].
  assert (a = b) as ->; [|by rewrite Ha in Hb; injection Hb as ->].
  eapply NoDup_lookup; [exact names_nodup| |]; rewrite list_lookup_fmap.
  - by rewrite Ha.
  - rewrite Hb. cbn. by rewrite Ey, El.
Qed.

Lemma deleted_names : NoDup (map kl_name (k_links k')).
Proof.
  cbn [k' drop_links k_links]. rewrite map_map. exact (NoDup_map_filter kl_name _ _ names_nodup).
Qed.

(** Nothing new appears. *)
Lemma deleted_addr x : x ∈ rs_addr4 (sim_tables k') ->
  x ∈ rs_addr4 (sim_tables k) /\ a4_ifindex x <> i.
Proof.
  change (rs_addr4 (sim_tables k')) with (omap addr_of (k_addrs k')).
  change (rs_addr4 (sim_tables k)) with (omap addr_of (k_addrs k)).
  rewrite !list_elem_of_omap. intros (y & [Hy Hq]%elem_of_lfilter & E).
  split; [by exists y|]. destruct y as [j p a|]; [|done]. injection E as <-.
  rewrite in_gone in Hq. by apply negb_true_iff, Z.eqb_neq in Hq.
Qed.

Lemma kept_addr x : x ∈ rs_addr4 (sim_tables k) -> a4_ifindex x <> i ->
  x ∈ rs_addr4 (sim_tables k').
Proof.
  change (rs_addr4 (sim_tables k')) with (omap addr_of (k_addrs k')).
  change (rs_addr4 (sim_tables k)) with (omap addr_of (k_addrs k)).
  rewrite !list_elem_of_omap. intros (y & Hy & E) Hx. exists y. split; [|done].
  apply elem_of_lfilter. split; [done|]. destruct y as [j p a|]; [|done]. injection E as <-.
  rewrite in_gone. by apply negb_true_iff, Z.eqb_neq.
Qed.

Lemma deleted_route r : r ∈ rs_route4 (sim_tables k') -> r ∈ rs_route4 (sim_tables k).
Proof.
  change (rs_route4 (sim_tables k')) with (omap route_of (k_routes k')).
  change (rs_route4 (sim_tables k)) with (omap route_of (k_routes k)).
  rewrite !list_elem_of_omap. intros (y & [Hy _]%elem_of_lfilter & E). by exists y.
Qed.

Lemma kept_route r : r ∈ rs_route4 (sim_tables k) -> r4_oif r <> i ->
  r ∈ rs_route4 (sim_tables k').
Proof.
  change (rs_route4 (sim_tables k')) with (omap route_of (k_routes k')).
  change (rs_route4 (sim_tables k)) with (omap route_of (k_routes k)).
  rewrite !list_elem_of_omap. intros (y & Hy & E) Hr. exists y. split; [|done].
  apply elem_of_lfilter. split; [done|]. destruct y as [ty tb p d g oif|]; [|done].
  cbn in E. destruct (_ && _); [|done]. injection E as <-.
  destruct oif as [o|]; [|done]. cbn [route_oif]. rewrite in_gone. by apply negb_true_iff, Z.eqb_neq.
Qed.

Lemma deleted_links {A} (f : klink -> option A) x :
  (forall y, f (free_port [i] y) = f y) -> x ∈ omap f (k_links k') -> x ∈ omap f (k_links k).
Proof.
  intros Hf. cbn [k' drop_links k_links]. rewrite omap_map, !list_elem_of_omap.
  intros (y & [Hy _]%elem_of_lfilter & E). exists y. by rewrite Hf in E.
Qed.

Lemma deleted_vlan v : v ∈ rs_vlan (sim_tables k') -> v ∈ rs_vlan (sim_tables k).
Proof. by apply (deleted_links vlan_of). Qed.

Lemma deleted_vxlan v : v ∈ rs_vxlan (sim_tables k') -> v ∈ rs_vxlan (sim_tables k).
Proof. by apply (deleted_links vxlan_of). Qed.

Lemma deleted_iface m x : m <> n -> rs_find_iface (sim_tables k) m = Some x ->
  rs_find_iface (sim_tables k') m = Some (free_iface x) /\ if_ifindex x <> i.
Proof.
  intros Hm Hx. rewrite tables_iface in Hx |- *. rewrite find_deleted by done.
  destruct (find_link k m) as [y|] eqn:Ey; [|done]. injection Hx as <-. cbn.
  by rewrite free_port_iface; split; [|apply (other_index m)].
Qed.

Lemma deleted_found m j : rs_find_iface (sim_tables k') m = Some j ->
  exists j0, rs_find_iface (sim_tables k) m = Some j0 /\ free_iface j0 = j.
Proof.
  intros E. destruct (decide (m = n)) as [->|Hne].
  { rewrite tables_iface, find_gone in E. done. }
  rewrite tables_iface, find_deleted in E by done. rewrite tables_iface.
  destruct (find_link k m) as [y|]; [|done]. injection E as <-. exists (iface_of y).
  by rewrite free_port_iface.
Qed.

Lemma deleted_find_vlan m : m <> n -> rs_find_vlan (sim_tables k') m = rs_find_vlan (sim_tables k) m.
Proof.
  intros Hm. rewrite !tables_vlan by (done || apply deleted_names). rewrite find_deleted by done.
  by destruct (find_link k m).
Qed.

Lemma deleted_find_vxlan m :
  m <> n -> rs_find_vxlan (sim_tables k') m = rs_find_vxlan (sim_tables k) m.
Proof.
  intros Hm. rewrite !tables_vxlan by (done || apply deleted_names). rewrite find_deleted by done.
  by destruct (find_link k m).
Qed.

Lemma deleted_absent : holds (sim_tables k') (FAbsent n).
Proof.
  cbn [holds]. rewrite tables_iface, tables_vlan, tables_vxlan, find_gone by apply deleted_names.
  done.
Qed.

Lemma Forall_sub {A} (P : A -> Prop) (l1 l2 : list A) :
  (forall x, x ∈ l1 -> x ∈ l2) -> Forall P l2 -> Forall P l1.
Proof. rewrite !Forall_forall. auto. Qed.

(** None of the names is that of the deleted link. *)
Ltac not_deleted := repeat match goal with
  | H : n ∉ _ :: _ |- _ => rewrite elem_of_cons in H; apply Decidable.not_or in H as [? H] end.

Lemma lasting_deleted f :
  transient f = false -> n ∉ names f -> holds (sim_tables k) f -> holds (sim_tables k') f.
Proof.
  destruct f as
    [m|m|m kd|m b|m a p|m|d p dev gw|a|m id x|m vni r dev|m|m|m a p|m d p|a|a q|m x id|m vni|m];
    cbn [names transient]; intros Ht Hm; try discriminate Ht; not_deleted; cbn [holds]; try done.
  - intros [j E]. apply deleted_iface in E as [E _]; [|done]. by eexists.
  - intros (j & E & U). apply deleted_iface in E as [E _]; [|done]. by eexists.
  - intros (j & E & K). apply deleted_iface in E as [E _]; [|done]. by eexists.
  - intros (j & q & E & E' & M). apply deleted_iface in E as [E _]; [|done].
    apply deleted_iface in E' as [E' Hi]; [|done]. exists (free_iface j), (free_iface q).
    split_and!; [done..|]. unfold free_iface. cbn. rewrite M, (proj2 (Z.eqb_neq _ _) Hi). done.
  - intros (j & E & A). apply deleted_iface in E as [E Hi]; [|done]. exists (free_iface j).
    split; [done|]. by apply kept_addr.
  - intros (j & x & E & A & X). apply deleted_iface in E as [E Hi]; [|done].
    exists (free_iface j), x. split_and!; [done| |done]. apply kept_addr; [done|congruence].
  - intros (j & E & Hp & r & Hr & Ho & R). apply deleted_iface in E as [E Hi]; [|done].
    exists (free_iface j). split; [done|]. split; [done|]. exists r.
    split_and!; [apply kept_route; [done|congruence]|done|apply R..].
  - intros (v & j & E1 & E2 & E3 & E4 & E5 & E6). apply deleted_iface in E4 as [E4 _]; [|done].
    exists v, (free_iface j). rewrite deleted_find_vlan by done. done.
  - intros (v & E1 & E2 & E3 & E4 & E5 & E6). exists v. rewrite deleted_find_vxlan by done.
    split_and!; [done..|]. intros Hne. destruct (E6 Hne) as (j & E7 & E8 & E9).
    apply deleted_iface in E7 as [E7 _]; [|done]. by exists (free_iface j).
  - intros (v & E & Hl). exists v. by rewrite deleted_find_vxlan.
  - apply Forall_sub, deleted_route.
Qed.

Lemma transient_deleted f :
  transient f = true -> n ∉ names f -> f <> FDeletable n ->
  holds (sim_tables k) f -> holds (sim_tables k') f.
Proof.
  destruct f as
    [m|m|m kd|m b|m a p|m|d p dev gw|a|m id x|m vni r dev|m|m|m a p|m d p|a|a q|m x id|m vni|m];
    cbn [names transient]; intros Ht Hm Hd; try discriminate Ht; not_deleted; cbn [holds]; try done.
  - intros A. destruct (decide (m = n)) as [->|Hne]; [apply deleted_absent|].
    rewrite deleted_find_vlan, deleted_find_vxlan by done. destruct A as (A & V & X).
    split_and!; [|done..]. rewrite tables_iface in A |- *. rewrite find_deleted by done.
    by destruct (find_link k m).
  - intros A j (j0 & E0 & <-)%deleted_found Hin. apply deleted_addr in Hin as [Hin _].
    by apply (A j0).
  - intros A j (j0 & E0 & <-)%deleted_found. specialize (A j0 E0). revert A. apply Forall_sub.
    intros x Hx. by apply deleted_addr in Hx as [? _].
  - apply Forall_sub. intros x Hx. by apply deleted_addr in Hx as [? _].
  - intros (j & E & V). apply deleted_iface in E as [E _]; [|done]. exists (free_iface j).
    split; [done|]. revert V. apply Forall_sub, deleted_vlan.
  - apply Forall_sub, deleted_vxlan.
  - intros (j & E & K & B1 & B2 & B3 & B4). apply deleted_iface in E as [E _]; [|congruence].
    exists (free_iface j). split_and!; [done..|]. split_and!.
    + revert B1. apply Forall_sub. intros x Hx. by apply deleted_addr in Hx as [? _].
    + revert B2. apply Forall_sub, deleted_vlan.
    + revert B3. apply Forall_sub, deleted_vxlan.
    + change (rs_ifaces (sim_tables k)) with (map iface_of (k_links k)) in B4.
      change (rs_ifaces (sim_tables k')) with (map iface_of (k_links k')).
      rewrite Forall_map in B4 |- *. cbn [k' drop_links k_links]. rewrite Forall_map.
      revert B4. apply Forall_sub. by intros x [? _]%elem_of_lfilter.
Qed.

Lemma holds_deleted f :
  n ∉ names f -> f <> FDeletable n -> holds (sim_tables k) f -> holds (sim_tables k') f.
Proof.
  intros Hn Hd. destruct (transient f) eqn:Et;
    [by apply transient_deleted|by apply lasting_deleted].
Qed.

Lemma in_option {A} (x : A) o : x ∈ option_list o -> o = Some x.
Proof. destruct o; cbn; [by intros ->%list_elem_of_singleton|by intros ?%elem_of_nil]. Qed.

(** A link nothing is built on takes no other with it. *)
Lemma bare_alone m : bare (sim_tables k) i -> with_stacked m k [i] = [i].
Proof.
  intros (_ & B2 & B3 & B4). rewrite Forall_forall in B2. rewrite Forall_forall in B3.
  change (rs_ifaces (sim_tables k)) with (map iface_of (k_links k)) in B4.
  rewrite Forall_map, Forall_forall in B4.
  assert (E : List.filter (fun x => existsb (fun j => index_in [i] (Some j)) (lowers x))
                (k_links k) = []).
  { destruct (List.filter _ _) as [|x xs] eqn:E; [done|]. exfalso.
    assert (Hx : x ∈ List.filter (fun x => existsb (fun j => index_in [i] (Some j)) (lowers x))
                   (k_links k)) by (rewrite E; by left).
    apply elem_of_lfilter in Hx as [Hx (j & Hj & Hl)%existsb_elem]. rewrite in_gone in Hl.
    apply Z.eqb_eq in Hl as ->. specialize (B4 x Hx). cbn in B4.
    assert (Hk : kl_link x <> Some i) by (intros Ek; rewrite Ek in B4; by apply B4).
    unfold lowers in Hj. apply elem_of_app in Hj as [Hj|Hj].
    - apply in_option in Hj. unfold base in Hj.
      destruct (kl_info x) as [[vni r link|id|kind]|] eqn:Ei; try done. subst link.
      apply (B3 (Vxlan (kl_name x) (kl_index x) (default 0%Z vni) (has vni) (default 0%Z r) (has r)
        i true)); [|done].
      apply list_elem_of_omap. exists x. split; [done|]. unfold vxlan_of. by rewrite Ei.
    - by apply in_option in Hj. }
  induction m as [|m IH]; [done|]. cbn [with_stacked]. by rewrite E.
Qed.

End Deleted.

Lemma roomy_del n k i : sim_roomy (S n) k -> sim_roomy n (drop_links [i] k).
Proof.
  intros [[F1 F2 F3] R1 R2 R3 R4 R5 R6 R7 R8]. pose proof (new_index_pos k).
  assert (Hsub : forall P, (forall x, P x -> P (free_port [i] x)) -> Forall P (k_links k) ->
    Forall P (k_links (drop_links [i] k))).
  { intros P HP Hall. cbn [drop_links k_links]. rewrite Forall_map, Forall_forall.
    rewrite Forall_forall in Hall. intros x [Hx _]%elem_of_lfilter. by apply HP, Hall. }
  assert (Hlen : forall {A} (q : A -> bool) l, length (List.filter q l) <= length l)
    by (intros; apply filter_length_le).
  constructor.
  - constructor.
    + apply Hsub; [|done]. intros x []. constructor; try done. cbn. by destruct (index_in _ _).
    + cbn. rewrite Forall_forall in F2 |- *. intros x [Hx _]%elem_of_lfilter. by apply F2.
    + cbn. rewrite Forall_forall in F3 |- *. intros x [Hx _]%elem_of_lfilter. by apply F3.
  - cbn. rewrite map_map. by apply (NoDup_map_filter kl_name).
  - cbn. rewrite map_map. by apply (NoDup_map_filter kl_index).
  - by apply Hsub.
  - by apply Hsub.
  - cbn. rewrite length_map. pose proof (Hlen _ (fun x => negb (index_in [i] (Some (kl_index x)))) (k_links k)).
    cbn in *. lia.
  - cbn [drop_links k_addrs].
    pose proof (Hlen _ (fun x => negb (index_in [i] (Some (addr_index x)))) (k_addrs k)). lia.
  - cbn [drop_links k_routes].
    pose proof (Hlen _ (fun x => negb (index_in [i] (route_oif x))) (k_routes k)). lia.
  - enough (new_index (drop_links [i] k) <= new_index k - 1 + 1)%Z by lia.
    apply new_index_bound; [lia| |].
    + apply Hsub; [done|]. apply index_below.
    + pose proof (addr_below k) as Ha. rewrite Forall_forall in Ha |- *.
      cbn. intros x [Hx _]%elem_of_lfilter. by apply Ha.
Qed.

Lemma works_del n k m :
  sim_roomy (S n) k -> ip_pre (IpDel m) (sim_tables k) -> works n k (IpDel m).
Proof.
  intros Hr (_ & j & Hj & Hk & Hb). rewrite tables_iface in Hj.
  destruct (find_link k m) as [l|] eqn:El; [|done]. injection Hj as <-. cbn in Hk, Hb.
  pose proof (sr_names _ _ Hr). pose proof (sr_index _ _ Hr).
  exists (drop_links [kl_index l] k). split_and!.
  - change (link_del m k = Some (drop_links [kl_index l] k)). unfold link_del. rewrite El.
    cbn [mbind option_bind]. rewrite bool_decide_true by done. by erewrite bare_alone.
  - by apply roomy_del.
  - constructor; [|done]. by eapply deleted_absent.
  - intros f [Hs Hn]. eapply holds_deleted; [done..|]. intros ->. apply Hs. cbn. set_solver.
Qed.

Lemma sim_works n k c : sim_roomy (S n) k -> ip_pre c (sim_tables k) -> works n k c.
Proof.
  destruct c; auto using works_up, works_add_bridge, works_master, works_addr, works_route,
    works_add_vlan, works_add_vxlan, works_del.
Qed.

Hypothesis resolv_fits : length (dns_read resolv) <= NR_DNS4_MAX.

Lemma sim_load `{Uapi} n k msg out :
  sim_roomy n k ->
  @load_real _ sim_sys sim_host (@Rst sim_sys k msg out) =
  Done (0%Z, sim_tables k, @Rst sim_sys k msg out).
Proof.
  intros Hr. unfold load_real. cbn [r_world r_msg h_netlink sim_host].
  rewrite (load_exact _ k) by (apply serves_conv_of, Hr || by eapply roomy_snapshot).
  cbn [mbind outcome_bind Z.eqb negb h_resolv sim_host nl_rs].
  change (r_world (_ <| r_msg := _ |>)) with k. cbn [h_resolv].
  rewrite rs_load_resolv_spec, (proj2 (Nat.leb_le _ _)) by done. done.
Qed.

(** The machine does what [ip] documents. *)
Definition sim_iproute `{Uapi} : @Iproute _ sim_sys sim_host.
Proof.
  refine (@Build_Iproute _ sim_sys sim_host sim_tables sim_roomy _ _ _ _).
  - intros n k []. constructor; try done; lia.
  - apply sim_load.
  - intros n k name i Hr Hi. rewrite tables_iface in Hi.
    destruct (find_link k name) as [l|] eqn:El; [|done].
    by destruct (roomy_link _ _ _ _ Hr El) as (_ & _ & ?).
  - intros n k c Hr Hp. destruct (sim_works n k c Hr Hp) as (k' & E & Hr' & Hpost & Hk).
    exists 0, k'. split_and!; [|done..]. cbn [spawn sim_sys]. by rewrite E.
Defined.

End Machine.

(** ** A run *)

(** A bridge over two Ethernet ports with an address, a default route, a
    nameserver and a route to another network, and a bridge over a VLAN. *)
Definition lan_text : list ascii := #"state.lan.scenario = uplink_bridge
state.lan.bridge.name = br0
state.lan.bridge.addr = 10.0.0.2/24
state.lan.bridge.gateway = 10.0.0.1
state.lan.bridge.dns[] = 1.1.1.1
state.lan.bridge.ports[] = eth1
state.lan.uplink.ifname = eth0
state.lan.routes.r0.dst = 10.1.0.0/16
state.lan.routes.r0.dev = br0
state.lan.routes.r0.via = 10.0.0.9
state.guest.scenario = vlan_bridge
state.guest.bridge.name = br1
state.guest.uplink.ifname = eth2
state.guest.vlan.ifname = guest0
state.guest.vlan.id = 7
".

(** A VXLAN over a wireguard tunnel that does not exist yet. *)
Definition tunnel_text : list ascii := #"state.v.scenario = wg_vxlan_bridge
state.v.bridge.name = br1
state.v.wg.ifname = wg0
state.v.wg.peer_ip = 10.9.0.1
state.v.wg.route_dev = wg0
state.v.vxlan.ifname = vx0
state.v.vxlan.vni = 42
state.v.vxlan.remote = 10.9.0.1
state.v.vxlan.bridge = br1
state.v.vxlan.dev = wg0
".

Definition lan_fs : machine := {|
  fopen_r := fun path => Ok (if streq path (#"lan") then lan_text else tunnel_text);
  popen_r := fun _ => Capture (Ok tt) (Ok tt) [] [] [] (inr (Exited 0))
|}.

Definition lan_resolv : list ascii := #"nameserver 1.1.1.1" ++ [LF].

(** Loopback, three Ethernet devices that are down, and a VLAN with another tag
    on one of them. *)
Definition lan_kernel : kernel :=
  Kernel [KLink 1 1 (#"lo") None None None None; KLink 2 0 (#"eth0") None None None None;
          KLink 3 0 (#"eth1") None None None None; KLink 4 0 (#"eth2") None None None None;
          KLink 5 0 (#"guest0") None None (Some 4%Z) (Some (KVlan (Some 9%Z)))] [] [].

Definition lan_host : @Host sim_sys := sim_host lan_fs lan_resolv.
Definition lan_cfg (path : cstr) : netrec_run_cfg := RunCfg (Some path) (#"yaml") None None None true.
Definition lan_start (k : kernel) : @rst sim_sys := @Rst sim_sys k [] [].

Definition lan_iproute : @Iproute linux_uapi sim_sys lan_host.
Proof. apply sim_iproute. compute_decide. Defined.

Definition lan_state : desired_state :=
  ds_zero <| scenario := #"uplink_bridge" |> <| br_name := #"br0" |>
    <| br_addr_mode := ADDR_STATIC |> <| br_addr := #"10.0.0.2/24" |>
    <| br_gateway := #"10.0.0.1" |> <| br_dns := [ #"1.1.1.1"] |> <| br_ports := [ #"eth1"] |>
    <| up_ifname := #"eth0" |>
    <| routes := [DesiredRoute (#"10.1.0.0/16") (#"10.0.0.9") (#"br0") true] |>.

Definition guest_state : desired_state :=
  ds_zero <| scenario := #"vlan_bridge" |> <| br_name := #"br1" |> <| br_addr_mode := ADDR_NONE |>
    <| up_ifname := #"eth2" |> <| vlan_ifname := #"guest0" |> <| vlan_id := 7%Z |>
    <| vlan_link := #"eth2" |> <| vlan_bridge := #"br1" |>.

Example lan_load (k : kernel) :
  @load_desired_set sim_sys lan_host (lan_cfg (#"lan")) k = Ok [lan_state; guest_state].
Proof. vm_compute. reflexivity. Qed.

Lemma lan_roomy : sim_roomy 27 lan_kernel.
Proof.
  constructor.
  - constructor; [|constructor|constructor].
    repeat (constructor; [constructor; try exact I; compute_decide|]). constructor.
  - compute_decide.
  - compute_decide.
  - compute_decide.
  - repeat (constructor; [constructor; compute_decide|]). constructor.
  - vm_compute. discriminate.
  - vm_compute. discriminate.
  - vm_compute. discriminate.
  - vm_compute. discriminate.
Qed.

(** The goals of both states. *)
Lemma lan_goals : @goals glibc lan_state =
  [FKind (#"br0") (#"bridge"); FUp (#"br0"); FAddr (#"br0") 33554442 24;
   FRoute 0 0 (#"br0") (Some 16777226%Z); FDns 16843009; FUp (#"eth1"); FMember (#"eth1") (#"br0");
   FUp (#"eth0"); FMember (#"eth0") (#"br0"); FRoute 266 16 (#"br0") (Some 150994954%Z)].
Proof. vm_compute. reflexivity. Qed.

Lemma guest_goals : @goals glibc guest_state =
  [FKind (#"br1") (#"bridge"); FUp (#"br1"); FUp (#"eth2"); FVlan (#"guest0") 7 (#"eth2");
   FUp (#"guest0"); FMember (#"guest0") (#"br1")].
Proof. vm_compute. reflexivity. Qed.

(** Both gateways are reached over the network of the bridge's address. *)
Definition lan_net : fact := FRoute 10 24 (#"br0") None.
Definition lan_extra : list fact := [lan_net; FNoHop 16777226 24; FNoHop 150994954 24].
Definition lan_doomed : list cstr := [ #"guest0"].

Definition lan_wanted : list fact :=
  concat (map (@goals glibc) [lan_state; guest_state]) ++ lan_extra.

Lemma lan_compatible f g : f ∈ lan_wanted -> g ∈ lan_wanted -> compatible f g.
Proof.
  assert (Hall : Forall (fun f => Forall (compatible f) lan_wanted) lan_wanted).
  { unfold lan_wanted, lan_extra, lan_net. cbn [map concat]. rewrite lan_goals, guest_goals. cbn [app].
    repeat (constructor; [repeat (constructor;
      [cbn; first [exact I|congruence|left; reflexivity|done]|]); constructor|]). constructor. }
  rewrite Forall_forall in Hall. intros Hf Hg. specialize (Hall f Hf).
  rewrite Forall_forall in Hall. by apply Hall.
Qed.

Section Lan.
Let rs := sim_tables lan_resolv lan_kernel.

Lemma lan_name n : n ∈ [ #"br0"; #"br1"; #"eth0"; #"eth1"; #"eth2"; #"guest0"] -> ip_name n.
Proof.
  assert (Hall : Forall ip_name [ #"br0"; #"br1"; #"eth0"; #"eth1"; #"eth2"; #"guest0"]).
  { repeat (constructor; [constructor; try (split; reflexivity); compute_decide|]). constructor. }
  rewrite Forall_forall in Hall. apply Hall.
Qed.

(** The Ethernet devices. *)
Lemma lan_wired n : n ∈ [ #"eth0"; #"eth1"; #"eth2"] ->
  sure rs lan_doomed (FLink n) /\ sure rs lan_doomed (FKind n []) /\ n <> #"lo".
Proof.
  intros Hn. rewrite !elem_of_cons, elem_of_nil in Hn. destruct Hn as [->|[->|[->|[]]]];
    (split_and!; [split|split|discriminate]);
    try (constructor; [compute_decide|constructor]); eexists; try split; vm_compute; reflexivity.
Qed.

Lemma lan_wired_kind ks n : [] ∈ ks -> n ∈ [ #"eth0"; #"eth1"; #"eth2"] ->
  of_kind (sure rs lan_doomed) ks n.
Proof. intros Hk Hn. destruct (lan_wired n Hn) as (_ & Hs & Hlo). split; [done|]. by exists []. Qed.

Lemma lan_up done n : n ∈ [ #"eth0"; #"eth1"; #"eth2"] ->
  up_ready rs lan_wanted lan_doomed done n.
Proof.
  intros Hn. right. split_and!.
  - apply lan_name. set_solver.
  - by apply lan_wired.
  - left. destruct (lan_wired n Hn) as (_ & Hs & Hlo). split; [done|]. exists [].
    split; [compute_decide|]. split; [split; [done|discriminate]|by left].
Qed.

Lemma lan_port done n : n ∈ [ #"eth0"; #"eth1"] ->
  port_ready rs lan_wanted lan_doomed done (#"br0") n.
Proof.
  intros Hn. assert (Hn' : n ∈ [ #"eth0"; #"eth1"; #"eth2"]) by set_solver.
  split; [by apply lan_up|]. right. split_and!.
  - apply lan_name. set_solver.
  - by apply lan_wired.
  - destruct (lan_wired n Hn') as ([_ Hi] & _). unfold intact in *. cbn [names] in *.
    constructor; [by inversion Hi|]. constructor; [compute_decide|constructor].
  - left. apply lan_wired_kind; [compute_decide|done].
Qed.

(** A gateway in the network of the bridge. *)
Lemma lan_gateway done spent g : g ∈ [16777226%Z; 150994954%Z] -> lan_net ∈ done ->
  FForeign g ∉ spent -> gw_ready rs lan_wanted lan_doomed done spent (#"br0") g.
Proof.
  intros Hg Hd Hs.
  assert (Hu : unicast g /\ same_net 10 g 24 /\ FNoHop g 24 ∈ lan_wanted).
  { rewrite !elem_of_cons, elem_of_nil in Hg. destruct Hg as [->|[->|[]]]; split_and!;
      solve [vm_compute; repeat split; discriminate | compute_decide]. }
  destruct Hu as (Hu & Hn & Hw). split; [done|]. split; [by split; [constructor|]|].
  exists 10%Z, 24%Z. split_and!; [done..| |].
  - split; [split; [done|]|by right]. intros _. compute_decide.
  - split; [by split|]. left. split; constructor.
Qed.

(** The first bridge can be created, its ports are Ethernet devices, and both
    gateways are in the network of its address. *)
Lemma lan_ready : @state_ready glibc rs lan_wanted lan_extra lan_doomed [] [] lan_state.
Proof.
  assert (Hnet : prefix_text (#"10.0.0.2/24") 33554442 24).
  { split; [done|]. exists (#"10.0.0.2"). split; vm_compute; reflexivity. }
  assert (Hlinks : @links glibc lan_extra lan_state = [lan_net]) by (vm_compute; reflexivity).
  split.
  - split_and!; intros Hs; try (exfalso; revert Hs; compute_decide).
    split; [|apply lan_port; compute_decide]. constructor.
    + split; [compute_decide|]. split; [apply lan_name; compute_decide|]. right.
      split; [done|compute_decide].
    + eexists _, _. split; [exact Hnet|]. right. split; [by intros (i & E & _)|].
      split; [vm_compute; repeat split; discriminate|]. split; [compute_decide|].
      intros _. split; [done|]. split; [constructor|compute_decide].
    + intros _. exists 16777226%Z. split; [done|]. right. rewrite Hlinks.
      apply lan_gateway; compute_decide.
    + constructor; [|done]. exists 16843009%Z. split; [done|compute_decide].
    + constructor; [apply lan_port; compute_decide|done].
  - constructor; [|done]. exists 266%Z, 16%Z. split_and!.
    + split; [done|]. exists (#"10.1.0.0"). split; vm_compute; reflexivity.
    + intros _. by eexists.
    + cbn zeta. split; [intros _; compute_decide|]. right.
      split; [right; vm_compute; repeat split; discriminate|].
      split; [vm_compute; reflexivity|]. split; [vm_compute; discriminate|].
      split; [split; [split; [reflexivity|discriminate]|right; compute_decide]|].
      intros g _ E. injection E as <-. apply lan_gateway; compute_decide.
Qed.

(** The VLAN has the wrong tag; nothing is built on it, and the first state has
    nothing to do with it. *)
Lemma guest_ready :
  @state_ready glibc rs lan_wanted lan_extra lan_doomed
    (@scenario_links glibc lan_extra lan_state ++ @goals glibc lan_state ++ [])
    (@spends glibc lan_state ++ []) guest_state.
Proof.
  split; [|constructor].
  split_and!; intros Hs; try (exfalso; revert Hs; compute_decide).
  split_and!; [|apply lan_up; compute_decide|].
  - constructor; [|done|intros []; done|constructor|constructor].
    split; [compute_decide|]. split; [apply lan_name; compute_decide|]. right.
    split; [done|compute_decide].
  - right. split_and!; try done.
    + apply lan_name. compute_decide.
    + apply lan_wired_kind; compute_decide.
    + split; [|constructor; [compute_decide|constructor]]. eexists.
      split; [vm_compute; reflexivity|]. constructor; [by left|constructor].
    + compute_decide.
    + right. split.
      * intros (v & lk & Ev & _ & Ei & _). injection Ev as <-. discriminate Ei.
      * split_and!; [compute_decide| | |compute_decide].
        { unfold untouched. compute_decide. }
        eexists. split; [vm_compute; reflexivity|]. split; [compute_decide|].
        split_and!; repeat constructor; discriminate.
Qed.

End Lan.

Lemma lan_feasible :
  @feasible glibc [lan_state; guest_state] (sim_tables lan_resolv lan_kernel).
Proof.
  exists lan_doomed, lan_extra. split; [exact lan_compatible|].
  split; [exact lan_ready|]. split; [exact guest_ready|done].
Qed.

Lemma run_converges_witness :
  exists s', @netrec_run_once glibc linux_uapi sim_sys lan_host (lan_cfg (#"lan"))
      (lan_start lan_kernel) = Done (0%Z, s') /\
    @all_satisfied glibc [lan_state; guest_state]
      (sim_tables lan_resolv (@r_world sim_sys s')) /\
    exists s2, @netrec_run_once glibc linux_uapi sim_sys lan_host (lan_cfg (#"lan")) s' =
      Done (0%Z, s2) /\ @r_world sim_sys s2 = @r_world sim_sys s'.
Proof.
  destruct (@run_converges glibc linux_uapi sim_sys lan_host lan_iproute (lan_cfg (#"lan"))
    (lan_start lan_kernel) [lan_state; guest_state]) as (s' & E & Hs & Hn).
  - reflexivity.
  - apply lan_load.
  - reflexivity.
  - exact lan_roomy.
  - exact lan_feasible.
  - exists s'. split; [exact E|]. split; [exact Hs|]. apply Hn; [apply lan_load|reflexivity].
Defined.

(** *** The daemon on the same machine *)

Definition lan_idle : netrec_watch :=
  Watch (lan_cfg (#"lan")) 0 500 true true false false false false true false
    (OtherAct 0) (OtherAct 1) (OtherAct 0) (OtherAct 0) false.

Definition lan_watch : netrec_watch :=
  Watch (lan_cfg (#"lan")) 1 500 true true true true false true true true
    WatchSignal WatchSignal (OtherAct 0) (OtherAct 1) true.

Definition lan_daemon : @lst sim_sys := @enter sim_sys lan_watch 0 (lan_start lan_kernel).

Lemma lan_reachable : @reachable glibc linux_uapi sim_sys lan_host small_pipe lan_daemon.
Proof.
  exists lan_daemon, 0. split; [|constructor].
  exists good_env, lan_idle, lan_watch, 0%Z, (lan_start lan_kernel).
  split_and!; [reflexivity| |reflexivity]. by split_and!.
Qed.

Lemma watch_converges_witness :
  @eventually glibc linux_uapi sim_sys lan_host (fun s' => l_pc s' = PTop /\ l_seen s' = false /\
    @all_satisfied glibc [lan_state; guest_state] (sim_tables lan_resolv (@r_world sim_sys (l_machine s'))))
    lan_daemon.
Proof.
  apply (@watch_converges glibc linux_uapi sim_sys lan_host lan_iproute small_pipe lan_daemon
    [lan_state; guest_state]).
  - exact lan_reachable.
  - reflexivity.
  - reflexivity.
  - intros rc E. discriminate E.
  - intros t E. discriminate E.
  - reflexivity.
  - apply lan_load.
  - reflexivity.
  - exact lan_roomy.
  - exact lan_feasible.
Defined.

(** *** A tunnel *)

Definition tunnel_run (k : kernel) : option (Z * kernel) :=
  match @netrec_run_once glibc linux_uapi sim_sys lan_host (lan_cfg (#"tunnel")) (lan_start k) with
  | Done (rc, s) => Some (rc, @r_world sim_sys s)
  | _ => None
  end.

(** The route to the peer is set before the tunnel is created, and a tunnel that
    is created is not brought up: the first two runs fail and the third
    succeeds. *)
Example tunnel_three_runs :
  ('(rc1, k1) ← tunnel_run lan_kernel; '(rc2, k2) ← tunnel_run k1;
   '(rc3, k3) ← tunnel_run k2; Some [rc1; rc2; rc3]) = Some [1%Z; 1%Z; 0%Z].
Proof. vm_compute. reflexivity. Qed.

(** *** A VLAN with another tag *)

(** One run deletes the VLAN and creates it with the tag that is desired, as a
    port of its bridge. *)
Example guest_recreated :
  match @netrec_run_once glibc linux_uapi sim_sys lan_host (lan_cfg (#"lan"))
          (lan_start lan_kernel) with
  | Done (rc, s) => Some (rc, l ← find_link (@r_world sim_sys s) (#"guest0");
                              br ← find_link (@r_world sim_sys s) (#"br1");
                              Some (kl_info l, bool_decide (kl_master l = Some (kl_index br))))
  | _ => None
  end = Some (0%Z, Some (Some (KVlan (Some 7%Z)), true)).
Proof. vm_compute. reflexivity. Qed.
