(* ===== verification/Resources.v ===== *)
(** What a run holds while it runs: descriptors, streams, buffers, trees,
    temporary files and the children it reads from (the commands of verify.c
    are started and waited for within [cmd_exec]).  The functions that take and
    give back such things are written once more with the calls that do so, on
    every path; a release of something that is not held is a fault.  The theorem
    is that they return what the definitions of the other files return, without
    a fault, and hold nothing more at the end. *)
From stdpp Require Import gmap.
From S2P Require Import Prelude CLib CfgPath CfgTree CfgFile State Yaml Verify.
From S2P Require Import UciDb UciBuild UciExport Netlink NetlinkSpec Run.

(** ** Handles *)

Inductive kind :=
| KFd      (* a descriptor *)
| KFile    (* a [FILE] with its descriptor *)
| KBuf     (* memory from [malloc] *)
| KTree    (* the nodes of a [struct cfg] *)
| KName    (* a temporary file in the file system *)
| KChild.  (* a child to wait for *)

#[export] Instance kind_eq : EqDecision kind.
Proof. solve_decision. Defined.

(** What the process holds, and how many children it gave up waiting for. *)
Record held := Held { live : gmap nat kind; zombies : nat }.

(** A computation on it: [None] is the release of something not held. *)
Definition RM (A : Type) : Type := held -> option (outcome (A * held)).

#[export] Instance RM_ret : MRet RM := fun A a r => Some (Done (a, r)).
#[export] Instance RM_bind : MBind RM := fun A B f m r =>
  match m r with
  | None => None
  | Some (Done (a, r)) => f a r
  | Some Blocked => Some Blocked
  | Some (Fault e) => Some (Fault e)
  end.

Definition run_outcome {A} (m : outcome A) : RM A := fun r =>
  match m with
  | Done a => Some (Done (a, r))
  | Blocked => Some Blocked
  | Fault e => Some (Fault e)
  end.

Definition acquire (k : kind) : RM nat := fun r =>
  let h := fresh (dom (live r)) in
  Some (Done (h, Held (<[h := k]> (live r)) (zombies r))).

Definition release (k : kind) (h : nat) : RM unit := fun r =>
  if bool_decide (live r !! h = Some k)
  then Some (Done (tt, Held (delete h (live r)) (zombies r))) else None.

(** [fdopen]: the stream takes over the descriptor. *)
Definition become (k k' : kind) (h : nat) : RM unit := fun r =>
  if bool_decide (live r !! h = Some k)
  then Some (Done (tt, Held (<[h := k']> (live r)) (zombies r))) else None.

(** A failed [waitpid]: the child is not waited for any more. *)
Definition abandon (h : nat) : RM unit := fun r =>
  if bool_decide (live r !! h = Some KChild)
  then Some (Done (tt, Held (delete h (live r)) (S (zombies r)))) else None.

(** ** uci.c *)

(** A grown buffer is another one; when [realloc] fails the old one is freed. *)
Fixpoint r_read_loop (fuel : nat) (data : list ascii) (sched : list rd) (o : oracle)
    (cap : nat) (tmp : list ascii) (h : nat) : RM (result (list ascii * nat)) :=
  match fuel with
  | O => mret (Ok (tmp, h))
  | S n =>
    let '(alloc, o) := if is_full cap tmp then pop o else (true, o) in
    if negb alloc then _ ← release KBuf h; mret (Err ENOMEM)
    else
      h ← (if is_full cap tmp then _ ← release KBuf h; acquire KBuf else mret h);
      let cap := if is_full cap tmp then cap * 2 else cap in
      let room := cap - length tmp - 1 in
      match sched with
      | RdIntr :: sched' => r_read_loop n data sched' o cap tmp h
      | RdErr e :: _ => _ ← release KBuf h; mret (Err e)
      | _ =>
        let avail := match sched with RdSome k :: _ => S k | _ => length data end in
        match take (Nat.min room avail) data with
        | [] => mret (Ok (tmp, h))
        | got => r_read_loop n (drop (length got) data) (tail sched) o cap (tmp ++ got) h
        end
      end
  end.

Definition r_read_all_fd (data : list ascii) (sched : list rd) (o : oracle)
  : RM (result (list ascii * nat)) :=
  let '(okk, o) := pop o in
  if negb okk then mret (Err ENOMEM)
  else h ← acquire KBuf; r_read_loop (S (length data + length sched)) data sched o 4096 [] h.

(** [free(buf)] of what [read_all_fd] left; NULL after a failure. *)
Definition free_buf {A} (rc : result (A * nat)) : RM unit :=
  match rc with Ok (_, h) => release KBuf h | Err _ => mret tt end.

(** [WIFEXITED(status) && WEXITSTATUS(status) == 0] *)
Definition exited_ok (status : exit_status) : bool :=
  match status with Exited code => (code =? 0)%Z | _ => false end.

Definition r_run_capture (c : capture) : RM (result (cstr * nat)) :=
  match cap_pipe c with
  | Err e => mret (Err e)
  | Ok _ =>
    p0 ← acquire KFd;
    p1 ← acquire KFd;
    match cap_fork c with
    | Err e => _ ← release KFd p0; _ ← release KFd p1; mret (Err e)
    | Ok _ =>
      pid ← acquire KChild;
      _ ← release KFd p1;
      rc ← r_read_all_fd (cap_data c) (cap_sched c) (cap_alloc c);
      _ ← release KFd p0;
      match cap_wait c with
      | inl e => _ ← abandon pid; _ ← free_buf rc; mret (Err e)
      | inr status =>
        _ ← release KChild pid;
        match rc with
        | Err e => _ ← free_buf rc; mret (Err e)
        | Ok (buf, h) =>
          if exited_ok status then mret (Ok (c_string buf, h))
          else _ ← free_buf rc; mret (Err EINVAL)
        end
      end
    end
  end.

Definition r_db_load_live (m : machine) (db : uci_db) (uci_bin : option cstr) (pkg : cstr)
  : RM (result uci_db) :=
  rc ← r_run_capture (popen_r m [default (#"uci") uci_bin; #"show"; pkg]);
  match rc with
  | Err e => mret (Err e)
  | Ok (buf, h) => let rc := db_load_buf db buf in _ ← release KBuf h; mret rc
  end.

(** Every way out of the loop closes the file. *)
Fixpoint r_db_load_lines (f : nat) (db : uci_db) (ls : list (list ascii * bool))
  : RM (result uci_db) :=
  match ls with
  | [] => _ ← release KFile f; mret (Ok db)
  | (buf, eof) :: ls' =>
    let line := c_string buf in
    if negb (bool_decide (LF ∈ line)) && negb eof then _ ← release KFile f; mret (Err E2BIG)
    else match db_load_line db line with
         | Err e => _ ← release KFile f; mret (Err e)
         | Ok db => r_db_load_lines f db ls'
         end
  end.

Definition r_db_load_file (db : uci_db) (file : result (list ascii)) : RM (result uci_db) :=
  match file with
  | Err e => mret (Err e)
  | Ok bytes => f ← acquire KFile; r_db_load_lines f db (file_lines UCI_LINE_SZ bytes)
  end.

Definition r_load_pkg (m : machine) (uci_bin path : option cstr) (pkg : cstr)
  : RM (result uci_db) :=
  match path with
  | Some p => r_db_load_file [] (fopen_r m p)
  | None => r_db_load_live m [] uci_bin pkg
  end.

Definition r_uci_build_desired_set (m : machine)
    (uci_bin network_path wireless_path : option cstr) : RM (result desired_set) :=
  rc ← r_load_pkg m uci_bin network_path (#"network");
  match rc with
  | Err e => mret (Err e)
  | Ok net =>
    rc ← r_load_pkg m uci_bin wireless_path (#"wireless");
    match rc with
    | Err e => mret (Err e)
    | Ok wifi =>
      mret (set ← build_loop net wifi net [];
            if bool_decide (set = []) then Err EINVAL else Ok set)
    end
  end.

(** [fclose] gives the stream back whether it reports an error or not. *)
Definition r_close_out {A} (io : errno) (rc : result A) (o : oracle) (f : nat)
  : RM (result A) :=
  _ ← release KFile f; mret (fst (close_out io rc o)).

(** ** cfg.c and yaml.c *)

Fixpoint r_load_lines (f t : nat) (ls : list (list ascii * bool)) (o : oracle) (cfg : cfg_node)
  : RM (result cfg_node) :=
  match ls with
  | [] => _ ← release KFile f; mret (Ok cfg)
  | (buf, eof) :: ls' =>
    let line := c_string buf in
    if negb (bool_decide (LF ∈ line)) && negb eof
    then _ ← release KFile f; _ ← release KTree t; mret (Err E2BIG)
    else match load_line (trim_eol line) (o, cfg) with
         | (Err e, _) => _ ← release KFile f; _ ← release KTree t; mret (Err e)
         | (Ok _, (o, cfg)) => r_load_lines f t ls' o cfg
         end
  end.

(** The tree is the caller's when it succeeds. *)
Definition r_cfg_load (o : oracle) (file : result (list ascii))
  : RM (result (cfg_node * nat)) :=
  t ← acquire KTree;
  match file with
  | Err e => _ ← release KTree t; mret (Err e)
  | Ok bytes =>
    f ← acquire KFile;
    rc ← r_load_lines f t (file_lines CFG_LINE_SZ bytes) o cfg_init;
    mret (cfg ← rc; Ok (cfg, t))
  end.

(** The loop over the states, which frees the tree when it gives up. *)
Fixpoint r_states_loop (t : nat) (its : list cfg_node) (set : desired_set)
  : RM (result desired_set) :=
  match its with
  | [] => mret (Ok set)
  | it :: its' =>
    if negb (has_type CFG_OBJ it) then _ ← release KTree t; mret (Err EINVAL)
    else if NR_DES_STATE_MAX <=? length set then _ ← release KTree t; mret (Err E2BIG)
    else match load_state it with
         | Err e => _ ← release KTree t; mret (Err e)
         | Ok ds => r_states_loop t its' (set ++ [ds])
         end
  end.

Definition r_load_set (root : cfg_node) (t : nat) : RM (result desired_set) :=
  match cfg_child root (#"scenario") with
  | Some _ => let rc := load_state root in _ ← release KTree t; mret (ds ← rc; Ok [ds])
  | None =>
    match cfg_child root (#"state") with
    | None => _ ← release KTree t; mret (Err EINVAL)
    | Some states =>
      if negb (has_type CFG_OBJ states) then _ ← release KTree t; mret (Err EINVAL)
      else
        rc ← r_states_loop t (cfg_children states) [];
        match rc with
        | Err e => mret (Err e)
        | Ok set =>
          if bool_decide (set = []) then _ ← release KTree t; mret (Err EINVAL)
          else _ ← release KTree t; mret (Ok set)
        end
    end
  end.

Definition r_yaml_load_desired_set (o : oracle) (file : result (list ascii))
  : RM (result desired_set) :=
  rc ← r_cfg_load o file;
  match rc with
  | Err e => mret (Err e)
  | Ok (root, t) => r_load_set root t
  end.

(** ** The import *)

Definition r_uci_load_desired_set (m : machine)
    (uci_bin network_path wireless_path : option cstr)
    (mkstemp_rc fdopen_rc reopen_rc : result unit) (io : errno) (o mem : oracle)
  : RM (result desired_set) :=
  match mkstemp_rc with
  | Err e => mret (Err e)
  | Ok _ =>
    fd ← acquire KFd;
    tmp ← acquire KName;
    match fdopen_rc with
    | Err e => _ ← release KFd fd; _ ← release KName tmp; mret (Err e)
    | Ok _ =>
      _ ← become KFd KFile fd;
      rc ← r_uci_build_desired_set m uci_bin network_path wireless_path;
      let '(rc, (o, f)) :=
        match rc with Err e => (Err e, (o, [])) | Ok set => cfg_set set (o, []) end in
      rc ← r_close_out io rc o fd;
      match rc with
      | Err e => _ ← release KName tmp; mret (Err e)
      | Ok _ =>
        rc ← r_yaml_load_desired_set mem (_ ← reopen_rc; Ok f);
        _ ← release KName tmp;
        mret rc
      end
    end
  end.

(** ** netlink.c and state.c *)

Section Snapshot.
Context `{Uapi}.

(** The descriptor, or the error. *)
Definition r_nl_open (c : conv) : RM (result nat) :=
  match c_socket c with
  | Err e => mret (Err e)
  | Ok _ =>
    fd ← acquire KFd;
    match c_bind c with
    | Err e => _ ← release KFd fd; mret (Err e)
    | Ok _ => mret (Ok fd)
    end
  end.

Definition r_nl_load_state (c : conv) (msg : cstr) : RM (Z * nl) :=
  let s := Nl rs_zero msg in
  fd ← r_nl_open c;
  match fd with
  | Err e => mret (neg e, s)
  | Ok fd =>
    '(rc, s, inbox) ← run_outcome (dump_links c 0 [] s);
    if negb (rc =? 0)%Z then _ ← release KFd fd; mret (rc, s)
    else
      '(rc, s, inbox) ← run_outcome (dump_addr4 c 1 inbox s);
      if negb (rc =? 0)%Z then _ ← release KFd fd; mret (rc, s)
      else
        '(rc, s, inbox) ← run_outcome (dump_route4 c 2 inbox s);
        _ ← release KFd fd;
        mret (rc, s)
  end.

Fixpoint r_resolv_loop (f : nat) (dns : list Z) (ls : list (list ascii * bool))
  : RM (result (list Z)) :=
  match ls with
  | [] => _ ← release KFile f; mret (Ok dns)
  | (buf, _) :: ls' =>
    match resolv_addr (c_string buf) with
    | None => r_resolv_loop f dns ls'
    | Some a =>
      if NR_DNS4_MAX <=? length dns then _ ← release KFile f; mret (Err ENOSPC)
      else r_resolv_loop f (dns ++ [a]) ls'
    end
  end.

Definition r_rs_load_resolv_conf (rs : real_state) (file : option (list ascii))
  : RM (result real_state) :=
  match file with
  | None => mret (Ok (rs <| rs_dns4 := [] |>))
  | Some bytes =>
    f ← acquire KFile;
    rc ← r_resolv_loop f [] (file_lines 256 bytes);
    mret (dns ← rc; Ok (rs <| rs_dns4 := dns |>))
  end.

End Snapshot.

(** ** run.c *)

Section Run.
Context `{Libc} `{Uapi} `{Host}.

(** The descriptor of the lock file, or the error. *)
Definition r_apply_lock (s : rst) : RM (result nat * rst) :=
  match h_lock (r_world s) with
  | (Err e, _) => mret (Err e, s)
  | (Ok _, got) =>
    fd ← acquire KFd;
    if got then mret (Ok fd, log RLock s)
    else _ ← release KFd fd; mret (Err EAGAIN, s)
  end.

Definition r_close_lock (lock_fd : option nat) (s : rst) : RM rst :=
  match lock_fd with
  | Some fd => _ ← release KFd fd; mret (log RUnlock s)
  | None => mret s
  end.

Definition r_load_real (s : rst) : RM (Z * real_state * rst) :=
  '(rc, n) ← r_nl_load_state (h_netlink (r_world s)) (r_msg s);
  let s := s <| r_msg := nl_err_msg n |> in
  if negb (rc =? 0)%Z then mret (rc, rs_zero, s)
  else
    rc ← r_rs_load_resolv_conf (nl_rs n) (h_resolv (r_world s));
    match rc with
    | Err e => mret (neg e, rs_zero, s)
    | Ok rs => mret (0%Z, rs, s)
    end.

Definition r_run_verify_set (set : desired_set) (apply act_fail : bool) (s : rst)
  : RM (Z * bool * rst) :=
  '(rc, rs, s) ← r_load_real s;
  if negb (rc =? 0)%Z then mret (rc, act_fail, s)
  else mret (verify_loop set rs apply false 0 s).

Definition r_load_desired_set (cfg : netrec_run_cfg) (w : world) : RM (result desired_set) :=
  if streq (run_source cfg) (#"yaml") then
    match run_cfg_path cfg with
    | None => mret (Err EINVAL)
    | Some path => r_yaml_load_desired_set (h_mem w) (fopen_r (h_fs w) path)
    end
  else if streq (run_source cfg) (#"uci") then
    let t := h_tmp w in
    r_uci_load_desired_set (h_fs w) (run_uci_bin cfg) (run_uci_network cfg)
      (run_uci_wireless cfg) (tmp_mkstemp t) (tmp_fdopen t) (tmp_reopen t) (tmp_io t)
      (tmp_writes t) (h_mem w)
  else mret (Err EINVAL).

Definition r_run_locked (set : desired_set) (apply : bool) (lock_fd : option nat) (s : rst)
  : RM (Z * rst) :=
  '(diff, act_fail, s) ← r_run_verify_set set apply false s;
  if negb apply then
    s ← r_close_lock lock_fd s; mret (if (diff >? 0)%Z then 1%Z else diff, s)
  else if (diff <? 0)%Z || act_fail then
    s ← r_close_lock lock_fd s; mret (if (diff <? 0)%Z then diff else 1%Z, s)
  else if (diff =? 0)%Z then s ← r_close_lock lock_fd s; mret (0%Z, s)
  else
    '(diff, act_fail, s) ← r_run_verify_set set false act_fail (log RPost s);
    s ← r_close_lock lock_fd s;
    if (diff <? 0)%Z then mret (diff, s)
    else if negb (diff =? 0)%Z || act_fail then mret (1%Z, s)
    else mret (0%Z, s).

Definition r_netrec_run_once (cfg : netrec_run_cfg) (s : rst) : RM (Z * rst) :=
  rc ← r_load_desired_set cfg (r_world s);
  match rc with
  | Err e => mret (neg e, s)
  | Ok set =>
    if run_apply cfg then
      '(fd, s) ← r_apply_lock s;
      match fd with
      | Err e => mret (neg e, s)
      | Ok fd => r_run_locked set true (Some fd) s
      end
    else r_run_locked set false None s
  end.

End Run.

(** ** Specifications *)

(** Started with [E] held besides anything else, [m] gives back everything in
    the sense of [Q], without a fault, and behaves as [o]; children are given
    up only if not [ok]. *)
Definition does {X A} (ok : Prop) (E : gmap nat kind) (m : RM A) (o : outcome X)
    (Q : X -> A -> gmap nat kind -> Prop) : Prop :=
  forall B n, E ##ₘ B ->
  match o with
  | Done x => exists a E' z, m (Held (E ∪ B) n) = Some (Done (a, Held (E' ∪ B) (n + z))) /\
      E' ##ₘ B /\ (ok -> z = 0) /\ Q x a E'
  | Blocked => m (Held (E ∪ B) n) = Some Blocked
  | Fault e => m (Held (E ∪ B) n) = Some (Fault e)
  end.

(** The same value, and nothing else held than [E]. *)
Definition same {A} (E : gmap nat kind) (x a : A) (E' : gmap nat kind) : Prop := a = x /\ E' = E.

(** The value with a handle of kind [k], or the same error and no handle. *)
Definition handed {A} (k : kind) (E : gmap nat kind) (x : result A) (a : result (A * nat))
    (E' : gmap nat kind) : Prop :=
  match x, a with
  | Ok v, Ok (w, h) => v = w /\ E !! h = None /\ E' = <[h := k]> E
  | Err e, Err e' => e = e' /\ E' = E
  | _, _ => False
  end.

Section Rules.
Context (ok : Prop).

Lemma does_ret {X A} E (x : X) (a : A) Q : Q x a E -> does ok E (mret a) (Done x) Q.
Proof. intros HQ B n HB. exists a, E, 0. rewrite Nat.add_0_r. by split_and!. Qed.

Lemma does_bind {X Y A C} E (m : RM A) (f : A -> RM C) (o : outcome X) (g : X -> outcome Y) Q R :
  does ok E m o Q -> (forall x a E', Q x a E' -> does ok E' (f a) (g x) R) ->
  does ok E (m ≫= f) (o ≫= g) R.
Proof.
  intros Hm Hf B n HB. specialize (Hm B n HB). unfold mbind, RM_bind.
  destruct o as [x| |e]; cbn [outcome_bind] in *; [|by rewrite Hm..].
  destruct Hm as (a & E' & z & -> & HE & Hz & HQ). specialize (Hf x a E' HQ B (n + z) HE).
  destruct (g x) as [y| |e]; [|done..].
  destruct Hf as (c & E2 & z2 & -> & HE2 & Hz2 & HR). exists c, E2, (z + z2).
  rewrite Nat.add_assoc. split_and!; [done..| |done]. intros Ho. rewrite Hz, Hz2 by done. done.
Qed.

(** Steps that have no counterpart. *)
Lemma does_step {X Y A C} E (m : RM A) (f : A -> RM C) (x : X) (o : outcome Y) Q R :
  does ok E m (Done x) Q -> (forall a E', Q x a E' -> does ok E' (f a) o R) ->
  does ok E (m ≫= f) o R.
Proof.
  intros Hm Hf. apply (does_bind E m f (Done x) (fun _ => o) (fun y a E' => y = x /\ Q x a E')).
  - intros B n HB. destruct (Hm B n HB) as (a & E' & z & H1 & H2 & H3 & H4).
    exists a, E', z. by split_and!.
  - intros y a E' [-> HQ]. by apply Hf.
Qed.

Lemma does_conseq {X A} E (m : RM A) (o : outcome X) (Q R : X -> A -> gmap nat kind -> Prop) :
  (forall x a E', Q x a E' -> R x a E') -> does ok E m o Q -> does ok E m o R.
Proof.
  intros HQ Hm B n HB. specialize (Hm B n HB). destruct o; [|done..].
  destruct Hm as (a' & E' & z & H1 & H2 & H3 & H4). exists a', E', z. split_and!; auto.
Qed.

Lemma does_outcome {A} E (o : outcome A) : does ok E (run_outcome o) o (same E).
Proof.
  intros B n HB. destruct o as [a| |e]; [|done..]. exists a, E, 0. rewrite Nat.add_0_r. done.
Qed.

Lemma does_acquire E k :
  does ok E (acquire k) (Done tt) (fun _ h E' => E !! h = None /\ E' = <[h := k]> E).
Proof.
  intros B n HB. set (h := fresh (dom (E ∪ B))).
  assert (Hh : h ∉ dom (E ∪ B)) by apply is_fresh.
  apply not_elem_of_dom, lookup_union_None in Hh as [H1 H2].
  exists h, (<[h := k]> E), 0. rewrite Nat.add_0_r. unfold acquire. cbn [live zombies]. fold h.
  rewrite insert_union_l. split_and!; [done| |done..].
  by apply map_disjoint_insert_l_2.
Qed.

Lemma delete_union_held (E B : gmap nat kind) h k :
  E ##ₘ B -> E !! h = Some k -> delete h (E ∪ B) = delete h E ∪ B.
Proof.
  intros HB Hh. rewrite delete_union, (delete_id B); [done|].
  by eapply map_disjoint_Some_r.
Qed.

Lemma does_release E k h :
  E !! h = Some k -> does ok E (release k h) (Done tt) (fun _ _ E' => E' = delete h E).
Proof.
  intros Hh B n HB. exists tt, (delete h E), 0. rewrite Nat.add_0_r. unfold release. cbn.
  rewrite bool_decide_true by by apply lookup_union_Some_l.
  rewrite (delete_union_held E B h k) by done. split_and!; [done| |done..].
  by apply map_disjoint_delete_l.
Qed.

Lemma does_become E k k' h :
  E !! h = Some k -> does ok E (become k k' h) (Done tt) (fun _ _ E' => E' = <[h := k']> E).
Proof.
  intros Hh B n HB. exists tt, (<[h := k']> E), 0. rewrite Nat.add_0_r. unfold become. cbn.
  rewrite bool_decide_true by by apply lookup_union_Some_l.
  rewrite insert_union_l. split_and!; [done| |done..].
  apply map_disjoint_insert_l_2; [|done]. by eapply map_disjoint_Some_r.
Qed.

Lemma does_abandon E h :
  ~ ok -> E !! h = Some KChild ->
  does ok E (abandon h) (Done tt) (fun _ _ E' => E' = delete h E).
Proof.
  intros Hok Hh B n HB. exists tt, (delete h E), 1. unfold abandon. cbn.
  rewrite bool_decide_true by by apply lookup_union_Some_l.
  rewrite (delete_union_held E B h KChild), Nat.add_1_r by done.
  split_and!; [done|by apply map_disjoint_delete_l|done..].
Qed.

End Rules.

(** Lookups in, and equations between, what is held along a path. *)
Ltac held_lookup :=
  repeat first [ rewrite lookup_delete in * | rewrite lookup_insert in * ];
  repeat case_decide; congruence.
Ltac held_eq := first [ done | apply map_eq; intros ?i; held_lookup ].

(** One call of a path, and its end. *)
Ltac takes h := eapply does_step; [apply does_acquire|]; intros h ? [? ->].
Ltac gives := eapply does_step; [eapply does_release; held_lookup|]; intros ? ? ->.
Ltac ends := apply does_ret; split; [done|held_eq].

Section Functions.
Context (ok : Prop).

Lemma does_db_load_lines f ls : forall E db, E !! f = Some KFile ->
  does ok E (r_db_load_lines f db ls) (Done (db_load_lines db ls)) (same (delete f E)).
Proof.
  induction ls as [|[buf eof] ls IH]; intros E db Hf; cbn [r_db_load_lines db_load_lines].
  { gives. ends. }
  case_match; [gives; ends|].
  destruct (db_load_line db (c_string buf)) as [db'|e]; [by apply IH|]. gives. ends.
Qed.

(** The end of what is held, up to an equation. *)
Lemma does_same {X} E E1 E2 (m : RM X) o :
  E1 = E2 -> does ok E m o (same E1) -> does ok E m o (same E2).
Proof. by intros ->. Qed.

(** A buffer passed around: what is held besides it is [E]. *)
Lemma does_read_loop fuel : forall E data sched o cap tmp h, E !! h = None ->
  does ok (<[h := KBuf]> E) (r_read_loop fuel data sched o cap tmp h)
    (Done (read_loop fuel data sched o cap tmp)) (handed KBuf E).
Proof.
  induction fuel as [|n IH]; intros E data sched o cap tmp h Hh;
    cbn [r_read_loop read_loop]; [by apply does_ret|].
  destruct (if is_full cap tmp then pop o else (true, o)) as [[] o']; cbn [negb];
    [|gives; apply does_ret; split; [done|held_eq]].
  eapply (does_step _ _ _ _ tt _ (fun _ h' E' => E !! h' = None /\ E' = <[h' := KBuf]> E)).
  { destruct (is_full cap tmp); [|by apply does_ret]. gives.
    eapply does_conseq; [|apply does_acquire]. intros ? h' E' [Hh' ->].
    destruct (decide (h' = h)) as [->|]; (split; [done || held_lookup|held_eq]). }
  intros h' ? [Hh' ->].
  destruct sched as [|[k| |e] sched]; cbn [tail]; [| |by apply IH|].
  - destruct (take _ data); [by apply does_ret|by apply IH].
  - destruct (take _ data); [by apply does_ret|by apply IH].
  - gives. apply does_ret. split; [done|held_eq].
Qed.

Lemma does_read_all_fd E data sched o :
  does ok E (r_read_all_fd data sched o) (Done (read_all_fd data sched o)) (handed KBuf E).
Proof.
  unfold r_read_all_fd, read_all_fd. destruct (pop o) as [[] o']; cbn [negb]; [|by apply does_ret].
  takes h. by apply does_read_loop.
Qed.

(** Every child that is run to be read from is waited for. *)
Definition reaped (c : capture) : Prop :=
  match cap_wait c with inl _ => False | inr _ => True end.

Lemma does_free_buf {A} E (x : result A) (a : result (A * nat)) E' :
  handed KBuf E x a E' -> does ok E' (free_buf a) (Done tt) (same E).
Proof.
  destruct x as [v|e], a as [[w h]|e']; intros Hx; try destruct Hx; cbn [free_buf].
  - destruct H0 as [Hh ->]. eapply does_conseq; [|apply does_release; held_lookup].
    intros [] [] ? ->. split; [done|held_eq].
  - subst. by apply does_ret.
Qed.

(** With something more held for a while. *)
Lemma handed_insert {A} k E (x : result A) a h k' E' :
  handed k (<[h := k']> E) x a E' -> E !! h = None ->
  E' !! h = Some k' /\ handed k E x a (delete h E').
Proof.
  destruct x as [v|e], a as [[w g]|e']; cbn; try done.
  - intros (-> & Hg & ->) Hh. split; [|split_and!]; try done; try held_lookup. held_eq.
  - intros [-> ->] Hh. split; [held_lookup|]. split; [done|held_eq].
Qed.

Lemma does_run_capture E c : (ok -> reaped c) ->
  does ok E (r_run_capture c) (Done (run_capture c)) (handed KBuf E).
Proof.
  intros Hw. unfold r_run_capture, run_capture, reaped in *.
  destruct (cap_pipe c) as [|e]; [|by apply does_ret]. cbn [mbind result_bind].
  takes p0. takes p1.
  destruct (cap_fork c) as [|e]; [|gives; gives; apply does_ret; split; [done|held_eq]].
  takes pid. gives.
  eapply does_step; [apply (does_read_all_fd _ _ _ (cap_alloc c))|]. intros rc E' Hrc.
  replace (delete p1 _) with (<[pid := KChild]> (<[p0 := KFd]> E)) in Hrc by held_eq.
  apply handed_insert in Hrc as [Hpid Hrc]; [|held_lookup].
  apply handed_insert in Hrc as [Hp0 Hrc]; [|held_lookup].
  gives.
  destruct (cap_wait c) as [e|status].
  - eapply does_step; [apply does_abandon; [tauto|held_lookup]|]. intros ? ? ->.
    rewrite delete_delete in Hrc. eapply does_step; [by eapply does_free_buf|].
    intros ? ? [_ ->]. by apply does_ret.
  - gives. rewrite delete_delete in Hrc.
    destruct (read_all_fd _ _ _) as [v|e], rc as [[w h]|e']; try done.
    + destruct Hrc as (-> & Hh & Hrc). rewrite Hrc.
      destruct (exited_ok status) eqn:Es; unfold exited_ok in Es.
      * destruct status as [code| |]; [|done..]. rewrite Es. by apply does_ret.
      * cbn [free_buf]. gives.
        destruct status as [code| |]; [rewrite Es|..];
          (apply does_ret; split; [done|held_eq]).
    + destruct Hrc as [-> Hrc]. rewrite Hrc.
      eapply does_step; [apply (does_ret _ _ tt _ (same E)); done|]. intros ? ? [_ ->].
      by apply does_ret.
Qed.

(** [x ← f; k] where [f] gives back what it takes. *)
Ltac calls H := eapply does_step; [apply H|]; intros ? ? [-> ->].

Lemma does_db_load_live E m db uci_bin pkg :
  (forall argv, ok -> reaped (popen_r m argv)) ->
  does ok E (r_db_load_live m db uci_bin pkg) (Done (db_load_live m db uci_bin pkg)) (same E).
Proof.
  intros Hm. unfold r_db_load_live, db_load_live.
  eapply does_step; [apply does_run_capture, Hm|]. intros rc E' Hrc. destruct (run_capture _) as [v|e], rc as [[w h]|e']; try done.
  - destruct Hrc as (-> & Hh & ->). gives. ends.
  - destruct Hrc as [-> ->]. ends.
Qed.

Lemma does_load_pkg E m uci_bin path pkg :
  (forall argv, ok -> reaped (popen_r m argv)) ->
  does ok E (r_load_pkg m uci_bin path pkg) (Done (load_pkg m uci_bin path pkg)) (same E).
Proof.
  intros Hm. unfold r_load_pkg, load_pkg. destruct path as [p|]; [|by apply does_db_load_live].
  unfold r_db_load_file, db_load_file. destruct (fopen_r m p) as [bytes|e]; [|ends].
  takes f. eapply does_same; [|apply does_db_load_lines; held_lookup]. held_eq.
Qed.

Lemma does_uci_build E m uci_bin np wp :
  (forall argv, ok -> reaped (popen_r m argv)) ->
  does ok E (r_uci_build_desired_set m uci_bin np wp)
    (Done (uci_build_desired_set m uci_bin np wp)) (same E).
Proof.
  intros Hm. unfold r_uci_build_desired_set, uci_build_desired_set.
  calls (does_load_pkg E m uci_bin np (#"network") Hm).
  destruct (load_pkg _ _ _ _) as [net|e]; [|ends].
  calls (does_load_pkg E m uci_bin wp (#"wireless") Hm).
  destruct (load_pkg _ _ _ _) as [wifi|e]; ends.
Qed.

(** One line of [load_lines]. *)
Lemma load_lines_cons buf eof ls st :
  load_lines ((buf, eof) :: ls) st =
  if negb (bool_decide (LF ∈ c_string buf)) && negb eof then (Err E2BIG, st)
  else match load_line (trim_eol (c_string buf)) st with
       | (Ok _, st) => load_lines ls st
       | (Err e, st) => (Err e, st)
       end.
Proof. cbn [load_lines]. by destruct (_ && _). Qed.

(** The file is closed, and the tree freed unless the load succeeds. *)
Lemma does_load_lines f t ls : forall E o cfg, E !! f = Some KFile -> E !! t = Some KTree ->
  does ok E (r_load_lines f t ls o cfg) (Done (load_lines ls (o, cfg)))
    (fun x a E' => match x with
                   | (Ok _, (_, cfg)) => a = Ok cfg /\ E' = delete f E
                   | (Err e, _) => a = Err e /\ E' = delete t (delete f E)
                   end).
Proof.
  induction ls as [|[buf eof] ls IH]; intros E o cfg Hf Ht; cbn [r_load_lines].
  { gives. by apply does_ret. }
  assert (f <> t) by congruence. rewrite load_lines_cons.
  destruct (_ && _); [gives; gives; by apply does_ret|].
  destruct (load_line _ _) as [[[]|e] [o' cfg']]; [by apply IH|].
  gives. gives. by apply does_ret.
Qed.

Lemma does_cfg_load E o file :
  does ok E (r_cfg_load o file) (Done (fst (cfg_load o file))) (handed KTree E).
Proof.
  unfold r_cfg_load, cfg_load. takes t.
  destruct file as [bytes|e]; [|gives; apply does_ret; split; [done|held_eq]].
  takes f. eapply does_step; [apply does_load_lines; held_lookup|]. intros rc E' Hrc.
  destruct (load_lines _ _) as [[[]|e] [o' cfg']]; cbn in Hrc; destruct Hrc as [-> ->];
    apply does_ret; [split_and!|split]; try done; held_eq.
Qed.

(** The loop frees the tree only when it gives up. *)
Lemma does_states_loop t its : forall E set, E !! t = Some KTree ->
  does ok E (r_states_loop t its set) (Done (states_loop its set))
    (fun x a E' => a = x /\ E' = if is_ok x then E else delete t E).
Proof.
  induction its as [|it its IH]; intros E set Ht; cbn [r_states_loop states_loop];
    [by apply does_ret|].
  case_match; [gives; by apply does_ret|]. case_match; [gives; by apply does_ret|].
  destruct (load_state it) as [ds|e]; [by apply IH|]. gives. by apply does_ret.
Qed.

Lemma does_load_set E root t : E !! t = Some KTree ->
  does ok E (r_load_set root t) (Done (load_set root)) (same (delete t E)).
Proof.
  intros Ht. unfold r_load_set, load_set.
  destruct (cfg_child root (#"scenario")) as [sc|]; [gives; ends|].
  destruct (cfg_child root (#"state")) as [states|]; [|gives; ends].
  case_match; [gives; ends|]. eapply does_step; [by apply does_states_loop|].
  intros ? ? [-> ->]. destruct (states_loop _ _) as [set|e]; cbn [is_ok]; [|ends].
  cbn [mbind result_bind]. case_match; gives; ends.
Qed.

Lemma does_yaml_load E o file :
  does ok E (r_yaml_load_desired_set o file) (Done (yaml_load_desired_set o file)) (same E).
Proof.
  eapply does_step; [apply (does_cfg_load E o file)|]. intros rc E' Hrc.
  unfold yaml_load_desired_set.
  destruct (fst (cfg_load o file)) as [v|e], rc as [[w t]|e']; try done.
  - destruct Hrc as (-> & Ht & ->). eapply does_same; [|apply does_load_set; held_lookup].
    held_eq.
  - destruct Hrc as [-> ->]. ends.
Qed.

Lemma does_uci_load E m uci_bin np wp mk fo ro io o mem :
  (forall argv, ok -> reaped (popen_r m argv)) ->
  does ok E (r_uci_load_desired_set m uci_bin np wp mk fo ro io o mem)
    (Done (uci_load_desired_set m uci_bin np wp mk fo ro io o mem)) (same E).
Proof.
  intros Hm. unfold r_uci_load_desired_set, uci_load_desired_set.
  destruct mk as [[]|e]; [|ends]. cbn [mbind result_bind]. takes fd. takes tmp.
  destruct fo as [[]|e]; [|gives; gives; ends].
  eapply does_step; [apply does_become; held_lookup|]. intros ? ? ->.
  eapply does_step; [by apply does_uci_build|]. intros ? ? [-> ->].
  destruct (match uci_build_desired_set _ _ _ _ with Ok _ => _ | Err _ => _ end)
    as [rc [o' f]].
  eapply (does_step _ _ _ _ tt _ (fun _ a E' => a = fst (close_out io rc o') /\
    E' = <[tmp := KName]> E)).
  { unfold r_close_out. gives. apply does_ret. split; [done|held_eq]. }
  intros ? ? [-> ->]. destruct (close_out io rc o') as [[[]|e] o'']; cbn [fst].
  - eapply does_step; [apply does_yaml_load|]. intros ? ? [-> ->]. gives. ends.
  - gives. ends.
Qed.

(** ** The snapshot *)

Context `{Uapi}.

Lemma does_nl_open E c :
  does ok E (r_nl_open c) (Done (nl_open c))
    (fun x a E' => match a with
                   | Err e => x = neg e /\ E' = E
                   | Ok h => x = 0%Z /\ E !! h = None /\ E' = <[h := KFd]> E
                   end).
Proof.
  unfold r_nl_open, nl_open. destruct (c_socket c) as [[]|e]; [|by apply does_ret].
  takes fd. destruct (c_bind c) as [[]|e]; [by apply does_ret|].
  gives. apply does_ret. split; [done|held_eq].
Qed.

(** [x ← run; k]: what [run] does to the state is in the model of netlink.c. *)
Ltac runs := eapply does_bind; [apply does_outcome|]; intros ? ? ? [-> ->].

Lemma does_nl_load_state E c msg :
  does ok E (r_nl_load_state c msg) (nl_load_state c msg) (same E).
Proof.
  unfold r_nl_load_state, nl_load_state. cbv zeta.
  eapply does_step; [apply does_nl_open|]. intros [fd|e] E' HE.
  - destruct HE as (-> & Hfd & ->). cbn [Z.ltb Z.compare].
    runs. destruct x as [[rc s] inbox]. case_match; [gives; ends|].
    runs. destruct x as [[rc' s'] inbox']. case_match; [gives; ends|].
    runs. destruct x as [[rc2 s2] inbox2]. gives. ends.
  - destruct HE as [-> ->]. change (neg e <? 0)%Z with true. ends.
Qed.

Lemma does_resolv_loop f ls : forall E dns, E !! f = Some KFile ->
  does ok E (r_resolv_loop f dns ls) (Done (resolv_loop dns ls)) (same (delete f E)).
Proof.
  induction ls as [|[buf eof] ls IH]; intros E dns Hf; cbn [r_resolv_loop resolv_loop].
  { gives. ends. }
  destruct (resolv_addr _) as [a|]; [|by apply IH].
  case_match; [gives; ends|by apply IH].
Qed.

Lemma does_resolv_conf E rs file :
  does ok E (r_rs_load_resolv_conf rs file) (Done (rs_load_resolv_conf rs file)) (same E).
Proof.
  unfold r_rs_load_resolv_conf, rs_load_resolv_conf. destruct file as [bytes|]; [|ends].
  takes f. eapply does_step; [apply does_resolv_loop; held_lookup|].
  intros ? ? [-> ->]. ends.
Qed.

(** ** The run *)

Context `{Libc} `{Host}.

Lemma does_load_real E s : does ok E (r_load_real s) (load_real s) (same E).
Proof.
  unfold r_load_real, load_real.
  eapply does_bind; [apply does_nl_load_state|]. intros [rc n] ? ? [-> ->].
  case_match; [ends|]. calls does_resolv_conf.
  destruct (rs_load_resolv_conf _ _) as [rs|e]; ends.
Qed.

Lemma does_run_verify_set E set apply act_fail s :
  does ok E (r_run_verify_set set apply act_fail s) (run_verify_set set apply act_fail s) (same E).
Proof.
  unfold r_run_verify_set, run_verify_set.
  eapply does_bind; [apply does_load_real|]. intros [[rc rs] s'] ? ? [-> ->].
  case_match; ends.
Qed.

Lemma does_load_desired_set E cfg w :
  (forall argv, ok -> reaped (popen_r (h_fs w) argv)) ->
  does ok E (r_load_desired_set cfg w) (Done (load_desired_set cfg w)) (same E).
Proof.
  intros Hw. unfold r_load_desired_set, load_desired_set.
  case_match; [case_match; [apply does_yaml_load|ends]|].
  case_match; [by apply does_uci_load|ends].
Qed.

(** The descriptor of the lock, or -1. *)
Definition lock_of (lock_fd : option nat) : Z :=
  match lock_fd with Some _ => 0%Z | None => (-1)%Z end.

(** What is held besides it. *)
Definition unlocked (lock_fd : option nat) (E : gmap nat kind) : gmap nat kind :=
  match lock_fd with Some fd => delete fd E | None => E end.

Lemma does_close_lock E lock_fd s : (forall fd, lock_fd = Some fd -> E !! fd = Some KFd) ->
  does ok E (r_close_lock lock_fd s) (Done (close_lock (lock_of lock_fd) s))
    (same (unlocked lock_fd E)).
Proof.
  intros Hl. destruct lock_fd as [fd|]; cbn [r_close_lock unlocked]; [|ends].
  specialize (Hl fd eq_refl). gives. ends.
Qed.

Lemma does_run_locked E set apply lock_fd s :
  (forall fd, lock_fd = Some fd -> E !! fd = Some KFd) ->
  does ok E (r_run_locked set apply lock_fd s) (run_locked set apply (lock_of lock_fd) s)
    (same (unlocked lock_fd E)).
Proof.
  intros Hl. unfold r_run_locked, run_locked.
  eapply does_bind; [apply does_run_verify_set|]. intros [[diff af] s'] ? ? [-> ->].
  repeat (case_match; [eapply does_step; [by apply does_close_lock|]; intros ? ? [-> ->]; ends|]).
  eapply does_bind; [apply does_run_verify_set|]. intros [[diff' af'] s2] ? ? [-> ->].
  eapply does_step; [by apply does_close_lock|]. intros ? ? [-> ->].
  repeat case_match; ends.
Qed.

Lemma does_apply_lock E s :
  does ok E (r_apply_lock s) (Done (apply_lock s))
    (fun x a E' => a.2 = x.2 /\
       match a.1 with
       | Err e => x.1 = neg e /\ E' = E
       | Ok fd => x.1 = 0%Z /\ E !! fd = None /\ E' = <[fd := KFd]> E
       end).
Proof.
  unfold r_apply_lock, apply_lock. destruct (h_lock (r_world s)) as [[[]|e] got];
    [|by apply does_ret].
  takes fd. destruct got; [by apply does_ret|].
  gives. apply does_ret. cbn. split_and!; [done..|held_eq].
Qed.

Lemma does_run_once E cfg s :
  (forall argv, ok -> reaped (popen_r (h_fs (r_world s)) argv)) ->
  does ok E (r_netrec_run_once cfg s) (netrec_run_once cfg s) (same E).
Proof.
  intros Hw. unfold r_netrec_run_once, netrec_run_once.
  eapply does_step; [by apply does_load_desired_set|]. intros ? ? [-> ->].
  destruct (load_desired_set _ _) as [set|e]; [|ends].
  destruct (run_apply cfg); [|by apply (does_run_locked E set false None)].
  eapply does_step; [apply does_apply_lock|]. intros [fd s'] E' HE.
  destruct (apply_lock s) as [lock s2]. cbn in HE. destruct HE as [-> HE].
  destruct fd as [fd|e].
  - destruct HE as (-> & Hfd & ->). cbn [Z.ltb Z.compare].
    eapply does_same; [|apply (does_run_locked _ set true (Some fd))].
    + cbn [unlocked]. held_eq.
    + intros ? [= <-]. held_lookup.
  - destruct HE as [-> ->]. change (neg e <? 0)%Z with true. ends.
Qed.

End Functions.

(** ** What a run gives back *)

Section Balance.
Context `{Libc} `{Uapi} `{Host}.

(** C14: On every path through a run, however its calls fail, every descriptor,
    stream, buffer, tree and temporary file that it took is given back exactly
    once; what the process held before is held at the end
    and untouched; and the run ends as the model without resources does.  A
    child whose output it reads is left unreaped only where [waitpid] fails. *)
Theorem run_resources (cfg : netrec_run_cfg) (s : rst) (r : held) :
  match netrec_run_once cfg s with
  | Done res => exists z,
      r_netrec_run_once cfg s r = Some (Done (res, Held (live r) (zombies r + z))) /\
      ((forall argv, reaped (popen_r (h_fs (r_world s)) argv)) -> z = 0)
  | Blocked => r_netrec_run_once cfg s r = Some Blocked
  | Fault e => r_netrec_run_once cfg s r = Some (Fault e)
  end.
Proof.
  pose proof (does_run_once (forall argv, reaped (popen_r (h_fs (r_world s)) argv)) ∅ cfg s
    (fun argv Hall => Hall argv) (live r) (zombies r) (map_disjoint_empty_l _)) as Hd.
  rewrite map_empty_union in Hd. destruct r as [E n]. cbn [live zombies] in *.
  destruct (netrec_run_once cfg s) as [res| |e]; [|done..].
  destruct Hd as (a & E' & z & Hr & _ & Hz & -> & ->). exists z.
  by rewrite map_empty_union in Hr.
Qed.

End Balance.

(** ** Samples *)

(** A signal that interrupts the wait leaves the child to nobody: the function
    does not try again. *)
Example capture_interrupted :
  r_run_capture (Capture (Ok tt) (Ok tt) [] [] [] (inl (E_OS 4))) (Held ∅ 0) =
  Some (Done (Err (E_OS 4), Held ∅ 1)).
Proof. vm_compute. reflexivity. Qed.

(** A pipe whose process cannot be started is closed on both ends. *)
Example capture_no_fork :
  r_run_capture (Capture (Ok tt) (Err EAGAIN) [] [] [] (inl (E_OS 4))) (Held ∅ 0) =
  Some (Done (Err EAGAIN, Held ∅ 0)).
Proof. vm_compute. reflexivity. Qed.
