(* ===== verification/Main.v ===== *)
(** The command line of main.c: from the arguments to a run, the daemon or the
    usage message, and the exit status. *)
From S2P Require Import Prelude CLib State Yaml Verify UciDb UciExport Netlink NetlinkSpec Run Watch.

(** ** Arguments *)

(** The variables of [main] that the options set. *)
Record args := Args {
  a_cfg : option cstr;
  a_debounce_s : option cstr;
  a_source : cstr;
  a_uci_bin : cstr;
  a_uci_network : option cstr;
  a_uci_wireless : option cstr;
  a_apply : bool;
  a_watch : bool
}.

#[export] Instance args_eta : Eta args := fun a =>
  Args (a_cfg a) (a_debounce_s a) (a_source a) (a_uci_bin a) (a_uci_network a)
    (a_uci_wireless a) (a_apply a) (a_watch a).

Definition args_default : args :=
  Args None None (#"yaml") (#"uci") None None false false.

(** An option with a value, [i + 1 < argc]. *)
Definition set_option (opt : cstr) (val : cstr) (a : args) : option args :=
  if streq opt (#"-c") then Some (a <| a_cfg := Some val |>)
  else if streq opt (#"--debounce-ms") then Some (a <| a_debounce_s := Some val |>)
  else if streq opt (#"--source") then Some (a <| a_source := val |>)
  else if streq opt (#"--uci-bin") then Some (a <| a_uci_bin := val |>)
  else if streq opt (#"--uci-network") then Some (a <| a_uci_network := Some val |>)
  else if streq opt (#"--uci-wireless") then Some (a <| a_uci_wireless := Some val |>)
  else None.

(** The loop over [argv[1 ...]]; [None] is the usage message. *)
Fixpoint parse_args (argv : list cstr) (a : args) : option args :=
  match argv with
  | [] => Some a
  | opt :: argv' =>
    if streq opt (#"-a") || streq opt (#"--apply") then
      parse_args argv' (a <| a_apply := true |>)
    else if streq opt (#"-w") || streq opt (#"--watch") || streq opt (#"--daemon") then
      parse_args argv' (a <| a_watch := true |>)
    else match argv' with
         | [] => None
         | val :: argv'' =>
           match set_option opt val a with
           | Some a => parse_args argv'' a
           | None => None
           end
         end
  end.

(** [(int)strtol(s, &end, 10)] and its tests. *)
Definition parse_debounce (s : cstr) : option Z :=
  let r := strtol10 s in
  let ms := to_int (sto_val r mod 2 ^ 32) in
  if bool_decide (s = []) || negb (bool_decide (sto_rest r = [])) || (ms <? 0)%Z then None
  else Some ms.

(** What [main] goes on to do. *)
Inductive action :=
| Usage
| Once (run : netrec_run_cfg)
| Daemon (run : netrec_run_cfg) (debounce_ms : Z).

Definition is_some {A} (o : option A) : bool := match o with Some _ => true | None => false end.

Definition main_action (argv : list cstr) : action :=
  match parse_args argv args_default with
  | None => Usage
  | Some a =>
    if streq (a_source a) (#"yaml") && negb (is_some (a_cfg a)) then Usage
    else if negb (streq (a_source a) (#"yaml")) && negb (streq (a_source a) (#"uci"))
    then Usage
    else if streq (a_source a) (#"uci")
            && negb (Bool.eqb (is_some (a_uci_network a)) (is_some (a_uci_wireless a)))
    then Usage
    else
      let run := RunCfg (a_cfg a) (a_source a) (Some (a_uci_bin a)) (a_uci_network a)
                   (a_uci_wireless a) (a_apply a) in
      match a_debounce_s a with
      | None => if a_watch a then Daemon run (-1) else Once run
      | Some s =>
        match parse_debounce s with
        | None => Usage
        | Some ms => if a_watch a then Daemon run ms else Once run
        end
      end
  end.

(** The exit status, and the machine the program leaves. *)
Inductive main_exit `{Libc} `{Uapi} `{Host} `{Pipe} (e : watch_env) (argv : list cstr) (now : Z)
    (s : rst) : Z -> Prop :=
| exit_usage : main_action argv = Usage -> main_exit e argv now s 2
| exit_once run rc s' :
    main_action argv = Once run -> netrec_run_once run s = Done (rc, s') ->
    main_exit e argv now s (if (rc =? 0)%Z then 0 else 1)
| exit_daemon run ms rc :
    main_action argv = Daemon run ms -> netrec_watch_main e run ms now s rc ->
    main_exit e argv now s rc.

(** ** Specification *)

(** A run whose source can be loaded as far as the arguments go. *)
Definition run_valid (run : netrec_run_cfg) : Prop :=
  (run_source run = #"yaml" /\ run_cfg_path run <> None) \/
  (run_source run = #"uci" /\
   (run_uci_network run <> None <-> run_uci_wireless run <> None)).

(** The arguments that spell settings. *)
Definition flag (b : bool) (opt : string) : list cstr := if b then [lit opt] else [].
Definition value (o : option cstr) (opt : string) : list cstr :=
  match o with Some v => [lit opt; v] | None => [] end.

Definition render (a : args) : list cstr :=
  flag (a_apply a) "-a" ++ flag (a_watch a) "-w" ++ value (a_cfg a) "-c" ++
  value (a_debounce_s a) "--debounce-ms" ++ value (Some (a_source a)) "--source" ++
  value (Some (a_uci_bin a)) "--uci-bin" ++ value (a_uci_network a) "--uci-network" ++
  value (a_uci_wireless a) "--uci-wireless".

(** ** Lemmas *)

Lemma parse_flag_a b rest a :
  parse_args (flag b "-a" ++ rest) a =
  parse_args rest (if b then a <| a_apply := true |> else a).
Proof. by destruct b. Qed.

Lemma parse_flag_w b rest a :
  parse_args (flag b "-w" ++ rest) a =
  parse_args rest (if b then a <| a_watch := true |> else a).
Proof. by destruct b. Qed.

Lemma parse_value o opt rest a f :
  streq (lit opt) (#"-a") || streq (lit opt) (#"--apply") = false ->
  streq (lit opt) (#"-w") || streq (lit opt) (#"--watch") || streq (lit opt) (#"--daemon") = false ->
  (forall v, set_option (lit opt) v a = Some (f v)) ->
  parse_args (value o opt ++ rest) a =
  parse_args rest (match o with Some v => f v | None => a end).
Proof.
  intros E1 E2 Hf. destruct o as [v|]; [|done]. cbn [value app parse_args].
  by rewrite E1, E2, Hf.
Qed.

(** ** Properties *)

(** C38: every setting can be given on the command line: the arguments that
    spell it are parsed back to it. *)
Theorem args_roundtrip (a : args) : parse_args (render a) args_default = Some a.
Proof.
  unfold render. rewrite parse_flag_a, parse_flag_w.
  rewrite (parse_value _ "-c" _ _ (fun v => _)) by reflexivity.
  rewrite (parse_value _ "--debounce-ms" _ _ (fun v => _)) by reflexivity.
  rewrite (parse_value _ "--source" _ _ (fun v => _)) by reflexivity.
  rewrite (parse_value _ "--uci-bin" _ _ (fun v => _)) by reflexivity.
  rewrite (parse_value _ "--uci-network" _ _ (fun v => _)) by reflexivity.
  rewrite <- (app_nil_r (value _ "--uci-wireless")).
  rewrite (parse_value _ "--uci-wireless" _ _ (fun v => _)) by reflexivity.
  destruct a as [[c|] [d|] s b [n|] [w|] [] []]; reflexivity.
Qed.

Lemma is_some_iff {A B} (a : option A) (b : option B) :
  Bool.eqb (is_some a) (is_some b) = true <-> (a <> None <-> b <> None).
Proof. destruct a, b; cbn; naive_solver. Qed.

(** C39: whatever the arguments, a run or daemon is only started for a source
    the loader knows, with the paths that source needs, and a debounce time
    that is non-negative or the default. *)
Theorem main_starts_valid (argv : list cstr) :
  match main_action argv with
  | Usage => True
  | Once run => run_valid run
  | Daemon run ms => run_valid run /\ (-1 <= ms <= INT_MAX)%Z
  end.
Proof.
  unfold main_action. destruct (parse_args argv args_default) as [a|]; [|done].
  destruct (_ && negb (is_some (a_cfg a))) eqn:E1; [done|].
  destruct (negb (streq (a_source a) (#"yaml")) && _) eqn:E2; [done|].
  destruct (streq (a_source a) (#"uci") && _) eqn:E3; [done|].
  set (run := RunCfg _ _ _ _ _ _).
  assert (Hv : run_valid run).
  { unfold run_valid. cbn. destruct (streq (a_source a) (#"yaml")) eqn:Ey.
    - left. breflect. split; [done|]. by destruct (a_cfg a).
    - right. cbn in E2. apply negb_false_iff in E2. rewrite E2 in E3. cbn in E3.
      breflect. split; [done|]. by apply is_some_iff. }
  assert (Hd : forall s ms, parse_debounce s = Some ms -> (-1 <= ms <= INT_MAX)%Z).
  { intros s ms. unfold parse_debounce. destruct (_ || _) eqn:E; [done|]. intros [= <-].
    apply orb_false_iff in E as [_ E]. apply Z.ltb_ge in E. split; [lia|].
    apply to_int_range. pose proof (Z.mod_pos_bound (sto_val (strtol10 s)) (2 ^ 32)).
    unfold is_u32, UINT32_MAX. lia. }
  destruct (a_debounce_s a) as [s|].
  - destruct (parse_debounce s) as [ms|] eqn:Es; [|done]. apply Hd in Es.
    by destruct (a_watch a).
  - destruct (a_watch a); [|done]. split; [done|]. unfold INT_MAX. lia.
Qed.

(** A debounce time is cut to 32 bits before it is tested: 2^32 ms are taken
    as 0 instead of being refused. *)
Example debounce_wraps : parse_debounce (#"4294967296") = Some 0%Z.
Proof. reflexivity. Qed.

(** A valid run never fails for its arguments: loading it is loading the file
    or the UCI packages it names. *)
Lemma run_valid_loads `{Libc} `{Uapi} `{Host} (run : netrec_run_cfg) (w : world) :
  run_valid run ->
  (exists path, run_cfg_path run = Some path /\
     load_desired_set run w = yaml_load_desired_set (h_mem w) (fopen_r (h_fs w) path)) \/
  load_desired_set run w =
    let t := h_tmp w in
    uci_load_desired_set (h_fs w) (run_uci_bin run) (run_uci_network run)
      (run_uci_wireless run) (tmp_mkstemp t) (tmp_fdopen t) (tmp_reopen t) (tmp_io t)
      (tmp_writes t) (h_mem w).
Proof.
  unfold load_desired_set. intros [[-> Hp]|[-> _]].
  - left. destruct (run_cfg_path run) as [path|]; [|done]. exists path. by rewrite streq_refl.
  - right. assert (streq (#"uci") (#"yaml") = false) as -> by reflexivity.
    by rewrite streq_refl.
Qed.
